(** * Battery-swap station network simulator: model and verified properties

    A shallow embedding of the simulation core of the DES-TWIN backend:
    [app/schemas/sim_config.py], [app/simulation/assets.py],
    [app/simulation/engine.py] and the part of [app/data_loader.py] the
    engine reads.

    Conventions of the embedding.
    - Python [float] quantities (state of charge, power, simulated time,
      rates) are exact rationals [Q]; simulated time is kept in lowest
      terms ([Qred]) so that equal instants are equal terms.
    - Python [int] fields are [Z].
    - A Python [dict] whose iteration order the program relies on is an
      association list in insertion order.
    - SimPy's environment is an agenda of pending events ordered by
      (time, priority, insertion order); a generator-based process is the
      sequence of its code segments between two [yield]s. *)

From Stdlib Require Import ZArith QArith Qround Qminmax List String Ascii Bool Lia.
From Stdlib Require Import Permutation Sorted Lqa.
Import ListNotations.
Open Scope Q_scope.

(** ** Python arithmetic helpers *)

Definition Qltb (a b : Q) : bool := negb (Qle_bool b a).

(** [max(a, b)] and [min(a, b)] of Python on numbers. *)
Definition py_max (a b : Q) : Q := if Qltb a b then b else a.
Definition py_min (a b : Q) : Q := if Qltb b a then b else a.

(** [int(x)]: truncation toward zero. *)
Definition py_int (x : Q) : Z := Z.quot (Qnum x) (Z.pos (Qden x)).

(** ** Schemas ([app/schemas/sim_config.py]) *)

Inductive EventType :=
| VEHICLE_ARRIVAL | SWAP_START | SWAP_COMPLETE | LOST_SWAP
| CHARGE_START | CHARGE_COMPLETE | QUEUE_UPDATE | STATION_STOCKOUT
| GRID_LIMIT_HIT.

Inductive InterventionType :=
| ADD_STATION | REMOVE_STATION | MODIFY_CHARGERS | MODIFY_INVENTORY
| DEMAND_MULTIPLIER | POLICY_CHANGE | INJECT_FAULT.

Record Location := mkLocation { lat : Q; lon : Q }.

Record BatteryConfig := mkBatteryConfig {
  bc_capacity_kwh : Q;
  bc_min_swap_soc : Q;
  bc_max_soc : Q;
  bc_degradation_factor : Q
}.

Definition default_BatteryConfig : BatteryConfig :=
  mkBatteryConfig 5 95 100 (1 # 10000).

Record StationConfig := mkStationConfig {
  sc_id : string;
  sc_name : string;
  sc_location : Location;
  total_batteries : Z;
  charger_count : Z;
  charge_power_kw : Q;
  swap_time_seconds : Z;
  grid_power_limit_kw : option Q;
  cooldown_seconds : Z;
  battery_config : BatteryConfig;
  sc_type : string;
  sc_status : string
}.

Definition set_charger_count (c : StationConfig) (v : Z) : StationConfig :=
  mkStationConfig (sc_id c) (sc_name c) (sc_location c) (total_batteries c) v
    (charge_power_kw c) (swap_time_seconds c) (grid_power_limit_kw c)
    (cooldown_seconds c) (battery_config c) (sc_type c) (sc_status c).

Definition set_total_batteries (c : StationConfig) (v : Z) : StationConfig :=
  mkStationConfig (sc_id c) (sc_name c) (sc_location c) v (charger_count c)
    (charge_power_kw c) (swap_time_seconds c) (grid_power_limit_kw c)
    (cooldown_seconds c) (battery_config c) (sc_type c) (sc_status c).

(** ** Battery ([app/simulation/assets.py]) *)

Inductive BatteryStatus := AVAILABLE | CHARGING | COOLING | DEPLETED | IN_SWAP.

Definition BatteryStatus_eqb (a b : BatteryStatus) : bool :=
  match a, b with
  | AVAILABLE, AVAILABLE | CHARGING, CHARGING | COOLING, COOLING
  | DEPLETED, DEPLETED | IN_SWAP, IN_SWAP => true
  | _, _ => false
  end.

Record Battery := mkBattery {
  battery_id : string;
  soc : Q;
  capacity_kwh : Q;
  min_swap_soc : Q;
  cycle_count : Z;
  health : Q;
  status : BatteryStatus
}.

Definition is_swappable (b : Battery) : bool :=
  Qle_bool (min_swap_soc b) (soc b) && BatteryStatus_eqb (status b) AVAILABLE.

Definition set_status (b : Battery) (s : BatteryStatus) : Battery :=
  mkBattery (battery_id b) (soc b) (capacity_kwh b) (min_swap_soc b)
    (cycle_count b) (health b) s.

Definition deplete (b : Battery) (target_soc : Q) : Battery :=
  mkBattery (battery_id b) (py_max 0 target_soc) (capacity_kwh b)
    (min_swap_soc b) (cycle_count b + 1)%Z (health b) DEPLETED.

Definition set_charging (b : Battery) : Battery := set_status b CHARGING.

Definition complete_charge (b : Battery) (final_soc : Q) : Battery :=
  mkBattery (battery_id b) (py_min 100 final_soc) (capacity_kwh b)
    (min_swap_soc b) (cycle_count b) (health b) AVAILABLE.

(** ** Charge-time curve ([Station._calculate_charge_time]) *)

Definition _calculate_charge_time (config : StationConfig) (battery : Battery) : Q :=
  let current_soc := soc battery in
  let target_soc := 100 in
  let capacity := capacity_kwh battery in
  let power := charge_power_kw config in
  let fast_time :=
    if Qltb current_soc 80
    then ((py_min 80 target_soc - current_soc) / 100 * capacity) / power * 3600
    else 0 in
  let slow_phase_soc := py_max 0 (target_soc - py_max current_soc 80) in
  let slow_time :=
    if Qltb 0 slow_phase_soc
    then (slow_phase_soc / 100 * capacity) / (power * (1 # 2)) * 3600
    else 0 in
  fast_time + slow_time.

(** [Station._calculate_energy_used]. *)
Definition _calculate_energy_used (config : StationConfig) (duration : Q) : Q :=
  let avg_power := charge_power_kw config * (3 # 4) in
  avg_power * (duration / 3600).

(** The two segments as section 4.4.1 of the specification words them. *)
Module SpecChargeCurve.

Definition t_fast (s0 cap p : Q) : Q :=
  if Qltb s0 80 then ((Qmin 80 100 - s0) / 100 * cap) / p * 3600 else 0.

Definition t_slow (s0 cap p : Q) : Q :=
  if Qltb (Qmax s0 80) 100
  then ((100 - Qmax s0 80) / 100 * cap) / ((1 # 2) * p) * 3600
  else 0.

End SpecChargeCurve.

(** ** Initial battery inventory ([Station._initialize_batteries]) *)

(** [f"{i:03d}"]: decimal digits, zero-padded on the left to width 3. *)
Definition digit_char (d : nat) : ascii := ascii_of_nat (48 + d).

Fixpoint decimal_digits (fuel n : nat) (acc : string) : string :=
  match fuel with
  | O => acc
  | S fuel' =>
      let acc' := String (digit_char (n mod 10)) acc in
      if (n / 10 =? 0)%nat then acc' else decimal_digits fuel' (n / 10) acc'
  end.

Definition str_of_nat (n : nat) : string := decimal_digits (S n) n EmptyString.

Fixpoint zero_pad (k : nat) (s : string) : string :=
  match k with
  | O => s
  | S k' => String "0"%char (zero_pad k' s)
  end.

Definition format_03d (i : nat) : string :=
  let s := str_of_nat i in zero_pad (3 - String.length s) s.

Definition battery_name (station_id : string) (i : nat) : string :=
  (station_id ++ "_batt_" ++ format_03d i)%string.

(** The body of the [for i in range(total_batteries)] loop up to the
    construction of the battery. *)
Definition initial_battery (config : StationConfig) (i : nat) : Battery :=
  let bc := battery_config config in
  let '(initial_soc, st) :=
    if (Z.of_nat i <? py_int (inject_Z (total_batteries config) * (8 # 10)))%Z
    then (100, AVAILABLE)
    else
      let s := 50 + inject_Z (Z.of_nat i mod 5) * 10 in
      (s, if Qltb s 95 then CHARGING else AVAILABLE) in
  mkBattery (battery_name (sc_id config) i) initial_soc (bc_capacity_kwh bc)
    (bc_min_swap_soc bc) 0 1 st.

(** Which store a battery is put on. *)
Inductive Placement := ToPool | ToChargeQueue.

Definition placement (b : Battery) : Placement :=
  if is_swappable b then ToPool else ToChargeQueue.

(** The batteries in creation order, each with the store it is put on. *)
Definition _initialize_batteries (config : StationConfig)
  : list (Battery * Placement) :=
  map (fun i => let b := initial_battery config i in (b, placement b))
      (seq 0 (Z.to_nat (total_batteries config))).

Definition placed_on (p : Placement) (l : list (Battery * Placement))
  : list Battery :=
  map fst (filter (fun bp => match snd bp, p with
                             | ToPool, ToPool
                             | ToChargeQueue, ToChargeQueue => true
                             | _, _ => false
                             end) l).

Definition initial_pool (config : StationConfig) : list Battery :=
  placed_on ToPool (_initialize_batteries config).

Definition initial_charge_queue (config : StationConfig) : list Battery :=
  placed_on ToChargeQueue (_initialize_batteries config).

Definition default_StationConfig (sid : string) : StationConfig :=
  mkStationConfig sid "" (mkLocation 0 0) 20 4 60 90 None 60
    default_BatteryConfig "SCENARIO" "ACTIVE".


(** ** Scenario interventions ([Intervention], [_apply_interventions]) *)

(** The values a JSON parameter dictionary ([dict[str, Any]]) can hold. *)
Inductive PyVal :=
| PInt (z : Z)
| PFloat (q : Q)
| PStr (s : string)
| PList (l : list Q).

Record Intervention := mkIntervention {
  iv_type : InterventionType;
  target_station_id : option string;
  parameters : list (string * PyVal)
}.

Record ScenarioConfig := mkScenarioConfig {
  scenario_name : string;
  interventions : list Intervention;
  demand_adjustments : list (Z * Q)
}.

Inductive Error :=
| ValueError (msg : string)
| KeyError (key : string)
| TypeError (msg : string)
| IndexError (msg : string).

Inductive Result (A : Type) :=
| Ok (a : A)
| Raise (e : Error).
Arguments Ok {A} a.
Arguments Raise {A} e.

Definition bind {A B} (r : Result A) (f : A -> Result B) : Result B :=
  match r with
  | Ok a => f a
  | Raise e => Raise e
  end.

Notation "'do' x <- r ; k" := (bind r (fun x => k))
  (at level 10, x name, r at level 100, k at level 200).

(** Python dictionaries keyed by strings, in insertion order. *)
Section Dict.
Context {V : Type}.

Fixpoint dict_get (k : string) (d : list (string * V)) : option V :=
  match d with
  | [] => None
  | (k', v) :: r => if String.eqb k k' then Some v else dict_get k r
  end.

Definition dict_mem (k : string) (d : list (string * V)) : bool :=
  match dict_get k d with Some _ => true | None => false end.

(** [d[k] = v]: an existing key keeps its position. *)
Fixpoint dict_set (k : string) (v : V) (d : list (string * V))
  : list (string * V) :=
  match d with
  | [] => [(k, v)]
  | (k', v') :: r =>
      if String.eqb k k' then (k, v) :: r else (k', v') :: dict_set k v r
  end.

(** [del d[k]]. *)
Fixpoint dict_del (k : string) (d : list (string * V)) : list (string * V) :=
  match d with
  | [] => []
  | (k', v') :: r =>
      if String.eqb k k' then r else (k', v') :: dict_del k r
  end.

Definition dict_values (d : list (string * V)) : list V := map snd d.

(** [d[k]], raising [KeyError] on a missing key. *)
Definition dict_item (k : string) (d : list (string * V)) : Result V :=
  match dict_get k d with
  | Some v => Ok v
  | None => Raise (KeyError k)
  end.
End Dict.

Definition InterventionType_name (t : InterventionType) : string :=
  match t with
  | ADD_STATION => "ADD_STATION"
  | REMOVE_STATION => "REMOVE_STATION"
  | MODIFY_CHARGERS => "MODIFY_CHARGERS"
  | MODIFY_INVENTORY => "MODIFY_INVENTORY"
  | DEMAND_MULTIPLIER => "DEMAND_MULTIPLIER"
  | POLICY_CHANGE => "POLICY_CHANGE"
  | INJECT_FAULT => "INJECT_FAULT"
  end.

(** [f"{self.type}"]: the format of an enumeration member with a [str]
    mix-in is, from Python 3.11 on, that of [Enum.__str__]. *)
Definition InterventionType_str (t : InterventionType) : string :=
  "InterventionType." ++ InterventionType_name t.

Definition required_params (t : InterventionType) : list string :=
  match t with
  | ADD_STATION => ["id"; "location"; "charger_count"; "total_batteries"]
  | REMOVE_STATION => []
  | MODIFY_CHARGERS => ["new_count"]
  | MODIFY_INVENTORY => ["delta"]
  | DEMAND_MULTIPLIER => ["multiplier"]
  | POLICY_CHANGE => ["policy_name"; "new_value"]
  | INJECT_FAULT => ["fault_type"; "duration_seconds"]
  end%string.

Definition needs_target (t : InterventionType) : bool :=
  match t with
  | REMOVE_STATION | MODIFY_CHARGERS | MODIFY_INVENTORY | INJECT_FAULT => true
  | _ => false
  end.

(** Truthiness of an optional string: [None] and the empty string are false. *)
Definition truthy (s : option string) : bool :=
  match s with
  | None => false
  | Some EmptyString => false
  | Some _ => true
  end.

(** [Intervention.validate_intervention_params], the model validator that
    runs when an intervention is constructed from the request. *)
Definition validate_intervention_params (iv : Intervention)
  : Result Intervention :=
  if needs_target (iv_type iv) && negb (truthy (target_station_id iv))
  then Raise (ValueError (InterventionType_str (iv_type iv)
                          ++ " requires target_station_id"))
  else
    match find (fun p => negb (dict_mem p (parameters iv)))
               (required_params (iv_type iv)) with
    | Some p => Raise (ValueError (InterventionType_str (iv_type iv)
                                   ++ " requires parameter: " ++ p))
    | None => Ok iv
    end.

(** Field validation of [StationConfig(...)] as [ADD_STATION] calls it.
    Integer fields take an [int]; float fields take an [int] or a [float]. *)
Definition as_int (field : string) (v : PyVal) : Result Z :=
  match v with
  | PInt z => Ok z
  | _ => Raise (ValueError (field ++ ": not an integer"))
  end.

Definition as_float (field : string) (v : PyVal) : Result Q :=
  match v with
  | PInt z => Ok (inject_Z z)
  | PFloat q => Ok q
  | _ => Raise (ValueError (field ++ ": not a number"))
  end.

Definition as_str (field : string) (v : PyVal) : Result string :=
  match v with
  | PStr s => Ok s
  | _ => Raise (ValueError (field ++ ": not a string"))
  end.

Definition in_range_Z (field : string) (lo hi v : Z) : Result Z :=
  if ((lo <=? v) && (v <=? hi))%Z then Ok v
  else Raise (ValueError (field ++ ": out of range")).

Definition in_range_Q (field : string) (lo hi v : Q) : Result Q :=
  if Qle_bool lo v && Qle_bool v hi then Ok v
  else Raise (ValueError (field ++ ": out of range")).

(** [seq[i]] on a parameter value (a list of numbers). *)
Definition py_index (v : PyVal) (i : nat) : Result PyVal :=
  match v with
  | PList l =>
      match nth_error l i with
      | Some x => Ok (PFloat x)
      | None => Raise (IndexError "list index out of range")
      end
  | _ => Raise (TypeError "object is not subscriptable")
  end.

Definition param_or (k : string) (dflt : PyVal) (params : list (string * PyVal))
  : PyVal :=
  match dict_get k params with Some v => v | None => dflt end.

Definition new_station_of_params (params : list (string * PyVal))
  : Result StationConfig :=
  do pid <- dict_item "id" params;
  do loc <- dict_item "location" params;
  do plat <- py_index loc 0;
  do plon <- py_index loc 1;
  do la <- as_float "lat" plat;
  do la <- in_range_Q "lat" (-90) 90 la;
  do lo <- as_float "lon" plon;
  do lo <- in_range_Q "lon" (-180) 180 lo;
  do sid <- as_str "id" pid;
  do _ <- in_range_Z "id" 1 64 (Z.of_nat (String.length sid));
  do tb <- as_int "total_batteries" (param_or "total_batteries" (PInt 20) params);
  do tb <- in_range_Z "total_batteries" 1 500 tb;
  do cc <- as_int "charger_count" (param_or "charger_count" (PInt 4) params);
  do cc <- in_range_Z "charger_count" 1 50 cc;
  do pw <- as_float "charge_power_kw"
             (param_or "charge_power_kw" (PFloat 60) params);
  do pw <- (if Qltb 0 pw then in_range_Q "charge_power_kw" 0 500 pw
            else Raise (ValueError "charge_power_kw: out of range"));
  do sw <- as_int "swap_time_seconds"
             (param_or "swap_time_seconds" (PInt 90) params);
  do sw <- in_range_Z "swap_time_seconds" 30 600 sw;
  Ok (mkStationConfig sid "" (mkLocation la lo) tb cc pw sw None 60
        default_BatteryConfig "SCENARIO" "ACTIVE").

(** The guard [if target_id and target_id in stations]. *)
Definition target_in (target_id : option string)
    (stations : list (string * StationConfig))
  : option (string * StationConfig) :=
  match target_id with
  | Some t =>
      if truthy target_id then
        match dict_get t stations with
        | Some st => Some (t, st)
        | None => None
        end
      else None
  | None => None
  end.

(** [SimulationOrchestrator._apply_single_intervention].  The assignments
    to [charger_count] and [total_batteries] are plain attribute
    assignments: the model is not validated again.  A parameter that is not
    an [int] is outside this model of the two integer fields. *)
Definition _apply_single_intervention
    (stations : list (string * StationConfig)) (intervention : Intervention)
  : Result (list (string * StationConfig)) :=
  match iv_type intervention with
  | ADD_STATION =>
      do new_station <- new_station_of_params (parameters intervention);
      Ok (dict_set (sc_id new_station) new_station stations)
  | REMOVE_STATION =>
      match target_in (target_station_id intervention) stations with
      | Some (target_id, _) => Ok (dict_del target_id stations)
      | None => Ok stations
      end
  | MODIFY_CHARGERS =>
      match target_in (target_station_id intervention) stations with
      | Some (target_id, st) =>
          do v <- dict_item "new_count" (parameters intervention);
          do new_count <- as_int "new_count" v;
          Ok (dict_set target_id (set_charger_count st new_count) stations)
      | None => Ok stations
      end
  | MODIFY_INVENTORY =>
      match target_in (target_station_id intervention) stations with
      | Some (target_id, st) =>
          do v <- dict_item "delta" (parameters intervention);
          do delta <- as_int "delta" v;
          Ok (dict_set target_id
                (set_total_batteries st (total_batteries st + delta)%Z)
                stations)
      | None => Ok stations
      end
  | DEMAND_MULTIPLIER | POLICY_CHANGE | INJECT_FAULT => Ok stations
  end.

(** [SimulationOrchestrator._apply_interventions]. *)
Definition _apply_interventions (scenario : option ScenarioConfig)
    (base_stations : list StationConfig) : Result (list StationConfig) :=
  match scenario with
  | None => Ok base_stations
  | Some sc =>
      let stations :=
        fold_left (fun d s => dict_set (sc_id s) s d) base_stations [] in
      do stations <-
        fold_left (fun acc iv => do d <- acc; _apply_single_intervention d iv)
                  (interventions sc) (Ok stations);
      Ok (dict_values stations)
  end.

(** ** Simulation configuration and demand *)

Record DemandCurve := mkDemandCurve {
  base_arrivals_per_hour : list Q;
  multipliers : list (Z * Q)
}.

Record CalibrationParams := mkCalibrationParams {
  parking_delay_range : Q * Q;
  charge_efficiency_factor : Q;
  arrival_jitter_std : Q
}.

Record SimulationConfig := mkSimulationConfig {
  duration_days : Z;
  random_seed : Z;
  demand_multiplier : Q;
  stations : list StationConfig;
  demand_curve : DemandCurve;
  calibration : CalibrationParams;
  scenario : option ScenarioConfig
}.

Fixpoint int_dict_get (k : Z) (d : list (Z * Q)) : option Q :=
  match d with
  | [] => None
  | (k', v) :: r => if (k =? k')%Z then Some v else int_dict_get k r
  end.

(** [DemandCurve.get_rate]. *)
Definition get_rate (dc : DemandCurve) (hour : Z) : Q :=
  let base := nth (Z.to_nat (hour mod 24)) (base_arrivals_per_hour dc) 0 in
  let multiplier :=
    match int_dict_get hour (multipliers dc) with
    | Some m => m
    | None => 1
    end in
  base * multiplier.

(** What [load_real_network] finds on disk: the station sheet
    ([Partners.xlsx]) when it exists and can be read, already turned into
    station records, and the mean of the [discharging_time] column of
    [ChargingEvents.xlsx] when that sheet exists and has one. *)
Record RealNetworkData := mkRealNetworkData {
  partners_sheet : option (list StationConfig);
  discharging_time_mean : option Q
}.

(** [load_real_network]: the station list and the mean arrival time in
    minutes.  Without the station sheet it returns [[], 10.0]. *)
Definition load_real_network (data : RealNetworkData)
  : list StationConfig * Q :=
  match partners_sheet data with
  | None => ([], 10)
  | Some rows =>
      (rows, match discharging_time_mean data with
             | Some m => m
             | None => 15
             end)
  end.

(** No real-network data source at all. *)
Definition no_real_network : RealNetworkData := mkRealNetworkData None None.

(** [int((now / 3600) % 24)]. *)
Definition current_hour_of (now : Q) : Z := (Qfloor (now / 3600) mod 24)%Z.

(** The rate computation at the head of each iteration of
    [_vehicle_arrival_generator]: from [current_hour] to [station_rate]. *)
Definition station_rate (mean_arrival_time_min : Q) (config : SimulationConfig)
    (n_stations : nat) (current_hour : Z) : Q :=
  let scenario_adjustments :=
    match scenario config with
    | Some sc => demand_adjustments sc
    | None => []
    end in
  let base_rate :=
    if Qltb 0 mean_arrival_time_min
    then 60 / mean_arrival_time_min
    else get_rate (demand_curve config) current_hour in
  let rate := base_rate * demand_multiplier config in
  let rate :=
    match int_dict_get current_hour scenario_adjustments with
    | Some a => rate * a
    | None => rate
    end in
  if Qltb 0 mean_arrival_time_min then rate
  else if (n_stations =? 0)%nat then rate
       else rate / inject_Z (Z.of_nat n_stations).

(** ** Telemetry events *)

Inductive MetaVal :=
| MStr (s : string)
| MInt (z : Z)
| MNum (q : Q).

(** One entry of [SimulationOrchestrator.events]. *)
Record Event := mkEvent {
  ev_time : Q;
  ev_run_id : string;
  entity_id : string;
  event_type : EventType;
  meta_data : list (string * MetaVal)
}.

(** The arguments of one call of [orchestrator.log_event]. *)
Record LogCall := mkLogCall {
  lc_event_type : EventType;
  lc_entity_id : string;
  lc_meta_data : list (string * MetaVal)
}.

(** ** Station runtime state *)

Record StationStats := mkStationStats {
  total_swaps : Z;
  lost_swaps : Z;
  total_wait_time : Q;
  max_wait_time : Q;
  total_charge_time : Q;
  total_energy_kwh : Q;
  peak_queue_length : Z;
  charger_busy_time : Q
}.

Definition new_StationStats : StationStats := mkStationStats 0 0 0 0 0 0 0 0.

(** A [Station] object.  The three SimPy containers are their contents
    together with the requests parked on them:
    - [chargers] ([simpy.Resource]): the number of granted requests and the
      parked requests, each the charging loop holding a battery;
    - [battery_pool] ([simpy.FilterStore]): the items and the parked
      [get]s, each a vehicle with its arrival time;
    - [charge_queue] ([simpy.Store]): the items and the number of parked
      [get]s of the charging loop. *)
Record Station := mkStation {
  config : StationConfig;
  has_orchestrator : bool;
  stats : StationStats;
  chargers_users : nat;
  chargers_put_queue : list Battery;
  battery_pool : list Battery;
  pool_get_queue : list (string * Q);
  charge_queue : list Battery;
  queue_get_queue : nat;
  current_queue_length : Z;
  active_chargers : Z
}.

Definition set_stats (st : Station) (v : StationStats) : Station :=
  mkStation (config st) (has_orchestrator st) v (chargers_users st)
    (chargers_put_queue st) (battery_pool st) (pool_get_queue st)
    (charge_queue st) (queue_get_queue st) (current_queue_length st)
    (active_chargers st).

Definition set_chargers (st : Station) (users : nat) (parked : list Battery)
  : Station :=
  mkStation (config st) (has_orchestrator st) (stats st) users parked
    (battery_pool st) (pool_get_queue st) (charge_queue st)
    (queue_get_queue st) (current_queue_length st) (active_chargers st).

Definition set_battery_pool (st : Station) (items : list Battery)
    (parked : list (string * Q)) : Station :=
  mkStation (config st) (has_orchestrator st) (stats st) (chargers_users st)
    (chargers_put_queue st) items parked (charge_queue st)
    (queue_get_queue st) (current_queue_length st) (active_chargers st).

Definition set_charge_queue (st : Station) (items : list Battery)
    (parked : nat) : Station :=
  mkStation (config st) (has_orchestrator st) (stats st) (chargers_users st)
    (chargers_put_queue st) (battery_pool st) (pool_get_queue st) items
    parked (current_queue_length st) (active_chargers st).

Definition set_current_queue_length (st : Station) (v : Z) : Station :=
  mkStation (config st) (has_orchestrator st) (stats st) (chargers_users st)
    (chargers_put_queue st) (battery_pool st) (pool_get_queue st)
    (charge_queue st) (queue_get_queue st) v (active_chargers st).

Definition set_active_chargers (st : Station) (v : Z) : Station :=
  mkStation (config st) (has_orchestrator st) (stats st) (chargers_users st)
    (chargers_put_queue st) (battery_pool st) (pool_get_queue st)
    (charge_queue st) (queue_get_queue st) (current_queue_length st) v.

(** ** Pending events of the SimPy environment *)

(** What happens when a pending event is processed: the callbacks of the
    event, which resume the process that yielded it at the named point of
    its generator.  [s] is the index of the station object. *)
Inductive Action :=
(* process start events *)
| InitLoop (s : nat)
| InitGen (s : nat)
| InitVeh (s : nat) (vehicle_id : string)
(* the charging loop *)
| QueueGot (s : nat) (battery : Battery)
| ChargerGranted (s : nat) (battery : Battery)
| CooldownOver (s : nat) (battery : Battery) (charge_start : Q)
| ChargeOver (s : nat) (battery : Battery) (charge_start : Q)
| ChargerReleased (s : nat)
| PoolPut (s : nat) (resume_loop : bool)
(* the swap handler of one vehicle *)
| PoolGot (s : nat) (vehicle_id : string) (arrival_time : Q) (battery : Battery)
| SwapOver (s : nat) (vehicle_id : string) (wait_time : Q) (battery : Battery)
| QueuePut (s : nat) (resume_handler : option (string * Q))
| ProcessDone (result : bool)
(* the arrival generator *)
| GenTick (s : nat)
| GenArrival (s : nat)
(* the [until] event of [env.run] *)
| StopSimulation.

(** Priorities of [simpy.core]. *)
Definition URGENT : nat := 0.
Definition NORMAL : nat := 1.

(** A request to the environment: [env.schedule(event, priority, delay)]. *)
Record Request := mkRequest {
  rq_priority : nat;
  rq_delay : Q;
  rq_action : Action
}.

(** [env.timeout(delay)] yielded by a process that resumes at [k]. *)
Definition timeout (delay : Q) (k : Action) : Request := mkRequest NORMAL delay k.

(** An event that succeeded at once: scheduled now with normal priority. *)
Definition succeed (k : Action) : Request := mkRequest NORMAL 0 k.

(** [env.process(generator)]: the start event is urgent. *)
Definition process (k : Action) : Request := mkRequest URGENT 0 k.

(** The effect of one code segment of a station process. *)
Record Outcome := mkOutcome {
  o_station : Station;
  o_log : list LogCall;
  o_requests : list Request
}.

(** ** Station processes ([app/simulation/assets.py]) *)

(** [Station._log_event]. *)
Definition _log_event (self : Station) (now : Q) (event_type : EventType)
    (entity_id : string) (meta_data : list (string * MetaVal)) : list LogCall :=
  if has_orchestrator self
  then [mkLogCall event_type entity_id
          (("station_id", MStr (sc_id (config self)))
           :: ("sim_time", MNum now) :: meta_data)%string]
  else [].

(** [Station._is_grid_limited]. *)
Definition _is_grid_limited (self : Station) : bool :=
  match grid_power_limit_kw (config self) with
  | None => false
  | Some limit =>
      let current_power :=
        inject_Z (active_chargers self) * charge_power_kw (config self) in
      Qltb limit current_power
  end.

(** [Station.get_available_battery_count]. *)
Definition get_available_battery_count (self : Station) : nat :=
  List.length (filter is_swappable (battery_pool self)).

(** [FilterStore._do_get]: the first item the filter accepts, removed. *)
Fixpoint take_first (f : Battery -> bool) (items : list Battery)
  : option (Battery * list Battery) :=
  match items with
  | [] => None
  | b :: r =>
      if f b then Some (b, r)
      else match take_first f r with
           | Some (x, r') => Some (x, b :: r')
           | None => None
           end
  end.

(** [FilterStore._trigger_get] on the battery pool: every parked [get], in
    order, takes the first swappable item if there is one. *)
Fixpoint pool_trigger_get (s : nat) (items : list Battery)
    (parked : list (string * Q))
  : list Battery * list (string * Q) * list Request :=
  match parked with
  | [] => (items, [], [])
  | (vehicle_id, arrival_time) :: rest =>
      match take_first is_swappable items with
      | Some (b, items') =>
          let '(items'', parked', rq) := pool_trigger_get s items' rest in
          (items'', parked', succeed (PoolGot s vehicle_id arrival_time b) :: rq)
      | None =>
          let '(items'', parked', rq) := pool_trigger_get s items rest in
          (items'', (vehicle_id, arrival_time) :: parked', rq)
      end
  end.

(** [Store._trigger_get] on the charge queue: the first parked [get] takes
    the oldest item. *)
Definition queue_trigger_get (s : nat) (items : list Battery) (parked : nat)
  : list Battery * nat * list Request :=
  match parked, items with
  | S parked', b :: items' => (items', parked', [succeed (QueueGot s b)])
  | _, _ => (items, parked, [])
  end.

(** [Resource._trigger_put] on the chargers: the first parked request is
    granted when a charger is free. *)
Definition chargers_trigger_put (s : nat) (capacity : Z) (users : nat)
    (parked : list Battery) : nat * list Battery * list Request :=
  match parked with
  | b :: parked' =>
      if (Z.of_nat users <? capacity)%Z
      then (S users, parked', [succeed (ChargerGranted s b)])
      else (users, parked, [])
  | [] => (users, parked, [])
  end.

(** *** The background charging loop ([Station._charging_loop]) *)

(** Head of the loop: [battery = yield self.charge_queue.get()]. *)
Definition _charging_loop_get (s : nat) (self : Station) : Outcome :=
  let '(items, parked, rq) :=
    queue_trigger_get s (charge_queue self) (S (queue_get_queue self)) in
  mkOutcome (set_charge_queue self items parked) [] rq.

(** [with self.chargers.request() as charger_request: yield charger_request]. *)
Definition _charging_loop_request (s : nat) (battery : Battery) (self : Station)
  : Outcome :=
  let '(users, parked, rq) :=
    chargers_trigger_put s (charger_count (config self)) (chargers_users self)
      (chargers_put_queue self ++ [battery]) in
  mkOutcome (set_chargers self users parked) [] rq.

(** From [battery.set_charging()] to [yield self.env.timeout(charge_time)]. *)
Definition _charging_loop_charge (s : nat) (now : Q) (battery : Battery)
    (charge_start : Q) (self : Station) : Outcome :=
  let battery := set_charging battery in
  let log := _log_event self now CHARGE_START (battery_id battery)
               [("initial_soc", MNum (soc battery))]%string in
  let charge_time := _calculate_charge_time (config self) battery in
  mkOutcome self log [timeout charge_time (ChargeOver s battery charge_start)].

(** From [charge_start = self.env.now] to the cooldown timeout, or on to
    the charge timeout when there is no cooldown. *)
Definition _charging_loop_granted (s : nat) (now : Q) (battery : Battery)
    (self : Station) : Outcome :=
  let charge_start := now in
  let self := set_active_chargers self (active_chargers self + 1)%Z in
  let log :=
    if _is_grid_limited self
    then _log_event self now GRID_LIMIT_HIT (sc_id (config self))
           [("active_chargers", MInt (active_chargers self))]%string
    else [] in
  if (0 <? cooldown_seconds (config self))%Z then
    let battery := set_status battery COOLING in
    mkOutcome self log
      [timeout (inject_Z (cooldown_seconds (config self)))
         (CooldownOver s battery charge_start)]
  else
    let o := _charging_loop_charge s now battery charge_start self in
    mkOutcome (o_station o) (log ++ o_log o) (o_requests o).

(** From [battery.complete_charge(...)] through the end of the [with]
    block (which releases the charger) to
    [yield self.battery_pool.put(battery)]. *)
Definition _charging_loop_charged (s : nat) (now : Q) (battery : Battery)
    (charge_start : Q) (self : Station) : Outcome :=
  let battery := complete_charge battery 100 in
  let charge_duration := Qred (now - charge_start) in
  let energy_used := Qred (_calculate_energy_used (config self) charge_duration) in
  let st := stats self in
  let self := set_stats self
    (mkStationStats (total_swaps st) (lost_swaps st) (total_wait_time st)
       (max_wait_time st) (Qred (total_charge_time st + charge_duration))
       (Qred (total_energy_kwh st + energy_used)) (peak_queue_length st)
       (Qred (charger_busy_time st + charge_duration))) in
  let log := _log_event self now CHARGE_COMPLETE (battery_id battery)
               [("final_soc", MNum (soc battery));
                ("duration", MNum charge_duration);
                ("energy_kwh", MNum energy_used)]%string in
  let self := set_active_chargers self (active_chargers self - 1)%Z in
  let self := set_chargers self (pred (chargers_users self))
                (chargers_put_queue self) in
  let self := set_battery_pool self (battery_pool self ++ [battery])
                (pool_get_queue self) in
  mkOutcome self log [succeed (ChargerReleased s); succeed (PoolPut s true)].

(** The release event of the chargers is processed. *)
Definition _on_charger_released (s : nat) (self : Station) : Outcome :=
  let '(users, parked, rq) :=
    chargers_trigger_put s (charger_count (config self)) (chargers_users self)
      (chargers_put_queue self) in
  mkOutcome (set_chargers self users parked) [] rq.

(** A [put] event of the battery pool is processed: parked [get]s are
    served, then the charging loop, if it yielded this event, goes back to
    the head of its loop. *)
Definition _on_pool_put (s : nat) (resume_loop : bool) (self : Station)
  : Outcome :=
  let '(items, parked, rq) :=
    pool_trigger_get s (battery_pool self) (pool_get_queue self) in
  let self := set_battery_pool self items parked in
  if resume_loop then
    let o := _charging_loop_get s self in
    mkOutcome (o_station o) (o_log o) (rq ++ o_requests o)
  else mkOutcome self [] rq.

(** *** The swap handler ([Station.handle_vehicle_arrival]) *)

(** From entry to the stockout return or to
    [yield self.battery_pool.get(lambda b: b.is_swappable)]. *)
Definition handle_vehicle_arrival (s : nat) (now : Q) (vehicle_id : string)
    (self : Station) : Outcome :=
  let arrival_time := now in
  let self := set_current_queue_length self (current_queue_length self + 1)%Z in
  let st := stats self in
  let self := set_stats self
    (mkStationStats (total_swaps st) (lost_swaps st) (total_wait_time st)
       (max_wait_time st) (total_charge_time st) (total_energy_kwh st)
       (Z.max (peak_queue_length st) (current_queue_length self))
       (charger_busy_time st)) in
  let log1 := _log_event self now VEHICLE_ARRIVAL vehicle_id
                [("queue_length", MInt (current_queue_length self))]%string in
  let available_count := get_available_battery_count self in
  if (available_count =? 0)%nat then
    let log2 := _log_event self now LOST_SWAP vehicle_id
                  [("reason", MStr "stockout");
                   ("queue_length", MInt (current_queue_length self))]%string in
    let st := stats self in
    let self := set_stats self
      (mkStationStats (total_swaps st) (lost_swaps st + 1)%Z
         (total_wait_time st) (max_wait_time st) (total_charge_time st)
         (total_energy_kwh st) (peak_queue_length st) (charger_busy_time st)) in
    let self := set_current_queue_length self (current_queue_length self - 1)%Z in
    mkOutcome self (log1 ++ log2) [succeed (ProcessDone false)]
  else
    let '(items, parked, rq) :=
      pool_trigger_get s (battery_pool self)
        (pool_get_queue self ++ [(vehicle_id, arrival_time)]) in
    mkOutcome (set_battery_pool self items parked) log1 rq.

(** From the battery received to [yield self.env.timeout(swap_time_seconds)]. *)
Definition handle_vehicle_arrival_got (s : nat) (now : Q) (vehicle_id : string)
    (arrival_time : Q) (charged_battery : Battery) (self : Station) : Outcome :=
  let wait_time := Qred (now - arrival_time) in
  let st := stats self in
  let self := set_stats self
    (mkStationStats (total_swaps st) (lost_swaps st)
       (Qred (total_wait_time st + wait_time))
       (py_max (max_wait_time st) wait_time) (total_charge_time st)
       (total_energy_kwh st) (peak_queue_length st) (charger_busy_time st)) in
  let log := _log_event self now SWAP_START vehicle_id
               [("battery_id", MStr (battery_id charged_battery));
                ("battery_soc", MNum (soc charged_battery));
                ("wait_time", MNum wait_time)]%string in
  let charged_battery := set_status charged_battery IN_SWAP in
  mkOutcome self log
    [timeout (inject_Z (swap_time_seconds (config self)))
       (SwapOver s vehicle_id wait_time charged_battery)].

(** From the end of the swap to [yield self.charge_queue.put(charged_battery)]. *)
Definition handle_vehicle_arrival_swapped (s : nat) (now : Q)
    (vehicle_id : string) (wait_time : Q) (charged_battery : Battery)
    (self : Station) : Outcome :=
  let log := _log_event self now SWAP_COMPLETE vehicle_id
               [("battery_id", MStr (battery_id charged_battery));
                ("duration", MInt (swap_time_seconds (config self)))]%string in
  let charged_battery := deplete charged_battery 20 in
  let self := set_charge_queue self (charge_queue self ++ [charged_battery])
                (queue_get_queue self) in
  mkOutcome self log [succeed (QueuePut s (Some (vehicle_id, wait_time)))].

(** A [put] event of the charge queue is processed: a parked [get] of the
    charging loop is served, then the handler that yielded the event, if
    any, runs to its [return True]. *)
Definition _on_queue_put (s : nat) (resume_handler : option (string * Q))
    (self : Station) : Outcome :=
  let '(items, parked, rq) :=
    queue_trigger_get s (charge_queue self) (queue_get_queue self) in
  let self := set_charge_queue self items parked in
  match resume_handler with
  | Some _ =>
      let st := stats self in
      let self := set_stats self
        (mkStationStats (total_swaps st + 1)%Z (lost_swaps st)
           (total_wait_time st) (max_wait_time st) (total_charge_time st)
           (total_energy_kwh st) (peak_queue_length st) (charger_busy_time st)) in
      let self := set_current_queue_length self (current_queue_length self - 1)%Z in
      mkOutcome self [] (rq ++ [succeed (ProcessDone true)])
  | None => mkOutcome self [] rq
  end.

(** [Station.__init__]: the station and the events its construction
    schedules, in order.  [simpy.Resource] refuses a capacity below 1. *)
Definition new_Station (s : nat) (config : StationConfig) (has_orch : bool)
  : Result (Station * list Request) :=
  if (charger_count config <=? 0)%Z
  then Raise (ValueError "capacity must be > 0.")
  else
    let placed := _initialize_batteries config in
    Ok (mkStation config has_orch new_StationStats 0 [] (placed_on ToPool placed)
          [] (placed_on ToChargeQueue placed) 0 0 0,
        map (fun bp => match snd bp with
                       | ToPool => succeed (PoolPut s false)
                       | ToChargeQueue => succeed (QueuePut s None)
                       end) placed
        ++ [process (InitLoop s)]).

(** ** The orchestrator and the SimPy environment ([engine.py]) *)

(** [numpy.random.Generator] as the engine uses it: a generator state made
    from the seed, and the two draws taken from it.  [exponential(scale)]
    is [scale] times a standard exponential draw and [normal(loc, scale)]
    is [loc + scale] times a standard normal draw. *)
Class NumpyRandom := {
  Generator : Type;
  default_rng : Z -> Generator;
  standard_exponential : Generator -> Q * Generator;
  standard_normal : Generator -> Q * Generator
}.

(** The data of a [SimulationOrchestrator] that does not change during a
    run.  [uuid4 k] is the hexadecimal form of the [k]-th UUID the
    operating system's entropy source gives to this orchestrator: number 0
    is the run id, the following ones are taken by [create_vehicle]. *)
Record Orchestrator := mkOrchestrator {
  orch_config : SimulationConfig;
  uuid4 : nat -> string;
  mean_arrival_time_min : Q;
  orch_stations : list (string * nat)
}.

Definition run_id (o : Orchestrator) : string := uuid4 o 0.

Definition AgendaEntry : Type := Q * nat * Action.

Record World {R : NumpyRandom} := mkWorld {
  now : Q;
  agenda : list AgendaEntry;
  objs : list Station;
  events : list Event;
  _np_rng : Generator;
  uuid_calls : nat;
  failure : option Error
}.
Arguments mkWorld {R} now agenda objs events _np_rng uuid_calls failure.

Section Environment.
Context {R : NumpyRandom}.

Definition set_now (w : World) (t : Q) : World :=
  mkWorld t (agenda w) (objs w) (events w) (_np_rng w) (uuid_calls w) (failure w).

Definition set_agenda (w : World) (a : list AgendaEntry) : World :=
  mkWorld (now w) a (objs w) (events w) (_np_rng w) (uuid_calls w) (failure w).

Definition set_objs (w : World) (l : list Station) : World :=
  mkWorld (now w) (agenda w) l (events w) (_np_rng w) (uuid_calls w) (failure w).

Definition set_events (w : World) (l : list Event) : World :=
  mkWorld (now w) (agenda w) (objs w) l (_np_rng w) (uuid_calls w) (failure w).

Definition set_np_rng (w : World) (g : Generator) : World :=
  mkWorld (now w) (agenda w) (objs w) (events w) g (uuid_calls w) (failure w).

Definition set_uuid_calls (w : World) (n : nat) : World :=
  mkWorld (now w) (agenda w) (objs w) (events w) (_np_rng w) n (failure w).

Definition set_failure (w : World) (e : Error) : World :=
  mkWorld (now w) (agenda w) (objs w) (events w) (_np_rng w) (uuid_calls w)
    (Some e).

(** The heap order of [simpy]: by time, then priority; entries with equal
    keys leave in the order they were scheduled. *)
Definition entry_ltb (a b : AgendaEntry) : bool :=
  let '(ta, pa, _) := a in
  let '(tb, pb, _) := b in
  Qltb ta tb || (Qeq_bool ta tb && (pa <? pb)%nat).

Fixpoint insert_event (e : AgendaEntry) (l : list AgendaEntry)
  : list AgendaEntry :=
  match l with
  | [] => [e]
  | x :: r => if entry_ltb e x then e :: l else x :: insert_event e r
  end.

(** The agenda entry of a request made at time [now]. *)
Definition entry_of (now : Q) (r : Request) : AgendaEntry :=
  (Qred (now + rq_delay r), rq_priority r, rq_action r).

(** [env.schedule]; a negative delay raises [ValueError]. *)
Definition schedule (r : Request) (w : World) : World :=
  if Qltb (rq_delay r) 0
  then set_failure w (ValueError "Negative delay")
  else set_agenda w (insert_event (entry_of (now w) r) (agenda w)).

Definition schedule_all (rqs : list Request) (w : World) : World :=
  fold_left (fun w r => schedule r w) rqs w.

(** The telemetry event of a [log_event] call made at time [now]. *)
Definition event_of (o : Orchestrator) (now : Q) (c : LogCall) : Event :=
  mkEvent now (run_id o) (lc_entity_id c) (lc_event_type c) (lc_meta_data c).

(** [SimulationOrchestrator.log_event]. *)
Definition log_event (o : Orchestrator) (c : LogCall) (w : World) : World :=
  set_events w (events w ++ [event_of o (now w) c]).

Fixpoint list_set {A} (l : list A) (i : nat) (x : A) : list A :=
  match l, i with
  | [], _ => []
  | _ :: r, O => x :: r
  | y :: r, S i' => y :: list_set r i' x
  end.

(** Run one code segment of a process of station [s]. *)
Definition apply_outcome (o : Orchestrator) (s : nat) (out : Outcome)
    (w : World) : World :=
  let w := set_objs w (list_set (objs w) s (o_station out)) in
  let w := fold_left (fun w c => log_event o c w) (o_log out) w in
  schedule_all (o_requests out) w.

Definition on_station (o : Orchestrator) (s : nat) (seg : Station -> Outcome)
    (w : World) : World :=
  match nth_error (objs w) s with
  | Some self => apply_outcome o s (seg self) w
  | None => w
  end.

(** One iteration of [_vehicle_arrival_generator], from the head of the
    [while] loop to its [yield]. *)
Definition _vehicle_arrival_generator (o : Orchestrator) (s : nat) (w : World)
  : World :=
  let current_hour := current_hour_of (now w) in
  let rate := station_rate (mean_arrival_time_min o) (orch_config o)
                (List.length (orch_stations o)) current_hour in
  if Qle_bool rate 0 then schedule (timeout 3600 (GenTick s)) w
  else
    let mean_interval := 3600 / rate in
    let jitter_std := arrival_jitter_std (calibration (orch_config o)) in
    let '(e, g) := standard_exponential (_np_rng w) in
    let interval := mean_interval * e in
    let '(interval, g) :=
      if Qltb 0 jitter_std then
        let '(z, g') := standard_normal g in
        let jitter := 1 + jitter_std * z in
        (interval * py_max (1 # 2) jitter, g')
      else (interval, g) in
    schedule (timeout interval (GenArrival s)) (set_np_rng w g).

(** [create_vehicle]: the identifier is [f"vehicle_{uuid4().hex[:8]}"].
    The urgency it draws from the module-level [random] is stored in the
    vehicle and never read by the engine. *)
Definition create_vehicle (o : Orchestrator) (w : World) : string * World :=
  let k := S (uuid_calls w) in
  (("vehicle_" ++ substring 0 8 (uuid4 o k))%string, set_uuid_calls w k).

(** After the inter-arrival timeout: the vehicle is created, its handler
    is started as a process of its own, and the loop goes round. *)
Definition _vehicle_arrival_generator_arrival (o : Orchestrator) (s : nat)
    (w : World) : World :=
  let '(vehicle_id, w) := create_vehicle o w in
  let w := schedule (process (InitVeh s vehicle_id)) w in
  _vehicle_arrival_generator o s w.

(** The callbacks of a processed event that resume a process of a
    station: the station and the code segment that runs. *)
Definition segment_of (now : Q) (a : Action)
  : option (nat * (Station -> Outcome)) :=
  match a with
  | InitLoop s => Some (s, _charging_loop_get s)
  | QueueGot s b => Some (s, _charging_loop_request s b)
  | ChargerGranted s b => Some (s, _charging_loop_granted s now b)
  | CooldownOver s b t0 => Some (s, _charging_loop_charge s now b t0)
  | ChargeOver s b t0 => Some (s, _charging_loop_charged s now b t0)
  | ChargerReleased s => Some (s, _on_charger_released s)
  | PoolPut s resume => Some (s, _on_pool_put s resume)
  | InitVeh s v => Some (s, handle_vehicle_arrival s now v)
  | PoolGot s v t0 b => Some (s, handle_vehicle_arrival_got s now v t0 b)
  | SwapOver s v wt b => Some (s, handle_vehicle_arrival_swapped s now v wt b)
  | QueuePut s resume => Some (s, _on_queue_put s resume)
  | ProcessDone _ | InitGen _ | GenTick _ | GenArrival _ | StopSimulation => None
  end.

(** The callbacks of a processed event. *)
Definition exec (o : Orchestrator) (a : Action) (w : World) : World :=
  match segment_of (now w) a with
  | Some (s, seg) => on_station o s seg w
  | None =>
      match a with
      | InitGen s | GenTick s => _vehicle_arrival_generator o s w
      | GenArrival s => _vehicle_arrival_generator_arrival o s w
      | _ => w
      end
  end.

(** [env.step()]: the first pending event leaves the agenda, the clock
    moves to its time and its callbacks run.  [None] when the run is over:
    nothing is pending, the [until] event is reached, or a callback raised. *)
Definition step (o : Orchestrator) (w : World) : option World :=
  match failure w, agenda w with
  | Some _, _ => None
  | None, [] => None
  | None, (_, _, StopSimulation) :: _ => None
  | None, (t, _, a) :: rest => Some (exec o a (set_agenda (set_now w t) rest))
  end.

Inductive RunResult :=
| Completed (w : World)
| Crashed (e : Error)
| OutOfFuel (w : World).

(** [env.run(until=...)] once the [until] event is scheduled: step until
    that event is first in the agenda. *)
Fixpoint env_run (o : Orchestrator) (fuel : nat) (w : World) : RunResult :=
  match step o w with
  | Some w' =>
      match fuel with
      | O => OutOfFuel w
      | S fuel' => env_run o fuel' w'
      end
  | None =>
      match failure w, agenda w with
      | Some e, _ => Crashed e
      | None, (t, _, StopSimulation) :: rest =>
          Completed (set_agenda (set_now w t) rest)
      | None, _ => Completed w
      end
  end.

(** [SimulationOrchestrator._initialize_stations] in a fresh environment. *)
Fixpoint _initialize_stations (effective : list StationConfig)
    (objs : list Station) (index : list (string * nat)) (rq : list Request)
  : Result (list Station * list (string * nat) * list Request) :=
  match effective with
  | [] => Ok (objs, index, rq)
  | station_config :: rest =>
      let s := List.length objs in
      do sr <- new_Station s station_config true;
      _initialize_stations rest (objs ++ [fst sr])
        (dict_set (sc_id station_config) s index) (rq ++ snd sr)
  end.

(** [SimulationOrchestrator.__init__]. *)
Definition new_Orchestrator (data : RealNetworkData) (entropy : nat -> string)
    (config : SimulationConfig) : Result (Orchestrator * World) :=
  let '(real_stations, mean) := load_real_network data in
  let base_stations :=
    match real_stations with
    | [] => stations config
    | _ :: _ => real_stations
    end in
  do effective <- _apply_interventions (scenario config) base_stations;
  do built <- _initialize_stations effective [] [] [];
  let '(objs, index, rq) := built in
  let w := mkWorld 0 [] objs [] (default_rng (random_seed config)) 0 None in
  Ok (mkOrchestrator config entropy mean index, schedule_all rq w).

(** The part of [SimulationOrchestrator.run] before [env.run]: the arrival
    generators are started and the [until] event is scheduled. *)
Definition start_run (o : Orchestrator) (w : World) : World :=
  let w := schedule_all
             (map (fun s => process (InitGen s)) (dict_values (orch_stations o)))
             w in
  let duration_seconds := (duration_days (orch_config o) * 24 * 3600)%Z in
  if (duration_seconds <=? 0)%Z
  then set_failure w (ValueError "until must be greater than the current time")
  else schedule (mkRequest URGENT (inject_Z duration_seconds) StopSimulation) w.

(** [SimulationOrchestrator(config).run()], up to the aggregation. *)
Definition run (data : RealNetworkData) (entropy : nat -> string)
    (config : SimulationConfig) (fuel : nat) : Result RunResult :=
  do ow <- new_Orchestrator data entropy config;
  let '(o, w) := ow in
  Ok (env_run o fuel (start_run o w)).

End Environment.

(** ** Notions used to state the properties *)

Section Reachability.
Context {R : NumpyRandom}.

(** The worlds a run passes through, one environment step at a time. *)
Inductive reachable (o : Orchestrator) (w0 : World) : World -> Prop :=
| reach_start : reachable o w0 w0
| reach_step (w w' : World) :
    reachable o w0 w -> step o w = Some w' -> reachable o w0 w'.

(** A station built on its own in a fresh environment that is then run
    until [horizon]: [Station(env, config, orchestrator); env.run(until)]. *)
Definition station_alone (config : StationConfig) (horizon : Q)
  : Result World :=
  do sr <- new_Station 0 config true;
  let w := mkWorld 0 [] [fst sr] [] (default_rng 0) 0 None in
  let w := schedule_all (snd sr) w in
  Ok (schedule (mkRequest URGENT horizon StopSimulation) w).

(** [n] steps of the environment in a row. *)
Fixpoint steps (o : Orchestrator) (n : nat) (w : World) : option World :=
  match n with
  | O => Some w
  | S n' =>
      match step o w with
      | Some w' => steps o n' w'
      | None => None
      end
  end.

(** A station nobody visits: no vehicle waits for a battery and no
    request waits for a charger. *)
Definition lone_station (config : StationConfig) (stats : StationStats)
    (users : nat) (pool q : list Battery) (parked : nat) (active : Z)
  : Station :=
  mkStation config true stats users [] pool [] q parked 0 active.

(** The world of a station built on its own. *)
Definition lone_world (t : Q) (ag : list AgendaEntry) (st : Station)
    (evs : list Event) : World :=
  mkWorld t ag [st] evs (default_rng 0) 0 None.

End Reachability.

(** Number of pending events, each weighted by [f]. *)
Definition count_actions (f : Action -> nat) (l : list AgendaEntry) : nat :=
  list_sum (map (fun e => f (snd e)) l).

Definition requests_weight (f : Action -> nat) (rqs : list Request) : nat :=
  list_sum (map (fun r => f (rq_action r)) rqs).

(** 1 on the pending events that resume the charging loop of station [s]. *)
Definition loop_weight (s : nat) (a : Action) : nat :=
  match a with
  | InitLoop s' | QueueGot s' _ | ChargerGranted s' _ | CooldownOver s' _ _
  | ChargeOver s' _ _ | PoolPut s' true => if (s =? s')%nat then 1 else 0
  | _ => 0
  end.

(** 1 on the pending events during which the loop of [s] holds a battery
    on a charger (it is cooling or charging). *)
Definition charging_weight (s : nat) (a : Action) : nat :=
  match a with
  | CooldownOver s' _ _ | ChargeOver s' _ _ => if (s =? s')%nat then 1 else 0
  | _ => 0
  end.

(** The events that resume or start the processes of the orchestrator. *)
Definition generator_action (a : Action) : Prop :=
  match a with
  | GenTick _ | GenArrival _ | InitVeh _ _ => True
  | _ => False
  end.

(** A station just built: nothing parked, no charger in use. *)
Definition fresh_station (self : Station) : Prop :=
  queue_get_queue self = 0%nat /\ chargers_put_queue self = []
  /\ pool_get_queue self = []
  /\ active_chargers self = 0%Z /\ has_orchestrator self = true.

(** The charging loop of station [s] is in one place: pending in the
    agenda, or parked on the charge queue or on the chargers; and
    [active_chargers] counts the pending ends of its cooldown or charge. *)
Definition loop_tokens_ok (l : list AgendaEntry) (s : nat) (self : Station)
  : Prop :=
  (count_actions (loop_weight s) l + queue_get_queue self
   + List.length (chargers_put_queue self) = 1)%nat
  /\ active_chargers self = Z.of_nat (count_actions (charging_weight s) l).

(** Every GRID_LIMIT_HIT event names a station whose charger power alone
    exceeds its grid limit. *)
Definition grid_events_ok (cfgs : list StationConfig) (trace : list Event)
  : Prop :=
  forall e, In e trace -> event_type e = GRID_LIMIT_HIT ->
    exists c limit,
      In c cfgs /\ sc_id c = entity_id e
      /\ grid_power_limit_kw c = Some limit /\ limit < charge_power_kw c.

Definition loops_invariant {R : NumpyRandom} (cfgs : list StationConfig)
    (w : World) : Prop :=
  map config (objs w) = cfgs
  /\ (forall s self, nth_error (objs w) s = Some self ->
        loop_tokens_ok (agenda w) s self)
  /\ grid_events_ok cfgs (events w).

(** The station identifier every station event carries in its meta data. *)
Definition station_id_of (e : Event) : string :=
  match dict_get "station_id" (meta_data e) with
  | Some (MStr sid) => sid
  | _ => EmptyString
  end.

(** A swap as the trace shows it: vehicle, station, instant. *)
Definition SwapKey : Type := string * string * Q.

Definition key_time (k : SwapKey) : Q := snd k.

Definition is_event (t : EventType) (e : Event) : bool :=
  match event_type e, t with
  | VEHICLE_ARRIVAL, VEHICLE_ARRIVAL | SWAP_START, SWAP_START
  | SWAP_COMPLETE, SWAP_COMPLETE | LOST_SWAP, LOST_SWAP
  | CHARGE_START, CHARGE_START | CHARGE_COMPLETE, CHARGE_COMPLETE
  | QUEUE_UPDATE, QUEUE_UPDATE | STATION_STOCKOUT, STATION_STOCKOUT
  | GRID_LIMIT_HIT, GRID_LIMIT_HIT => true
  | _, _ => false
  end.

(** [swap_time_seconds] of the first station with the given identifier. *)
Fixpoint swap_time_of (cfgs : list StationConfig) (sid : string) : Z :=
  match cfgs with
  | [] => 0
  | c :: r => if String.eqb sid (sc_id c) then swap_time_seconds c
              else swap_time_of r sid
  end.

(** The [SWAP_COMPLETE] events of a trace. *)
Definition swap_completes (trace : list Event) : list SwapKey :=
  map (fun e => (entity_id e, station_id_of e, ev_time e))
      (filter (is_event SWAP_COMPLETE) trace).

(** For each [SWAP_START] event of a trace, the completion that is due
    [swap_time_seconds] later. *)
Definition swap_completions_due (cfgs : list StationConfig)
    (trace : list Event) : list SwapKey :=
  map (fun e => (entity_id e, station_id_of e,
                 Qred (ev_time e
                       + inject_Z (swap_time_of cfgs (station_id_of e)))))
      (filter (is_event SWAP_START) trace).

(** The swaps in progress: pending ends of swap timeouts. *)
Definition swaps_in_progress (cfgs : list StationConfig)
    (l : list AgendaEntry) : list SwapKey :=
  flat_map (fun e => match e with
                     | (t, _, SwapOver s v _ _) =>
                         [(v, sc_id (nth s cfgs (default_StationConfig "")), t)]
                     | _ => []
                     end) l.

(** [a] does not have to leave the agenda after [b]. *)
Definition entry_le (a b : AgendaEntry) : Prop := entry_ltb b a = false.

(** What the pairing of swap events rests on: swap ends are timeouts
    (normal priority) and the [until] event is urgent, at the horizon. *)
Definition entry_shape (n : nat) (horizon : Q) (e : AgendaEntry) : Prop :=
  match e with
  | (_, p, SwapOver s _ _ _) => p = NORMAL /\ (s < n)%nat
  | (t, p, StopSimulation) => t == horizon /\ p = URGENT
  | _ => True
  end.

(** What the segments of station [s] request: never the [until] event,
    always with normal priority, and swap ends only for [s] itself. *)
Definition request_shape (s : nat) (r : Request) : Prop :=
  rq_priority r = NORMAL /\ rq_action r <> StopSimulation
  /\ (forall s' v wt b, rq_action r = SwapOver s' v wt b -> s' = s).

Definition swaps_invariant {R : NumpyRandom} (cfgs : list StationConfig)
    (horizon : Q) (w : World) : Prop :=
  map config (objs w) = cfgs
  /\ Forall (fun self => has_orchestrator self = true) (objs w)
  /\ Permutation (swap_completions_due cfgs (events w))
       (swap_completes (events w) ++ swaps_in_progress cfgs (agenda w))
  /\ StronglySorted entry_le (agenda w)
  /\ Forall (entry_shape (List.length cfgs) horizon) (agenda w)
  /\ (exists t p, In (t, p, StopSimulation) (agenda w))
  /\ Forall (fun k => key_time k < horizon) (swap_completes (events w)).

(** 1 on the ends of swaps and on the [until] event. *)
Definition swap_or_stop (a : Action) : nat :=
  match a with
  | SwapOver _ _ _ _ | StopSimulation => 1
  | _ => 0
  end.

(** The horizon of a run, in seconds. *)
Definition horizon_of (config : SimulationConfig) : Q :=
  inject_Z (duration_days config * 24 * 3600).

(** The charging loop taken alone, from the instant [t] on the batteries
    of [q]: for each battery in turn the clock advances by the cooldown and
    then by the charge time, the two timeouts of [_charging_loop]. *)
Definition drain_from (config : StationConfig) (t : Q) (q : list Battery) : Q :=
  fold_left (fun t b => t + inject_Z (cooldown_seconds config)
                        + _calculate_charge_time config b)
            q t.

Definition drain_time (config : StationConfig) (q : list Battery) : Q :=
  drain_from config 0 q.

(** The battery and the instant of each charge that loop completes. *)
Fixpoint charge_schedule (config : StationConfig) (t : Q) (q : list Battery)
  : list (string * Q) :=
  match q with
  | [] => []
  | b :: r =>
      let t' := t + inject_Z (cooldown_seconds config)
                + _calculate_charge_time config b in
      (battery_id b, t') :: charge_schedule config t' r
  end.

(** The [CHARGE_COMPLETE] events of a trace: battery and time. *)
Definition charge_completes (trace : list Event) : list (string * Q) :=
  map (fun e => (entity_id e, ev_time e))
      (filter (is_event CHARGE_COMPLETE) trace).

(** The same batteries at the same instants. *)
Definition same_schedule (l l' : list (string * Q)) : Prop :=
  Forall2 (fun p p' => fst p = fst p' /\ snd p == snd p') l l'.

(** A battery after a full charge. *)
Definition charged (b : Battery) : Battery :=
  complete_charge (set_charging b) 100.

(** The closed form of the specification: the charge times summed and
    divided by the number of chargers. *)
Definition parallel_charge_time (config : StationConfig) (q : list Battery) : Q :=
  fold_right (fun b acc => _calculate_charge_time config b + acc) 0 q
  / inject_Z (charger_count config).

(** The scenario adjustment of an hour, 1 when there is none. *)
Definition scenario_adjustment (config : SimulationConfig) (hour : Z) : Q :=
  match scenario config with
  | Some sc =>
      match int_dict_get hour (demand_adjustments sc) with
      | Some a => a
      | None => 1
      end
  | None => 1
  end.

(** ** Concrete inputs *)

(** A random generator that replays a script of standard draws and
    returns 1 (exponential) or 0 (normal) once the script is used up. *)
Definition ScriptedRandom (script : list Q) : NumpyRandom :=
  {| Generator := list Q;
     default_rng := fun _ => script;
     standard_exponential :=
       fun g => match g with [] => (1, []) | x :: r => (x, r) end;
     standard_normal :=
       fun g => match g with [] => (0, []) | x :: r => (x, r) end |}.

Definition flat_demand (rate : Q) : DemandCurve := mkDemandCurve (repeat rate 24) [].

Definition no_jitter : CalibrationParams := mkCalibrationParams (5, 30) (95 # 100) 0.

(** One default station, one day, flat demand of 10 arrivals per hour. *)
Definition one_station_config : SimulationConfig :=
  mkSimulationConfig 1 42 1 [default_StationConfig "s1"] (flat_demand 10)
    no_jitter None.

(** Two default stations, otherwise the same. *)
Definition two_station_config : SimulationConfig :=
  mkSimulationConfig 1 42 1
    [default_StationConfig "s1"; default_StationConfig "s2"] (flat_demand 10)
    no_jitter None.

(** An orchestrator for a station run on its own. *)
Definition lone_orchestrator : Orchestrator :=
  mkOrchestrator one_station_config (fun _ => "00000000000000000000000000000000"%string)
    10 [("s1"%string, 0%nat)].

Definition entropy_a (k : nat) : string := "aaaaaaaaaaaaaaaaaaaaaaaaaaaaaaaa".
Definition entropy_b (k : nat) : string := "bbbbbbbbbbbbbbbbbbbbbbbbbbbbbbbb".

(** A script whose first inter-arrival time is 86350 s at 6 arrivals per
    hour (mean 600 s), and whose second passes the one-day horizon. *)
Definition late_arrival_script : list Q := [1727 # 12; 1].

(** A script whose first inter-arrival time is 600 s and whose second
    passes the horizon. *)
Definition early_arrival_script : list Q := [1; 200].

Definition modify_chargers_to (target : string) (n : Z) : Intervention :=
  mkIntervention MODIFY_CHARGERS (Some target) [("new_count", PInt n)]%string.

Definition modify_inventory_by (target : string) (delta : Z) : Intervention :=
  mkIntervention MODIFY_INVENTORY (Some target) [("delta", PInt delta)]%string.

Definition scenario_with (ivs : list Intervention) : ScenarioConfig :=
  mkScenarioConfig "what-if" ivs [].


(** ** More of the schemas and of the battery ([sim_config.py], [assets.py]) *)

(** [SimulationConfig.validate_unique_station_ids]: [set(ids)] keeps one
    copy of each identifier. *)
Definition validate_unique_station_ids (v : list StationConfig)
  : Result (list StationConfig) :=
  let ids := map sc_id v in
  if negb (List.length ids =? List.length (nodup string_dec ids))%nat
  then Raise (ValueError "Station IDs must be unique")
  else Ok v.

(** [Battery.energy_remaining_kwh]. *)
Definition energy_remaining_kwh (b : Battery) : Q :=
  (soc b / 100) * capacity_kwh b * health b.

(** [StationStats.avg_wait_time]. *)
Definition avg_wait_time (st : StationStats) : Q :=
  if (total_swaps st =? 0)%Z then 0
  else total_wait_time st / inject_Z (total_swaps st).


(** [int(s)] on a string of decimal digits, the inverse of [f"{i:03d}"]. *)
Definition digit_value (c : ascii) : nat := nat_of_ascii c - 48.

Fixpoint parse_decimal (s : string) (acc : nat) : nat :=
  match s with
  | EmptyString => acc
  | String c r => parse_decimal r (10 * acc + digit_value c)
  end.

(** The interventions the engine accepts and never acts on. *)
Definition inert (iv : Intervention) : bool :=
  match iv_type iv with
  | DEMAND_MULTIPLIER | POLICY_CHANGE | INJECT_FAULT => true
  | _ => false
  end.

(** The dictionary [{s.id: s for s in base_stations}]. *)
Definition stations_by_id (base_stations : list StationConfig)
  : list (string * StationConfig) :=
  fold_left (fun d s => dict_set (sc_id s) s d) base_stations [].

(** Every key of a station dictionary is the identifier of its value. *)
Definition keyed_by_id (d : list (string * StationConfig)) : Prop :=
  Forall (fun kv => fst kv = sc_id (snd kv)) d.

(** A battery as a station creates it, fully charged. *)
Definition full_battery : Battery :=
  mkBattery "s1_batt_000" 100 5 95 0 1 AVAILABLE.

(** The battery of the docstring of [Battery]. *)
Definition docstring_battery : Battery :=
  mkBattery "batt_001" 95 5 95 0 1 AVAILABLE.

(** ** Notions used to state the further properties *)

Definition sumZ (l : list Z) : Z := fold_right Z.add 0%Z l.

(** Pending events and requests, each weighted by an integer. *)
Definition agenda_weight (f : Action -> Z) (l : list AgendaEntry) : Z :=
  sumZ (map (fun e => f (snd e)) l).

Definition requests_weightZ (f : Action -> Z) (rqs : list Request) : Z :=
  sumZ (map (fun r => f (rq_action r)) rqs).

(** The requests the arrival generator of station [s] makes. *)
Definition generator_request (s : nat) (r : Request) : Prop :=
  (exists d, r = timeout d (GenTick s))
  \/ (exists d, r = timeout d (GenArrival s))
  \/ (exists v, r = process (InitVeh s v)).

(** The requests the construction of station [s] makes. *)
Definition startup_request (s : nat) (r : Request) : Prop :=
  r = succeed (PoolPut s false) \/ r = succeed (QueuePut s None)
  \/ r = process (InitLoop s).

(** A station as [Station.__init__] leaves it. *)
Definition built_station (self : Station) : Prop :=
  self = mkStation (config self) true new_StationStats 0 []
           (initial_pool (config self)) [] (initial_charge_queue (config self))
           0 0 0.

(** The station a pending event belongs to. *)
Definition action_station (a : Action) : option nat :=
  match a with
  | InitLoop s | InitGen s | InitVeh s _ | QueueGot s _ | ChargerGranted s _
  | CooldownOver s _ _ | ChargeOver s _ _ | ChargerReleased s | PoolPut s _
  | PoolGot s _ _ _ | SwapOver s _ _ _ | QueuePut s _ | GenTick s
  | GenArrival s => Some s
  | ProcessDone _ | StopSimulation => None
  end.

(** 1 on the pending events that carry a battery of station [s] from one
    store to another: on its way to a charger, on a charger, or in a
    vehicle's swap. *)
Definition battery_weight (s : nat) (a : Action) : Z :=
  match a with
  | QueueGot s' _ | ChargerGranted s' _ | CooldownOver s' _ _
  | ChargeOver s' _ _ | PoolGot s' _ _ _ | SwapOver s' _ _ _ =>
      if (s =? s')%nat then 1%Z else 0%Z
  | _ => 0%Z
  end.

(** The batteries a station holds in its stores. *)
Definition batteries_at_rest (self : Station) : Z :=
  Z.of_nat (List.length (battery_pool self) + List.length (charge_queue self)
            + List.length (chargers_put_queue self)).

(** The pending events of a run that has not started: those of the
    construction of the stations, the start of the arrival generators, and
    the [until] event. *)
Definition startup_entry (n : nat) (horizon : Q) (e : AgendaEntry) : Prop :=
  (exists s r, (s < n)%nat
               /\ (startup_request s r \/ r = process (InitGen s))
               /\ e = entry_of 0 r)
  \/ e = entry_of 0 (mkRequest URGENT horizon StopSimulation).

(** A quantity of each station that the pending events of the station
    make up to a constant of its configuration. *)
Definition balanced {R : NumpyRandom} (mu : Station -> Z)
    (omega : nat -> Action -> Z) (kappa : StationConfig -> Z) (w : World)
  : Prop :=
  forall s self, nth_error (objs w) s = Some self ->
    (mu self + agenda_weight (omega s) (agenda w) = kappa (config self))%Z.

(** An invariant made of a property of every station, one of every pending
    event and one of every telemetry event. *)
Definition local_inv {R : NumpyRandom} (PS : Station -> Prop)
    (PE : AgendaEntry -> Prop) (PV : Event -> Prop) (w : World) : Prop :=
  Forall PS (objs w) /\ Forall PE (agenda w) /\ Forall PV (events w).

(** Statistics with no negative counter and no waiting time at all. *)
Definition stats_sane (st : StationStats) : Prop :=
  (0 <= total_swaps st)%Z /\ (0 <= lost_swaps st)%Z
  /\ total_wait_time st == 0 /\ max_wait_time st == 0
  /\ 0 <= total_charge_time st
  /\ (0 <= peak_queue_length st)%Z /\ 0 <= charger_busy_time st.

(** A station of one of the configurations [cfgs], with no vehicle parked
    on its pool. *)
Definition station_sane (cfgs : list StationConfig) (self : Station) : Prop :=
  In (config self) cfgs /\ has_orchestrator self = true
  /\ pool_get_queue self = [] /\ stats_sane (stats self)
  /\ (0 <= charge_power_kw (config self) ->
      0 <= total_energy_kwh (stats self)).

(** A battery handed to a vehicle is used at the instant the vehicle
    arrived, and a charge ends no earlier than it started. *)
Definition entry_sane (e : AgendaEntry) : Prop :=
  match e with
  | (t, _, PoolGot _ _ arrival_time _) => arrival_time == t
  | (t, _, CooldownOver _ _ charge_start)
  | (t, _, ChargeOver _ _ charge_start) => charge_start <= t
  | _ => True
  end.

(** What every telemetry event of a run looks like. *)
Definition event_sane (o : Orchestrator) (cfgs : list StationConfig)
    (e : Event) : Prop :=
  ev_run_id e = run_id o
  /\ dict_get "sim_time" (meta_data e) = Some (MNum (ev_time e))
  /\ (exists c, In c cfgs
        /\ dict_get "station_id" (meta_data e) = Some (MStr (sc_id c))
        /\ (event_type e = GRID_LIMIT_HIT -> entity_id e = sc_id c)
        /\ (event_type e = SWAP_COMPLETE ->
            dict_get "duration" (meta_data e)
            = Some (MInt (swap_time_seconds c))))
  /\ event_type e <> QUEUE_UPDATE /\ event_type e <> STATION_STOCKOUT
  /\ (event_type e = SWAP_START ->
      dict_get "wait_time" (meta_data e) = Some (MNum 0))
  /\ (event_type e = LOST_SWAP ->
      dict_get "reason" (meta_data e) = Some (MStr "stockout"))
  /\ (event_type e = CHARGE_COMPLETE ->
      dict_get "final_soc" (meta_data e) = Some (MNum 100)
      /\ exists d, dict_get "duration" (meta_data e) = Some (MNum d) /\ 0 <= d).

(** A pending event that comes before the end of the run: the [until]
    event is urgent and at the horizon; every other urgent event is due
    strictly before the horizon. *)
Definition entry_before (horizon : Q) (e : AgendaEntry) : Prop :=
  match e with
  | (t, p, StopSimulation) => t == horizon /\ p = URGENT
  | (t, p, _) => p = URGENT -> t < horizon
  end.

Definition event_time_le (e1 e2 : Event) : Prop := ev_time e1 <= ev_time e2.

(** The clock and the agenda of a run that is under way: the agenda is in
    heap order and holds the [until] event; nothing pending is due before
    now; the telemetry events are in the order of their times, none later
    than now and all before the horizon. *)
Definition schedule_inv {R : NumpyRandom} (horizon : Q) (w : World) : Prop :=
  StronglySorted entry_le (agenda w)
  /\ (exists t p, In (t, p, StopSimulation) (agenda w))
  /\ Forall (entry_before horizon) (agenda w)
  /\ Forall (fun e : AgendaEntry => now w <= fst (fst e)) (agenda w)
  /\ 0 <= now w /\ now w <= horizon
  /\ Forall (fun ev => ev_time ev <= now w /\ ev_time ev < horizon) (events w)
  /\ StronglySorted event_time_le (events w).

(** ** Runs that cannot raise *)

(** What the field constraints of [StationConfig] and [BatteryConfig] give
    to a running station: a positive charger power ([gt=0]), a swap time
    that is not negative ([ge=30]) and a battery capacity that is not
    negative ([gt=0]). *)
Definition station_runs (c : StationConfig) : Prop :=
  0 < charge_power_kw c /\ (0 <= swap_time_seconds c)%Z
  /\ 0 <= bc_capacity_kwh (battery_config c).

Definition battery_sound (b : Battery) : Prop := 0 <= capacity_kwh b.

(** The battery a pending event carries, if any, is sound. *)
Definition action_sound (a : Action) : Prop :=
  match a with
  | QueueGot _ b | ChargerGranted _ b | CooldownOver _ b _ | ChargeOver _ b _
  | PoolGot _ _ _ b | SwapOver _ _ _ b => battery_sound b
  | _ => True
  end.

Definition entry_sound (e : AgendaEntry) : Prop := action_sound (snd e).

Definition station_sound (self : Station) : Prop :=
  station_runs (config self)
  /\ Forall battery_sound (battery_pool self)
  /\ Forall battery_sound (charge_queue self)
  /\ Forall battery_sound (chargers_put_queue self).

(** A request that [env.schedule] accepts. *)
Definition request_accepted (r : Request) : Prop := Qltb (rq_delay r) 0 = false.

(** A random generator whose every standard draw is 1 (exponential) or 0
    (normal). *)
Definition SteadyRandom : NumpyRandom :=
  {| Generator := unit;
     default_rng := fun _ => tt;
     standard_exponential := fun g => (1, g);
     standard_normal := fun g => (0, g) |}.

(** ** The counters of the stations against the telemetry *)

(** The number of telemetry events of one type. *)
Definition count_events (ty : EventType) (trace : list Event) : Z :=
  Z.of_nat (List.length (filter (is_event ty) trace)).

(** The number of pending events of one kind. *)
Definition pending (f : Action -> bool) (l : list AgendaEntry) : Z :=
  agenda_weight (fun a => if f a then 1%Z else 0%Z) l.

(** A vehicle has been given a battery and its swap has not started. *)
Definition handing_over (a : Action) : bool :=
  match a with PoolGot _ _ _ _ => true | _ => false end.

(** A swap is under way. *)
Definition swapping (a : Action) : bool :=
  match a with SwapOver _ _ _ _ => true | _ => false end.

(** A swap is over and its handler has not yet counted it. *)
Definition returning (a : Action) : bool :=
  match a with QueuePut _ (Some _) => true | _ => false end.

(** A battery is on a charger, charging. *)
Definition on_charger (a : Action) : bool :=
  match a with ChargeOver _ _ _ => true | _ => false end.

(** A counter of [StationStats] summed over the stations. *)
Definition city_sum (f : StationStats -> Z) (l : list Station) : Z :=
  sumZ (map (fun self => f (stats self)) l).

(** Every pending event of a station belongs to one of the [n] stations. *)
Definition entry_indexed (n : nat) (e : AgendaEntry) : Prop :=
  match action_station (snd e) with
  | Some s => (s < n)%nat
  | None => True
  end.

(** The accounts kept between the counters of the stations, the pending
    events and the telemetry events. *)
Inductive Account :=
| LostSwaps | CountedSwaps | Arrivals | Charges | Swaps.

Definition account_station (k : Account) (self : Station) : Z :=
  match k with
  | LostSwaps => lost_swaps (stats self)
  | CountedSwaps => total_swaps (stats self)
  | _ => 0%Z
  end.

Definition account_pending (k : Account) (a : Action) : Z :=
  match k, a with
  | CountedSwaps, QueuePut _ (Some _) => 1%Z
  | Arrivals, PoolGot _ _ _ _ => 1%Z
  | Charges, ChargeOver _ _ _ => 1%Z
  | Swaps, SwapOver _ _ _ _ => 1%Z
  | _, _ => 0%Z
  end.

Definition account_event (k : Account) (ty : EventType) : Z :=
  match k, ty with
  | LostSwaps, LOST_SWAP => 1%Z
  | CountedSwaps, SWAP_COMPLETE => 1%Z
  | Arrivals, VEHICLE_ARRIVAL => 1%Z
  | Arrivals, LOST_SWAP => (-1)%Z
  | Arrivals, SWAP_START => (-1)%Z
  | Charges, CHARGE_START => 1%Z
  | Charges, CHARGE_COMPLETE => (-1)%Z
  | Swaps, SWAP_START => 1%Z
  | Swaps, SWAP_COMPLETE => (-1)%Z
  | _, _ => 0%Z
  end.

(** An account is in balance: what the stations have counted plus what is
    pending is what the telemetry shows. *)
Definition ledger {R : NumpyRandom} (k : Account) (w : World) : Prop :=
  (sumZ (map (account_station k) (objs w))
   + agenda_weight (account_pending k) (agenda w)
   = sumZ (map (fun e => account_event k (event_type e)) (events w)))%Z.

(** A battery handed over, or a swap to be counted, is scheduled with no
    delay: it is due before the horizon when it was scheduled before it. *)
Definition entry_immediate (horizon : Q) (e : AgendaEntry) : Prop :=
  handing_over (snd e) || returning (snd e) = true -> fst (fst e) < horizon.

(** ** Counting the telemetry ([SimulationOrchestrator.get_event_count_by_type]) *)

(** [EventType.value]. *)
Definition EventType_value (t : EventType) : string :=
  match t with
  | VEHICLE_ARRIVAL => "VEHICLE_ARRIVAL"
  | SWAP_START => "SWAP_START"
  | SWAP_COMPLETE => "SWAP_COMPLETE"
  | LOST_SWAP => "LOST_SWAP"
  | CHARGE_START => "CHARGE_START"
  | CHARGE_COMPLETE => "CHARGE_COMPLETE"
  | QUEUE_UPDATE => "QUEUE_UPDATE"
  | STATION_STOCKOUT => "STATION_STOCKOUT"
  | GRID_LIMIT_HIT => "GRID_LIMIT_HIT"
  end.

(** [counts[k] += 1] on a [defaultdict(int)]: a missing key reads as 0 and
    is inserted. *)
Definition defaultdict_incr (k : string) (counts : list (string * Z))
  : list (string * Z) :=
  dict_set k (match dict_get k counts with Some n => n | None => 0 end + 1)%Z
    counts.

(** [SimulationOrchestrator.get_event_count_by_type], on [self.events]. *)
Definition get_event_count_by_type (events : list Event) : list (string * Z) :=
  fold_left (fun counts event =>
               defaultdict_incr (EventType_value (event_type event)) counts)
    events [].

(** ** Results ([sim_config.py], [SimulationOrchestrator._aggregate_results]) *)

Inductive SimulationStatus := PENDING | RUNNING | COMPLETED | FAILED | CANCELLED.

(** The field constraint [ge=lo]; a violation is a [ValidationError],
    which is a [ValueError]. *)
Definition at_least_Z (field : string) (lo v : Z) : Result Z :=
  if (lo <=? v)%Z then Ok v
  else Raise (ValueError (field ++ ": out of range")).

Definition at_least_Q (field : string) (lo v : Q) : Result Q :=
  if Qle_bool lo v then Ok v
  else Raise (ValueError (field ++ ": out of range")).

Record StationKPI := mkStationKPI {
  kpi_station_id : string;
  kpi_total_swaps : Z;
  kpi_lost_swaps : Z;
  avg_wait_time_seconds : Q;
  max_wait_time_seconds : Q;
  charger_utilization : Q;
  idle_inventory_pct : Q;
  kpi_total_energy_kwh : Q;
  kpi_peak_queue_length : Z
}.

(** [StationKPI(...)]: the fields are validated. *)
Definition new_StationKPI (station_id : string) (total_swaps lost_swaps : Z)
    (avg_wait_time_seconds max_wait_time_seconds charger_utilization
       idle_inventory_pct total_energy_kwh : Q) (peak_queue_length : Z)
  : Result StationKPI :=
  do total_swaps <- at_least_Z "total_swaps" 0 total_swaps;
  do lost_swaps <- at_least_Z "lost_swaps" 0 lost_swaps;
  do avg_wait <- at_least_Q "avg_wait_time_seconds" 0 avg_wait_time_seconds;
  do max_wait <- at_least_Q "max_wait_time_seconds" 0 max_wait_time_seconds;
  do utilization <- in_range_Q "charger_utilization" 0 1 charger_utilization;
  do idle <- in_range_Q "idle_inventory_pct" 0 100 idle_inventory_pct;
  do energy <- at_least_Q "total_energy_kwh" 0 total_energy_kwh;
  do peak <- at_least_Z "peak_queue_length" 0 peak_queue_length;
  Ok (mkStationKPI station_id total_swaps lost_swaps avg_wait max_wait
        utilization idle energy peak).

Record BaselineComparison := mkBaselineComparison {
  wait_time_delta_pct : Q;
  lost_swaps_delta : Z;
  throughput_delta_pct : Q;
  opex_delta : Q;
  utilization_delta_pct : Q
}.

Record OpexBreakdown := mkOpexBreakdown {
  energy_cost : Q;
  depreciation_cost : Q;
  logistics_cost : Q;
  opex_total : Q
}.

(** The dictionary given as [opex_breakdown] is validated as an
    [OpexBreakdown]. *)
Definition new_OpexBreakdown (energy_cost depreciation_cost logistics_cost
                                total : Q) : Result OpexBreakdown :=
  do energy <- at_least_Q "energy_cost" 0 energy_cost;
  do depreciation <- at_least_Q "depreciation_cost" 0 depreciation_cost;
  do logistics <- at_least_Q "logistics_cost" 0 logistics_cost;
  do total <- at_least_Q "total" 0 total;
  Ok (mkOpexBreakdown energy depreciation logistics total).

(** [SimulationResult].  The two timestamps are seconds since the epoch. *)
Record SimulationResult := mkSimulationResult {
  sr_run_id : string;
  sr_scenario_name : string;
  sr_status : SimulationStatus;
  sr_duration_days : Z;
  compute_time_ms : Z;
  city_total_swaps : Z;
  city_lost_swaps : Z;
  city_avg_wait_time : Q;
  city_throughput_per_hour : Q;
  sr_total_energy_kwh : Q;
  estimated_opex_cost : Q;
  avg_charger_utilization : Q;
  avg_idle_inventory_pct : Q;
  station_kpis : list StationKPI;
  baseline_comparison : option BaselineComparison;
  opex_breakdown : option OpexBreakdown;
  started_at : Q;
  completed_at : Q
}.

(** The running totals of the loop of [_aggregate_results]. *)
Record Totals := mkTotals {
  t_station_kpis : list StationKPI;
  t_total_swaps : Z;
  t_total_lost : Z;
  t_total_wait : Q;
  t_total_energy : Q;
  t_total_charger_time : Q
}.

(** The body of the loop [for station_id, station in self.stations.items()]. *)
Definition aggregate_station (self_config : SimulationConfig)
    (station_id : string) (station : Station) (acc : Totals) : Result Totals :=
  let st := stats station in
  let max_charger_time :=
    (duration_days self_config * 24 * 3600
     * charger_count (config station))%Z in
  let utilization :=
    if (0 <? max_charger_time)%Z
    then charger_busy_time st / inject_Z max_charger_time
    else 0 in
  let avg_available := get_available_battery_count station in
  let idle_pct :=
    if (0 <? total_batteries (config station))%Z
    then inject_Z (Z.of_nat avg_available)
         / inject_Z (total_batteries (config station)) * 100
    else 0 in
  do kpi <- new_StationKPI station_id (total_swaps st) (lost_swaps st)
              (avg_wait_time st) (max_wait_time st) (py_min 1 utilization)
              idle_pct (total_energy_kwh st) (peak_queue_length st);
  Ok (mkTotals (t_station_kpis acc ++ [kpi])
        (t_total_swaps acc + total_swaps st)%Z
        (t_total_lost acc + lost_swaps st)%Z
        (t_total_wait acc + total_wait_time st)
        (t_total_energy acc + total_energy_kwh st)
        (t_total_charger_time acc + charger_busy_time st)).

(** [SimulationResult(...)]: the fields are validated, and the dictionary
    given as [opex_breakdown] becomes an [OpexBreakdown]. *)
Definition new_SimulationResult (run_id scenario_name : string)
    (status : SimulationStatus) (duration_days compute_time_ms : Z)
    (city_total_swaps city_lost_swaps : Z)
    (city_avg_wait_time city_throughput_per_hour total_energy_kwh
       estimated_opex_cost avg_charger_utilization avg_idle_inventory_pct : Q)
    (station_kpis : list StationKPI)
    (baseline_comparison : option BaselineComparison)
    (opex_breakdown : Q * Q * Q * Q) (started_at completed_at : Q)
  : Result SimulationResult :=
  do compute_time_ms <- at_least_Z "compute_time_ms" 0 compute_time_ms;
  do city_total_swaps <- at_least_Z "city_total_swaps" 0 city_total_swaps;
  do city_lost_swaps <- at_least_Z "city_lost_swaps" 0 city_lost_swaps;
  do city_avg_wait_time <-
    at_least_Q "city_avg_wait_time" 0 city_avg_wait_time;
  do city_throughput_per_hour <-
    at_least_Q "city_throughput_per_hour" 0 city_throughput_per_hour;
  do total_energy_kwh <- at_least_Q "total_energy_kwh" 0 total_energy_kwh;
  do estimated_opex_cost <-
    at_least_Q "estimated_opex_cost" 0 estimated_opex_cost;
  do avg_charger_utilization <-
    in_range_Q "avg_charger_utilization" 0 1 avg_charger_utilization;
  do avg_idle_inventory_pct <-
    in_range_Q "avg_idle_inventory_pct" 0 100 avg_idle_inventory_pct;
  do breakdown <-
    (let '(energy, depreciation, logistics, total) := opex_breakdown in
     new_OpexBreakdown energy depreciation logistics total);
  Ok (mkSimulationResult run_id scenario_name status duration_days
        compute_time_ms city_total_swaps city_lost_swaps city_avg_wait_time
        city_throughput_per_hour total_energy_kwh estimated_opex_cost
        avg_charger_utilization avg_idle_inventory_pct station_kpis
        baseline_comparison (Some breakdown) started_at completed_at).

(** [self.stations.items()]: each identifier with the station object the
    dictionary holds for it. *)
Definition stations_items {R : NumpyRandom} (o : Orchestrator) (w : World)
  : list (string * Station) :=
  flat_map (fun kv : string * nat =>
              match nth_error (objs w) (snd kv) with
              | Some station => [(fst kv, station)]
              | None => []
              end) (orch_stations o).

(** [SimulationOrchestrator._aggregate_results]. *)
Definition _aggregate_results {R : NumpyRandom} (o : Orchestrator) (w : World)
    (status : SimulationStatus) (compute_time_ms : Z)
    (started_at completed_at : Q) : Result SimulationResult :=
  let self_config := orch_config o in
  let duration_hours := (duration_days self_config * 24)%Z in
  do acc <-
    fold_left (fun acc item =>
                 do acc <- acc;
                 aggregate_station self_config (fst item) (snd item) acc)
      (stations_items o w) (Ok (mkTotals [] 0 0 0 0 0));
  let station_kpis := t_station_kpis acc in
  let total_swaps := t_total_swaps acc in
  let total_lost := t_total_lost acc in
  let total_wait := t_total_wait acc in
  let total_energy := t_total_energy acc in
  let total_charger_time := t_total_charger_time acc in
  let city_avg_wait :=
    if (0 <? total_swaps)%Z then total_wait / inject_Z total_swaps else 0 in
  let city_throughput :=
    if (0 <? duration_hours)%Z
    then inject_Z total_swaps / inject_Z duration_hours
    else 0 in
  let total_charger_capacity :=
    (sumZ (map (fun item => charger_count (config (snd item)))
             (stations_items o w))
     * duration_days self_config * 24 * 3600)%Z in
  let avg_utilization :=
    if (0 <? total_charger_capacity)%Z
    then total_charger_time / inject_Z total_charger_capacity
    else 0 in
  let avg_idle :=
    match station_kpis with
    | [] => 0
    | _ :: _ =>
        fold_left Qplus (map idle_inventory_pct station_kpis) 0
        / inject_Z (Z.of_nat (List.length station_kpis))
    end in
  let ENERGY_RATE_PER_KWH := 8 in
  let energy_cost := total_energy * ENERGY_RATE_PER_KWH in
  let BATTERY_COST_INR := 250000 in
  let DEGRADATION_PER_CYCLE := 1 # 10000 in
  let depreciation_cost :=
    inject_Z total_swaps * BATTERY_COST_INR * DEGRADATION_PER_CYCLE in
  let FIXED_COST_PER_STATION_DAY := 500 in
  let logistics_cost :=
    inject_Z (Z.of_nat (List.length (orch_stations o))
              * duration_days self_config)
    * FIXED_COST_PER_STATION_DAY in
  let opex_cost := energy_cost + depreciation_cost + logistics_cost in
  let scenario_name :=
    match scenario self_config with
    | Some sc => scenario_name sc
    | None => "baseline"%string
    end in
  new_SimulationResult (run_id o) scenario_name status
    (duration_days self_config) compute_time_ms total_swaps total_lost
    city_avg_wait city_throughput total_energy opex_cost
    (py_min 1 avg_utilization) avg_idle station_kpis None
    (energy_cost, depreciation_cost, logistics_cost, opex_cost)
    started_at completed_at.

(** What the aggregation needs of a station: counters that are not
    negative, no waiting time, at least one charger, and no more available
    batteries than the station has. *)
Definition station_reportable (self : Station) : Prop :=
  stats_sane (stats self) /\ 0 <= total_energy_kwh (stats self)
  /\ (1 <= charger_count (config self))%Z
  /\ (Z.of_nat (get_available_battery_count self)
      <= Z.max 0 (total_batteries (config self)))%Z.

Definition sumQ (l : list Q) : Q := fold_right Qplus 0 l.

(** What the validation of [StationKPI] leaves of a station without
    waiting vehicles. *)
Definition kpi_valid (k : StationKPI) : Prop :=
  (0 <= kpi_total_swaps k)%Z /\ (0 <= kpi_lost_swaps k)%Z
  /\ avg_wait_time_seconds k == 0 /\ max_wait_time_seconds k == 0
  /\ 0 <= charger_utilization k /\ charger_utilization k <= 1
  /\ 0 <= idle_inventory_pct k /\ idle_inventory_pct k <= 100
  /\ 0 <= kpi_total_energy_kwh k.

(** A script for two stations: each has its first arrival after 600 s and
    its second after the horizon. *)
Definition paired_arrival_script : list Q := [1; 1; 200; 200].

(** ** Vehicles in service and charging statistics *)

(** 1 on the pending events of a vehicle that is being served at station
    [s]: it holds a battery, its swap is under way, or its swap is over and
    not yet counted. *)
Definition service_weight (s : nat) (a : Action) : Z :=
  match a with
  | PoolGot s' _ _ _ | SwapOver s' _ _ _ | QueuePut s' (Some _) =>
      if (s =? s')%nat then 1%Z else 0%Z
  | _ => 0%Z
  end.

(** The vehicles a station counts in its queue beyond those parked on its
    battery pool. *)
Definition vehicles_in_service (self : Station) : Z :=
  (current_queue_length self - Z.of_nat (List.length (pool_get_queue self)))%Z.

(** The busy time of the chargers is the total charging time, and the
    queue length has never been above its recorded peak. *)
Definition charge_stats_agree (self : Station) : Prop :=
  charger_busy_time (stats self) == total_charge_time (stats self)
  /\ (current_queue_length self <= peak_queue_length (stats self))%Z.


(** ** The chargers are used one at a time *)

(** The instant the charge of a pending cooldown or charge of station [s]
    started. *)
Definition charge_started (s : nat) (a : Action) : option Q :=
  match a with
  | CooldownOver s' _ t0 | ChargeOver s' _ t0 =>
      if (s =? s')%nat then Some t0 else None
  | _ => None
  end.

(** The busy time of the chargers of a station has been spent before now,
    and before the start of the charge that is under way, if any. *)
Definition busy_before {R : NumpyRandom} (w : World) : Prop :=
  forall s self, nth_error (objs w) s = Some self ->
    charger_busy_time (stats self) <= now w
    /\ Forall (fun e : AgendaEntry =>
                 forall t0, charge_started s (snd e) = Some t0 ->
                            charger_busy_time (stats self) <= t0)
         (agenda w).

(** ** Comparison of two results ([compare_results]) *)

(** [round(x, 2)]: the nearest hundredth, a tie going to the even one. *)
Definition py_round2 (x : Q) : Q :=
  let y := x * 100 in
  let f := Qfloor y in
  let r := y - inject_Z f in
  let n :=
    if Qltb r (1 # 2) then f
    else if Qltb (1 # 2) r then (f + 1)%Z
         else if Z.even f then f else (f + 1)%Z in
  inject_Z n / 100.

(** [compare_results]. *)
Definition compare_results (baseline scenario : SimulationResult)
  : BaselineComparison :=
  let wait_time_delta :=
    if Qltb 0 (city_avg_wait_time baseline)
    then (city_avg_wait_time scenario - city_avg_wait_time baseline)
         / city_avg_wait_time baseline * 100
    else 0 in
  let throughput_delta :=
    if Qltb 0 (city_throughput_per_hour baseline)
    then (city_throughput_per_hour scenario - city_throughput_per_hour baseline)
         / city_throughput_per_hour baseline * 100
    else 0 in
  let utilization_delta :=
    if Qltb 0 (avg_charger_utilization baseline)
    then (avg_charger_utilization scenario - avg_charger_utilization baseline)
         / avg_charger_utilization baseline * 100
    else 0 in
  mkBaselineComparison (py_round2 wait_time_delta)
    (city_lost_swaps scenario - city_lost_swaps baseline)%Z
    (py_round2 throughput_delta)
    (estimated_opex_cost scenario - estimated_opex_cost baseline)
    (py_round2 utilization_delta).

(** The percentage [compare_results] rounds for one metric. *)
Definition percent_change (baseline scenario : Q) : Q :=
  if Qltb 0 baseline then (scenario - baseline) / baseline * 100 else 0.

(** What a reported delta is to the change of one metric: within 0.005 of
    the percentage, with the sign of the change, and 0 when the baseline is
    not positive. *)
Definition reports_change (baseline scenario delta : Q) : Prop :=
  percent_change baseline scenario - (1 # 200) <= delta
  /\ delta <= percent_change baseline scenario + (1 # 200)
  /\ (baseline <= scenario -> 0 <= delta)
  /\ (scenario <= baseline -> delta <= 0)
  /\ (baseline <= 0 -> delta == 0).

(** A default station behind a grid connection of [limit] kW. *)
Definition grid_limited_station (sid : string) (limit : Q) : StationConfig :=
  mkStationConfig sid "" (mkLocation 0 0) 20 4 60 90 (Some limit) 60
    default_BatteryConfig "SCENARIO" "ACTIVE".

(** Two such stations with four 60 kW chargers each: one charger alone
    exceeds the 50 kW limit of the first; the 100 kW limit of the second is
    above one charger and below two. *)
Definition grid_limited_config : SimulationConfig :=
  mkSimulationConfig 1 42 1
    [grid_limited_station "s1" 50; grid_limited_station "s2" 100]
    (flat_demand 10) no_jitter None.
(** * Properties *)

(** ** Arithmetic helpers *)

Lemma Qltb_lt (a b : Q) : Qltb a b = true <-> a < b.
Proof.
  unfold Qltb. rewrite negb_true_iff. split; intro H.
  - apply Qnot_le_lt. intro H'. apply Qle_bool_iff in H'. congruence.
  - destruct (Qle_bool b a) eqn:E; [|reflexivity].
    apply Qle_bool_iff in E. exfalso. exact (Qlt_not_le _ _ H E).
Qed.

Lemma Qltb_ge (a b : Q) : Qltb a b = false <-> b <= a.
Proof.
  unfold Qltb. rewrite negb_false_iff. apply Qle_bool_iff.
Qed.

Lemma py_max_Qmax (a b : Q) : py_max a b == Qmax a b.
Proof.
  unfold py_max. destruct (Qltb a b) eqn:E.
  - apply Qltb_lt in E. symmetry. apply Q.max_r. apply Qlt_le_weak, E.
  - apply Qltb_ge in E. symmetry. apply Q.max_l. exact E.
Qed.

Lemma py_min_Qmin (a b : Q) : py_min a b == Qmin a b.
Proof.
  unfold py_min. destruct (Qltb b a) eqn:E.
  - apply Qltb_lt in E. symmetry. apply Q.min_r. apply Qlt_le_weak, E.
  - apply Qltb_ge in E. symmetry. apply Q.min_l. exact E.
Qed.

Lemma Qltb_compat (a a' b b' : Q) : a == a' -> b == b' -> Qltb a b = Qltb a' b'.
Proof.
  intros Ha Hb. destruct (Qltb a' b') eqn:E.
  - apply Qltb_lt. rewrite Ha, Hb. apply Qltb_lt, E.
  - apply Qltb_ge. rewrite Ha, Hb. apply Qltb_ge, E.
Qed.

(** ** The charge-time curve *)

Lemma slow_phase_positive (s0 : Q) :
  Qltb 0 (py_max 0 (100 - py_max s0 80)) = Qltb (Qmax s0 80) 100.
Proof.
  assert (Hm : py_max s0 80 == Qmax s0 80) by apply py_max_Qmax.
  destruct (Qltb (Qmax s0 80) 100) eqn:E.
  - apply Qltb_lt in E. apply Qltb_lt.
    rewrite py_max_Qmax. apply Q.max_lt_iff. right.
    rewrite Hm. rewrite <- (Qplus_opp_r (Qmax s0 80)).
    apply Qplus_lt_l. exact E.
  - apply Qltb_ge in E. apply Qltb_ge.
    rewrite py_max_Qmax. apply Q.max_lub; [apply Qle_refl|].
    rewrite Hm. rewrite <- (Qplus_opp_r (Qmax s0 80)).
    apply Qplus_le_l. exact E.
Qed.

Lemma slow_phase_value (s0 : Q) :
  Qltb (Qmax s0 80) 100 = true ->
  py_max 0 (100 - py_max s0 80) == 100 - Qmax s0 80.
Proof.
  intro E. apply Qltb_lt in E.
  rewrite py_max_Qmax. rewrite (py_max_Qmax s0 80).
  apply Q.max_r. rewrite <- (Qplus_opp_r (Qmax s0 80)).
  apply Qplus_le_l. apply Qlt_le_weak, E.
Qed.

(** C9.  The time [_calculate_charge_time] returns for a battery at state
    of charge [s0] with capacity [cap], at charger power [p > 0], is the
    sum of the fast-segment time and the slow-segment time of section 4.4.1;
    for [s0 = 20], [cap = 5], [p = 60] it is 300 seconds. *)
Theorem charge_time_two_segments :
  forall (config : StationConfig) (battery : Battery),
    0 < charge_power_kw config ->
    _calculate_charge_time config battery
    == SpecChargeCurve.t_fast (soc battery) (capacity_kwh battery)
         (charge_power_kw config)
       + SpecChargeCurve.t_slow (soc battery) (capacity_kwh battery)
           (charge_power_kw config)
    /\ (soc battery = 20 -> capacity_kwh battery = 5 ->
        charge_power_kw config = 60 ->
        _calculate_charge_time config battery == 300).
Proof.
  intros config battery Hp. split.
  - unfold _calculate_charge_time, SpecChargeCurve.t_fast, SpecChargeCurve.t_slow.
    set (s0 := soc battery). set (cap := capacity_kwh battery).
    set (p := charge_power_kw config).
    rewrite slow_phase_positive.
    assert (Hfast :
      (if Qltb s0 80 then (py_min 80 100 - s0) / 100 * cap / p * 3600 else 0)
      == (if Qltb s0 80 then (Qmin 80 100 - s0) / 100 * cap / p * 3600 else 0)).
    { destruct (Qltb s0 80); [|reflexivity].
      rewrite (py_min_Qmin 80 100). reflexivity. }
    assert (Hslow :
      (if Qltb (Qmax s0 80) 100
       then py_max 0 (100 - py_max s0 80) / 100 * cap / (p * (1 # 2)) * 3600
       else 0)
      == (if Qltb (Qmax s0 80) 100
          then (100 - Qmax s0 80) / 100 * cap / ((1 # 2) * p) * 3600
          else 0)).
    { destruct (Qltb (Qmax s0 80) 100) eqn:E; [|reflexivity].
      rewrite (slow_phase_value s0 E).
      rewrite (Qmult_comm p (1 # 2)). reflexivity. }
    rewrite Hfast, Hslow. reflexivity.
  - intros Hs Hc Hpw. unfold _calculate_charge_time.
    rewrite Hs, Hc, Hpw. reflexivity.
Qed.

Lemma charge_time_two_segments_witness :
  0 < charge_power_kw (default_StationConfig "s1")
  /\ _calculate_charge_time (default_StationConfig "s1")
       (mkBattery "b" 20 5 95 1 1 DEPLETED) == 300.
Proof.
  split; [reflexivity|].
  apply (charge_time_two_segments (default_StationConfig "s1")
           (mkBattery "b" 20 5 95 1 1 DEPLETED));
    reflexivity.
Defined.

(** ** Initial inventory *)

Lemma py_int_floor (q : Q) : 0 <= q -> py_int q = Qfloor q.
Proof.
  destruct q as [n d]. unfold Qle, py_int, Qfloor. simpl. intro H.
  apply Z.quot_div_nonneg; lia.
Qed.

Lemma initial_split_floor (n : Z) :
  (0 <= n)%Z ->
  py_int (inject_Z n * (8 # 10)) = Qfloor ((8 # 10) * inject_Z n).
Proof.
  intro Hn. rewrite py_int_floor.
  - apply Qfloor_comp. apply Qmult_comm.
  - unfold Qle, Qmult, inject_Z. simpl. lia.
Qed.

Lemma nth_error_initialize (config : StationConfig) (i : nat) :
  (Z.of_nat i < total_batteries config)%Z ->
  nth_error (_initialize_batteries config) i
  = Some (initial_battery config i, placement (initial_battery config i)).
Proof.
  intro Hi. unfold _initialize_batteries.
  rewrite nth_error_map.
  assert (Hlt : (i < Z.to_nat (total_batteries config))%nat) by lia.
  rewrite (nth_error_nth' _ 0%nat) by (rewrite length_seq; exact Hlt).
  rewrite seq_nth by exact Hlt. reflexivity.
Qed.

Lemma placed_on_In (p : Placement) (b : Battery) (l : list (Battery * Placement)) :
  In (b, p) l -> In b (placed_on p l).
Proof.
  intro H. unfold placed_on.
  change b with (fst (b, p)). apply in_map. apply filter_In. split; [exact H|].
  destruct p; reflexivity.
Qed.

Lemma staggered_soc_below_threshold (i : nat) :
  Qltb (50 + inject_Z (Z.of_nat i mod 5) * 10) 95 = true.
Proof.
  assert (H : (0 <= Z.of_nat i mod 5 < 5)%Z) by (apply Z.mod_pos_bound; lia).
  assert (C : (Z.of_nat i mod 5 = 0 \/ Z.of_nat i mod 5 = 1
               \/ Z.of_nat i mod 5 = 2 \/ Z.of_nat i mod 5 = 3
               \/ Z.of_nat i mod 5 = 4)%Z) by lia.
  destruct C as [E|[E|[E|[E|E]]]]; rewrite E; reflexivity.
Qed.

(** C6, as the code has it.  At station initialisation with
    [total_batteries = n], every battery with index [i < floor(0.8 n)]
    starts AVAILABLE at state of charge 100 and is put in the battery pool;
    every remaining battery starts at [50 + (i mod 5) * 10] with status
    CHARGING (not DEPLETED) and is put on the charge queue. *)
Theorem initialize_batteries_layout :
  forall (config : StationConfig) (i : nat),
    bc_min_swap_soc (battery_config config) <= 100 ->
    (Z.of_nat i < total_batteries config)%Z ->
    exists b : Battery,
      nth_error (_initialize_batteries config) i = Some (b, placement b) /\
      if (Z.of_nat i <? Qfloor ((8 # 10) * inject_Z (total_batteries config)))%Z
      then soc b = 100 /\ status b = AVAILABLE /\ placement b = ToPool
           /\ In b (initial_pool config)
      else soc b = 50 + inject_Z (Z.of_nat i mod 5) * 10
           /\ status b = CHARGING /\ placement b = ToChargeQueue
           /\ In b (initial_charge_queue config).
Proof.
  intros config i Hmin Hi.
  exists (initial_battery config i).
  pose proof (nth_error_initialize config i Hi) as Hnth.
  split; [exact Hnth|].
  apply nth_error_In in Hnth.
  rewrite <- initial_split_floor by lia.
  unfold initial_pool, initial_charge_queue.
  destruct (Z.of_nat i <? py_int (inject_Z (total_batteries config) * (8 # 10)))%Z
    eqn:E.
  - assert (Hp : placement (initial_battery config i) = ToPool).
    { unfold placement, is_swappable, initial_battery. rewrite E. simpl.
      apply Qle_bool_iff in Hmin. rewrite Hmin. reflexivity. }
    rewrite Hp in Hnth.
    unfold initial_battery at 1 2. rewrite E. simpl.
    repeat split; try assumption. apply placed_on_In. exact Hnth.
  - assert (Hp : placement (initial_battery config i) = ToChargeQueue).
    { unfold placement, is_swappable, initial_battery. rewrite E.
      rewrite staggered_soc_below_threshold. simpl.
      rewrite andb_false_r. reflexivity. }
    rewrite Hp in Hnth.
    unfold initial_battery at 1 2. rewrite E.
    rewrite staggered_soc_below_threshold. simpl.
    repeat split; try assumption. apply placed_on_In. exact Hnth.
Qed.

Lemma initialize_batteries_layout_witness :
  exists b : Battery,
    nth_error (_initialize_batteries (default_StationConfig "s1")) 17
    = Some (b, placement b)
    /\ soc b = 50 + inject_Z (17 mod 5) * 10 /\ status b = CHARGING
    /\ placement b = ToChargeQueue
    /\ In b (initial_charge_queue (default_StationConfig "s1")).
Proof.
  destruct (initialize_batteries_layout (default_StationConfig "s1") 17)
    as [b [Hn Hb]].
  - unfold Qle. simpl. lia.
  - simpl. lia.
  - exists b. split; [exact Hn|]. exact Hb.
Defined.

(** C6 as stated fails: battery 16 of a default station of 20 batteries is
    beyond the first [floor(0.8 * 20) = 16], is put on the charge queue at
    state of charge 60, and its status is CHARGING, not DEPLETED.  The
    enumeration documents CHARGING as "currently being charged" and DEPLETED
    as "needs charging": the battery waits on the queue, on no charger. *)
Lemma initial_remainder_not_depleted :
  let config := default_StationConfig "s1" in
  let b := initial_battery config 16 in
  nth_error (_initialize_batteries config) 16 = Some (b, ToChargeQueue)
  /\ (16 <? Qfloor ((8 # 10) * inject_Z (total_batteries config)))%Z = false
  /\ soc b == 60
  /\ status b = CHARGING
  /\ status b <> DEPLETED.
Proof.
  cbv zeta. repeat split; try reflexivity. discriminate.
Qed.

(** ** Scenario interventions *)

Lemma dict_get_set_same {V} (k : string) (v : V) (d : list (string * V)) :
  dict_get k (dict_set k v d) = Some v.
Proof.
  induction d as [|[k' v'] r IH]; simpl.
  - rewrite String.eqb_refl. reflexivity.
  - destruct (String.eqb k k') eqn:E; simpl; rewrite ?E, ?String.eqb_refl; auto.
Qed.

Lemma truthy_nonempty (t : string) : t <> EmptyString -> truthy (Some t) = true.
Proof. destruct t; [congruence|reflexivity]. Qed.

Lemma target_in_found (t : string) (st : StationConfig)
    (stations : list (string * StationConfig)) :
  t <> EmptyString -> dict_get t stations = Some st ->
  target_in (Some t) stations = Some (t, st).
Proof.
  intros Ht Hg. unfold target_in. rewrite (truthy_nonempty t Ht), Hg. reflexivity.
Qed.

(** C5, what the code does.  A MODIFY_CHARGERS intervention with
    [new_count < 1] on an existing station passes the validator (which
    only checks that the key is present) and is applied: afterwards the
    target station has [charger_count = new_count < 1]. *)
Theorem modify_chargers_below_one_accepted :
  forall (stations : list (string * StationConfig)) (target : string)
         (st : StationConfig) (n : Z),
    target <> EmptyString ->
    dict_get target stations = Some st ->
    (n < 1)%Z ->
    validate_intervention_params (modify_chargers_to target n)
    = Ok (modify_chargers_to target n)
    /\ exists stations',
         _apply_single_intervention stations (modify_chargers_to target n)
         = Ok stations'
         /\ dict_get target stations' = Some (set_charger_count st n)
         /\ (charger_count (set_charger_count st n) < 1)%Z.
Proof.
  intros stations target st n Ht Hg Hn. split.
  - unfold validate_intervention_params, modify_chargers_to.
    cbn [iv_type target_station_id needs_target].
    rewrite (truthy_nonempty target Ht). reflexivity.
  - exists (dict_set target (set_charger_count st n) stations).
    split; [|split].
    + unfold _apply_single_intervention, modify_chargers_to.
      cbn [iv_type target_station_id].
      rewrite (target_in_found target st stations Ht Hg). reflexivity.
    + apply dict_get_set_same.
    + simpl. exact Hn.
Qed.

Lemma modify_chargers_below_one_accepted_witness :
  validate_intervention_params (modify_chargers_to "s1" 0)
  = Ok (modify_chargers_to "s1" 0)
  /\ exists stations',
       _apply_single_intervention [("s1"%string, default_StationConfig "s1")]
         (modify_chargers_to "s1" 0) = Ok stations'
       /\ dict_get "s1" stations'
          = Some (set_charger_count (default_StationConfig "s1") 0)
       /\ (charger_count (set_charger_count (default_StationConfig "s1") 0) < 1)%Z.
Proof.
  apply (modify_chargers_below_one_accepted
           [("s1"%string, default_StationConfig "s1")] "s1"
           (default_StationConfig "s1") 0).
  - discriminate.
  - reflexivity.
  - lia.
Defined.

(** The same intervention through the whole constructor: the effective
    station list holds a station with no charger, and the only error is the
    one [simpy.Resource] raises when that station is built.  Aimed at a
    station that does not exist, the intervention is ignored. *)
Lemma modify_chargers_zero_end_to_end :
  _apply_interventions (Some (scenario_with [modify_chargers_to "s1" 0]))
    [default_StationConfig "s1"]
  = Ok [set_charger_count (default_StationConfig "s1") 0]
  /\ new_Station 0 (set_charger_count (default_StationConfig "s1") 0) true
     = Raise (ValueError "capacity must be > 0.")
  /\ _apply_interventions (Some (scenario_with [modify_chargers_to "s9" 0]))
       [default_StationConfig "s1"]
     = Ok [default_StationConfig "s1"].
Proof. repeat split. Qed.

(** C8, what the code does.  A MODIFY_INVENTORY intervention on an
    existing station sets [total_batteries] to [total_batteries + delta];
    nothing keeps the result at 1 or above. *)
Theorem modify_inventory_not_clamped :
  forall (stations : list (string * StationConfig)) (target : string)
         (st : StationConfig) (delta : Z),
    target <> EmptyString ->
    dict_get target stations = Some st ->
    exists stations',
      _apply_single_intervention stations (modify_inventory_by target delta)
      = Ok stations'
      /\ dict_get target stations'
         = Some (set_total_batteries st (total_batteries st + delta)%Z)
      /\ ((total_batteries st + delta < 1)%Z ->
          forall st', dict_get target stations' = Some st' ->
                      total_batteries st' <> Z.max 1 (total_batteries st + delta)).
Proof.
  intros stations target st delta Ht Hg.
  exists (dict_set target
            (set_total_batteries st (total_batteries st + delta)%Z) stations).
  split; [|split].
  - unfold _apply_single_intervention, modify_inventory_by.
    cbn [iv_type target_station_id].
    rewrite (target_in_found target st stations Ht Hg). reflexivity.
  - apply dict_get_set_same.
  - intros Hlt st' Hst'. rewrite dict_get_set_same in Hst'.
    injection Hst' as <-. simpl. lia.
Qed.

Lemma modify_inventory_not_clamped_witness :
  exists stations',
    _apply_single_intervention [("s1"%string, default_StationConfig "s1")]
      (modify_inventory_by "s1" (-25)) = Ok stations'
    /\ dict_get "s1" stations'
       = Some (set_total_batteries (default_StationConfig "s1") (-5)).
Proof.
  destruct (modify_inventory_not_clamped
              [("s1"%string, default_StationConfig "s1")] "s1"
              (default_StationConfig "s1") (-25)) as [d [H1 [H2 _]]].
  - discriminate.
  - reflexivity.
  - exists d. split; [exact H1|exact H2].
Defined.

(** ** Arrival rate *)

(** C3, what the code does.  With no real-network data the loader returns
    a mean arrival time of 10 minutes, which is positive, so the generator
    takes the data branch: the station rate is [60 / 10] times the demand
    multiplier and the scenario adjustment, whatever the demand curve and
    the number of stations.  For two stations and a flat curve of 10
    arrivals per hour the rate is 6 where the curve divided by the number
    of stations gives 5. *)
Theorem no_real_data_rate_ignores_demand_curve :
  (forall (config : SimulationConfig) (n_stations : nat) (hour : Z),
      station_rate (snd (load_real_network no_real_network)) config n_stations hour
      == 60 / 10 * demand_multiplier config * scenario_adjustment config hour)
  /\ station_rate (snd (load_real_network no_real_network)) two_station_config 2 0
     == 6
  /\ get_rate (demand_curve two_station_config) 0
     * demand_multiplier two_station_config
     * scenario_adjustment two_station_config 0 / 2 == 5.
Proof.
  split; [|split; reflexivity].
  intros config n hour. unfold station_rate, scenario_adjustment. simpl.
  destruct (scenario config) as [sc|]; simpl.
  - destruct (int_dict_get hour (demand_adjustments sc)); simpl.
    + reflexivity.
    + rewrite Qmult_1_r. reflexivity.
  - rewrite Qmult_1_r. reflexivity.
Qed.

(** The division by the number of stations is taken only when the mean
    arrival time is not positive. *)
Lemma station_rate_curve_branch (config : SimulationConfig) (n : nat) (hour : Z)
    (mean : Q) :
  mean <= 0 -> (0 < n)%nat ->
  station_rate mean config n hour
  == get_rate (demand_curve config) hour * demand_multiplier config
     * scenario_adjustment config hour / inject_Z (Z.of_nat n).
Proof.
  intros Hm Hn. unfold station_rate, scenario_adjustment.
  apply Qltb_ge in Hm. rewrite Hm.
  destruct n as [|n]; [lia|]. cbn [Nat.eqb].
  destruct (scenario config) as [sc|].
  - destruct (int_dict_get hour (demand_adjustments sc)); [reflexivity|].
    rewrite Qmult_1_r. reflexivity.
  - simpl int_dict_get. cbv iota. rewrite Qmult_1_r. reflexivity.
Qed.

(** ** The stockout path of the swap handler *)

Lemma nth_error_list_set_same {A} (l : list A) (i : nat) (x y : A) :
  nth_error l i = Some y -> nth_error (list_set l i x) i = Some x.
Proof.
  revert i. induction l as [|a l IH]; intros [|i] H; simpl in *;
    try discriminate; auto.
Qed.

Lemma nth_error_list_set_other {A} (l : list A) (i j : nat) (x : A) :
  i <> j -> nth_error (list_set l i x) j = nth_error l j.
Proof.
  revert i j. induction l as [|a l IH]; intros [|i] [|j] H; simpl;
    try reflexivity; try congruence.
  apply IH. congruence.
Qed.

Lemma length_list_set {A} (l : list A) (i : nat) (x : A) :
  List.length (list_set l i x) = List.length l.
Proof.
  revert i. induction l as [|a l IH]; intros [|i]; simpl; auto.
Qed.

Lemma no_swappable_count (self : Station) :
  (forall b, In b (battery_pool self) -> is_swappable b = false) ->
  get_available_battery_count self = 0%nat.
Proof.
  unfold get_available_battery_count. intro H.
  induction (battery_pool self) as [|b l IH]; [reflexivity|].
  simpl. rewrite (H b (or_introl eq_refl)). apply IH.
  intros b' Hb'. apply H. right. exact Hb'.
Qed.

(** C4.  When the pool of the station holds no swappable battery, the
    handler logs VEHICLE_ARRIVAL and then LOST_SWAP with reason
    "stockout", adds exactly 1 to [lost_swaps], takes back the 1 it added
    to [current_queue_length] on entry, and returns [False] at once: the
    only event it schedules is the end of its own process, with result
    false, at the current instant.  The pool and the parked requests are
    unchanged, and so are [total_swaps] and the wait-time statistics. *)
Theorem stockout_is_lost_swap :
  forall {R : NumpyRandom} (o : Orchestrator) (w : World) (s : nat)
         (vehicle_id : string) (self : Station),
    nth_error (objs w) s = Some self ->
    has_orchestrator self = true ->
    (forall b, In b (battery_pool self) -> is_swappable b = false) ->
    let w' := exec o (InitVeh s vehicle_id) w in
    let station_meta := [("station_id", MStr (sc_id (config self)));
                         ("sim_time", MNum (now w))]%string in
    let queue_meta := [("queue_length", MInt (current_queue_length self + 1))]%string in
    exists self' : Station,
      nth_error (objs w') s = Some self'
      /\ events w'
         = events w
           ++ [mkEvent (now w) (run_id o) vehicle_id VEHICLE_ARRIVAL
                 (station_meta ++ queue_meta);
               mkEvent (now w) (run_id o) vehicle_id LOST_SWAP
                 (station_meta ++ ("reason", MStr "stockout")%string :: queue_meta)]
      /\ agenda w'
         = insert_event (Qred (now w + 0), NORMAL, ProcessDone false) (agenda w)
      /\ now w' = now w
      /\ failure w' = failure w
      /\ lost_swaps (stats self') = (lost_swaps (stats self) + 1)%Z
      /\ current_queue_length self' = (current_queue_length self + 1 - 1)%Z
      /\ battery_pool self' = battery_pool self
      /\ pool_get_queue self' = pool_get_queue self
      /\ charge_queue self' = charge_queue self
      /\ total_swaps (stats self') = total_swaps (stats self)
      /\ total_wait_time (stats self') = total_wait_time (stats self)
      /\ max_wait_time (stats self') = max_wait_time (stats self).
Proof.
  intros R o w s vehicle_id self Hs Horch Hpool. cbv zeta.
  unfold exec, on_station. cbn [segment_of]. rewrite Hs.
  unfold handle_vehicle_arrival.
  match goal with
  | |- context [get_available_battery_count ?x] =>
      assert (Hc : get_available_battery_count x = 0%nat)
        by (apply no_swappable_count; exact Hpool)
  end.
  cbv zeta. rewrite Hc. cbn [Nat.eqb].
  unfold apply_outcome, _log_event. simpl. rewrite Horch. simpl.
  eexists. split.
  - eapply nth_error_list_set_same. exact Hs.
  - unfold schedule, log_event. simpl.
    rewrite <- app_assoc. simpl.
    repeat split; reflexivity.
Qed.

Lemma stockout_is_lost_swap_witness :
  let R := ScriptedRandom [] in
  let self := mkStation (default_StationConfig "s1") true new_StationStats 0 []
                [] [] [] 1 0 0 in
  let o := mkOrchestrator one_station_config entropy_a 10 [("s1"%string, 0%nat)] in
  let w := mkWorld (R := R) 5 [] [self] [] [] 0 None in
  exists self' : Station,
    nth_error (objs (exec o (InitVeh 0 "vehicle_aaaaaaaa") w)) 0 = Some self'
    /\ lost_swaps (stats self') = 1%Z
    /\ current_queue_length self' = 0%Z
    /\ agenda (exec o (InitVeh 0 "vehicle_aaaaaaaa") w)
       = [(5, NORMAL, ProcessDone false)].
Proof.
  intros R self o w.
  destruct (stockout_is_lost_swap o w 0 "vehicle_aaaaaaaa" self)
    as [self' [H1 [_ [H3 [_ [_ [H6 [H7 _]]]]]]]].
  - reflexivity.
  - reflexivity.
  - intros b [].
  - exists self'. split; [exact H1|]. split; [exact H6|]. split; [exact H7|].
    exact H3.
Defined.

(** ** The agenda *)

Lemma insert_event_perm (e : AgendaEntry) (l : list AgendaEntry) :
  Permutation (insert_event e l) (e :: l).
Proof.
  induction l as [|x r IH]; simpl.
  - apply Permutation_refl.
  - destruct (entry_ltb e x).
    + apply Permutation_refl.
    + eapply Permutation_trans; [apply perm_skip, IH|]. apply perm_swap.
Qed.

Lemma count_actions_perm (f : Action -> nat) (l l' : list AgendaEntry) :
  Permutation l l' -> count_actions f l = count_actions f l'.
Proof.
  intro P. unfold count_actions.
  induction P; simpl; lia.
Qed.

Lemma count_actions_app (f : Action -> nat) (l l' : list AgendaEntry) :
  count_actions f (l ++ l') = (count_actions f l + count_actions f l')%nat.
Proof.
  unfold count_actions. rewrite map_app, list_sum_app. reflexivity.
Qed.

Lemma count_actions_le (f g : Action -> nat) (l : list AgendaEntry) :
  (forall a, f a <= g a)%nat -> (count_actions f l <= count_actions g l)%nat.
Proof.
  intro H. unfold count_actions.
  induction l as [|e l IH]; simpl; [lia|]. specialize (H (snd e)). lia.
Qed.

Section Scheduling.
Context {R : NumpyRandom}.

Lemma schedule_keeps (r : Request) (w : World) :
  now (schedule r w) = now w /\ objs (schedule r w) = objs w
  /\ events (schedule r w) = events w /\ _np_rng (schedule r w) = _np_rng w
  /\ uuid_calls (schedule r w) = uuid_calls w.
Proof.
  unfold schedule. destruct (Qltb (rq_delay r) 0); simpl; auto.
Qed.

Lemma schedule_all_keeps (rqs : list Request) (w : World) :
  now (schedule_all rqs w) = now w /\ objs (schedule_all rqs w) = objs w
  /\ events (schedule_all rqs w) = events w
  /\ _np_rng (schedule_all rqs w) = _np_rng w
  /\ uuid_calls (schedule_all rqs w) = uuid_calls w.
Proof.
  revert w. induction rqs as [|r rqs IH]; intro w; simpl; [auto|].
  destruct (IH (schedule r w)) as (A & B & C & D & E).
  destruct (schedule_keeps r w) as (A' & B' & C' & D' & E').
  unfold schedule_all in *. simpl. repeat split; congruence.
Qed.

Lemma schedule_failed (r : Request) (w : World) :
  failure w <> None -> failure (schedule r w) <> None.
Proof.
  unfold schedule. destruct (Qltb (rq_delay r) 0); simpl; congruence.
Qed.

Lemma schedule_all_failed (rqs : list Request) (w : World) :
  failure w <> None -> failure (schedule_all rqs w) <> None.
Proof.
  revert w. induction rqs as [|r rqs IH]; intros w H; simpl; [exact H|].
  apply IH. apply schedule_failed. exact H.
Qed.

Lemma schedule_ok (r : Request) (w : World) :
  failure (schedule r w) = None ->
  failure w = None /\ Qltb (rq_delay r) 0 = false
  /\ agenda (schedule r w) = insert_event (entry_of (now w) r) (agenda w).
Proof.
  unfold schedule. destruct (Qltb (rq_delay r) 0); simpl; [discriminate|auto].
Qed.

Lemma schedule_all_ok (rqs : list Request) (w : World) :
  failure (schedule_all rqs w) = None ->
  failure w = None
  /\ Forall (fun r => Qltb (rq_delay r) 0 = false) rqs
  /\ Permutation (agenda (schedule_all rqs w))
       (agenda w ++ map (entry_of (now w)) rqs).
Proof.
  revert w. induction rqs as [|r rqs IH]; intros w H; simpl in *.
  - rewrite app_nil_r. auto.
  - destruct (IH _ H) as (F & A & P).
    destruct (schedule_ok r w F) as (F' & D & Ag).
    split; [exact F'|]. split; [constructor; assumption|].
    eapply Permutation_trans; [exact P|].
    destruct (schedule_keeps r w) as (N & _). rewrite N, Ag.
    eapply Permutation_trans;
      [apply Permutation_app_tail, insert_event_perm|].
    simpl. apply Permutation_middle.
Qed.

Lemma log_all_keeps (o : Orchestrator) (logs : list LogCall) (w : World) :
  let w' := fold_left (fun w c => log_event o c w) logs w in
  now w' = now w /\ objs w' = objs w /\ agenda w' = agenda w
  /\ _np_rng w' = _np_rng w /\ uuid_calls w' = uuid_calls w
  /\ failure w' = failure w
  /\ events w' = events w ++ map (event_of o (now w)) logs.
Proof.
  revert w. induction logs as [|c logs IH]; intro w; simpl.
  - rewrite app_nil_r. repeat split.
  - destruct (IH (log_event o c w)) as (A & B & C & D & E & F & G).
    simpl in *. repeat split; try assumption.
    rewrite G. rewrite <- app_assoc. reflexivity.
Qed.

(** The effect of a code segment on the world, when nothing raised. *)
Lemma apply_outcome_ok (o : Orchestrator) (s : nat) (out : Outcome) (w : World) :
  let w' := apply_outcome o s out w in
  now w' = now w
  /\ objs w' = list_set (objs w) s (o_station out)
  /\ events w' = events w ++ map (event_of o (now w)) (o_log out)
  /\ _np_rng w' = _np_rng w
  /\ uuid_calls w' = uuid_calls w
  /\ (failure w' = None ->
      failure w = None
      /\ Forall (fun r => Qltb (rq_delay r) 0 = false) (o_requests out)
      /\ Permutation (agenda w')
           (agenda w ++ map (entry_of (now w)) (o_requests out))).
Proof.
  unfold apply_outcome. cbv zeta.
  set (w1 := set_objs w (list_set (objs w) s (o_station out))).
  destruct (log_all_keeps o (o_log out) w1) as (A & B & C & D & E & F & G).
  set (w2 := fold_left (fun w c => log_event o c w) (o_log out) w1) in *.
  destruct (schedule_all_keeps (o_requests out) w2) as (A' & B' & C' & D' & E').
  do 5 (split; [simpl in *; congruence|]).
  intro H. apply schedule_all_ok in H. destruct H as (H & Hd & P).
  split; [rewrite F in H; exact H|]. split; [exact Hd|].
  rewrite C, A in P. exact P.
Qed.

End Scheduling.

(** ** One charging loop per station *)

Lemma count_actions_entries (f : Action -> nat) (now : Q) (rqs : list Request) :
  count_actions f (map (entry_of now) rqs) = requests_weight f rqs.
Proof.
  unfold count_actions, requests_weight. rewrite map_map. reflexivity.
Qed.

Lemma requests_weight_app (f : Action -> nat) (l l' : list Request) :
  requests_weight f (l ++ l') = (requests_weight f l + requests_weight f l')%nat.
Proof.
  unfold requests_weight. rewrite map_app, list_sum_app. reflexivity.
Qed.

(** Serving the parked [get]s of the pool only resumes swap handlers. *)
Lemma pool_trigger_get_requests (s : nat) (parked : list (string * Q)) :
  forall items items' parked' rq,
    pool_trigger_get s items parked = (items', parked', rq) ->
    Forall (fun r => exists v t b, r = succeed (PoolGot s v t b)) rq.
Proof.
  induction parked as [|[v t] rest IH]; intros items items' parked' rq H;
    simpl in H.
  - injection H as <- <- <-. constructor.
  - destruct (take_first is_swappable items) as [[b it]|] eqn:E.
    + destruct (pool_trigger_get s it rest) as [[i2 p2] r2] eqn:E2.
      injection H as <- <- <-. constructor; [eauto|]. eapply IH; eauto.
    + destruct (pool_trigger_get s items rest) as [[i2 p2] r2] eqn:E2.
      injection H as <- <- <-. eapply IH; eauto.
Qed.

Lemma handlers_weigh_nothing (f : Action -> nat) (s : nat) (rq : list Request) :
  (forall v t b, f (PoolGot s v t b) = 0%nat) ->
  Forall (fun r => exists v t b, r = succeed (PoolGot s v t b)) rq ->
  requests_weight f rq = 0%nat.
Proof.
  intros Hf H. unfold requests_weight.
  induction H as [|r l (v & t & b & ->) _ IH]; simpl; [reflexivity|].
  rewrite Hf. exact IH.
Qed.

Ltac weigh :=
  simpl; rewrite ?Nat.eqb_refl;
  repeat split; intros;
  unfold requests_weight; simpl; rewrite ?Nat.eqb_refl;
  repeat match goal with
    | H : ?a <> ?b |- context [(?a =? ?b)%nat] =>
        rewrite (proj2 (Nat.eqb_neq a b) H)
    end;
  simpl; try lia; try reflexivity.

Lemma pool_requests_weigh_nothing (f : Action -> nat) (s : nat)
    (items : list Battery) (parked : list (string * Q)) :
  (forall v t b, f (PoolGot s v t b) = 0%nat) ->
  requests_weight f (snd (pool_trigger_get s items parked)) = 0%nat.
Proof.
  intro Hf.
  destruct (pool_trigger_get s items parked) as [[i p] rq] eqn:E.
  simpl. eapply handlers_weigh_nothing; [exact Hf|].
  eapply pool_trigger_get_requests. exact E.
Qed.

Lemma segment_loop_balance (now : Q) (a : Action) (s : nat)
    (seg : Station -> Outcome) (self : Station) :
  segment_of now a = Some (s, seg) ->
  let out := seg self in
  config (o_station out) = config self
  /\ has_orchestrator (o_station out) = has_orchestrator self
  /\ (forall s', s' <> s ->
        requests_weight (loop_weight s') (o_requests out) = 0%nat
        /\ requests_weight (charging_weight s') (o_requests out) = 0%nat
        /\ loop_weight s' a = 0%nat /\ charging_weight s' a = 0%nat)
  /\ (requests_weight (loop_weight s) (o_requests out)
      + queue_get_queue (o_station out)
      + List.length (chargers_put_queue (o_station out))
      = loop_weight s a + queue_get_queue self
        + List.length (chargers_put_queue self))%nat
  /\ (active_chargers (o_station out)
      + Z.of_nat (charging_weight s a)
      = active_chargers self
        + Z.of_nat (requests_weight (charging_weight s) (o_requests out)))%Z.
Proof.
  intro H.
  destruct a; simpl in H; try discriminate; injection H as <- <-; cbv zeta.
  - (* InitLoop *)
    unfold _charging_loop_get, queue_trigger_get.
    destruct (charge_queue self); weigh.
  - (* InitVeh *)
    unfold handle_vehicle_arrival. cbv zeta.
    match goal with |- context [(?c =? 0)%nat] => destruct (c =? 0)%nat end.
    + weigh.
    + match goal with |- context [pool_trigger_get ?s ?i ?p] =>
        pose proof (fun f H => pool_requests_weigh_nothing f s i p H) as Hrq;
        destruct (pool_trigger_get s i p) as [[items parked] rq] end.
      simpl in Hrq. simpl.
      repeat split; intros; rewrite ?Hrq by reflexivity; weigh.
  - (* QueueGot *)
    unfold _charging_loop_request, chargers_trigger_put.
    destruct (chargers_put_queue self) as [|b0 l]; simpl;
      destruct (Z.of_nat (chargers_users self) <? charger_count (config self))%Z;
      weigh; rewrite ?length_app; simpl; try lia.
  - (* ChargerGranted *)
    unfold _charging_loop_granted, _charging_loop_charge. cbv zeta.
    simpl. destruct (0 <? cooldown_seconds (config self))%Z; weigh.
  - (* CooldownOver *)
    unfold _charging_loop_charge. weigh.
  - (* ChargeOver *)
    unfold _charging_loop_charged. weigh.
  - (* ChargerReleased *)
    unfold _on_charger_released, chargers_trigger_put.
    destruct (chargers_put_queue self) as [|b0 l]; simpl;
      try destruct (Z.of_nat (chargers_users self) <? charger_count (config self))%Z;
      weigh.
  - (* PoolPut *)
    unfold _on_pool_put.
    match goal with |- context [pool_trigger_get ?s ?i ?p] =>
      pose proof (fun f H => pool_requests_weigh_nothing f s i p H) as Hrq;
      destruct (pool_trigger_get s i p) as [[items parked] rq] end.
    simpl in Hrq.
    destruct resume_loop.
    + unfold _charging_loop_get, queue_trigger_get. simpl.
      destruct (charge_queue self); simpl; rewrite ?Nat.eqb_refl;
        repeat split; intros; rewrite ?requests_weight_app, ?Hrq by reflexivity;
        weigh.
    + simpl. repeat split; intros; rewrite ?Hrq by reflexivity; weigh.
  - (* PoolGot *)
    unfold handle_vehicle_arrival_got. weigh.
  - (* SwapOver *)
    unfold handle_vehicle_arrival_swapped. weigh.
  - (* QueuePut *)
    unfold _on_queue_put, queue_trigger_get.
    destruct (queue_get_queue self), (charge_queue self), resume_handler; weigh.
Qed.

(** ** One step of the environment *)

Section Steps.
Context {R : NumpyRandom}.

Lemma schedule_cases (r : Request) (w : World) :
  let w' := schedule r w in
  now w' = now w /\ objs w' = objs w /\ events w' = events w
  /\ uuid_calls w' = uuid_calls w
  /\ (failure w' = None ->
      failure w = None /\ Qltb (rq_delay r) 0 = false
      /\ agenda w' = insert_event (entry_of (now w) r) (agenda w)).
Proof.
  cbv zeta. destruct (schedule_keeps r w) as (A & B & C & D & E).
  do 4 (split; [assumption|]). apply schedule_ok.
Qed.

Lemma generator_cases (o : Orchestrator) (s : nat) (w : World) :
  let w' := _vehicle_arrival_generator o s w in
  now w' = now w /\ objs w' = objs w /\ events w' = events w
  /\ uuid_calls w' = uuid_calls w
  /\ (failure w' = None ->
      failure w = None
      /\ exists r, generator_action (rq_action r)
                   /\ rq_priority r = NORMAL
                   /\ Qltb (rq_delay r) 0 = false
                   /\ agenda w' = insert_event (entry_of (now w) r) (agenda w)).
Proof.
  unfold _vehicle_arrival_generator. cbv zeta.
  assert (G : forall (r : Request) (g : Generator),
             generator_action (rq_action r) -> rq_priority r = NORMAL ->
             let w' := schedule r (set_np_rng w g) in
             now w' = now w /\ objs w' = objs w /\ events w' = events w
             /\ uuid_calls w' = uuid_calls w
             /\ (failure w' = None ->
                 failure w = None
                 /\ exists r, generator_action (rq_action r)
                              /\ rq_priority r = NORMAL
                              /\ Qltb (rq_delay r) 0 = false
                              /\ agenda w'
                                 = insert_event (entry_of (now w) r) (agenda w))).
  { intros r g Hg Hp.
    destruct (schedule_cases r (set_np_rng w g)) as (A & B & C & D & E).
    do 4 (split; [assumption|]). intro F. destruct (E F) as (F' & Hd & Ha).
    split; [exact F'|]. exists r. auto. }
  destruct (Qle_bool _ 0).
  - destruct (schedule_cases (timeout 3600 (GenTick s)) w) as (A & B & C & D & E).
    do 4 (split; [assumption|]). intro F. destruct (E F) as (F' & Hd & Ha).
    split; [exact F'|]. exists (timeout 3600 (GenTick s)).
    split; [exact I|]. split; [reflexivity|]. split; [exact Hd|exact Ha].
  - destruct (standard_exponential (_np_rng w)) as [e g].
    destruct (Qltb 0 _).
    + destruct (standard_normal g) as [z g']. apply G; simpl; auto.
    + apply G; simpl; auto.
Qed.

Lemma generator_arrival_cases (o : Orchestrator) (s : nat) (w : World) :
  let w' := _vehicle_arrival_generator_arrival o s w in
  now w' = now w /\ objs w' = objs w /\ events w' = events w
  /\ (failure w' = None ->
      failure w = None
      /\ exists v r, generator_action (rq_action r)
                   /\ rq_priority r = NORMAL
                   /\ Qltb (rq_delay r) 0 = false
                   /\ agenda w'
                      = insert_event (entry_of (now w) r)
                          (insert_event (entry_of (now w) (process (InitVeh s v)))
                             (agenda w))).
Proof.
  unfold _vehicle_arrival_generator_arrival, create_vehicle. cbv zeta.
  set (v := ("vehicle_" ++ _)%string).
  set (w1 := set_uuid_calls w _).
  destruct (schedule_cases (process (InitVeh s v)) w1) as (A & B & C & D & E).
  destruct (generator_cases o s (schedule (process (InitVeh s v)) w1))
    as (A' & B' & C' & D' & E').
  split; [rewrite A', A; reflexivity|].
  split; [rewrite B', B; reflexivity|].
  split; [rewrite C', C; reflexivity|].
  intro F. destruct (E' F) as (F1 & r & Hg & Hp & Hd & Ha).
  destruct (E F1) as (F2 & _ & Ha1).
  split; [exact F2|]. exists v, r.
  rewrite Ha, Ha1, A. auto.
Qed.

(** The cases of one step of the environment that raised nothing. *)
Lemma step_cases (o : Orchestrator) (w w' : World) :
  step o w = Some w' -> failure w' = None ->
  exists t p a rest,
    agenda w = (t, p, a) :: rest /\ a <> StopSimulation /\ failure w = None
    /\ now w' = t
    /\ ((exists s seg, segment_of t a = Some (s, seg)
          /\ ((nth_error (objs w) s = None /\ objs w' = objs w
               /\ events w' = events w /\ agenda w' = rest)
              \/ (exists self, nth_error (objs w) s = Some self
                  /\ objs w' = list_set (objs w) s (o_station (seg self))
                  /\ events w'
                     = events w ++ map (event_of o t) (o_log (seg self))
                  /\ Permutation (agenda w')
                       (rest ++ map (entry_of t) (o_requests (seg self))))))
        \/ (segment_of t a = None /\ objs w' = objs w /\ events w' = events w
            /\ exists rqs, Forall (fun r => generator_action (rq_action r)) rqs
                 /\ Permutation (agenda w') (rest ++ map (entry_of t) rqs))).
Proof.
  unfold step. intros H F.
  destruct (failure w) eqn:Fw; [discriminate|].
  destruct (agenda w) as [|[[t p] a] rest] eqn:Ag; [discriminate|].
  exists t, p, a, rest.
  set (w1 := set_agenda (set_now w t) rest) in *.
  assert (Hw' : w' = exec o a w1) by (destruct a; congruence).
  assert (Ha : a <> StopSimulation) by (destruct a; congruence).
  clear H. subst w'.
  unfold exec in *. change (now w1) with t in *.
  destruct (segment_of t a) as [[s seg]|] eqn:Seg.
  - split; [reflexivity|]. split; [exact Ha|]. split; [reflexivity|].
    unfold on_station in *. change (objs w1) with (objs w) in *.
    destruct (nth_error (objs w) s) as [self|] eqn:Ns.
    + destruct (apply_outcome_ok o s (seg self) w1) as (A & B & C & D & E & G).
      split; [exact A|]. left. exists s, seg. split; [reflexivity|]. right.
      exists self. split; [exact Ns|]. split; [exact B|]. split; [exact C|].
      destruct (G F) as (_ & _ & P). exact P.
    + split; [reflexivity|]. left. exists s, seg. split; [reflexivity|]. left.
      split; [exact Ns|]. repeat split.
  - split; [reflexivity|]. split; [exact Ha|]. split; [reflexivity|].
    destruct a; simpl in Seg; try discriminate.
    + (* InitGen *)
      destruct (generator_cases o s w1) as (A & B & C & D & E).
      split; [exact A|]. right. split; [reflexivity|].
      split; [exact B|]. split; [exact C|].
      destruct (E F) as (_ & r & Hg & Hp & Hd & Hag).
      exists [r]. split; [constructor; [exact Hg|constructor]|].
      rewrite Hag. eapply Permutation_trans; [apply insert_event_perm|].
      simpl. apply Permutation_cons_append.
    + (* ProcessDone *)
      split; [reflexivity|]. right. split; [reflexivity|].
      split; [reflexivity|]. split; [reflexivity|].
      exists []. split; [constructor|]. simpl. rewrite app_nil_r.
      apply Permutation_refl.
    + (* GenTick *)
      destruct (generator_cases o s w1) as (A & B & C & D & E).
      split; [exact A|]. right. split; [reflexivity|].
      split; [exact B|]. split; [exact C|].
      destruct (E F) as (_ & r & Hg & Hp & Hd & Hag).
      exists [r]. split; [constructor; [exact Hg|constructor]|].
      rewrite Hag. eapply Permutation_trans; [apply insert_event_perm|].
      simpl. apply Permutation_cons_append.
    + (* GenArrival *)
      destruct (generator_arrival_cases o s w1) as (A & B & C & E).
      split; [exact A|]. right. split; [reflexivity|].
      split; [exact B|]. split; [exact C|].
      destruct (E F) as (_ & v & r & Hg & Hp & Hd & Hag).
      exists [process (InitVeh s v); r].
      split; [constructor; [exact I|constructor; [exact Hg|constructor]]|].
      rewrite Hag.
      eapply Permutation_trans; [apply insert_event_perm|].
      eapply Permutation_trans; [apply perm_skip, insert_event_perm|].
      change (now w1) with t.
      eapply Permutation_trans; [apply perm_swap|].
      change (Permutation ([entry_of t (process (InitVeh s v)); entry_of t r] ++ rest)
                (rest ++ [entry_of t (process (InitVeh s v)); entry_of t r])).
      apply Permutation_app_comm.
    + congruence.
Qed.
End Steps.

(** ** The loop invariant is kept by every step *)

Lemma map_list_set_same {A B} (f : A -> B) (l : list A) (i : nat) (x y : A) :
  nth_error l i = Some y -> f x = f y -> map f (list_set l i x) = map f l.
Proof.
  revert i. induction l as [|a l IH]; intros [|i] H E; simpl in *;
    try discriminate; try reflexivity.
  - injection H as ->. rewrite E. reflexivity.
  - f_equal. apply IH; assumption.
Qed.

Lemma nth_error_list_set (l : list Station) (i j : nat) (x y z : Station) :
  nth_error l i = Some y -> nth_error (list_set l i x) j = Some z ->
  (j = i /\ z = x) \/ (j <> i /\ nth_error l j = Some z).
Proof.
  intros Hi Hj. destruct (Nat.eq_dec j i) as [->|N].
  - rewrite (nth_error_list_set_same l i x y Hi) in Hj. injection Hj as <-. auto.
  - rewrite nth_error_list_set_other in Hj by congruence. auto.
Qed.

(** A GRID_LIMIT_HIT is logged only where the loop takes a charger, by a
    station whose power draw, counted with [active_chargers] just
    incremented, exceeds the limit. *)
Lemma segment_grid_logs (now : Q) (a : Action) (s : nat)
    (seg : Station -> Outcome) (self : Station) (c : LogCall) :
  segment_of now a = Some (s, seg) ->
  In c (o_log (seg self)) -> lc_event_type c = GRID_LIMIT_HIT ->
  lc_entity_id c = sc_id (config self)
  /\ loop_weight s a = 1%nat
  /\ charging_weight s a = 0%nat
  /\ _is_grid_limited (set_active_chargers self (active_chargers self + 1)) = true.
Proof.
  intro H.
  destruct a; simpl in H; try discriminate; injection H as <- <-;
    unfold _charging_loop_get, handle_vehicle_arrival, _charging_loop_request,
      _charging_loop_granted, _charging_loop_charge, _charging_loop_charged,
      _on_charger_released, _on_pool_put, handle_vehicle_arrival_got,
      handle_vehicle_arrival_swapped, _on_queue_put, _log_event,
      _charging_loop_get; cbv zeta;
    repeat match goal with
      | |- context [let '(_, _) := ?x in _] => destruct x as [[? ?] ?]
      | |- context [if ?x then _ else _] => destruct x eqn:?
      | |- context [match ?x with _ => _ end] => destruct x eqn:?
      end;
    simpl; rewrite ?Nat.eqb_refl; intros Hin Ht;
    repeat match goal with
      | H : _ \/ _ |- _ => destruct H
      | H : False |- _ => destruct H
      | H : In _ (_ ++ _) |- _ => apply in_app_or in H
      | H : In _ [] |- _ => destruct H
      | H : In _ (_ :: _) |- _ => destruct H
      end;
    subst; try discriminate; auto.
Qed.

Lemma grid_limited_single (self : Station) :
  active_chargers self = 0%Z ->
  _is_grid_limited (set_active_chargers self (active_chargers self + 1)) = true ->
  exists limit, grid_power_limit_kw (config self) = Some limit
                /\ limit < charge_power_kw (config self).
Proof.
  intros H0. unfold _is_grid_limited. simpl. rewrite H0.
  destruct (grid_power_limit_kw (config self)) as [limit|]; [|discriminate].
  intro H. exists limit. split; [reflexivity|].
  apply Qltb_lt in H. simpl in H. rewrite Qmult_1_l in H. exact H.
Qed.

Lemma generators_weigh_nothing (f : Action -> nat) (rqs : list Request) :
  (forall a, generator_action a -> f a = 0%nat) ->
  Forall (fun r => generator_action (rq_action r)) rqs ->
  requests_weight f rqs = 0%nat.
Proof.
  intros Hf H. unfold requests_weight.
  induction H as [|r l Hr _ IH]; simpl; [reflexivity|].
  rewrite (Hf _ Hr). exact IH.
Qed.

Section LoopInvariant.
Context {R : NumpyRandom}.

Lemma loops_invariant_step (cfgs : list StationConfig) (o : Orchestrator)
    (w w' : World) :
  loops_invariant cfgs w -> step o w = Some w' -> failure w' = None ->
  loops_invariant cfgs w'.
Proof.
  intros (Hc & Ht & Hg) Hs F.
  destruct (step_cases o w w' Hs F)
    as (t & p & a & rest & Ag & Ha & Fw & Hn & Hcase).
  assert (Hhead : forall f, count_actions f (agenda w)
                            = (f a + count_actions f rest)%nat).
  { intro f. rewrite Ag. reflexivity. }
  destruct Hcase as [(s & seg & Seg & [(Ns & Ho & He & Hag)
                                       |(self & Ns & Ho & He & Hag)])
                    |(Seg & Ho & He & rqs & Hrq & Hag)].
  - (* the station does not exist *)
    split; [rewrite Ho; exact Hc|]. split; [|rewrite He; exact Hg].
    intros s' self' Hs'. rewrite Ho in Hs'.
    destruct (Ht s' self' Hs') as (T1 & T2).
    assert (Hne : s' <> s) by (intro; subst; congruence).
    destruct (segment_loop_balance t a s seg self' Seg)
      as (_ & _ & Hoth & _).
    destruct (Hoth s' Hne) as (_ & _ & L & C).
    rewrite Hhead in T1, T2. rewrite L in T1. rewrite C in T2.
    rewrite Hag. split; assumption.
  - (* a code segment of station [s] ran *)
    destruct (segment_loop_balance t a s seg self Seg)
      as (Bc & _ & Hoth & Bl & Ba).
    assert (Hcount : forall f, count_actions f (agenda w')
                     = (count_actions f rest
                        + requests_weight f (o_requests (seg self)))%nat).
    { intro f. rewrite (count_actions_perm f _ _ Hag).
      rewrite count_actions_app, count_actions_entries. reflexivity. }
    destruct (Ht s self Ns) as (S1 & S2). rewrite Hhead in S1, S2.
    split; [|split].
    + rewrite Ho. rewrite (map_list_set_same config _ s _ self Ns Bc). exact Hc.
    + intros s' self' Hs'. rewrite Ho in Hs'.
      destruct (nth_error_list_set _ _ _ _ _ _ Ns Hs') as [(-> & ->)|(Hne & Hs'')].
      * split; rewrite !Hcount; lia.
      * destruct (Ht s' self' Hs'') as (T1 & T2).
        destruct (Hoth s' Hne) as (L1 & C1 & L & C).
        rewrite Hhead in T1, T2. rewrite L in T1. rewrite C in T2.
        split; rewrite !Hcount; lia.
    + intros e Hin Hty. rewrite He in Hin. apply in_app_or in Hin.
      destruct Hin as [Hin|Hin]; [exact (Hg e Hin Hty)|].
      apply in_map_iff in Hin. destruct Hin as (c & <- & Hin).
      simpl in Hty.
      destruct (segment_grid_logs t a s seg self c Seg Hin Hty)
        as (Hid & Lw & Cw & Hlim).
      assert (H0 : active_chargers self = 0%Z).
      { pose proof (count_actions_le (charging_weight s) (loop_weight s) rest) as Hle.
        assert (Hp : forall a0, (charging_weight s a0 <= loop_weight s a0)%nat).
        { intro a0. destruct a0; simpl; try lia;
            try destruct resume_loop; destruct (s =? s0)%nat; lia. }
        specialize (Hle Hp). rewrite Lw in S1. rewrite Cw in S2. lia. }
      destruct (grid_limited_single self H0 Hlim) as (limit & Hl & Hlt).
      exists (config self), limit. repeat split; try assumption.
      * rewrite <- Hc. apply in_map. eapply nth_error_In. exact Ns.
      * simpl. symmetry. exact Hid.
  - (* a process of the orchestrator ran *)
    split; [rewrite Ho; exact Hc|]. split; [|rewrite He; exact Hg].
    pose proof (fun f Hf => generators_weigh_nothing f rqs Hf Hrq) as Hz.
    assert (Ha0 : forall s', loop_weight s' a = 0%nat /\ charging_weight s' a = 0%nat).
    { intro s'. destruct a; simpl in Seg; try discriminate; simpl; auto. }
    intros s' self' Hs'. rewrite Ho in Hs'.
    destruct (Ht s' self' Hs') as (T1 & T2).
    destruct (Ha0 s') as (L & C).
    rewrite Hhead in T1, T2. rewrite L in T1. rewrite C in T2.
    split; rewrite (count_actions_perm _ _ _ Hag), count_actions_app,
             count_actions_entries, Hz;
      try lia; intros a0 G; destruct a0; simpl in G; try contradiction; reflexivity.
Qed.

End LoopInvariant.

(** ** The initial world *)

Lemma new_Station_spec (s : nat) (config0 : StationConfig) (self : Station)
    (rq : list Request) :
  new_Station s config0 true = Ok (self, rq) ->
  config self = config0 /\ fresh_station self
  /\ (1 <= charger_count config0)%Z
  /\ Forall (fun r => rq_delay r = 0) rq
  /\ (forall s', requests_weight (loop_weight s') rq
                 = if (s' =? s)%nat then 1%nat else 0%nat)
  /\ (forall f, (forall s' b, f (PoolPut s' b) = 0%nat) ->
                (forall s' x, f (QueuePut s' x) = 0%nat) ->
                (forall s', f (InitLoop s') = 0%nat) ->
                requests_weight f rq = 0%nat).
Proof.
  unfold new_Station. destruct (charger_count config0 <=? 0)%Z eqn:E;
    [discriminate|].
  intro H. injection H as <- <-. simpl.
  split; [reflexivity|]. split; [repeat split|]. split; [lia|].
  split; [|split].
  - apply Forall_app. split.
    + apply Forall_forall. intros r Hr. apply in_map_iff in Hr.
      destruct Hr as ([b p] & <- & _). destruct p; reflexivity.
    + constructor; [reflexivity|constructor].
  - intro s'. rewrite requests_weight_app.
    assert (Hz : forall l : list (Battery * Placement),
               requests_weight (loop_weight s')
                 (map (fun bp => match snd bp with
                                 | ToPool => succeed (PoolPut s false)
                                 | ToChargeQueue => succeed (QueuePut s None)
                                 end) l) = 0%nat).
    { induction l as [|[b p] l IH]; [reflexivity|].
      unfold requests_weight in *. simpl. rewrite IH. destruct p; reflexivity. }
    rewrite Hz. unfold requests_weight. simpl.
    destruct (s' =? s)%nat; reflexivity.
  - intros f H1 H2 H3. rewrite requests_weight_app.
    assert (Hz : forall l : list (Battery * Placement),
               requests_weight f
                 (map (fun bp => match snd bp with
                                 | ToPool => succeed (PoolPut s false)
                                 | ToChargeQueue => succeed (QueuePut s None)
                                 end) l) = 0%nat).
    { induction l as [|[b p] l IH]; [reflexivity|].
      unfold requests_weight in *. simpl. rewrite IH.
      destruct p; simpl; rewrite ?H1, ?H2; reflexivity. }
    rewrite Hz. unfold requests_weight. simpl. rewrite H3. reflexivity.
Qed.

Lemma initialize_stations_spec (effective : list StationConfig) :
  forall objs index rq objs' index' rq',
    _initialize_stations effective objs index rq = Ok (objs', index', rq') ->
    Forall fresh_station objs ->
    Forall (fun r => rq_delay r = 0) rq ->
    (forall s, requests_weight (loop_weight s) rq
               = if (s <? List.length objs)%nat then 1%nat else 0%nat) ->
    (forall s, requests_weight (charging_weight s) rq = 0%nat) ->
    map config objs' = map config objs ++ effective
    /\ Forall fresh_station objs'
    /\ Forall (fun r => rq_delay r = 0) rq'
    /\ (forall s, requests_weight (loop_weight s) rq'
                  = if (s <? List.length objs')%nat then 1%nat else 0%nat)
    /\ (forall s, requests_weight (charging_weight s) rq' = 0%nat).
Proof.
  induction effective as [|c rest IH]; intros objs index rq objs' index' rq' H Hf Hd Hl Hc.
  - simpl in H. injection H as <- <- <-. rewrite app_nil_r. auto.
  - simpl in H. unfold bind in H.
    destruct (new_Station (List.length objs) c true) as [[self nrq]|e] eqn:E;
      [|discriminate].
    simpl in H.
    destruct (new_Station_spec _ _ _ _ E) as (Cf & Fr & _ & Dl & Lw & Zw).
    apply IH in H.
    + destruct H as (M & F' & D' & L' & C').
      split; [|auto].
      rewrite M, map_app. simpl. rewrite Cf, <- app_assoc. reflexivity.
    + apply Forall_app. split; [exact Hf|constructor; [exact Fr|constructor]].
    + apply Forall_app. split; assumption.
    + intro s. rewrite requests_weight_app, Hl, Lw, length_app. simpl.
      destruct (s <? List.length objs)%nat eqn:E1;
        destruct (s =? List.length objs)%nat eqn:E2;
        destruct (s <? List.length objs + 1)%nat eqn:E3;
        try reflexivity;
        rewrite ?Nat.ltb_lt, ?Nat.ltb_ge, ?Nat.eqb_eq, ?Nat.eqb_neq in *; lia.
    + intro s. rewrite requests_weight_app, Hc, Zw; reflexivity.
Qed.

Section Initial.
Context {R : NumpyRandom}.

Lemma new_Orchestrator_spec (data : RealNetworkData) (entropy : nat -> string)
    (config0 : SimulationConfig) (o : Orchestrator) (w0 : World) :
  new_Orchestrator data entropy config0 = Ok (o, w0) ->
  orch_config o = config0 /\ uuid4 o = entropy
  /\ exists effective objs0 index rq,
       _apply_interventions (scenario config0)
         (match fst (load_real_network data) with
          | [] => stations config0
          | _ :: _ => fst (load_real_network data)
          end) = Ok effective
       /\ _initialize_stations effective [] [] [] = Ok (objs0, index, rq)
       /\ orch_stations o = index
       /\ w0 = schedule_all rq
                 (mkWorld 0 [] objs0 [] (default_rng (random_seed config0)) 0 None).
Proof.
  unfold new_Orchestrator.
  destruct (load_real_network data) as [real mean] eqn:L. simpl.
  unfold bind.
  destruct (_apply_interventions _ _) as [effective|] eqn:A; [|discriminate].
  destruct (_initialize_stations effective [] [] []) as [[[objs0 index] rq]|] eqn:I;
    [|discriminate].
  intro H. injection H as <- <-. simpl.
  split; [reflexivity|]. split; [reflexivity|].
  exists effective, objs0, index, rq. auto.
Qed.

Lemma start_run_spec (o : Orchestrator) (w : World) :
  failure (start_run o w) = None ->
  failure w = None
  /\ now (start_run o w) = now w /\ objs (start_run o w) = objs w
  /\ events (start_run o w) = events w
  /\ (0 < duration_days (orch_config o) * 24 * 3600)%Z
  /\ exists gens,
       Forall (fun r => exists s, r = process (InitGen s)) gens
       /\ Permutation (agenda (start_run o w))
            (entry_of (now w)
               (mkRequest URGENT (horizon_of (orch_config o)) StopSimulation)
             :: agenda w ++ map (entry_of (now w)) gens).
Proof.
  unfold start_run. cbv zeta.
  set (gens := map (fun s => process (InitGen s)) (dict_values (orch_stations o))).
  destruct (duration_days (orch_config o) * 24 * 3600 <=? 0)%Z eqn:E;
    [discriminate|].
  intro F.
  destruct (schedule_cases
              (mkRequest URGENT
                 (inject_Z (duration_days (orch_config o) * 24 * 3600))
                 StopSimulation) (schedule_all gens w)) as (A & B & C & D & G).
  destruct (G F) as (F1 & _ & Ag).
  destruct (schedule_all_keeps gens w) as (A' & B' & C' & _).
  destruct (schedule_all_ok gens w F1) as (F2 & _ & P).
  split; [exact F2|]. split; [congruence|]. split; [congruence|].
  split; [congruence|]. split; [lia|].
  exists gens. split.
  - apply Forall_forall. intros r Hr. apply in_map_iff in Hr.
    destruct Hr as (s & <- & _). eauto.
  - rewrite Ag. eapply Permutation_trans; [apply insert_event_perm|].
    rewrite A'. apply perm_skip. exact P.
Qed.

Lemma reachable_invariant (o : Orchestrator) (P : World -> Prop) (w0 w : World) :
  (failure w0 = None -> P w0) ->
  (forall w w', P w -> step o w = Some w' -> failure w' = None -> P w') ->
  reachable o w0 w -> failure w = None -> P w.
Proof.
  intros H0 Hstep Hr. induction Hr as [|w w' Hr IH Hs]; [exact H0|].
  intro F. eapply Hstep; [|exact Hs|exact F].
  apply IH. unfold step in Hs. destruct (failure w); [discriminate|reflexivity].
Qed.

Lemma starts_weigh_nothing (f : Action -> nat) (gens : list Request) :
  (forall s, f (InitGen s) = 0%nat) ->
  Forall (fun r => exists s, r = process (InitGen s)) gens ->
  requests_weight f gens = 0%nat.
Proof.
  intros Hgen Hg. unfold requests_weight.
  induction Hg as [|r l (s & ->) _ IH]; simpl; [reflexivity|].
  rewrite Hgen. exact IH.
Qed.

Lemma loops_invariant_start (data : RealNetworkData) (entropy : nat -> string)
    (config0 : SimulationConfig) (o : Orchestrator) (w0 : World) :
  new_Orchestrator data entropy config0 = Ok (o, w0) ->
  failure (start_run o w0) = None ->
  loops_invariant (map config (objs w0)) (start_run o w0).
Proof.
  intros Hn F.
  destruct (new_Orchestrator_spec _ _ _ _ _ Hn)
    as (_ & _ & effective & objs0 & index & rq & _ & Hi & _ & Hw).
  destruct (initialize_stations_spec effective [] [] [] objs0 index rq Hi
              (Forall_nil _) (Forall_nil _) (fun _ => eq_refl) (fun _ => eq_refl))
    as (_ & Fr & Dl & Lw & Cw).
  destruct (start_run_spec o w0 F) as (F0 & Nw & Ob & Ev & _ & gens & Hg & P).
  assert (P0 : Permutation (agenda w0) (map (entry_of 0) rq)).
  { rewrite Hw in F0 |- *. destruct (schedule_all_ok _ _ F0) as (_ & _ & P0).
    exact P0. }
  assert (O0 : objs w0 = objs0).
  { rewrite Hw. destruct (schedule_all_keeps rq
      (mkWorld 0 [] objs0 [] (default_rng (random_seed config0)) 0 None))
      as (_ & B & _). exact B. }
  assert (E0 : events w0 = []).
  { rewrite Hw. destruct (schedule_all_keeps rq
      (mkWorld 0 [] objs0 [] (default_rng (random_seed config0)) 0 None))
      as (_ & _ & C & _). exact C. }
  assert (Hcount : forall f, f StopSimulation = 0%nat ->
                             (forall s, f (InitGen s) = 0%nat) ->
                             count_actions f (agenda (start_run o w0))
                             = requests_weight f rq).
  { intros f Hs Hgen. rewrite (count_actions_perm f _ _ P).
    change (count_actions f (?e :: ?l)) with (f (snd e) + count_actions f l)%nat.
    simpl snd. rewrite Hs. rewrite count_actions_app.
    rewrite (count_actions_perm f _ _ P0), !count_actions_entries.
    rewrite (starts_weigh_nothing f gens Hgen Hg). lia. }
  unfold loops_invariant.
  split; [rewrite Ob; reflexivity|]. split.
  - intros s self Hs. rewrite Ob, O0 in Hs.
    pose proof (proj1 (Forall_forall _ _) Fr self (nth_error_In _ _ Hs))
      as (Q1 & Q2 & _ & Q4 & _).
    assert (Hlt : (s < List.length objs0)%nat)
      by (apply nth_error_Some; congruence).
    split.
    + rewrite Hcount by reflexivity. rewrite Lw.
      apply Nat.ltb_lt in Hlt. rewrite Hlt, Q1, Q2. reflexivity.
    + rewrite Hcount by reflexivity. rewrite Cw, Q4. reflexivity.
  - rewrite Ev, E0. intros e [].
Qed.

End Initial.

(** The worlds a run steps through are reachable. *)
Lemma steps_reachable {R : NumpyRandom} (o : Orchestrator) (n : nat) :
  forall w w' : World, steps o n w = Some w' -> reachable o w w'.
Proof.
  induction n as [|n IH]; intros w w' H; simpl in H.
  - injection H as <-. apply reach_start.
  - destruct (step o w) as [w1|] eqn:E; [|discriminate].
    specialize (IH w1 w' H). clear H.
    induction IH as [|wa wb Hr IHr Hs].
    + eapply reach_step; [apply reach_start|exact E].
    + eapply reach_step; [exact IHr|exact Hs].
Qed.

(** C10.  In every world a run passes through without raising, each
    station has 0 or 1 battery on a charger, whatever its [charger_count]:
    [active_chargers] is 0 or 1.  And every GRID_LIMIT_HIT event of the
    trace names a station whose [charge_power_kw] alone exceeds its
    [grid_power_limit_kw]. *)
Theorem one_active_charger_per_station :
  forall {R : NumpyRandom} (data : RealNetworkData) (entropy : nat -> string)
         (config0 : SimulationConfig) (o : Orchestrator) (w0 w : World),
    new_Orchestrator data entropy config0 = Ok (o, w0) ->
    reachable o (start_run o w0) w ->
    failure w = None ->
    (forall s self, nth_error (objs w) s = Some self ->
       active_chargers self = 0%Z \/ active_chargers self = 1%Z)
    /\ grid_events_ok (map config (objs w)) (events w).
Proof.
  intros R data entropy config0 o w0 w Hn Hr F.
  assert (Inv : loops_invariant (map config (objs w0)) w).
  { apply (reachable_invariant o _ (start_run o w0) w); try assumption.
    - apply (loops_invariant_start data entropy config0); assumption.
    - intros w1 w2. apply loops_invariant_step. }
  destruct Inv as (Hc & Ht & Hg). split.
  - intros s self Hs. destruct (Ht s self Hs) as (T1 & T2).
    pose proof (count_actions_le (charging_weight s) (loop_weight s) (agenda w))
      as Hle.
    assert (Hp : forall a0, (charging_weight s a0 <= loop_weight s a0)%nat).
    { intro a0. destruct a0; simpl; try lia;
        try destruct resume_loop; destruct (s =? s0)%nat; lia. }
    specialize (Hle Hp). lia.
  - rewrite Hc. exact Hg.
Qed.

Lemma one_active_charger_per_station_witness :
  exists (o : Orchestrator) (w0 w : World (R := ScriptedRandom early_arrival_script)),
    new_Orchestrator no_real_network entropy_a grid_limited_config = Ok (o, w0)
    /\ steps o 60 (start_run o w0) = Some w
    /\ now w = 240
    /\ map (fun self => (sc_id (config self), charger_count (config self),
                         charge_power_kw (config self),
                         grid_power_limit_kw (config self))) (objs w)
       = [("s1", 4%Z, 60, Some 50); ("s2", 4%Z, 60, Some 100)]%string
    /\ map active_chargers (objs w) = [1%Z; 1%Z]
    /\ map (fun e => (entity_id e, ev_time e))
         (filter (is_event GRID_LIMIT_HIT) (events w))
       = [("s1", 0); ("s1", 240)]%string
    /\ (forall s self, nth_error (objs w) s = Some self ->
          active_chargers self = 0%Z \/ active_chargers self = 1%Z)
    /\ grid_events_ok (map config (objs w)) (events w).
Proof.
  eexists. eexists. eexists.
  split; [vm_compute; reflexivity|].
  split; [vm_compute; reflexivity|].
  split; [vm_compute; reflexivity|].
  split; [vm_compute; reflexivity|].
  split; [vm_compute; reflexivity|].
  split; [vm_compute; reflexivity|].
  refine (one_active_charger_per_station
            (R := ScriptedRandom early_arrival_script)
            no_real_network entropy_a grid_limited_config _ _ _ _ _ _).
  - vm_compute. reflexivity.
  - apply (steps_reachable _ 60). vm_compute. reflexivity.
  - vm_compute. reflexivity.
Defined.

(** ** The order of the agenda *)

Lemma entry_ltb_spec (a b : AgendaEntry) :
  entry_ltb a b = true
  <-> fst (fst a) < fst (fst b)
      \/ (fst (fst a) == fst (fst b) /\ (snd (fst a) < snd (fst b))%nat).
Proof.
  destruct a as [[ta pa] xa], b as [[tb pb] xb]. simpl.
  rewrite orb_true_iff, andb_true_iff, Qltb_lt, Qeq_bool_iff, Nat.ltb_lt.
  reflexivity.
Qed.

Lemma entry_le_spec (a b : AgendaEntry) :
  entry_le a b
  <-> fst (fst a) < fst (fst b)
      \/ (fst (fst a) == fst (fst b) /\ (snd (fst a) <= snd (fst b))%nat).
Proof.
  unfold entry_le. rewrite <- not_true_iff_false, entry_ltb_spec.
  destruct a as [[ta pa] xa], b as [[tb pb] xb]. simpl. split.
  - intro H. destruct (Qlt_le_dec ta tb) as [L|L]; [left; exact L|].
    right. assert (E : ta == tb).
    { apply Qle_antisym; [|exact L]. apply Qnot_lt_le. intro L'. apply H. left. exact L'. }
    split; [exact E|]. apply Nat.nlt_ge. intro L'. apply H. right.
    split; [symmetry; exact E|exact L'].
  - intros [L|[E L]] [L'|[E' L']]; try lra; lia.
Qed.

Lemma entry_le_trans (a b c : AgendaEntry) :
  entry_le a b -> entry_le b c -> entry_le a c.
Proof.
  rewrite !entry_le_spec. intros [L|[E L]] [L'|[E' L']].
  - left. lra.
  - left. lra.
  - left. lra.
  - right. split; [lra|lia].
Qed.

Lemma entry_lt_le (a b : AgendaEntry) : entry_ltb a b = true -> entry_le a b.
Proof.
  rewrite entry_ltb_spec, entry_le_spec. intros [L|[E L]]; [left|right]; auto.
  split; [exact E|lia].
Qed.

Lemma insert_event_In (e x : AgendaEntry) (l : list AgendaEntry) :
  In x (insert_event e l) <-> x = e \/ In x l.
Proof.
  split; intro H.
  - apply (Permutation_in _ (insert_event_perm e l)) in H.
    destruct H; [left; congruence|right; assumption].
  - apply (Permutation_in _ (Permutation_sym (insert_event_perm e l))).
    destruct H; [left; congruence|right; assumption].
Qed.

Lemma insert_event_sorted (e : AgendaEntry) (l : list AgendaEntry) :
  StronglySorted entry_le l -> StronglySorted entry_le (insert_event e l).
Proof.
  induction 1 as [|x r Hs IH Hx]; simpl.
  - constructor; constructor.
  - destruct (entry_ltb e x) eqn:E.
    + constructor; [constructor; assumption|].
      constructor; [apply entry_lt_le, E|].
      apply Forall_forall. intros y Hy.
      apply entry_le_trans with x; [apply entry_lt_le, E|].
      exact (proj1 (Forall_forall _ _) Hx y Hy).
    + constructor; [exact IH|].
      apply Forall_forall. intros y Hy. apply insert_event_In in Hy.
      destruct Hy as [->|Hy]; [exact E|].
      exact (proj1 (Forall_forall _ _) Hx y Hy).
Qed.

Section SortedAgenda.
Context {R : NumpyRandom}.

Lemma schedule_sorted (r : Request) (w : World) :
  StronglySorted entry_le (agenda w) ->
  StronglySorted entry_le (agenda (schedule r w)).
Proof.
  intro H. unfold schedule. destruct (Qltb (rq_delay r) 0); simpl; [exact H|].
  apply insert_event_sorted, H.
Qed.

Lemma schedule_all_sorted (rqs : list Request) (w : World) :
  StronglySorted entry_le (agenda w) ->
  StronglySorted entry_le (agenda (schedule_all rqs w)).
Proof.
  revert w. induction rqs as [|r rqs IH]; intros w H; simpl; [exact H|].
  apply IH, schedule_sorted, H.
Qed.

Lemma exec_sorted (o : Orchestrator) (a : Action) (w : World) :
  StronglySorted entry_le (agenda w) ->
  StronglySorted entry_le (agenda (exec o a w)).
Proof.
  intro H. unfold exec.
  assert (G : forall s w0, StronglySorted entry_le (agenda w0) ->
              StronglySorted entry_le (agenda (_vehicle_arrival_generator o s w0))).
  { intros s w0 H0. unfold _vehicle_arrival_generator. cbv zeta.
    destruct (Qle_bool _ 0); [apply schedule_sorted, H0|].
    destruct (standard_exponential (_np_rng w0)) as [e g].
    destruct (Qltb 0 _); [destruct (standard_normal g)|];
      apply schedule_sorted, H0. }
  destruct (segment_of (now w) a) as [[s seg]|].
  - unfold on_station. destruct (nth_error (objs w) s) as [self|]; [|exact H].
    unfold apply_outcome. cbv zeta. apply schedule_all_sorted.
    destruct (log_all_keeps o (o_log (seg self))
                (set_objs w (list_set (objs w) s (o_station (seg self)))))
      as (_ & _ & A & _).
    rewrite A. exact H.
  - destruct a; try exact H; try (apply G; exact H).
    unfold _vehicle_arrival_generator_arrival, create_vehicle. cbv zeta.
    apply G. apply schedule_sorted. exact H.
Qed.

Lemma step_sorted (o : Orchestrator) (w w' : World) :
  StronglySorted entry_le (agenda w) -> step o w = Some w' ->
  StronglySorted entry_le (agenda w').
Proof.
  unfold step. intros H Hs.
  destruct (failure w); [discriminate|].
  destruct (agenda w) as [|[[t p] a] rest] eqn:Ag; [discriminate|].
  assert (Hw' : w' = exec o a (set_agenda (set_now w t) rest))
    by (destruct a; congruence).
  subst w'. apply exec_sorted. simpl. inversion H. assumption.
Qed.

End SortedAgenda.

(** ** Swap events and swaps in progress *)

Lemma swap_completes_app (l l' : list Event) :
  swap_completes (l ++ l') = swap_completes l ++ swap_completes l'.
Proof. unfold swap_completes. rewrite filter_app, map_app. reflexivity. Qed.

Lemma swap_completions_due_app (cfgs : list StationConfig) (l l' : list Event) :
  swap_completions_due cfgs (l ++ l')
  = swap_completions_due cfgs l ++ swap_completions_due cfgs l'.
Proof. unfold swap_completions_due. rewrite filter_app, map_app. reflexivity. Qed.

Lemma swaps_in_progress_app (cfgs : list StationConfig) (l l' : list AgendaEntry) :
  swaps_in_progress cfgs (l ++ l')
  = swaps_in_progress cfgs l ++ swaps_in_progress cfgs l'.
Proof. unfold swaps_in_progress. apply flat_map_app. Qed.

Lemma swaps_in_progress_perm (cfgs : list StationConfig) (l l' : list AgendaEntry) :
  Permutation l l' ->
  Permutation (swaps_in_progress cfgs l) (swaps_in_progress cfgs l').
Proof.
  intro P. unfold swaps_in_progress.
  induction P; simpl.
  - apply Permutation_refl.
  - apply Permutation_app_head. assumption.
  - rewrite !app_assoc. apply Permutation_app_tail. apply Permutation_app_comm.
  - eapply Permutation_trans; eassumption.
Qed.

(** The requests of swap handlers woken by the pool are not swap ends. *)
Lemma woken_handlers_shape (cfgs : list StationConfig) (now : Q) (s : nat)
    (rq : list Request) :
  Forall (fun r => exists v t b, r = succeed (PoolGot s v t b)) rq ->
  swaps_in_progress cfgs (map (entry_of now) rq) = []
  /\ Forall (request_shape s) rq.
Proof.
  induction 1 as [|r l (v & t & b & ->) _ [IH1 IH2]]; simpl.
  - split; [reflexivity|constructor].
  - split; [exact IH1|]. constructor; [|exact IH2].
    repeat split; discriminate.
Qed.

Lemma pool_requests_shape (cfgs : list StationConfig) (now : Q) (s : nat)
    (items : list Battery) (parked : list (string * Q)) :
  let rq := snd (pool_trigger_get s items parked) in
  swaps_in_progress cfgs (map (entry_of now) rq) = []
  /\ Forall (request_shape s) rq.
Proof.
  cbv zeta.
  destruct (pool_trigger_get s items parked) as [[i p] rq] eqn:E. simpl.
  apply (woken_handlers_shape cfgs now s). eapply pool_trigger_get_requests. exact E.
Qed.

Ltac shape :=
  repeat match goal with
    | |- request_shape _ _ => unfold request_shape; simpl
    | |- forall _ _ _ _, _ = _ -> _ => intros; congruence
    | |- _ /\ _ => split
    | |- Forall _ [] => constructor
    | |- Forall _ (_ :: _) => constructor
    | |- _ <> _ => discriminate
    | |- _ = _ => reflexivity
    | |- _ <> _ -> _ => let H := fresh in intro H; try (exfalso; apply H; reflexivity)
    | |- Forall _ (swap_completes _) => unfold swap_completes; simpl
    end.

(** What a code segment does to the swaps: a SWAP_START is logged exactly
    when a swap timeout is requested, a SWAP_COMPLETE exactly when one
    ends, with the same vehicle, station and instant. *)
Lemma segment_swap_balance (cfgs : list StationConfig) (o : Orchestrator)
    (t : Q) (p : nat) (a : Action) (s : nat) (seg : Station -> Outcome)
    (self : Station) :
  segment_of t a = Some (s, seg) ->
  has_orchestrator self = true ->
  nth s cfgs (default_StationConfig "") = config self ->
  swap_time_of cfgs (sc_id (config self)) = swap_time_seconds (config self) ->
  let L := map (event_of o t) (o_log (seg self)) in
  let Rq := map (entry_of t) (o_requests (seg self)) in
  swap_completions_due cfgs L ++ swaps_in_progress cfgs [(t, p, a)]
  = swap_completes L ++ swaps_in_progress cfgs Rq
  /\ Forall (fun k => key_time k = t) (swap_completes L)
  /\ (swap_completes L <> [] -> exists v wt b, a = SwapOver s v wt b)
  /\ Forall (request_shape s) (o_requests (seg self)).
Proof.
  intros H Horch Hnth Hswap.
  destruct a; simpl in H; try discriminate; injection H as <- <-; cbv zeta.
  - (* InitLoop *)
    unfold _charging_loop_get, queue_trigger_get.
    destruct (charge_queue self); simpl; shape.
  - (* InitVeh *)
    unfold handle_vehicle_arrival, _log_event. cbv zeta. simpl.
    rewrite Horch.
    match goal with |- context [(?c =? 0)%nat] => destruct (c =? 0)%nat end.
    + simpl. shape.
    + match goal with |- context [pool_trigger_get ?s ?i ?p] =>
        destruct (pool_requests_shape cfgs t s i p) as (Hp1 & Hp2);
        destruct (pool_trigger_get s i p) as [[items parked] rq] end.
      simpl in *. rewrite Hp1. shape. exact Hp2.
  - (* QueueGot *)
    unfold _charging_loop_request, chargers_trigger_put.
    destruct (chargers_put_queue self) as [|b0 l]; simpl;
      destruct (Z.of_nat (chargers_users self) <? charger_count (config self))%Z;
      simpl; shape.
  - (* ChargerGranted *)
    unfold _charging_loop_granted, _charging_loop_charge, _log_event. cbv zeta.
    simpl. rewrite Horch.
    destruct (0 <? cooldown_seconds (config self))%Z;
      destruct (_is_grid_limited _); simpl; shape.
  - (* CooldownOver *)
    unfold _charging_loop_charge, _log_event. simpl. rewrite Horch. simpl.
    shape.
  - (* ChargeOver *)
    unfold _charging_loop_charged, _log_event. simpl. rewrite Horch. simpl.
    shape.
  - (* ChargerReleased *)
    unfold _on_charger_released, chargers_trigger_put.
    destruct (chargers_put_queue self) as [|b0 l]; simpl;
      try destruct (Z.of_nat (chargers_users self) <? charger_count (config self))%Z;
      simpl; shape.
  - (* PoolPut *)
    unfold _on_pool_put.
    match goal with |- context [pool_trigger_get ?s ?i ?p] =>
      destruct (pool_requests_shape cfgs t s i p) as (Hp1 & Hp2);
      destruct (pool_trigger_get s i p) as [[items parked] rq] end.
    simpl in Hp1, Hp2.
    destruct resume_loop.
    + unfold _charging_loop_get, queue_trigger_get. simpl.
      destruct (charge_queue self); simpl;
        rewrite ?map_app, ?swaps_in_progress_app, ?Hp1; simpl; shape;
        try (apply Forall_app; split; [exact Hp2|shape]);
        rewrite ?app_nil_r; exact Hp2.
    + simpl. rewrite Hp1. shape. exact Hp2.
  - (* PoolGot *)
    unfold handle_vehicle_arrival_got, _log_event. simpl. rewrite Horch. simpl.
    unfold station_id_of. simpl. rewrite Hnth, Hswap.
    shape.
  - (* SwapOver *)
    unfold handle_vehicle_arrival_swapped, _log_event. simpl. rewrite Horch.
    simpl. unfold station_id_of. simpl. rewrite Hnth.
    shape; eauto.
  - (* QueuePut *)
    unfold _on_queue_put, queue_trigger_get.
    destruct (queue_get_queue self), (charge_queue self), resume_handler;
      simpl; shape.
Qed.

Lemma swap_time_of_unique (cfgs : list StationConfig) (c : StationConfig) :
  NoDup (map sc_id cfgs) -> In c cfgs ->
  swap_time_of cfgs (sc_id c) = swap_time_seconds c.
Proof.
  induction cfgs as [|x r IH]; intros Hn Hin; [destruct Hin|].
  simpl in *. inversion Hn as [|? ? Hx Hr]; subst.
  destruct Hin as [->|Hin].
  - rewrite String.eqb_refl. reflexivity.
  - destruct (String.eqb (sc_id c) (sc_id x)) eqn:E.
    + apply String.eqb_eq in E. exfalso. apply Hx. rewrite <- E.
      apply in_map. exact Hin.
    + apply IH; assumption.
Qed.

Lemma Forall_list_set {A} (P : A -> Prop) (l : list A) (i : nat) (x : A) :
  Forall P l -> P x -> Forall P (list_set l i x).
Proof.
  intros H Hx. revert i. induction H as [|a l Ha Hl IH]; intros [|i]; simpl;
    constructor; auto.
Qed.

Lemma swap_balance_perm {A} (D C P0 Pr DL CL PRq Pw : list A) :
  Permutation D (C ++ P0 ++ Pr) ->
  DL ++ P0 = CL ++ PRq ->
  Permutation Pw (Pr ++ PRq) ->
  Permutation (D ++ DL) ((C ++ CL) ++ Pw).
Proof.
  intros H1 H2 H3.
  eapply Permutation_trans; [apply Permutation_app_tail, H1|].
  eapply Permutation_trans;
    [|apply Permutation_app_head, Permutation_sym, H3].
  rewrite <- !app_assoc. apply Permutation_app_head.
  eapply Permutation_trans; [apply (Permutation_app_comm P0 (Pr ++ DL))|].
  rewrite <- app_assoc, H2.
  apply Permutation_app_swap_app.
Qed.

Section SwapInvariant.
Context {R : NumpyRandom}.

Lemma swaps_invariant_step (cfgs : list StationConfig) (horizon : Q)
    (o : Orchestrator) (w w' : World) :
  NoDup (map sc_id cfgs) ->
  swaps_invariant cfgs horizon w -> step o w = Some w' -> failure w' = None ->
  swaps_invariant cfgs horizon w'.
Proof.
  intros Hnd (Hc & Ho & Hp & Hs & Hsh & (ts & ps & Hstop) & Hlt) Hstep F.
  pose proof (step_sorted o w w' Hs Hstep) as Hs'.
  destruct (step_cases o w w' Hstep F)
    as (t & p & a & rest & Ag & Ha & Fw & Hn & Hcase).
  rewrite Ag in Hp, Hs, Hsh, Hstop.
  assert (Hstop' : In (ts, ps, StopSimulation) rest).
  { destruct Hstop as [E|E]; [congruence|exact E]. }
  assert (Hsh' : Forall (entry_shape (List.length cfgs) horizon) rest)
    by (inversion Hsh; assumption).
  assert (Hsha : entry_shape (List.length cfgs) horizon (t, p, a))
    by (inversion Hsh; assumption).
  change ((t, p, a) :: rest) with ([(t, p, a)] ++ rest) in Hp.
  rewrite swaps_in_progress_app in Hp.
  assert (Hlen : List.length (objs w) = List.length cfgs)
    by (rewrite <- Hc; symmetry; apply length_map).
  destruct Hcase as [(s & seg & Seg & [(Ns & Hob & He & Hag)
                                       |(self & Ns & Hob & He & Hag)])
                    |(Seg & Hob & He & rqs & Hrq & Hag)].
  - (* the station does not exist: the event is not a swap end *)
    assert (P0 : swaps_in_progress cfgs [(t, p, a)] = []).
    { destruct a; try reflexivity. simpl in Seg. injection Seg as <- _.
      simpl in Hsha. apply nth_error_None in Ns. lia. }
    rewrite P0 in Hp. simpl in Hp.
    rewrite Hag in Hs'.
    unfold swaps_invariant. rewrite Hob, He, Hag.
    repeat split; try assumption. exists ts, ps. exact Hstop'.
  - (* a code segment of station [s] ran *)
    destruct (segment_loop_balance t a s seg self Seg) as (Bc & Bo & _).
    assert (Horch : has_orchestrator self = true).
    { exact (proj1 (Forall_forall _ _) Ho self (nth_error_In _ _ Ns)). }
    assert (Hnth : nth s cfgs (default_StationConfig "") = config self).
    { rewrite <- Hc. erewrite (nth_error_nth (map config (objs w)));
        [reflexivity|]. rewrite nth_error_map, Ns. reflexivity. }
    assert (Hsw : swap_time_of cfgs (sc_id (config self))
                  = swap_time_seconds (config self)).
    { apply swap_time_of_unique; [exact Hnd|]. rewrite <- Hc.
      apply in_map. eapply nth_error_In. exact Ns. }
    destruct (segment_swap_balance cfgs o t p a s seg self Seg Horch Hnth Hsw)
      as (Bal & Tms & Cmp & Shp).
    unfold swaps_invariant. rewrite Hob, He.
    split; [rewrite (map_list_set_same config _ s _ self Ns Bc); exact Hc|].
    split; [apply Forall_list_set; [exact Ho|congruence]|].
    split; [|split; [exact Hs'|split; [|split]]].
    + rewrite swap_completions_due_app, swap_completes_app.
      eapply swap_balance_perm; [exact Hp|exact Bal|].
      rewrite <- swaps_in_progress_app. apply swaps_in_progress_perm. exact Hag.
    + eapply Permutation_Forall; [apply Permutation_sym, Hag|].
      apply Forall_app. split; [exact Hsh'|].
      apply Forall_forall. intros e He'. apply in_map_iff in He'.
      destruct He' as (r & <- & Hr).
      destruct (proj1 (Forall_forall _ _) Shp r Hr) as (Pn & Ns' & Sx).
      unfold entry_of, entry_shape.
      destruct (rq_action r) eqn:Ea; try exact I.
      * split; [exact Pn|]. rewrite (Sx _ _ _ _ eq_refl), <- Hlen.
        apply nth_error_Some. congruence.
      * congruence.
    + exists ts, ps. eapply Permutation_in; [apply Permutation_sym, Hag|].
      apply in_or_app. left. exact Hstop'.
    + rewrite swap_completes_app. apply Forall_app. split; [exact Hlt|].
      destruct (swap_completes (map (event_of o t) (o_log (seg self)))) eqn:Ec;
        [constructor|].
      destruct Cmp as (v & wt & b & ->); [discriminate|].
      simpl in Hsha. destruct Hsha as (Hpn & _).
      assert (Hstop_shape : entry_shape (List.length cfgs) horizon
                              (ts, ps, StopSimulation)).
      { exact (proj1 (Forall_forall _ _) Hsh' _ Hstop'). }
      simpl in Hstop_shape. destruct Hstop_shape as (Hts & Hps).
      assert (Hle : entry_le (t, p, SwapOver s v wt b) (ts, ps, StopSimulation)).
      { inversion Hs as [|? ? _ Hall]; subst.
        exact (proj1 (Forall_forall _ _) Hall _ Hstop'). }
      apply entry_le_spec in Hle. simpl in Hle.
      assert (Htl : t < horizon).
      { destruct Hle as [L|[E L]]; [lra|]. subst p ps. unfold NORMAL, URGENT in L. lia. }
      eapply Forall_impl; [|exact Tms]. intros k Hk. rewrite Hk. exact Htl.
  - (* a process of the orchestrator ran *)
    assert (P0 : swaps_in_progress cfgs [(t, p, a)] = []).
    { destruct a; simpl in Seg; try discriminate; reflexivity. }
    assert (Pq : swaps_in_progress cfgs (map (entry_of t) rqs) = []).
    { clear Hag. induction Hrq as [|r l Hr _ IH]; [reflexivity|].
      simpl. unfold entry_of at 1. destruct (rq_action r); simpl in Hr;
        try contradiction; exact IH. }
    rewrite P0 in Hp. simpl in Hp.
    unfold swaps_invariant. rewrite Hob, He.
    split; [exact Hc|]. split; [exact Ho|].
    split; [|split; [exact Hs'|split; [|split]]].
    + eapply Permutation_trans; [exact Hp|]. apply Permutation_app_head.
      eapply Permutation_trans;
        [|apply swaps_in_progress_perm, Permutation_sym, Hag].
      rewrite swaps_in_progress_app, Pq, app_nil_r. apply Permutation_refl.
    + eapply Permutation_Forall; [apply Permutation_sym, Hag|].
      apply Forall_app. split; [exact Hsh'|].
      apply Forall_forall. intros e He'. apply in_map_iff in He'.
      destruct He' as (r & <- & Hr).
      pose proof (proj1 (Forall_forall _ _) Hrq r Hr) as Hg. cbv beta in Hg.
      unfold entry_of, entry_shape.
      destruct (rq_action r); simpl in Hg; try contradiction; exact I.
    + exists ts, ps. eapply Permutation_in; [apply Permutation_sym, Hag|].
      apply in_or_app. left. exact Hstop'.
    + exact Hlt.
Qed.

End SwapInvariant.

(** ** The world at the start of a run, for the swaps *)

Lemma requests_weight_zero (f : Action -> nat) (rq : list Request) :
  requests_weight f rq = 0%nat -> Forall (fun r => f (rq_action r) = 0%nat) rq.
Proof.
  unfold requests_weight. induction rq as [|r l IH]; simpl; intro H;
    constructor; [lia|apply IH; lia].
Qed.

Lemma initialize_stations_startup (f : Action -> nat)
    (effective : list StationConfig) :
  (forall s' b, f (PoolPut s' b) = 0%nat) ->
  (forall s' x, f (QueuePut s' x) = 0%nat) ->
  (forall s', f (InitLoop s') = 0%nat) ->
  forall objs index rq objs' index' rq',
    _initialize_stations effective objs index rq = Ok (objs', index', rq') ->
    requests_weight f rq = 0%nat -> requests_weight f rq' = 0%nat.
Proof.
  intros H1 H2 H3.
  induction effective as [|c rest IH]; intros objs index rq objs' index' rq' H Hz.
  - simpl in H. injection H as <- <- <-. exact Hz.
  - simpl in H. unfold bind in H.
    destruct (new_Station (List.length objs) c true) as [[self nrq]|e] eqn:E;
      [|discriminate].
    simpl in H.
    destruct (new_Station_spec _ _ _ _ E) as (_ & _ & _ & _ & _ & Zw).
    apply IH in H; [exact H|].
    rewrite requests_weight_app, Hz, (Zw f H1 H2 H3). reflexivity.
Qed.

Lemma no_swap_or_stop (cfgs : list StationConfig) (n : nat) (horizon now : Q)
    (rq : list Request) :
  Forall (fun r => swap_or_stop (rq_action r) = 0%nat) rq ->
  swaps_in_progress cfgs (map (entry_of now) rq) = []
  /\ Forall (entry_shape n horizon) (map (entry_of now) rq).
Proof.
  induction 1 as [|r l Hr _ [IH1 IH2]]; simpl.
  - split; [reflexivity|constructor].
  - split.
    + unfold entry_of at 1.
      destruct (rq_action r); simpl in Hr; try discriminate; exact IH1.
    + constructor; [|exact IH2]. unfold entry_of, entry_shape.
      destruct (rq_action r); simpl in Hr; try discriminate; exact I.
Qed.

Section SwapStart.
Context {R : NumpyRandom}.

Lemma start_run_sorted (o : Orchestrator) (w : World) :
  StronglySorted entry_le (agenda w) ->
  StronglySorted entry_le (agenda (start_run o w)).
Proof.
  intro H. unfold start_run. cbv zeta.
  destruct (_ <=? 0)%Z; simpl.
  - apply schedule_all_sorted, H.
  - apply schedule_sorted, schedule_all_sorted, H.
Qed.

Lemma swaps_invariant_start (data : RealNetworkData) (entropy : nat -> string)
    (config0 : SimulationConfig) (o : Orchestrator) (w0 : World) :
  new_Orchestrator data entropy config0 = Ok (o, w0) ->
  failure (start_run o w0) = None ->
  swaps_invariant (map config (objs w0)) (horizon_of config0) (start_run o w0).
Proof.
  intros Hn F.
  destruct (new_Orchestrator_spec _ _ _ _ _ Hn)
    as (Hcfg & _ & effective & objs0 & index & rq & _ & Hi & _ & Hw).
  destruct (initialize_stations_spec effective [] [] [] objs0 index rq Hi
              (Forall_nil _) (Forall_nil _) (fun _ => eq_refl) (fun _ => eq_refl))
    as (_ & Fr & Dl & Lw & Cw).
  pose proof (initialize_stations_startup swap_or_stop effective
                (fun _ _ => eq_refl) (fun _ _ => eq_refl) (fun _ => eq_refl)
                [] [] [] objs0 index rq Hi eq_refl) as Hz.
  apply requests_weight_zero in Hz.
  destruct (start_run_spec o w0 F) as (F0 & Nw & Ob & Ev & _ & gens & Hg & P).
  set (w00 := mkWorld 0 [] objs0 [] (default_rng (random_seed config0)) 0 None) in *.
  destruct (schedule_all_keeps rq w00) as (N0 & O0 & E0 & _).
  rewrite <- Hw in N0, O0, E0. simpl in N0, O0, E0.
  assert (P0 : Permutation (agenda w0) (map (entry_of 0) rq)).
  { rewrite Hw in F0 |- *. destruct (schedule_all_ok _ _ F0) as (_ & _ & P0).
    exact P0. }
  assert (S0 : StronglySorted entry_le (agenda w0)).
  { rewrite Hw. apply schedule_all_sorted. constructor. }
  assert (Hgz : Forall (fun r => swap_or_stop (rq_action r) = 0%nat) gens).
  { eapply Forall_impl; [|exact Hg]. intros r (s & ->). reflexivity. }
  destruct (no_swap_or_stop (map config (objs w0))
              (List.length (map config (objs w0))) (horizon_of config0) 0 rq Hz)
    as (Z1 & Z2).
  destruct (no_swap_or_stop (map config (objs w0))
              (List.length (map config (objs w0))) (horizon_of config0) 0 gens Hgz)
    as (G1 & G2).
  rewrite N0, Hcfg in P.
  set (stop := entry_of 0 (mkRequest URGENT (horizon_of config0) StopSimulation)) in *.
  assert (Pall : Permutation (agenda (start_run o w0))
                   (stop :: map (entry_of 0) rq ++ map (entry_of 0) gens)).
  { eapply Permutation_trans; [exact P|]. apply perm_skip.
    apply Permutation_app_tail. exact P0. }
  unfold swaps_invariant. rewrite Ob, Ev, E0.
  split; [reflexivity|]. split; [|split; [|split; [|split; [|split]]]].
  - rewrite O0. eapply Forall_impl; [|exact Fr]. intros self Hf. apply Hf.
  - assert (Hnil : swaps_in_progress (map config (objs w0))
                     (agenda (start_run o w0)) = []).
    { apply Permutation_nil. apply Permutation_sym.
      eapply Permutation_trans; [apply swaps_in_progress_perm, Pall|].
      change (stop :: ?l) with ([stop] ++ l).
      rewrite !swaps_in_progress_app, Z1, G1. apply Permutation_refl. }
    rewrite Hnil. apply Permutation_refl.
  - apply start_run_sorted, S0.
  - eapply Permutation_Forall; [apply Permutation_sym, Pall|].
    constructor; [|apply Forall_app; split; assumption].
    change (Qred (0 + horizon_of config0) == horizon_of config0
            /\ URGENT = URGENT).
    split; [|reflexivity]. rewrite Qred_correct. apply Qplus_0_l.
  - exists (fst (fst stop)), (snd (fst stop)).
    eapply Permutation_in; [apply Permutation_sym, Pall|]. left. reflexivity.
  - constructor.
Qed.

Lemma env_run_completed (o : Orchestrator) (fuel : nat) :
  forall w1 w : World,
    env_run o fuel w1 = Completed w ->
    exists w2, reachable o w1 w2 /\ step o w2 = None /\ failure w2 = None
               /\ w = match agenda w2 with
                      | (t, _, StopSimulation) :: rest =>
                          set_agenda (set_now w2 t) rest
                      | _ => w2
                      end.
Proof.
  induction fuel as [|fuel IH]; intros w1 w H; simpl in H;
    destruct (step o w1) as [w'|] eqn:E.
  - discriminate.
  - exists w1. split; [apply reach_start|]. split; [exact E|].
    destruct (failure w1); [discriminate|]. split; [reflexivity|].
    destruct (agenda w1) as [|[[t p] a] rest]; [congruence|].
    destruct a; congruence.
  - destruct (IH _ _ H) as (w2 & Hr & Hs & Hf & Hw).
    exists w2. split; [|auto].
    clear - Hr E. induction Hr as [|wa wb Hr IHr Hs].
    + eapply reach_step; [apply reach_start|exact E].
    + eapply reach_step; [exact IHr|exact Hs].
  - exists w1. split; [apply reach_start|]. split; [exact E|].
    destruct (failure w1); [discriminate|]. split; [reflexivity|].
    destruct (agenda w1) as [|[[t p] a] rest]; [congruence|].
    destruct a; congruence.
Qed.

End SwapStart.

Lemma Permutation_filter {A} (f : A -> bool) (l l' : list A) :
  Permutation l l' -> Permutation (filter f l) (filter f l').
Proof.
  induction 1; simpl.
  - apply Permutation_refl.
  - destruct (f x); [apply perm_skip|]; assumption.
  - destruct (f x), (f y); try apply Permutation_refl. apply perm_swap.
  - eapply Permutation_trans; eassumption.
Qed.

Lemma filter_all {A} (f : A -> bool) (l : list A) :
  Forall (fun x => f x = true) l -> filter f l = l.
Proof.
  induction 1 as [|x l Hx _ IH]; simpl; [reflexivity|]. rewrite Hx, IH. reflexivity.
Qed.

Lemma filter_none {A} (f : A -> bool) (l : list A) :
  Forall (fun x => f x = false) l -> filter f l = [].
Proof.
  induction 1 as [|x l Hx _ IH]; simpl; [reflexivity|]. rewrite Hx, IH. reflexivity.
Qed.

(** ** Swap events are paired up to the horizon *)

Lemma swaps_in_progress_times (cfgs : list StationConfig) (bound : Q)
    (l : list AgendaEntry) :
  Forall (fun e => bound <= fst (fst e)) l ->
  Forall (fun k => bound <= key_time k) (swaps_in_progress cfgs l).
Proof.
  induction 1 as [|[[t p] a] l Hx _ IH]; simpl; [constructor|].
  destruct a; simpl; try exact IH. constructor; [exact Hx|exact IH].
Qed.

(** C7, as the code has it.  In the trace of a completed run whose
    stations have distinct identifiers, the SWAP_COMPLETE events are, each
    taken once, the SWAP_START events of the same vehicle at the same
    station moved [swap_time_seconds] later, for those swaps that end
    before the horizon: a swap still in progress when the run stops has a
    SWAP_START and no SWAP_COMPLETE. *)
Theorem swaps_paired_before_horizon :
  forall {R : NumpyRandom} (data : RealNetworkData) (entropy : nat -> string)
         (config0 : SimulationConfig) (fuel : nat) (w : World),
    run data entropy config0 fuel = Ok (Completed w) ->
    NoDup (map sc_id (map config (objs w))) ->
    Permutation (swap_completes (events w))
      (filter (fun k => Qltb (key_time k) (horizon_of config0))
         (swap_completions_due (map config (objs w)) (events w))).
Proof.
  intros R data entropy config0 fuel w Hrun Hnd.
  unfold run, bind in Hrun.
  destruct (new_Orchestrator data entropy config0) as [[o w0]|] eqn:Hn;
    [|discriminate].
  injection Hrun as Hrun.
  destruct (env_run_completed o fuel _ _ Hrun) as (w2 & Hr & Hs & Hf & Hw).
  assert (Hl : loops_invariant (map config (objs w0)) w2).
  { apply (reachable_invariant o _ (start_run o w0) w2); try assumption.
    - apply (loops_invariant_start data entropy config0); assumption.
    - intros wa wb. apply loops_invariant_step. }
  destruct Hl as (Hc & _).
  assert (Hobj : objs w = objs w2 /\ events w = events w2).
  { rewrite Hw. destruct (agenda w2) as [|[[t p] a] rest]; [auto|].
    destruct a; auto. }
  destruct Hobj as (Hobj & Hev).
  rewrite Hobj, Hc in Hnd. rewrite Hobj, Hev, Hc.
  assert (Inv : swaps_invariant (map config (objs w0)) (horizon_of config0) w2).
  { apply (reachable_invariant o _ (start_run o w0) w2); try assumption.
    - apply (swaps_invariant_start data entropy config0); assumption.
    - intros wa wb. apply swaps_invariant_step. exact Hnd. }
  destruct Inv as (_ & _ & Hp & Hsort & Hsh & (ts & ps & Hstop) & Hlt).
  (* the run stopped on the [until] event *)
  unfold step in Hs. rewrite Hf in Hs.
  destruct (agenda w2) as [|[[t p] a] rest] eqn:Ag; [destruct Hstop|].
  destruct a; try discriminate. clear Hs.
  inversion Hsh as [|? ? Hhead _]; subst. simpl in Hhead.
  destruct Hhead as (Ht & _).
  inversion Hsort as [|? ? _ Hall]; subst.
  assert (Hlate : Forall (fun e => horizon_of config0 <= fst (fst e)) rest).
  { eapply Forall_impl; [|exact Hall]. intros [[te pe] ae] Hle.
    apply entry_le_spec in Hle. simpl in *. destruct Hle as [L|[E _]]; lra. }
  simpl in Hp.
  apply (swaps_in_progress_times (map config (objs w0))) in Hlate.
  apply Permutation_sym.
  eapply Permutation_trans; [apply Permutation_filter, Hp|].
  rewrite filter_app, filter_all, filter_none.
  - rewrite app_nil_r. apply Permutation_refl.
  - eapply Forall_impl; [|exact Hlate]. intros k Hk. apply Qltb_ge. exact Hk.
  - eapply Forall_impl; [|exact Hlt]. intros k Hk. apply Qltb_lt. exact Hk.
Qed.

Lemma swaps_paired_before_horizon_witness :
  exists w : World (R := ScriptedRandom early_arrival_script),
    run no_real_network entropy_a one_station_config 200 = Ok (Completed w)
    /\ swap_completes (events w) = [("vehicle_aaaaaaaa", "s1", 690)]%string
    /\ Permutation (swap_completes (events w))
         (filter (fun k => Qltb (key_time k) (horizon_of one_station_config))
            (swap_completions_due (map config (objs w)) (events w))).
Proof.
  eexists. split; [vm_compute; reflexivity|]. split; [vm_compute; reflexivity|].
  apply (swaps_paired_before_horizon (R := ScriptedRandom early_arrival_script)
           no_real_network entropy_a one_station_config 200).
  - vm_compute. reflexivity.
  - vm_compute. constructor; [intros []|constructor].
Defined.

(** C7 as stated fails.  One default station, one day; the only vehicle
    arrives at 86350 s, 50 s before the horizon of 86400 s.  Its swap
    starts at once and would end at 86440 s: the trace of the completed run
    holds its SWAP_START and no SWAP_COMPLETE at all. *)
Lemma swap_start_without_complete :
  match run (R := ScriptedRandom late_arrival_script) no_real_network entropy_a
          one_station_config 200 with
  | Ok (Completed w) =>
      map (fun e => (entity_id e, ev_time e))
          (filter (is_event SWAP_START) (events w))
      = [("vehicle_aaaaaaaa"%string, 86350)]
      /\ filter (is_event SWAP_COMPLETE) (events w) = []
  | _ => False
  end.
Proof. vm_compute. split; reflexivity. Qed.

(** ** A station on its own: the charge queue is drained in sequence *)

Lemma Qred_eq (p q : Q) : p == q -> Qred p = Qred q.
Proof. apply Qred_complete. Qed.

Lemma Qltb_Qred (a b : Q) : Qltb (Qred a) (Qred b) = Qltb a b.
Proof. apply Qltb_compat; apply Qred_correct. Qed.

Lemma time_plus (a d : Q) : Qred (Qred a + d) = Qred (a + d).
Proof. apply Qred_eq. rewrite Qred_correct. reflexivity. Qed.

#[local] Arguments Qred : simpl never.
#[local] Arguments Qltb : simpl never.
#[local] Arguments Qplus : simpl never.
#[local] Arguments Qminus : simpl never.
#[local] Arguments Qmult : simpl never.
#[local] Arguments Qdiv : simpl never.
#[local] Arguments Qle_bool : simpl never.
#[local] Arguments Qeq_bool : simpl never.
#[local] Arguments inject_Z : simpl never.
#[local] Arguments _calculate_charge_time : simpl never.
#[local] Arguments _calculate_energy_used : simpl never.
#[local] Arguments insert_event : simpl never.

Lemma Qltb_0_0 : Qltb 0 0 = false.
Proof. reflexivity. Qed.

(** Symbolic execution of one step: [crunch] runs the segment of the event
    at the head of the agenda, [settle] applies its outcome to the world. *)
Ltac crunch :=
  unfold step; simpl; unfold exec, on_station; simpl;
  unfold _charging_loop_request, _charging_loop_granted, _charging_loop_charge,
    _charging_loop_charged, _on_charger_released, _on_pool_put,
    _charging_loop_get, _on_queue_put, chargers_trigger_put, queue_trigger_get;
  simpl.

Ltac decide_delays :=
  rewrite ?Qltb_0_0;
  repeat match goal with
    | H : Qltb ?d 0 = false |- context [Qltb ?d 0] => rewrite H
    end.

Ltac world_fields :=
  lazy [set_agenda set_objs set_now set_events set_chargers
        set_active_chargers set_battery_pool set_charge_queue set_stats
        set_failure set_np_rng set_uuid_calls set_current_queue_length
        now agenda objs events _np_rng uuid_calls failure
        config has_orchestrator stats chargers_users chargers_put_queue
        battery_pool pool_get_queue charge_queue queue_get_queue
        current_queue_length active_chargers
        list_set nth_error entry_of timeout succeed process
        rq_delay rq_priority rq_action o_requests o_log o_station].

Ltac settle :=
  unfold apply_outcome, schedule_all, schedule, log_event, _log_event;
  cbn [fold_left app o_requests o_log o_station rq_delay rq_priority rq_action
       timeout succeed process];
  decide_delays;
  world_fields; cbn [fold_left app]; world_fields;
  rewrite ?time_plus.

(** The events a segment logged are no CHARGE_COMPLETE. *)
Ltac no_charge_complete :=
  unfold charge_completes; rewrite ?filter_app; cbn [filter is_event event_type
    event_of lc_event_type app map];
  rewrite ?app_nil_r; reflexivity.

Lemma steps_app {R : NumpyRandom} (o : Orchestrator) (n m : nat) (w w' : World) :
  steps o n w = Some w' -> steps o (n + m) w = steps o m w'.
Proof.
  revert w. induction n as [|n IH]; intros w H; simpl in *.
  - injection H as <-. reflexivity.
  - destruct (step o w) as [w1|]; [|discriminate]. apply IH, H.
Qed.

Section LoneStation.
Context {R : NumpyRandom}.
Variable o : Orchestrator.
Variable cfg : StationConfig.
Variable T : Q.
Hypothesis Hk : (1 <= charger_count cfg)%Z.
Hypothesis Hc : (0 <= cooldown_seconds cfg)%Z.
Let stop : AgendaEntry := (Qred (0 + T), URGENT, StopSimulation).

Local Abbreviation St := (lone_station cfg).
Local Abbreviation W := lone_world.

Lemma insert_before_stop (x : Q) (a : Action) :
  x < T -> insert_event (Qred x, NORMAL, a) [stop] = [(Qred x, NORMAL, a); stop].
Proof.
  intro H. unfold stop, insert_event, entry_ltb.
  rewrite Qltb_Qred.
  assert (E : Qltb x (0 + T) = true) by (apply Qltb_lt; lra).
  rewrite E. reflexivity.
Qed.

Lemma insert_after_same (x : Q) (a a' : Action) (rest : list AgendaEntry) :
  insert_event (Qred x, NORMAL, a) ((Qred x, NORMAL, a') :: rest)
  = (Qred x, NORMAL, a') :: insert_event (Qred x, NORMAL, a) rest.
Proof.
  unfold insert_event at 1, entry_ltb.
  assert (E : Qltb (Qred x) (Qred x) = false) by (apply Qltb_ge; lra).
  rewrite E. simpl. rewrite andb_false_r. reflexivity.
Qed.

Lemma step_QueueGot (t0 x : Q) (b : Battery) (stats : StationStats)
    (pool q : list Battery) (evs : list Event) :
  x < T ->
  step o (W t0 [(Qred x, NORMAL, QueueGot 0 b); stop] (St stats 0 pool q 0 0) evs)
  = Some (W (Qred x) [(Qred (x + 0), NORMAL, ChargerGranted 0 b); stop]
            (St stats 1 pool q 0 0) evs).
Proof.
  intro H. unfold lone_world, lone_station. crunch.
  assert (E : (0 <? charger_count cfg)%Z = true) by (apply Z.ltb_lt; lia).
  rewrite E. settle. rewrite insert_before_stop by lra. reflexivity.
Qed.

Lemma step_ChargerGranted_cooling (t0 x : Q) (b : Battery) (stats : StationStats)
    (pool q : list Battery) (evs : list Event) :
  (0 <? cooldown_seconds cfg)%Z = true ->
  x + inject_Z (cooldown_seconds cfg) < T ->
  exists evs',
    step o (W t0 [(Qred x, NORMAL, ChargerGranted 0 b); stop]
              (St stats 1 pool q 0 0) evs)
    = Some (W (Qred x)
              [(Qred (x + inject_Z (cooldown_seconds cfg)), NORMAL,
                CooldownOver 0 (set_status b COOLING) (Qred x)); stop]
              (St stats 1 pool q 0 1) evs')
    /\ charge_completes evs' = charge_completes evs.
Proof.
  intros Ecool Hlt.
  assert (Hcq : 0 <= inject_Z (cooldown_seconds cfg)) by (unfold Qle; simpl; lia).
  assert (D1 : Qltb (inject_Z (cooldown_seconds cfg)) 0 = false)
    by (apply Qltb_ge; exact Hcq).
  unfold lone_world, lone_station. crunch.
  destruct (0 <? cooldown_seconds cfg)%Z; [|discriminate Ecool].
  destruct (_is_grid_limited _); eexists;
    (split; [settle; rewrite insert_before_stop by lra; reflexivity|]);
    no_charge_complete.
Qed.

Lemma step_ChargerGranted_direct (t0 x : Q) (b : Battery) (stats : StationStats)
    (pool q : list Battery) (evs : list Event) :
  (0 <? cooldown_seconds cfg)%Z = false ->
  0 <= _calculate_charge_time cfg b ->
  x + _calculate_charge_time cfg b < T ->
  exists evs',
    step o (W t0 [(Qred x, NORMAL, ChargerGranted 0 b); stop]
              (St stats 1 pool q 0 0) evs)
    = Some (W (Qred x)
              [(Qred (x + _calculate_charge_time cfg b), NORMAL,
                ChargeOver 0 (set_charging b) (Qred x)); stop]
              (St stats 1 pool q 0 1) evs')
    /\ charge_completes evs' = charge_completes evs.
Proof.
  intros Ecool Hct Hlt.
  assert (D2 : Qltb (_calculate_charge_time cfg (set_charging b)) 0 = false)
    by (apply Qltb_ge; exact Hct).
  unfold lone_world, lone_station. crunch.
  destruct (0 <? cooldown_seconds cfg)%Z; [discriminate Ecool|].
  destruct (_is_grid_limited _); eexists;
    (split;
     [settle;
      change (_calculate_charge_time cfg (set_charging b))
        with (_calculate_charge_time cfg b);
      rewrite insert_before_stop by lra; reflexivity|]);
    no_charge_complete.
Qed.

Lemma step_CooldownOver (t0 x cs : Q) (b : Battery) (stats : StationStats)
    (pool q : list Battery) (evs : list Event) :
  0 <= _calculate_charge_time cfg b ->
  x + _calculate_charge_time cfg b < T ->
  exists evs',
    step o (W t0 [(Qred x, NORMAL, CooldownOver 0 b cs); stop]
              (St stats 1 pool q 0 1) evs)
    = Some (W (Qred x)
              [(Qred (x + _calculate_charge_time cfg b), NORMAL,
                ChargeOver 0 (set_charging b) cs); stop]
              (St stats 1 pool q 0 1) evs')
    /\ charge_completes evs' = charge_completes evs.
Proof.
  intros Hct Hlt.
  assert (D2 : Qltb (_calculate_charge_time cfg (set_charging b)) 0 = false)
    by (apply Qltb_ge; exact Hct).
  unfold lone_world, lone_station. eexists. split.
  - crunch. settle.
    change (_calculate_charge_time cfg (set_charging b))
      with (_calculate_charge_time cfg b).
    rewrite insert_before_stop by lra. reflexivity.
  - no_charge_complete.
Qed.

Lemma steps_ChargerGranted (t0 x : Q) (b : Battery) (stats : StationStats)
    (pool q : list Battery) (evs : list Event) :
  let c := inject_Z (cooldown_seconds cfg) in
  let ct := _calculate_charge_time cfg b in
  0 <= ct -> x + c + ct < T ->
  exists n evs',
    steps o n (W t0 [(Qred x, NORMAL, ChargerGranted 0 b); stop]
                 (St stats 1 pool q 0 0) evs)
    = Some (W (Qred (x + c))
              [(Qred (x + c + ct), NORMAL, ChargeOver 0 (set_charging b) (Qred x));
               stop]
              (St stats 1 pool q 0 1) evs')
    /\ charge_completes evs' = charge_completes evs.
Proof.
  intros c ct Hct Hlt.
  assert (Hcq : 0 <= c) by (unfold c, Qle; simpl; lia).
  destruct (0 <? cooldown_seconds cfg)%Z eqn:Ecool.
  - destruct (step_ChargerGranted_cooling t0 x b stats pool q evs Ecool)
      as (evs1 & H1 & E1); [fold c; lra|].
    destruct (step_CooldownOver (Qred x) (x + c) (Qred x) (set_status b COOLING)
                stats pool q evs1 Hct) as (evs2 & H2 & E2);
      [change (_calculate_charge_time cfg (set_status b COOLING)) with ct; lra|].
    change (_calculate_charge_time cfg (set_status b COOLING)) with ct in H2.
    exists 2%nat, evs2. split; [|rewrite E2; exact E1].
    cbn [steps]. rewrite H1. fold c. rewrite H2. reflexivity.
  - destruct (step_ChargerGranted_direct t0 x b stats pool q evs Ecool Hct)
      as (evs1 & H1 & E1); [fold ct; lra|].
    assert (Hc0 : c == 0).
    { apply Z.ltb_ge in Ecool. unfold c.
      assert (E0 : cooldown_seconds cfg = 0%Z) by lia.
      rewrite E0. reflexivity. }
    exists 1%nat, evs1. split; [|exact E1].
    cbn [steps]. rewrite H1.
    rewrite (Qred_eq (x + c) x) by lra.
    rewrite (Qred_eq (x + c + ct) (x + ct)) by lra.
    reflexivity.
Qed.

Lemma step_ChargeOver (t0 x cs : Q) (b : Battery) (stats : StationStats)
    (pool q : list Battery) (evs : list Event) :
  x < T ->
  exists stats' evs',
    step o (W t0 [(Qred x, NORMAL, ChargeOver 0 b cs); stop]
              (St stats 1 pool q 0 1) evs)
    = Some (W (Qred x)
              [(Qred x, NORMAL, ChargerReleased 0);
               (Qred x, NORMAL, PoolPut 0 true); stop]
              (St stats' 0 (pool ++ [complete_charge b 100]) q 0 0) evs')
    /\ charge_completes evs' = charge_completes evs ++ [(battery_id b, Qred x)].
Proof.
  intro H. unfold lone_world, lone_station. eexists. eexists. split.
  - crunch. settle.
    rewrite (Qred_eq (x + 0) x) by lra.
    rewrite insert_before_stop by lra.
    rewrite insert_after_same, insert_before_stop by lra.
    reflexivity.
  - unfold charge_completes. rewrite filter_app, map_app. reflexivity.
Qed.

Lemma step_ChargerReleased (t0 x : Q) (rest : list AgendaEntry)
    (stats : StationStats) (pool q : list Battery) (evs : list Event) :
  step o (W t0 ((Qred x, NORMAL, ChargerReleased 0) :: rest)
            (St stats 0 pool q 0 0) evs)
  = Some (W (Qred x) rest (St stats 0 pool q 0 0) evs).
Proof. unfold lone_world, lone_station. crunch. settle. reflexivity. Qed.

Lemma step_PoolPut_resume (t0 x : Q) (stats : StationStats)
    (pool q : list Battery) (evs : list Event) :
  x < T ->
  step o (W t0 [(Qred x, NORMAL, PoolPut 0 true); stop]
            (St stats 0 pool q 0 0) evs)
  = Some (W (Qred x)
            match q with
            | b2 :: _ => [(Qred x, NORMAL, QueueGot 0 b2); stop]
            | [] => [stop]
            end
            (St stats 0 pool (tl q)
               match q with _ :: _ => 0%nat | [] => 1%nat end 0)
            evs).
Proof.
  intro H. unfold lone_world, lone_station. crunch.
  destruct q as [|b2 q2]; settle.
  - reflexivity.
  - rewrite (Qred_eq (x + 0) x) by lra.
    rewrite insert_before_stop by lra. reflexivity.
Qed.

Lemma steps_ChargeOver (t0 x cs : Q) (b : Battery) (stats : StationStats)
    (pool q : list Battery) (evs : list Event) :
  x < T ->
  exists stats' evs',
    steps o 3 (W t0 [(Qred x, NORMAL, ChargeOver 0 b cs); stop]
                 (St stats 1 pool q 0 1) evs)
    = Some (W (Qred x)
              match q with
              | b2 :: _ => [(Qred x, NORMAL, QueueGot 0 b2); stop]
              | [] => [stop]
              end
              (St stats' 0 (pool ++ [complete_charge b 100]) (tl q)
                 match q with _ :: _ => 0%nat | [] => 1%nat end 0)
              evs')
    /\ charge_completes evs' = charge_completes evs ++ [(battery_id b, Qred x)].
Proof.
  intro H.
  destruct (step_ChargeOver t0 x cs b stats pool q evs H)
    as (stats' & evs' & H1 & Hb).
  exists stats', evs'. split; [|exact Hb].
  cbn [steps]. rewrite H1, step_ChargerReleased, step_PoolPut_resume by exact H.
  reflexivity.
Qed.

Lemma charge_cycle (t0 x : Q) (b : Battery) (stats : StationStats)
    (pool q : list Battery) (evs : list Event) :
  let x' := x + inject_Z (cooldown_seconds cfg) + _calculate_charge_time cfg b in
  0 <= _calculate_charge_time cfg b ->
  x' < T ->
  exists n stats' evs',
    steps o n (W t0 [(Qred x, NORMAL, QueueGot 0 b); stop] (St stats 0 pool q 0 0) evs)
    = Some (W (Qred x')
              match q with
              | b2 :: _ => [(Qred x', NORMAL, QueueGot 0 b2); stop]
              | [] => [stop]
              end
              (St stats' 0 (pool ++ [charged b]) (tl q)
                 match q with _ :: _ => 0%nat | [] => 1%nat end 0)
              evs')
    /\ charge_completes evs' = charge_completes evs ++ [(battery_id b, Qred x')].
Proof.
  intros x' Hct Hlt.
  assert (Hcq : 0 <= inject_Z (cooldown_seconds cfg)) by (unfold Qle; simpl; lia).
  destruct (steps_ChargerGranted (Qred x) (x + 0) b stats pool q evs Hct)
    as (n & evs1 & H2 & E2); [unfold x' in Hlt; lra|].
  destruct (steps_ChargeOver
              (Qred (x + 0 + inject_Z (cooldown_seconds cfg)))
              (x + 0 + inject_Z (cooldown_seconds cfg) + _calculate_charge_time cfg b)
              (Qred (x + 0)) (set_charging b) stats pool q evs1)
    as (stats' & evs' & H3 & E3); [unfold x' in Hlt; lra|].
  assert (HxT : x < T) by (unfold x' in Hlt; lra).
  rewrite (Qred_eq (x + 0 + inject_Z (cooldown_seconds cfg)
                    + _calculate_charge_time cfg b) x') in H2, H3, E3
    by (unfold x'; lra).
  exists (1 + (n + 3))%nat, stats', evs'. split.
  - cbn [steps Nat.add]. rewrite step_QueueGot by exact HxT.
    rewrite (steps_app o n 3 _ _ H2). exact H3.
  - rewrite E3, E2. reflexivity.
Qed.

Lemma drain_from_le (q : list Battery) :
  forall t : Q,
    Forall (fun b => 0 <= _calculate_charge_time cfg b) q ->
    t <= drain_from cfg t q.
Proof.
  assert (Hcq : 0 <= inject_Z (cooldown_seconds cfg)) by (unfold Qle; simpl; lia).
  induction q as [|b q IH]; intros t Hct; cbn [drain_from fold_left].
  - lra.
  - inversion Hct as [|? ? Hb Hq]; subst.
    specialize (IH (t + inject_Z (cooldown_seconds cfg)
                    + _calculate_charge_time cfg b) Hq).
    unfold drain_from in IH. lra.
Qed.

Lemma drain (q : list Battery) :
  forall (b : Battery) (t0 x : Q) (stats : StationStats) (pool : list Battery)
         (evs : list Event),
    Forall (fun b' => 0 <= _calculate_charge_time cfg b') (b :: q) ->
    drain_from cfg x (b :: q) < T ->
    exists n t1 stats' evs' done,
      steps o n (W t0 [(Qred x, NORMAL, QueueGot 0 b); stop]
                   (St stats 0 pool q 0 0) evs)
      = Some (W t1 [stop] (St stats' 0 (pool ++ map charged (b :: q)) [] 1 0) evs')
      /\ charge_completes evs' = charge_completes evs ++ done
      /\ same_schedule done (charge_schedule cfg x (b :: q)).
Proof.
  induction q as [|b2 q2 IH]; intros b t0 x stats pool evs Hct Hlt.
  - inversion Hct as [|? ? Hb _]; subst.
    destruct (charge_cycle t0 x b stats pool [] evs Hb)
      as (n & stats' & evs' & Hs & He); [exact Hlt|].
    exists n. eexists. exists stats', evs'. eexists.
    split; [exact Hs|]. split; [exact He|].
    constructor; [|constructor]. split; [reflexivity|apply Qred_correct].
  - inversion Hct as [|? ? Hb Hrest]; subst.
    set (x' := x + inject_Z (cooldown_seconds cfg) + _calculate_charge_time cfg b).
    change (drain_from cfg x (b :: b2 :: q2))
      with (drain_from cfg x' (b2 :: q2)) in Hlt.
    pose proof (drain_from_le (b2 :: q2) x' Hrest) as Hle.
    destruct (charge_cycle t0 x b stats pool (b2 :: q2) evs Hb)
      as (n & stats1 & evs1 & Hs & He); [fold x'; lra|].
    fold x' in Hs, He. cbn [tl] in Hs.
    destruct (IH b2 (Qred x') x' stats1 (pool ++ [charged b]) evs1 Hrest Hlt)
      as (m & t2 & stats2 & evs2 & done & Hs2 & He2 & Hd).
    exists (n + m)%nat, t2, stats2, evs2, ((battery_id b, Qred x') :: done).
    split; [|split].
    + rewrite (steps_app o n m _ _ Hs). rewrite Hs2.
      rewrite <- app_assoc. reflexivity.
    + rewrite He2, He, <- app_assoc. reflexivity.
    + constructor; [|exact Hd]. split; [reflexivity|apply Qred_correct].
Qed.

(** The events the construction of the station leaves in the agenda. *)
Let put_action (bp : Battery * Placement) : Action :=
  match snd bp with
  | ToPool => PoolPut 0 false
  | ToChargeQueue => QueuePut 0 None
  end.

Let put_entries (placed : list (Battery * Placement)) : list AgendaEntry :=
  map (fun bp => (Qred (0 + 0), NORMAL, put_action bp)) placed.

Lemma insert_after_puts (a : Action)
    (placed : list (Battery * Placement)) (rest : list AgendaEntry) :
  insert_event (Qred (0 + 0), NORMAL, a) (put_entries placed ++ rest)
  = put_entries placed ++ insert_event (Qred (0 + 0), NORMAL, a) rest.
Proof.
  induction placed as [|bp l IH]; [reflexivity|].
  simpl. rewrite insert_after_same. rewrite IH. reflexivity.
Qed.

Lemma insert_stop_last (front : list AgendaEntry) :
  0 < T ->
  Forall (fun e => fst (fst e) = Qred (0 + 0)) front ->
  insert_event stop front = front ++ [stop].
Proof.
  intros HT. induction 1 as [|[[t p] a] l Ht _ IH]; [reflexivity|].
  simpl in Ht. subst t. unfold insert_event at 1, entry_ltb. unfold stop at 1.
  assert (E1 : Qltb (Qred (0 + T)) (Qred (0 + 0)) = false).
  { rewrite Qltb_Qred. apply Qltb_ge. lra. }
  assert (E2 : Qeq_bool (Qred (0 + T)) (Qred (0 + 0)) = false).
  { apply not_true_iff_false. intro E. apply Qeq_bool_iff in E.
    rewrite !Qred_correct in E. lra. }
  rewrite E1, E2. simpl. fold insert_event. f_equal. exact IH.
Qed.

Lemma steps_puts (placed : list (Battery * Placement)) :
  forall (t0 : Q) (rest : list AgendaEntry) (stats : StationStats) (users : nat)
         (pool q : list Battery) (parked : nat) (active : Z) (evs : list Event),
    parked = 0%nat \/ q = [] ->
    exists t1,
      steps o (List.length placed)
        (W t0 (put_entries placed ++ rest) (St stats users pool q parked active) evs)
      = Some (W t1 rest (St stats users pool q parked active) evs).
Proof.
  induction placed as [|[b p] l IH];
    intros t0 rest stats users pool q parked active evs Hq.
  - exists t0. reflexivity.
  - destruct (IH (Qred (0 + 0)) rest stats users pool q parked active evs Hq)
      as (t1 & Hs).
    exists t1. cbn [List.length steps put_entries map app].
    unfold put_action at 1. destruct p; cbn [snd].
    + unfold lone_world, lone_station in *. crunch. settle. exact Hs.
    + unfold lone_world, lone_station in *. crunch.
      destruct Hq as [->| ->]; [|destruct parked]; settle; exact Hs.
Qed.

Lemma schedule_puts (st : Station) (placed : list (Battery * Placement)) :
  forall done : list (Battery * Placement),
    schedule_all
      (map (fun bp => match snd bp with
                      | ToPool => succeed (PoolPut 0 false)
                      | ToChargeQueue => succeed (QueuePut 0 None)
                      end) placed)
      (W 0 (put_entries done) st [])
    = W 0 (put_entries (done ++ placed)) st [].
Proof.
  induction placed as [|[b p] l IH]; intro done.
  - rewrite app_nil_r. reflexivity.
  - cbn [map schedule_all fold_left].
    replace (schedule _ (W 0 (put_entries done) st []))
      with (W 0 (put_entries (done ++ [(b, p)])) st []).
    + pose proof (IH (done ++ [(b, p)])) as H.
      rewrite <- app_assoc in H. exact H.
    + unfold lone_world. destruct p; settle;
        rewrite <- (app_nil_r (put_entries done)), insert_after_puts;
        unfold put_entries; rewrite map_app; reflexivity.
Qed.

Lemma station_alone_world :
  0 < T ->
  station_alone cfg T
  = Ok (W 0 ((Qred (0 + 0), URGENT, InitLoop 0)
             :: put_entries (_initialize_batteries cfg) ++ [stop])
          (St new_StationStats 0 (initial_pool cfg) (initial_charge_queue cfg) 0 0)
          []).
Proof.
  intro HT. unfold station_alone, new_Station.
  assert (E : (charger_count cfg <=? 0)%Z = false) by (apply Z.leb_gt; lia).
  rewrite E. unfold bind. cbn [fst snd]. f_equal.
  unfold schedule_all. rewrite fold_left_app.
  pose proof (schedule_puts
                (St new_StationStats 0 (initial_pool cfg) (initial_charge_queue cfg) 0 0)
                (_initialize_batteries cfg) []) as Hp.
  unfold lone_world, lone_station, initial_pool, initial_charge_queue in *. cbn [put_entries map] in Hp.
  unfold schedule_all in Hp.
  match goal with
  | |- schedule _ (fold_left _ _ ?w) = _ =>
      match type of Hp with ?l = _ => change w with l end
  end.
  rewrite Hp. cbn [app fold_left].
  set (puts := put_entries (_initialize_batteries cfg)).
  assert (Hfront : insert_event (Qred (0 + 0), URGENT, InitLoop 0) puts
                   = (Qred (0 + 0), URGENT, InitLoop 0) :: puts).
  { unfold puts, put_entries. destruct (_initialize_batteries cfg); reflexivity. }
  settle. rewrite Hfront.
  assert (D : Qltb T 0 = false) by (apply Qltb_ge; lra).
  rewrite D.
  change (Qred (0 + T), URGENT, StopSimulation) with stop.
  rewrite insert_stop_last; [reflexivity|exact HT|].
  constructor; [reflexivity|].
  unfold puts, put_entries. apply Forall_forall. intros e He.
  apply in_map_iff in He. destruct He as (bp & <- & _). reflexivity.
Qed.

(** The run of the lone station: every battery of the initial charge
    queue is charged in turn and put back in the pool. *)
Lemma lone_station_run :
  Forall (fun b => 0 <= _calculate_charge_time cfg b) (initial_charge_queue cfg) ->
  drain_time cfg (initial_charge_queue cfg) < T ->
  exists n t1 stats' evs',
    steps o n
      (W 0 ((Qred (0 + 0), URGENT, InitLoop 0)
            :: put_entries (_initialize_batteries cfg) ++ [stop])
         (St new_StationStats 0 (initial_pool cfg) (initial_charge_queue cfg) 0 0)
         [])
    = Some (W t1 [stop]
              (St stats' 0 (initial_pool cfg ++ map charged (initial_charge_queue cfg))
                 [] 1 0) evs')
    /\ same_schedule (charge_completes evs')
         (charge_schedule cfg 0 (initial_charge_queue cfg)).
Proof.
  intros Hct Hlt.
  pose proof (drain_from_le (initial_charge_queue cfg) 0 Hct) as Hpos.
  fold (drain_time cfg (initial_charge_queue cfg)) in Hpos.
  destruct (initial_charge_queue cfg) as [|b q] eqn:Eq.
  - (* nothing to charge: the loop parks on the empty queue *)
    destruct (steps_puts (_initialize_batteries cfg) (Qred (0 + 0)) [stop]
                new_StationStats 0 (initial_pool cfg) [] 1 0 [] (or_intror eq_refl))
      as (t1 & Hs).
    exists (1 + List.length (_initialize_batteries cfg))%nat, t1, new_StationStats, [].
    split.
    + cbn [steps Nat.add]. unfold lone_world at 1, lone_station at 1. crunch. settle.
      rewrite app_nil_r. exact Hs.
    + constructor.
  - destruct (steps_puts (_initialize_batteries cfg) (Qred (0 + 0))
                [(Qred 0, NORMAL, QueueGot 0 b); stop]
                new_StationStats 0 (initial_pool cfg) q 0 0 [] (or_introl eq_refl))
      as (t1 & Hs).
    destruct (drain q b t1 0 new_StationStats (initial_pool cfg) [] Hct Hlt)
      as (n & t2 & stats' & evs' & done & Hd & He & Hsched).
    exists (1 + (List.length (_initialize_batteries cfg) + n))%nat, t2, stats', evs'.
    split.
    + cbn [steps Nat.add]. unfold lone_world at 1, lone_station at 1. crunch. settle.
      rewrite (Qred_eq (0 + 0 + 0) (0 + 0)) by lra.
      rewrite insert_after_puts.
      rewrite insert_before_stop by lra.
      change (Qred (0 + 0), NORMAL, QueueGot 0 b)
        with (Qred 0, NORMAL, QueueGot 0 b).
      exact (eq_trans (steps_app o _ n _ _ Hs) Hd).
    + rewrite He. exact Hsched.
Qed.
End LoneStation.

Lemma env_run_steps {R : NumpyRandom} (o : Orchestrator) (n k : nat) (w w' : World) :
  steps o n w = Some w' -> env_run o (n + k) w = env_run o k w'.
Proof.
  revert w. induction n as [|n IH]; intros w H; simpl in H.
  - injection H as <-. reflexivity.
  - destruct (step o w) as [w1|] eqn:E; [|discriminate].
    cbn [Nat.add env_run]. rewrite E. apply IH, H.
Qed.

Lemma charge_time_nonneg (cfg : StationConfig) (b : Battery) :
  0 < charge_power_kw cfg -> 0 <= capacity_kwh b ->
  0 <= _calculate_charge_time cfg b.
Proof.
  intros Hp Hcap. unfold _calculate_charge_time.
  assert (Hinv : 0 <= / charge_power_kw cfg)
    by (apply Qinv_le_0_compat, Qlt_le_weak, Hp).
  assert (Hinv2 : 0 <= / (charge_power_kw cfg * (1 # 2))).
  { apply Qinv_le_0_compat. apply Qmult_le_0_compat; [lra|]. discriminate. }
  assert (Hfast : 0 <= (if Qltb (soc b) 80
                        then (py_min 80 100 - soc b) / 100 * capacity_kwh b
                             / charge_power_kw cfg * 3600
                        else 0)).
  { destruct (Qltb (soc b) 80) eqn:E; [|lra].
    apply Qltb_lt in E. change (py_min 80 100) with 80.
    unfold Qdiv. repeat apply Qmult_le_0_compat; try assumption; try lra;
      discriminate. }
  assert (Hslow : 0 <= (if Qltb 0 (py_max 0 (100 - py_max (soc b) 80))
                        then py_max 0 (100 - py_max (soc b) 80) / 100
                             * capacity_kwh b / (charge_power_kw cfg * (1 # 2))
                             * 3600
                        else 0)).
  { destruct (Qltb 0 (py_max 0 (100 - py_max (soc b) 80))) eqn:E; [|lra].
    apply Qltb_lt in E.
    unfold Qdiv. repeat apply Qmult_le_0_compat; try assumption; try lra;
      discriminate. }
  cbv zeta. lra.
Qed.

Lemma initial_queue_capacity (cfg : StationConfig) (b : Battery) :
  In b (initial_charge_queue cfg) ->
  capacity_kwh b = bc_capacity_kwh (battery_config cfg).
Proof.
  unfold initial_charge_queue, placed_on, _initialize_batteries. intro H.
  apply in_map_iff in H. destruct H as ([b' p] & <- & H).
  apply filter_In in H. destruct H as (H & _).
  apply in_map_iff in H. destruct H as (i & H & _).
  injection H as <- _. unfold initial_battery.
  destruct (_ <? _)%Z; reflexivity.
Qed.

(** C2, as the code has it.  A station with any number [k >= 1] of
    chargers, built on its own and run with no vehicle arrival: one
    charging loop takes the batteries of the initial charge queue one after
    the other and waits [cooldown_seconds] and then the charge time of each.
    In every run whose horizon is later than the instant this adds up to,
    the run completes with the charge queue empty, every battery of the
    initial queue charged and back in the pool, in queue order, and the
    CHARGE_COMPLETE events of the trace are those of these batteries, the
    i-th at the sum of [cooldown_seconds + charge_time] over the first i
    batteries: [charger_count] has no part in it. *)
Theorem charge_queue_drained_sequentially :
  forall {R : NumpyRandom} (o : Orchestrator) (cfg : StationConfig) (horizon : Q),
    (1 <= charger_count cfg)%Z ->
    (0 <= cooldown_seconds cfg)%Z ->
    0 < charge_power_kw cfg ->
    0 <= bc_capacity_kwh (battery_config cfg) ->
    drain_time cfg (initial_charge_queue cfg) < horizon ->
    exists (fuel : nat) (w0 w : World) (self : Station),
      station_alone cfg horizon = Ok w0
      /\ env_run o fuel w0 = Completed w
      /\ objs w = [self]
      /\ charge_queue self = []
      /\ battery_pool self
         = initial_pool cfg ++ map charged (initial_charge_queue cfg)
      /\ same_schedule (charge_completes (events w))
           (charge_schedule cfg 0 (initial_charge_queue cfg)).
Proof.
  intros R o cfg horizon Hk Hc Hp Hcap Hlt.
  assert (Hct : Forall (fun b => 0 <= _calculate_charge_time cfg b)
                  (initial_charge_queue cfg)).
  { apply Forall_forall. intros b Hb. apply charge_time_nonneg; [exact Hp|].
    rewrite (initial_queue_capacity cfg b Hb). exact Hcap. }
  pose proof (drain_from_le cfg Hc (initial_charge_queue cfg) 0 Hct) as Hpos.
  fold (drain_time cfg (initial_charge_queue cfg)) in Hpos.
  destruct (lone_station_run o cfg horizon Hk Hc Hct Hlt)
    as (n & t1 & stats' & evs' & Hs & Hsched).
  eexists (n + 0)%nat, _, _, _.
  split; [apply (station_alone_world cfg horizon Hk); lra|].
  split; [rewrite (env_run_steps o n 0 _ _ Hs); reflexivity|].
  simpl. repeat split. exact Hsched.
Qed.

Lemma charge_queue_drained_sequentially_witness :
  charger_count (default_StationConfig "s1") = 4%Z
  /\ map (fun p => (fst p, Qred (snd p)))
       (charge_schedule (default_StationConfig "s1") 0
          (initial_charge_queue (default_StationConfig "s1")))
     = [("s1_batt_016", 240); ("s1_batt_017", 450); ("s1_batt_018", 630);
        ("s1_batt_019", 750)]%string
  /\ exists (fuel : nat) (w0 w : World (R := ScriptedRandom [])) (self : Station),
       station_alone (default_StationConfig "s1") 751 = Ok w0
       /\ env_run lone_orchestrator fuel w0 = Completed w
       /\ objs w = [self]
       /\ charge_queue self = []
       /\ battery_pool self
          = initial_pool (default_StationConfig "s1")
            ++ map charged (initial_charge_queue (default_StationConfig "s1"))
       /\ same_schedule (charge_completes (events w))
            (charge_schedule (default_StationConfig "s1") 0
               (initial_charge_queue (default_StationConfig "s1"))).
Proof.
  split; [reflexivity|]. split; [vm_compute; reflexivity|].
  apply (charge_queue_drained_sequentially (R := ScriptedRandom [])
           lone_orchestrator (default_StationConfig "s1") 751);
    try reflexivity; discriminate.
Defined.

(** C2 as stated fails.  A default station (4 chargers, cooldown 60 s, 20
    batteries, the initial charge queue holding batteries 16 to 19 with
    charge times 180, 150, 120 and 60 s): the closed form gives
    [510 / 4 = 127.5] s, and in the run stopped at 200 s three of the four
    batteries are still on the charge queue. *)
Lemma charge_queue_not_drained_in_parallel :
  parallel_charge_time (default_StationConfig "s1")
    (initial_charge_queue (default_StationConfig "s1")) == 255 # 2
  /\ match station_alone (R := ScriptedRandom []) (default_StationConfig "s1") 200 with
     | Ok w0 =>
         match env_run lone_orchestrator 100 w0 with
         | Completed w =>
             map (fun self => map battery_id (charge_queue self)) (objs w)
             = [["s1_batt_017"; "s1_batt_018"; "s1_batt_019"]]%string
         | _ => False
         end
     | Raise _ => False
     end.
Proof. split; vm_compute; reflexivity. Qed.

(** ** Reproducibility *)

(** The identifier of a vehicle is a function of the entropy source
    alone: neither the seed nor the configuration enters it. *)
Lemma create_vehicle_id_from_entropy {R : NumpyRandom} (o : Orchestrator)
    (w : World) :
  fst (create_vehicle o w)
  = ("vehicle_" ++ substring 0 8 (uuid4 o (S (uuid_calls w))))%string.
Proof. reflexivity. Qed.

(** C1, what the code does.  Two runs of the same configuration with the
    same seed and the same random generator, which differ only in the
    UUIDs the operating system hands out: the station statistics are the
    same, the event traces are not, because the [entity_id] of every
    vehicle event is taken from [uuid4]. *)
Theorem trace_depends_on_uuid4 :
  match run (R := ScriptedRandom early_arrival_script) no_real_network entropy_a
          one_station_config 200,
        run (R := ScriptedRandom early_arrival_script) no_real_network entropy_b
          one_station_config 200 with
  | Ok (Completed wa), Ok (Completed wb) =>
      map stats (objs wa) = map stats (objs wb)
      /\ map entity_id (filter (is_event SWAP_START) (events wa))
         = ["vehicle_aaaaaaaa"%string]
      /\ map entity_id (filter (is_event SWAP_START) (events wb))
         = ["vehicle_bbbbbbbb"%string]
      /\ map entity_id (events wa) <> map entity_id (events wb)
  | _, _ => False
  end.
Proof.
  vm_compute. repeat split. intro H. discriminate H.
Qed.

(** * Further properties *)

(** ** Schema validators *)

Lemma nodup_length_le (l : list string) :
  (List.length (nodup string_dec l) <= List.length l)%nat.
Proof.
  induction l as [|x l IH]; simpl; [lia|].
  destruct (in_dec string_dec x l); simpl; lia.
Qed.

Lemma nodup_length_eq (l : list string) :
  List.length (nodup string_dec l) = List.length l <-> NoDup l.
Proof.
  split.
  - induction l as [|x l IH]; simpl; intro H; [constructor|].
    pose proof (nodup_length_le l) as Hle.
    destruct (in_dec string_dec x l) as [Hin|Hin]; simpl in H; [lia|].
    constructor; [exact Hin|]. apply IH. lia.
  - intro H. rewrite (nodup_fixed_point string_dec H). reflexivity.
Qed.

(** The validator accepts a station list exactly when its identifiers are
    pairwise distinct, and then returns it unchanged; otherwise it raises
    [ValueError]. *)
Theorem unique_station_ids_iff_distinct :
  forall v : list StationConfig,
    (validate_unique_station_ids v = Ok v <-> NoDup (map sc_id v))
    /\ (~ NoDup (map sc_id v) ->
        validate_unique_station_ids v
        = Raise (ValueError "Station IDs must be unique")).
Proof.
  intro v. unfold validate_unique_station_ids. cbv zeta.
  pose proof (nodup_length_eq (map sc_id v)) as H.
  destruct (List.length (map sc_id v)
            =? List.length (nodup string_dec (map sc_id v)))%nat eqn:E; simpl.
  - apply Nat.eqb_eq in E. symmetry in E. apply H in E.
    split; [split; auto|]. intro N. contradiction.
  - apply Nat.eqb_neq in E. split; [|reflexivity].
    split; [discriminate|]. intro N. apply H in N. congruence.
Qed.

(** The validator requires the very parameter the engine reads.  For a
    MODIFY_CHARGERS or MODIFY_INVENTORY intervention whose target names one
    of the stations, [validate_intervention_params] accepts the intervention
    exactly when [_apply_single_intervention] raises no [KeyError] on it. *)
Theorem validator_requires_what_engine_reads :
  forall (iv : Intervention) (stations : list (string * StationConfig))
         (target : string),
    iv_type iv = MODIFY_CHARGERS \/ iv_type iv = MODIFY_INVENTORY ->
    target_station_id iv = Some target ->
    target <> ""%string ->
    dict_mem target stations = true ->
    (validate_intervention_params iv = Ok iv
     <-> forall k, _apply_single_intervention stations iv <> Raise (KeyError k)).
Proof.
  intros [ty tg ps] stations target Hty Htg Hne Hin. simpl in Hty, Htg. subst tg.
  assert (Ht : truthy (Some target) = true)
    by (destruct target; [contradiction|reflexivity]).
  unfold validate_intervention_params, _apply_single_intervention, target_in.
  cbn [iv_type target_station_id parameters].
  rewrite Ht. unfold dict_mem in Hin.
  destruct (dict_get target stations) as [st|]; [clear Hin|discriminate].
  destruct Hty as [-> | ->]; cbn [needs_target required_params negb andb find];
    unfold dict_item, dict_mem;
    match goal with |- context [dict_get ?k ps] => destruct (dict_get k ps) as [v|] end;
    cbn [negb bind].
  - split; [intros _ k|reflexivity]. destruct v; discriminate.
  - split; [discriminate|]. intro Hk. exfalso. exact (Hk _ eq_refl).
  - split; [intros _ k|reflexivity]. destruct v; discriminate.
  - split; [discriminate|]. intro Hk. exfalso. exact (Hk _ eq_refl).
Qed.

Lemma validator_requires_what_engine_reads_witness :
  validate_intervention_params (modify_chargers_to "s1" 2)
  = Ok (modify_chargers_to "s1" 2)
  /\ _apply_single_intervention [("s1"%string, default_StationConfig "s1")]
       (mkIntervention MODIFY_INVENTORY (Some "s1"%string) [])
     = Raise (KeyError "delta")
  /\ (validate_intervention_params (modify_chargers_to "s1" 2)
      = Ok (modify_chargers_to "s1" 2)
      <-> forall k,
            _apply_single_intervention
              [("s1"%string, default_StationConfig "s1")]
              (modify_chargers_to "s1" 2)
            <> Raise (KeyError k))
  /\ (validate_intervention_params
        (mkIntervention MODIFY_INVENTORY (Some "s1"%string) [])
      = Ok (mkIntervention MODIFY_INVENTORY (Some "s1"%string) [])
      <-> forall k,
            _apply_single_intervention
              [("s1"%string, default_StationConfig "s1")]
              (mkIntervention MODIFY_INVENTORY (Some "s1"%string) [])
            <> Raise (KeyError k)).
Proof.
  split; [reflexivity|]. split; [reflexivity|]. split.
  - apply (validator_requires_what_engine_reads (modify_chargers_to "s1" 2)
             [("s1"%string, default_StationConfig "s1")] "s1");
      [left; reflexivity|reflexivity|discriminate|reflexivity].
  - apply (validator_requires_what_engine_reads
             (mkIntervention MODIFY_INVENTORY (Some "s1"%string) [])
             [("s1"%string, default_StationConfig "s1")] "s1");
      [right; reflexivity|reflexivity|discriminate|reflexivity].
Defined.

(** ** Scenario interventions *)

Lemma dict_get_set_other {V} (k k' : string) (v : V) (d : list (string * V)) :
  k <> k' -> dict_get k (dict_set k' v d) = dict_get k d.
Proof.
  intro N. induction d as [|[k0 v0] d IH]; simpl.
  - destruct (String.eqb_spec k k'); [contradiction|reflexivity].
  - destruct (String.eqb_spec k' k0) as [->|N0]; simpl.
    + destruct (String.eqb_spec k k0); [contradiction|reflexivity].
    + destruct (String.eqb k k0); [reflexivity|exact IH].
Qed.

Lemma dict_get_None_keys {V} (k : string) (d : list (string * V)) :
  dict_get k d = None <-> ~ In k (map fst d).
Proof.
  induction d as [|[k0 v0] d IH]; simpl.
  - split; [intros _ []|reflexivity].
  - destruct (String.eqb_spec k k0) as [->|N].
    + split; [discriminate|]. intro H. exfalso. apply H. left. reflexivity.
    + rewrite IH. split; intro H; [intros [E|I]; [congruence|auto]|auto].
Qed.

Lemma dict_set_keys {V} (k : string) (v : V) (d : list (string * V)) :
  map fst (dict_set k v d)
  = if dict_mem k d then map fst d else map fst d ++ [k].
Proof.
  unfold dict_mem. induction d as [|[k0 v0] d IH]; simpl; [reflexivity|].
  destruct (String.eqb_spec k k0) as [->|N]; simpl; [reflexivity|].
  rewrite IH. destruct (dict_get k d); reflexivity.
Qed.

Lemma dict_set_fresh {V} (k : string) (v : V) (d : list (string * V)) :
  ~ In k (map fst d) -> dict_set k v d = d ++ [(k, v)].
Proof.
  induction d as [|[k0 v0] d IH]; simpl; intro H; [reflexivity|].
  destruct (String.eqb_spec k k0) as [->|N]; [exfalso; auto|].
  rewrite IH by auto. reflexivity.
Qed.

Lemma dict_set_NoDup {V} (k : string) (v : V) (d : list (string * V)) :
  NoDup (map fst d) -> NoDup (map fst (dict_set k v d)).
Proof.
  intro H. rewrite dict_set_keys. unfold dict_mem.
  destruct (dict_get k d) eqn:E; [exact H|].
  apply dict_get_None_keys in E.
  apply NoDup_app; [exact H|constructor; [intros []|constructor]|].
  intros x Hx [<-|[]]. exact (E Hx).
Qed.

Lemma dict_del_In {V} (k : string) (x : string * V) (d : list (string * V)) :
  In x (dict_del k d) -> In x d.
Proof.
  induction d as [|[k0 v0] d IH]; simpl; [auto|].
  destruct (String.eqb k k0); simpl; intuition.
Qed.

Lemma dict_del_NoDup {V} (k : string) (d : list (string * V)) :
  NoDup (map fst d) -> NoDup (map fst (dict_del k d)).
Proof.
  induction d as [|[k0 v0] d IH]; simpl; intro H; [exact H|].
  inversion H as [|? ? Hn Hd]; subst.
  destruct (String.eqb k k0); simpl; [exact Hd|].
  constructor; [|apply IH, Hd].
  intro Hin. apply Hn. apply in_map_iff in Hin. destruct Hin as (x & <- & Hx).
  apply in_map. eapply dict_del_In. exact Hx.
Qed.

Lemma dict_get_del_same {V} (k : string) (d : list (string * V)) :
  NoDup (map fst d) -> dict_get k (dict_del k d) = None.
Proof.
  induction d as [|[k0 v0] d IH]; simpl; intro H; [reflexivity|].
  inversion H as [|? ? Hn Hd]; subst.
  destruct (String.eqb_spec k k0) as [->|N]; simpl.
  - apply dict_get_None_keys. exact Hn.
  - destruct (String.eqb_spec k k0); [contradiction|]. apply IH, Hd.
Qed.

Lemma dict_get_del_other {V} (k k' : string) (d : list (string * V)) :
  k <> k' -> dict_get k (dict_del k' d) = dict_get k d.
Proof.
  intro N. induction d as [|[k0 v0] d IH]; simpl; [reflexivity|].
  destruct (String.eqb_spec k' k0) as [->|N0]; simpl.
  - destruct (String.eqb_spec k k0); [contradiction|reflexivity].
  - destruct (String.eqb k k0); [reflexivity|exact IH].
Qed.

Lemma dict_set_keyed (k : string) (v : StationConfig)
    (d : list (string * StationConfig)) :
  k = sc_id v -> keyed_by_id d -> keyed_by_id (dict_set k v d).
Proof.
  intros E H. induction H as [|[k0 v0] d Hx Hd IH]; simpl.
  - constructor; [exact E|constructor].
  - destruct (String.eqb k k0).
    + constructor; [exact E|exact Hd].
    + constructor; [exact Hx|exact IH].
Qed.

Lemma dict_del_keyed (k : string) (d : list (string * StationConfig)) :
  keyed_by_id d -> keyed_by_id (dict_del k d).
Proof.
  intro H. apply Forall_forall. intros x Hx.
  apply (proj1 (Forall_forall _ _) H). eapply dict_del_In. exact Hx.
Qed.

Lemma dict_get_keyed (k : string) (st : StationConfig)
    (d : list (string * StationConfig)) :
  keyed_by_id d -> dict_get k d = Some st -> sc_id st = k.
Proof.
  intro H. induction H as [|[k0 v0] d Hx Hd IH]; simpl; [discriminate|].
  destruct (String.eqb_spec k k0) as [->|N]; [|exact IH].
  intro E. injection E as <-. symmetry. exact Hx.
Qed.

Lemma target_in_spec (target : option string) (t : string) (st : StationConfig)
    (d : list (string * StationConfig)) :
  target_in target d = Some (t, st) ->
  target = Some t /\ t <> EmptyString /\ dict_get t d = Some st.
Proof.
  unfold target_in. destruct target as [t0|]; [|discriminate].
  destruct (truthy (Some t0)) eqn:T; [|discriminate].
  destruct (dict_get t0 d) as [st0|] eqn:G; [|discriminate].
  intro H. injection H as <- <-. split; [reflexivity|]. split; [|exact G].
  intros ->. discriminate.
Qed.

Lemma in_range_Z_ok (field : string) (lo hi v x : Z) :
  in_range_Z field lo hi v = Ok x -> x = v /\ (lo <= v <= hi)%Z.
Proof.
  unfold in_range_Z. destruct (lo <=? v)%Z eqn:A; destruct (v <=? hi)%Z eqn:B;
    simpl; try discriminate.
  intro H. injection H as <-. apply Z.leb_le in A, B. auto.
Qed.

Lemma in_range_Q_ok (field : string) (lo hi v x : Q) :
  in_range_Q field lo hi v = Ok x -> x = v /\ lo <= v /\ v <= hi.
Proof.
  unfold in_range_Q. destruct (Qle_bool lo v) eqn:A; destruct (Qle_bool v hi) eqn:B;
    simpl; try discriminate.
  intro H. injection H as <-. apply Qle_bool_iff in A, B. auto.
Qed.

(** What [StationConfig(...)] guarantees of the station [ADD_STATION]
    builds. *)
Lemma new_station_of_params_ok (params : list (string * PyVal))
    (st : StationConfig) :
  new_station_of_params params = Ok st ->
  dict_get "id" params = Some (PStr (sc_id st))
  /\ (1 <= Z.of_nat (String.length (sc_id st)) <= 64)%Z
  /\ -90 <= lat (sc_location st) /\ lat (sc_location st) <= 90
  /\ -180 <= lon (sc_location st) /\ lon (sc_location st) <= 180
  /\ (1 <= total_batteries st <= 500)%Z
  /\ (1 <= charger_count st <= 50)%Z
  /\ 0 < charge_power_kw st /\ charge_power_kw st <= 500
  /\ (30 <= swap_time_seconds st <= 600)%Z
  /\ cooldown_seconds st = 60%Z
  /\ grid_power_limit_kw st = None
  /\ battery_config st = default_BatteryConfig.
Proof.
  unfold new_station_of_params, bind, dict_item.
  destruct (dict_get "id" params) as [pid|]; [|discriminate].
  destruct (dict_get "location" params) as [loc|]; [|discriminate].
  destruct (py_index loc 0) as [plat|]; [|discriminate].
  destruct (py_index loc 1) as [plon|]; [|discriminate].
  destruct (as_float "lat" plat) as [la0|]; [|discriminate].
  destruct (in_range_Q "lat" (-90) 90 la0) as [la|] eqn:Ela; [|discriminate].
  destruct (as_float "lon" plon) as [lo0|]; [|discriminate].
  destruct (in_range_Q "lon" (-180) 180 lo0) as [lo|] eqn:Elo; [|discriminate].
  destruct (as_str "id" pid) as [sid|] eqn:Esid; [|discriminate].
  destruct (in_range_Z "id" 1 64 _) as [n|] eqn:Eid; [|discriminate].
  destruct (as_int "total_batteries" _) as [tb0|]; [|discriminate].
  destruct (in_range_Z "total_batteries" 1 500 tb0) as [tb|] eqn:Etb; [|discriminate].
  destruct (as_int "charger_count" _) as [cc0|]; [|discriminate].
  destruct (in_range_Z "charger_count" 1 50 cc0) as [cc|] eqn:Ecc; [|discriminate].
  destruct (as_float "charge_power_kw" _) as [pw0|]; [|discriminate].
  destruct (Qltb 0 pw0) eqn:Epos; [|discriminate].
  destruct (in_range_Q "charge_power_kw" 0 500 pw0) as [pw|] eqn:Epw; [|discriminate].
  destruct (as_int "swap_time_seconds" _) as [sw0|]; [|discriminate].
  destruct (in_range_Z "swap_time_seconds" 30 600 sw0) as [sw|] eqn:Esw; [|discriminate].
  intro H. injection H as <-. cbn [sc_id sc_location lat lon total_batteries charger_count
    charge_power_kw swap_time_seconds cooldown_seconds grid_power_limit_kw battery_config].
  apply in_range_Q_ok in Ela, Elo, Epw. apply in_range_Z_ok in Eid, Etb, Ecc, Esw.
  destruct Ela as (-> & ? & ?), Elo as (-> & ? & ?), Epw as (-> & ? & ?).
  destruct Eid as (_ & ?), Etb as (-> & ?), Ecc as (-> & ?), Esw as (-> & ?).
  apply Qltb_lt in Epos.
  destruct pid; try discriminate. injection Esid as ->.
  repeat split; try assumption; try lia.
Qed.

(** The effect of one intervention on the invariant of the station
    dictionary: keys pairwise distinct, each the identifier of its value. *)
Lemma apply_single_intervention_keys (d d' : list (string * StationConfig))
    (iv : Intervention) :
  _apply_single_intervention d iv = Ok d' ->
  NoDup (map fst d) -> keyed_by_id d ->
  NoDup (map fst d') /\ keyed_by_id d'.
Proof.
  unfold _apply_single_intervention. intros H Hn Hk.
  destruct (iv_type iv).
  - (* ADD_STATION *)
    unfold bind in H.
    destruct (new_station_of_params (parameters iv)) as [st|]; [|discriminate].
    injection H as <-. split; [apply dict_set_NoDup, Hn|].
    apply dict_set_keyed; [reflexivity|exact Hk].
  - (* REMOVE_STATION *)
    destruct (target_in _ d) as [[t st]|]; injection H as <-; [|auto].
    split; [apply dict_del_NoDup, Hn|apply dict_del_keyed, Hk].
  - (* MODIFY_CHARGERS *)
    destruct (target_in _ d) as [[t st]|] eqn:T; [|injection H as <-; auto].
    apply target_in_spec in T. destruct T as (_ & _ & G).
    unfold bind, dict_item in H.
    destruct (dict_get "new_count" (parameters iv)) as [v|]; [|discriminate].
    destruct (as_int "new_count" v) as [n|]; [|discriminate].
    injection H as <-. split; [apply dict_set_NoDup, Hn|].
    apply dict_set_keyed; [|exact Hk].
    simpl. symmetry. eapply dict_get_keyed; eassumption.
  - (* MODIFY_INVENTORY *)
    destruct (target_in _ d) as [[t st]|] eqn:T; [|injection H as <-; auto].
    apply target_in_spec in T. destruct T as (_ & _ & G).
    unfold bind, dict_item in H.
    destruct (dict_get "delta" (parameters iv)) as [v|]; [|discriminate].
    destruct (as_int "delta" v) as [n|]; [|discriminate].
    injection H as <-. split; [apply dict_set_NoDup, Hn|].
    apply dict_set_keyed; [|exact Hk].
    simpl. symmetry. eapply dict_get_keyed; eassumption.
  - injection H as <-. auto.
  - injection H as <-. auto.
  - injection H as <-. auto.
Qed.

Lemma stations_by_id_keys (base : list StationConfig) :
  forall d, NoDup (map fst d) -> keyed_by_id d ->
    NoDup (map fst (fold_left (fun d s => dict_set (sc_id s) s d) base d))
    /\ keyed_by_id (fold_left (fun d s => dict_set (sc_id s) s d) base d).
Proof.
  induction base as [|s base IH]; intros d Hn Hk; simpl; [auto|].
  apply IH; [apply dict_set_NoDup, Hn|apply dict_set_keyed; [reflexivity|exact Hk]].
Qed.

Lemma interventions_fold_keys (ivs : list Intervention) :
  forall (acc : Result (list (string * StationConfig))) d',
    fold_left (fun acc iv => do d <- acc; _apply_single_intervention d iv) ivs acc
    = Ok d' ->
    exists d, acc = Ok d
      /\ (NoDup (map fst d) -> keyed_by_id d ->
          NoDup (map fst d') /\ keyed_by_id d').
Proof.
  induction ivs as [|iv ivs IH]; intros acc d' H; simpl in H.
  - exists d'. auto.
  - apply IH in H. destruct H as (d1 & H1 & Hd1).
    unfold bind in H1. destruct acc as [d|]; [|discriminate].
    exists d. split; [reflexivity|]. intros Hn Hk.
    destruct (apply_single_intervention_keys d d1 iv H1 Hn Hk). auto.
Qed.

Lemma keyed_values_ids (d : list (string * StationConfig)) :
  keyed_by_id d -> map sc_id (dict_values d) = map fst d.
Proof.
  unfold dict_values. induction 1 as [|[k v] d Hx _ IH]; simpl; [reflexivity|].
  simpl in Hx. rewrite IH, Hx. reflexivity.
Qed.

(** With a scenario, the station list the orchestrator builds its stations
    from never holds two stations with the same identifier, whatever the
    base stations and the interventions are. *)
Theorem scenario_stations_have_distinct_ids :
  forall (sc : ScenarioConfig) (base_stations effective : list StationConfig),
    _apply_interventions (Some sc) base_stations = Ok effective ->
    NoDup (map sc_id effective).
Proof.
  intros sc base effective H. unfold _apply_interventions, bind in H.
  destruct (fold_left _ (interventions sc) _) as [d'|] eqn:F; [|discriminate].
  injection H as <-.
  apply interventions_fold_keys in F. destruct F as (d & E & Hd).
  injection E as <-.
  destruct (stations_by_id_keys base [] (NoDup_nil _) (Forall_nil _)) as (Hn & Hk).
  destruct (Hd Hn Hk) as (Hn' & Hk').
  rewrite keyed_values_ids by exact Hk'. exact Hn'.
Qed.

Lemma scenario_stations_have_distinct_ids_witness :
  _apply_interventions (Some (scenario_with [modify_chargers_to "s1" 2]))
    [default_StationConfig "s1"; default_StationConfig "s1"]
  = Ok [set_charger_count (default_StationConfig "s1") 2]
  /\ NoDup (map sc_id [set_charger_count (default_StationConfig "s1") 2]).
Proof.
  split; [reflexivity|].
  apply (scenario_stations_have_distinct_ids
           (scenario_with [modify_chargers_to "s1" 2])
           [default_StationConfig "s1"; default_StationConfig "s1"]).
  reflexivity.
Defined.

Lemma stations_by_id_distinct (base : list StationConfig) :
  forall d,
    NoDup (map fst d ++ map sc_id base) ->
    fold_left (fun d s => dict_set (sc_id s) s d) base d
    = d ++ map (fun s => (sc_id s, s)) base.
Proof.
  induction base as [|s base IH]; intros d H; simpl.
  - rewrite app_nil_r. reflexivity.
  - assert (Hs : ~ In (sc_id s) (map fst d)).
    { intro Hin. apply NoDup_remove_2 in H. apply H.
      apply in_or_app. left. exact Hin. }
    rewrite (dict_set_fresh _ _ _ Hs). rewrite IH.
    + rewrite <- app_assoc. reflexivity.
    + rewrite map_app, <- app_assoc. simpl. exact H.
Qed.

Lemma inert_fold (ivs : list Intervention) (d : list (string * StationConfig)) :
  forallb inert ivs = true ->
  fold_left (fun acc iv => do d <- acc; _apply_single_intervention d iv) ivs (Ok d)
  = Ok d.
Proof.
  induction ivs as [|iv ivs IH]; simpl; intro H; [reflexivity|].
  apply andb_true_iff in H. destruct H as (Hi & Hr).
  unfold _apply_single_intervention. unfold inert in Hi.
  destruct (iv_type iv); try discriminate; apply IH, Hr.
Qed.

(** A scenario made only of DEMAND_MULTIPLIER, POLICY_CHANGE and
    INJECT_FAULT interventions (or of none) changes nothing: stations with
    pairwise distinct identifiers come back as they were, in the same
    order.  The engine reads none of the parameters of these
    interventions. *)
Theorem inert_interventions_keep_stations :
  forall (sc : ScenarioConfig) (base_stations : list StationConfig),
    forallb inert (interventions sc) = true ->
    NoDup (map sc_id base_stations) ->
    _apply_interventions (Some sc) base_stations = Ok base_stations.
Proof.
  intros sc base Hi Hn. unfold _apply_interventions.
  rewrite (inert_fold _ _ Hi). unfold bind. f_equal.
  rewrite (stations_by_id_distinct base []) by exact Hn.
  unfold dict_values. simpl. rewrite map_map. simpl. apply map_id.
Qed.

Lemma inert_interventions_keep_stations_witness :
  _apply_interventions
    (Some (scenario_with
             [mkIntervention DEMAND_MULTIPLIER None
                [("multiplier"%string, PFloat (14 # 10))]]))
    (stations two_station_config)
  = Ok (stations two_station_config).
Proof.
  apply (inert_interventions_keep_stations
           (scenario_with
              [mkIntervention DEMAND_MULTIPLIER None
                 [("multiplier"%string, PFloat (14 # 10))]])
           (stations two_station_config)).
  - reflexivity.
  - simpl. constructor; [intros [H|[]]; discriminate H|].
    constructor; [intros []|constructor].
Defined.

(** REMOVE_STATION never raises.  A target that names a station removes
    that station and no other; a missing or empty target, or one that names
    no station, leaves the dictionary as it is. *)
Theorem remove_station_removes_target_only :
  forall (stations : list (string * StationConfig)) (iv : Intervention),
    iv_type iv = REMOVE_STATION ->
    NoDup (map fst stations) ->
    exists stations',
      _apply_single_intervention stations iv = Ok stations'
      /\ (forall t, target_station_id iv = Some t -> t <> EmptyString ->
            dict_get t stations' = None)
      /\ (forall k, target_station_id iv <> Some k ->
            dict_get k stations' = dict_get k stations)
      /\ (target_in (target_station_id iv) stations = None ->
          stations' = stations).
Proof.
  intros stations iv Ht Hn. unfold _apply_single_intervention. rewrite Ht.
  destruct (target_in (target_station_id iv) stations) as [[t st]|] eqn:T.
  - apply target_in_spec in T. destruct T as (E & Hne & G).
    exists (dict_del t stations). split; [reflexivity|]. split; [|split].
    + intros t' E' _. rewrite E in E'. injection E' as <-.
      apply dict_get_del_same, Hn.
    + intros k Hk. apply dict_get_del_other. rewrite E in Hk. congruence.
    + discriminate.
  - exists stations. split; [reflexivity|]. split; [|auto].
    intros t E Hne. unfold target_in in T. rewrite E in T.
    rewrite (truthy_nonempty t Hne) in T.
    destruct (dict_get t stations); [discriminate|reflexivity].
Qed.

Lemma remove_station_removes_target_only_witness :
  exists stations',
    _apply_single_intervention
      [("s1", default_StationConfig "s1"); ("s2", default_StationConfig "s2")]%string
      (mkIntervention REMOVE_STATION (Some "s1"%string) [])
    = Ok stations'
    /\ dict_get "s1" stations' = None
    /\ dict_get "s2" stations' = Some (default_StationConfig "s2").
Proof.
  destruct (remove_station_removes_target_only
              [("s1", default_StationConfig "s1");
               ("s2", default_StationConfig "s2")]%string
              (mkIntervention REMOVE_STATION (Some "s1"%string) []))
    as (stations' & H & H1 & H2 & _).
  - reflexivity.
  - simpl. constructor; [intros [H|[]]; discriminate H|].
    constructor; [intros []|constructor].
  - exists stations'. split; [exact H|]. split.
    + apply (H1 "s1"%string); [reflexivity|discriminate].
    + rewrite (H2 "s2"%string); [reflexivity|discriminate].
Defined.

(** A station added by ADD_STATION went through the field validation of
    [StationConfig]: unlike a station changed by MODIFY_CHARGERS or
    MODIFY_INVENTORY it has between 1 and 50 chargers and between 1 and 500
    batteries.  It is stored under its own identifier, replacing a station
    that had it, and the other stations are untouched. *)
Theorem add_station_is_validated :
  forall (stations stations' : list (string * StationConfig)) (iv : Intervention),
    iv_type iv = ADD_STATION ->
    _apply_single_intervention stations iv = Ok stations' ->
    exists st : StationConfig,
      dict_get "id" (parameters iv) = Some (PStr (sc_id st))
      /\ dict_get (sc_id st) stations' = Some st
      /\ (forall k, k <> sc_id st -> dict_get k stations' = dict_get k stations)
      /\ (1 <= charger_count st <= 50)%Z
      /\ (1 <= total_batteries st <= 500)%Z
      /\ 0 < charge_power_kw st /\ charge_power_kw st <= 500
      /\ (30 <= swap_time_seconds st <= 600)%Z
      /\ cooldown_seconds st = 60%Z.
Proof.
  intros stations stations' iv Ht H. unfold _apply_single_intervention in H.
  rewrite Ht in H. unfold bind in H.
  destruct (new_station_of_params (parameters iv)) as [st|] eqn:E; [|discriminate].
  injection H as <-.
  destruct (new_station_of_params_ok _ _ E)
    as (Hid & _ & _ & _ & _ & _ & Htb & Hcc & Hp0 & Hp1 & Hsw & Hcd & _).
  exists st. split; [exact Hid|]. split; [apply dict_get_set_same|].
  split; [intros k Hk; apply dict_get_set_other, Hk|].
  repeat split; try assumption; try lia.
Qed.

Lemma add_station_is_validated_witness :
  exists st : StationConfig,
    _apply_single_intervention [("s1", default_StationConfig "s1")]%string
      (mkIntervention ADD_STATION None
         [("id", PStr "s2"); ("location", PList [28; 77]);
          ("charger_count", PInt 6); ("total_batteries", PInt 25)]%string)
    = Ok [("s1", default_StationConfig "s1"); ("s2", st)]%string
    /\ (1 <= charger_count st <= 50)%Z.
Proof.
  destruct (add_station_is_validated
              [("s1", default_StationConfig "s1")]%string
              [("s1", default_StationConfig "s1");
               ("s2", mkStationConfig "s2" "" (mkLocation 28 77) 25 6 60 90 None 60
                        default_BatteryConfig "SCENARIO" "ACTIVE")]%string
              (mkIntervention ADD_STATION None
                 [("id", PStr "s2"); ("location", PList [28; 77]);
                  ("charger_count", PInt 6); ("total_batteries", PInt 25)]%string)
              eq_refl eq_refl)
    as (st & Hid & Hg & _ & Hcc & _).
  exists st. split; [|exact Hcc].
  simpl in Hid. injection Hid as Hid. rewrite <- Hid in Hg.
  simpl in Hg. injection Hg as <-. reflexivity.
Defined.

(** ** The battery *)

(** One cycle of a battery: depleted in a vehicle it is not swappable and
    its state of charge is not negative; charged again to 100 it is
    swappable (the swap threshold being at most 100), one cycle older, and
    otherwise the same battery. *)
Theorem battery_cycle_round_trip :
  forall (b : Battery) (target_soc : Q),
    min_swap_soc b <= 100 ->
    let used := deplete b target_soc in
    let back := complete_charge (set_charging used) 100 in
    is_swappable used = false /\ 0 <= soc used
    /\ is_swappable (set_charging used) = false
    /\ is_swappable back = true /\ soc back = 100
    /\ cycle_count back = (cycle_count b + 1)%Z
    /\ battery_id back = battery_id b /\ capacity_kwh back = capacity_kwh b
    /\ health back = health b /\ min_swap_soc back = min_swap_soc b.
Proof.
  intros b target_soc Hmin. cbv zeta.
  unfold is_swappable, deplete, set_charging, set_status, complete_charge.
  cbn [soc status min_swap_soc battery_id capacity_kwh health cycle_count
       BatteryStatus_eqb].
  rewrite !andb_false_r.
  change (py_min 100 100) with 100.
  split; [reflexivity|]. split.
  - unfold py_max. destruct (Qltb 0 target_soc) eqn:E; [|lra].
    apply Qltb_lt in E. lra.
  - split; [reflexivity|]. split; [|repeat split].
    rewrite andb_true_r. apply Qle_bool_iff. exact Hmin.
Qed.

Lemma battery_cycle_round_trip_witness :
  is_swappable (deplete full_battery 20) = false
  /\ is_swappable (complete_charge (set_charging (deplete full_battery 20)) 100)
     = true.
Proof.
  destruct (battery_cycle_round_trip full_battery 20) as (H1 & _ & _ & H2 & _).
  - unfold Qle. simpl. lia.
  - split; assumption.
Defined.

(** The energy left in a battery is between nothing and its capacity. *)
Theorem energy_remaining_within_capacity :
  forall b : Battery,
    0 <= soc b -> soc b <= 100 -> 0 <= capacity_kwh b ->
    0 <= health b -> health b <= 1 ->
    0 <= energy_remaining_kwh b /\ energy_remaining_kwh b <= capacity_kwh b.
Proof.
  intros b Hs0 Hs1 Hc Hh0 Hh1. unfold energy_remaining_kwh.
  set (s := soc b) in *. set (c := capacity_kwh b) in *. set (h := health b) in *.
  assert (E : s / 100 * c * h == (s * (1 # 100)) * (c * h)) by field.
  rewrite E.
  assert (H1 : 0 <= s * (1 # 100)) by lra.
  assert (H2 : s * (1 # 100) <= 1) by lra.
  assert (H3 : 0 <= c * h) by (apply Qmult_le_0_compat; assumption).
  assert (H4 : c * h <= c).
  { rewrite <- (Qmult_1_r c) at 2. rewrite !(Qmult_comm c).
    apply Qmult_le_compat_r; assumption. }
  split; [apply Qmult_le_0_compat; assumption|].
  apply Qle_trans with (1 * (c * h)); [apply Qmult_le_compat_r; assumption|].
  rewrite Qmult_1_l. exact H4.
Qed.

Lemma energy_remaining_within_capacity_witness :
  energy_remaining_kwh docstring_battery == 475 # 100
  /\ 0 <= energy_remaining_kwh docstring_battery
  /\ energy_remaining_kwh docstring_battery <= capacity_kwh docstring_battery.
Proof.
  split; [reflexivity|].
  apply (energy_remaining_within_capacity docstring_battery);
    unfold Qle; simpl; lia.
Defined.

(** ** The charge curve *)

(** The charge time on the three stretches of the state of charge. *)
Lemma charge_time_cases (config : StationConfig) (b : Battery) :
  0 < charge_power_kw config ->
  let k := capacity_kwh b / charge_power_kw config in
  (soc b < 80 -> _calculate_charge_time config b == k * 36 * (120 - soc b))
  /\ (80 <= soc b -> soc b < 100 ->
      _calculate_charge_time config b == k * 72 * (100 - soc b))
  /\ (100 <= soc b -> _calculate_charge_time config b == 0).
Proof.
  intros Hp k. unfold k, _calculate_charge_time. cbv zeta.
  set (s := soc b). set (c := capacity_kwh b).
  set (p := charge_power_kw config) in *.
  change (py_min 80 100) with 80.
  assert (Hp' : ~ p == 0).
  { intro E. apply (Qlt_not_eq _ _ Hp). symmetry. exact E. }
  unfold py_max.
  split; [|split].
  - intro Hs. assert (E : Qltb s 80 = true) by (apply Qltb_lt; exact Hs).
    assert (E1 : Qltb 0 (100 - 80) = true) by reflexivity.
    rewrite !E, !E1. field. exact Hp'.
  - intros Hs1 Hs2. assert (E : Qltb s 80 = false) by (apply Qltb_ge; exact Hs1).
    assert (E1 : Qltb 0 (100 - s) = true) by (apply Qltb_lt; lra).
    rewrite !E, !E1. field. exact Hp'.
  - intro Hs. assert (E : Qltb s 80 = false) by (apply Qltb_ge; lra).
    assert (E1 : Qltb 0 (100 - s) = false) by (apply Qltb_ge; lra).
    rewrite !E, !E1, Qltb_0_0. reflexivity.
Qed.

(** A battery with more charge never takes longer to charge, and a battery
    takes no time at all exactly when it is full (at 100 or above).  From
    empty, a charge takes 1.2 times capacity over power, in hours. *)
Theorem charge_time_decreases_with_soc :
  forall (config : StationConfig) (b1 b2 : Battery),
    0 < charge_power_kw config ->
    0 < capacity_kwh b1 -> capacity_kwh b2 = capacity_kwh b1 ->
    soc b1 <= soc b2 ->
    _calculate_charge_time config b2 <= _calculate_charge_time config b1
    /\ (_calculate_charge_time config b1 == 0 <-> 100 <= soc b1)
    /\ (soc b1 == 0 ->
        _calculate_charge_time config b1
        == (12 # 10) * (capacity_kwh b1 / charge_power_kw config) * 3600).
Proof.
  intros config b1 b2 Hp Hc Ec Hs.
  destruct (charge_time_cases config b1 Hp) as (A1 & B1 & C1).
  destruct (charge_time_cases config b2 Hp) as (A2 & B2 & C2).
  rewrite Ec in *.
  set (k := capacity_kwh b1 / charge_power_kw config) in *.
  assert (Hk : 0 < k).
  { unfold k. apply Qlt_shift_div_l; [exact Hp|]. lra. }
  set (s1 := soc b1) in *. set (s2 := soc b2) in *.
  split; [|split].
  - destruct (Qlt_le_dec s1 80) as [L1|L1];
      [|destruct (Qlt_le_dec s1 100) as [M1|M1]];
      (destruct (Qlt_le_dec s2 80) as [L2|L2];
       [|destruct (Qlt_le_dec s2 100) as [M2|M2]]);
      try lra;
      rewrite ?(A1 L1), ?(B1 L1 M1), ?(C1 M1), ?(A2 L2), ?(B2 L2 M2), ?(C2 M2);
      nra.
  - split.
    + intro Z. destruct (Qlt_le_dec s1 100) as [M1|M1]; [|exact M1]. exfalso.
      destruct (Qlt_le_dec s1 80) as [L1|L1].
      * rewrite (A1 L1) in Z. nra.
      * rewrite (B1 L1 M1) in Z. nra.
    + exact C1.
  - intro Z. rewrite A1 by lra. rewrite Z. field.
Qed.

Lemma charge_time_decreases_with_soc_witness :
  _calculate_charge_time (default_StationConfig "s1") full_battery
  <= _calculate_charge_time (default_StationConfig "s1") (deplete full_battery 20).
Proof.
  apply (charge_time_decreases_with_soc (default_StationConfig "s1")
           (deplete full_battery 20) full_battery);
    try reflexivity; unfold Qle; simpl; lia.
Defined.

(** ** Battery identifiers *)

Lemma digit_value_char (d : nat) : (d < 10)%nat -> digit_value (digit_char d) = d.
Proof.
  intro H. unfold digit_value, digit_char.
  rewrite nat_ascii_embedding by lia. lia.
Qed.

Lemma parse_decimal_digits (fuel : nat) :
  forall (n : nat) (acc : string),
    (n < fuel)%nat ->
    exists d, forall k,
      parse_decimal (decimal_digits fuel n acc) k
      = parse_decimal acc (k * 10 ^ d + n).
Proof.
  induction fuel as [|fuel IH]; intros n acc Hn; [lia|].
  cbn [decimal_digits].
  assert (Hd : (n mod 10 < 10)%nat) by (apply Nat.mod_upper_bound; lia).
  pose proof (Nat.div_mod_eq n 10) as Hdm.
  destruct (n / 10 =? 0)%nat eqn:E.
  - apply Nat.eqb_eq in E. exists 1%nat. intro k.
    cbn [parse_decimal]. rewrite digit_value_char by exact Hd.
    f_equal. rewrite Nat.pow_1_r. lia.
  - apply Nat.eqb_neq in E.
    destruct (IH (n / 10)%nat (String (digit_char (n mod 10)) acc)) as (d & H).
    + assert (n / 10 < n)%nat by (apply Nat.div_lt; lia). lia.
    + exists (S d). intro k. rewrite H. cbn [parse_decimal].
      rewrite digit_value_char by exact Hd. f_equal.
      rewrite Nat.pow_succ_r'. lia.
Qed.

Lemma parse_zero_pad (j : nat) (s : string) :
  parse_decimal (zero_pad j s) 0 = parse_decimal s 0.
Proof.
  induction j as [|j IH]; [reflexivity|]. simpl. exact IH.
Qed.

Lemma parse_format_03d (i : nat) : parse_decimal (format_03d i) 0 = i.
Proof.
  unfold format_03d. cbv zeta. rewrite parse_zero_pad. unfold str_of_nat.
  destruct (parse_decimal_digits (S i) i EmptyString (Nat.lt_succ_diag_r i))
    as (d & H).
  rewrite H. simpl. reflexivity.
Qed.

Lemma string_app_inv_head (a x y : string) :
  (a ++ x)%string = (a ++ y)%string -> x = y.
Proof.
  induction a as [|c a IH]; simpl; intro H; [exact H|].
  injection H as H. apply IH, H.
Qed.

Lemma battery_name_injective (station_id : string) (i j : nat) :
  battery_name station_id i = battery_name station_id j -> i = j.
Proof.
  unfold battery_name. intro H.
  apply string_app_inv_head in H. apply string_app_inv_head in H.
  rewrite <- (parse_format_03d i), <- (parse_format_03d j), H. reflexivity.
Qed.

Lemma NoDup_map_injective {A B} (f : A -> B) (l : list A) :
  (forall x y, f x = f y -> x = y) -> NoDup l -> NoDup (map f l).
Proof.
  intros Hf H. induction H as [|x l Hx _ IH]; simpl; constructor; [|exact IH].
  intro Hin. apply in_map_iff in Hin. destruct Hin as (y & E & Hy).
  apply Hf in E. subst y. exact (Hx Hy).
Qed.

Lemma nth_error_seq_value (len : nat) :
  forall start i j, nth_error (seq start len) i = Some j -> j = (start + i)%nat.
Proof.
  induction len as [|len IH]; intros start [|i] j H; simpl in H; try discriminate.
  - injection H as <-. lia.
  - apply IH in H. lia.
Qed.

Lemma initial_battery_id (config : StationConfig) (i : nat) :
  battery_id (initial_battery config i) = battery_name (sc_id config) i.
Proof.
  unfold initial_battery. cbv zeta. destruct (_ <? _)%Z; reflexivity.
Qed.

Lemma initial_stores_length (config : StationConfig) :
  (List.length (initial_pool config) + List.length (initial_charge_queue config)
   = Z.to_nat (total_batteries config))%nat.
Proof.
  unfold initial_pool, initial_charge_queue, placed_on, _initialize_batteries.
  set (n := Z.to_nat (total_batteries config)). rewrite !length_map.
  set (l := map _ (seq 0 n)).
  assert (Hl : List.length l = n)
    by (unfold l; rewrite length_map, length_seq; reflexivity).
  rewrite <- Hl. clear Hl. induction l as [|[b p] l IH]; [reflexivity|].
  simpl. destruct p; simpl; lia.
Qed.

(** A station starts with exactly [total_batteries] batteries (none when
    that number is not positive), each in the pool or on the charge queue,
    and no two of them have the same identifier: the number in an
    identifier read back as a number is the index of the battery. *)
Theorem initial_batteries_have_distinct_ids :
  forall config : StationConfig,
    let placed := _initialize_batteries config in
    List.length placed = Z.to_nat (total_batteries config)
    /\ (List.length (initial_pool config)
        + List.length (initial_charge_queue config)
        = Z.to_nat (total_batteries config))%nat
    /\ NoDup (map battery_id (map fst placed))
    /\ (forall i b p, nth_error placed i = Some (b, p) ->
          battery_id b
          = (sc_id config ++ "_batt_" ++ format_03d i)%string
          /\ parse_decimal (format_03d i) 0 = i).
Proof.
  intro config. cbv zeta. unfold _initialize_batteries.
  set (n := Z.to_nat (total_batteries config)).
  split; [rewrite length_map, length_seq; reflexivity|]. split; [|split].
  - apply initial_stores_length.
  - rewrite !map_map. simpl.
    rewrite (map_ext _ (battery_name (sc_id config)))
      by (intro i; apply initial_battery_id).
    apply NoDup_map_injective; [apply battery_name_injective|apply seq_NoDup].
  - intros i b p H. split; [|apply parse_format_03d].
    rewrite nth_error_map in H.
    destruct (nth_error (seq 0 n) i) as [j|] eqn:E; [|discriminate].
    simpl in H. injection H as <- _.
    apply nth_error_seq_value in E. simpl in E. subst j.
    apply initial_battery_id.
Qed.

(** ** One step of the environment, in full *)

Lemma agenda_weight_perm (f : Action -> Z) (l l' : list AgendaEntry) :
  Permutation l l' -> agenda_weight f l = agenda_weight f l'.
Proof.
  intro P. unfold agenda_weight, sumZ. induction P; simpl; lia.
Qed.

Lemma agenda_weight_app (f : Action -> Z) (l l' : list AgendaEntry) :
  agenda_weight f (l ++ l') = (agenda_weight f l + agenda_weight f l')%Z.
Proof.
  unfold agenda_weight, sumZ. induction l as [|e l IH]; simpl; lia.
Qed.

Lemma agenda_weight_entries (f : Action -> Z) (now : Q) (rqs : list Request) :
  agenda_weight f (map (entry_of now) rqs) = requests_weightZ f rqs.
Proof.
  unfold agenda_weight, requests_weightZ. rewrite map_map. reflexivity.
Qed.

Lemma requests_weightZ_app (f : Action -> Z) (l l' : list Request) :
  requests_weightZ f (l ++ l') = (requests_weightZ f l + requests_weightZ f l')%Z.
Proof.
  unfold requests_weightZ, sumZ. induction l as [|e l IH]; simpl; lia.
Qed.

Lemma requests_weightZ_zero (f : Action -> Z) (rqs : list Request) :
  Forall (fun r => f (rq_action r) = 0%Z) rqs -> requests_weightZ f rqs = 0%Z.
Proof.
  unfold requests_weightZ, sumZ. induction 1 as [|r l Hr _ IH]; simpl; lia.
Qed.

Section StepEffects.
Context {R : NumpyRandom}.

Lemma generator_effects (o : Orchestrator) (s : nat) (w : World) :
  let w' := _vehicle_arrival_generator o s w in
  now w' = now w /\ objs w' = objs w /\ events w' = events w
  /\ (failure w' = None ->
      failure w = None
      /\ exists r, generator_request s r
                   /\ Qltb (rq_delay r) 0 = false
                   /\ agenda w' = insert_event (entry_of (now w) r) (agenda w)).
Proof.
  unfold _vehicle_arrival_generator. cbv zeta.
  assert (G : forall (r : Request) (g : Generator),
             generator_request s r ->
             let w' := schedule r (set_np_rng w g) in
             now w' = now w /\ objs w' = objs w /\ events w' = events w
             /\ (failure w' = None ->
                 failure w = None
                 /\ exists r, generator_request s r
                              /\ Qltb (rq_delay r) 0 = false
                              /\ agenda w'
                                 = insert_event (entry_of (now w) r) (agenda w))).
  { intros r g Hg.
    destruct (schedule_cases r (set_np_rng w g)) as (A & B & C & D & E).
    do 3 (split; [assumption|]). intro F. destruct (E F) as (F' & Hd & Ha).
    split; [exact F'|]. exists r. auto. }
  destruct (Qle_bool _ 0).
  - destruct (schedule_cases (timeout 3600 (GenTick s)) w) as (A & B & C & D & E).
    do 3 (split; [assumption|]). intro F. destruct (E F) as (F' & Hd & Ha).
    split; [exact F'|]. exists (timeout 3600 (GenTick s)).
    split; [left; eauto|]. split; [exact Hd|exact Ha].
  - destruct (standard_exponential (_np_rng w)) as [e g].
    destruct (Qltb 0 _).
    + destruct (standard_normal g) as [z g']. apply G. right. left. eauto.
    + apply G. right. left. eauto.
Qed.

(** Everything one step of the environment does, when nothing raised: the
    first event leaves the agenda, the clock moves to its time, and either
    a code segment of a station runs, or the arrival generator of a station
    does, or a finished process is discarded.  Every new event is scheduled
    with a delay that is not negative. *)
Lemma step_effects (o : Orchestrator) (w w' : World) :
  step o w = Some w' -> failure w' = None ->
  exists t p a rest rqs logs,
    agenda w = (t, p, a) :: rest /\ a <> StopSimulation /\ failure w = None
    /\ now w' = t
    /\ events w' = events w ++ map (event_of o t) logs
    /\ Permutation (agenda w') (rest ++ map (entry_of t) rqs)
    /\ Forall (fun r => Qltb (rq_delay r) 0 = false) rqs
    /\ ((exists s seg self,
           segment_of t a = Some (s, seg) /\ nth_error (objs w) s = Some self
           /\ objs w' = list_set (objs w) s (o_station (seg self))
           /\ rqs = o_requests (seg self) /\ logs = o_log (seg self))
        \/ (objs w' = objs w /\ logs = []
            /\ ((exists s seg, segment_of t a = Some (s, seg)
                               /\ nth_error (objs w) s = None /\ rqs = [])
                \/ (exists s, (a = InitGen s \/ a = GenTick s \/ a = GenArrival s)
                              /\ Forall (generator_request s) rqs)
                \/ (exists b, a = ProcessDone b /\ rqs = [])))).
Proof.
  unfold step. intros H F.
  destruct (failure w) eqn:Fw; [discriminate|].
  destruct (agenda w) as [|[[t p] a] rest] eqn:Ag; [discriminate|].
  set (w1 := set_agenda (set_now w t) rest) in *.
  assert (Hw' : w' = exec o a w1) by (destruct a; congruence).
  assert (Ha : a <> StopSimulation) by (destruct a; congruence).
  clear H. subst w'.
  unfold exec in *. change (now w1) with t in *.
  destruct (segment_of t a) as [[s seg]|] eqn:Seg.
  - unfold on_station in *. change (objs w1) with (objs w) in *.
    destruct (nth_error (objs w) s) as [self|] eqn:Ns.
    + destruct (apply_outcome_ok o s (seg self) w1) as (A & B & C & D & E & G).
      destruct (G F) as (_ & Hd & P).
      exists t, p, a, rest, (o_requests (seg self)), (o_log (seg self)).
      do 4 (split; [auto|]). split; [exact C|]. split; [exact P|].
      split; [exact Hd|]. left. exists s, seg, self. auto.
    + exists t, p, a, rest, [], [].
      do 4 (split; [auto|]). split; [simpl; rewrite app_nil_r; reflexivity|].
      split; [simpl; rewrite app_nil_r; apply Permutation_refl|].
      split; [constructor|]. right. split; [reflexivity|]. split; [reflexivity|].
      left. exists s, seg. auto.
  - destruct a; simpl in Seg; try discriminate; try congruence.
    + (* InitGen *)
      destruct (generator_effects o s w1) as (A & B & C & E).
      destruct (E F) as (_ & r & Hg & Hd & Hag).
      exists t, p, (InitGen s), rest, [r], [].
      do 3 (split; [auto|]). split; [exact A|].
      split; [simpl; rewrite app_nil_r; exact C|].
      split; [rewrite Hag; eapply Permutation_trans; [apply insert_event_perm|];
              simpl; apply Permutation_cons_append|].
      split; [constructor; [exact Hd|constructor]|].
      right. split; [exact B|]. split; [reflexivity|]. right. left.
      exists s. split; [auto|]. constructor; [exact Hg|constructor].
    + (* ProcessDone *)
      exists t, p, (ProcessDone result), rest, [], [].
      do 4 (split; [auto|]). split; [simpl; rewrite app_nil_r; reflexivity|].
      split; [simpl; rewrite app_nil_r; apply Permutation_refl|].
      split; [constructor|]. right. split; [reflexivity|]. split; [reflexivity|].
      right. right. eauto.
    + (* GenTick *)
      destruct (generator_effects o s w1) as (A & B & C & E).
      destruct (E F) as (_ & r & Hg & Hd & Hag).
      exists t, p, (GenTick s), rest, [r], [].
      do 3 (split; [auto|]). split; [exact A|].
      split; [simpl; rewrite app_nil_r; exact C|].
      split; [rewrite Hag; eapply Permutation_trans; [apply insert_event_perm|];
              simpl; apply Permutation_cons_append|].
      split; [constructor; [exact Hd|constructor]|].
      right. split; [exact B|]. split; [reflexivity|]. right. left.
      exists s. split; [auto|]. constructor; [exact Hg|constructor].
    + (* GenArrival *)
      unfold _vehicle_arrival_generator_arrival, create_vehicle in *.
      cbv zeta in *.
      set (v := ("vehicle_" ++ _)%string) in *.
      set (w2 := set_uuid_calls w1 _) in *.
      destruct (schedule_cases (process (InitVeh s v)) w2) as (A1 & B1 & C1 & D1 & E1).
      destruct (generator_effects o s (schedule (process (InitVeh s v)) w2))
        as (A & B & C & E).
      destruct (E F) as (F1 & r & Hg & Hd & Hag).
      destruct (E1 F1) as (_ & Hd1 & Hag1).
      exists t, p, (GenArrival s), rest, [process (InitVeh s v); r], [].
      do 3 (split; [auto|]). split; [rewrite A, A1; reflexivity|].
      split; [simpl; rewrite app_nil_r, C, C1; reflexivity|].
      split.
      { rewrite Hag, Hag1, A1. change (now w2) with t. change (agenda w2) with rest.
        eapply Permutation_trans; [apply insert_event_perm|].
        eapply Permutation_trans; [apply perm_skip, insert_event_perm|].
        eapply Permutation_trans; [apply perm_swap|].
        change (Permutation
                  ([entry_of t (process (InitVeh s v)); entry_of t r] ++ rest)
                  (rest ++ [entry_of t (process (InitVeh s v)); entry_of t r])).
        apply Permutation_app_comm. }
      split; [constructor; [exact Hd1|constructor; [exact Hd|constructor]]|].
      right. split; [rewrite B, B1; reflexivity|]. split; [reflexivity|].
      right. left. exists s. split; [auto|].
      constructor; [right; right; eauto|constructor; [exact Hg|constructor]].
Qed.

End StepEffects.

(** ** The world a run starts from *)

Lemma new_Station_built (s : nat) (c : StationConfig) (self : Station)
    (rq : list Request) :
  new_Station s c true = Ok (self, rq) ->
  built_station self /\ config self = c /\ Forall (startup_request s) rq
  /\ (1 <= charger_count c)%Z.
Proof.
  unfold new_Station. destruct (charger_count c <=? 0)%Z eqn:E; [discriminate|].
  intro H. injection H as <- <-.
  split; [reflexivity|]. split; [reflexivity|]. split; [|lia].
  apply Forall_app. split.
  - apply Forall_forall. intros r Hr. apply in_map_iff in Hr.
    destruct Hr as ([b p] & <- & _). destruct p; [left|right; left]; reflexivity.
  - constructor; [right; right; reflexivity|constructor].
Qed.

Lemma dict_set_Forall {V} (P : string * V -> Prop) (k : string) (v : V)
    (d : list (string * V)) :
  P (k, v) -> Forall P d -> Forall P (dict_set k v d).
Proof.
  intros Hk H. induction H as [|[k0 v0] d Hx Hd IH]; simpl.
  - constructor; [exact Hk|constructor].
  - destruct (String.eqb k k0); constructor; assumption.
Qed.

Lemma initialize_stations_built (effective : list StationConfig) :
  forall objs index rq objs' index' rq',
    _initialize_stations effective objs index rq = Ok (objs', index', rq') ->
    Forall built_station objs ->
    Forall (fun r => exists s, (s < List.length objs)%nat /\ startup_request s r) rq ->
    Forall (fun kv : string * nat => (snd kv < List.length objs)%nat) index ->
    Forall built_station objs'
    /\ Forall (fun r => exists s, (s < List.length objs')%nat
                                  /\ startup_request s r) rq'
    /\ Forall (fun kv : string * nat => (snd kv < List.length objs')%nat) index'
    /\ map config objs' = map config objs ++ effective
    /\ Forall (fun c => (1 <= charger_count c)%Z) effective.
Proof.
  induction effective as [|c rest IH];
    intros objs index rq objs' index' rq' H Hb Hr Hi.
  - simpl in H. injection H as <- <- <-. rewrite app_nil_r. auto.
  - simpl in H. unfold bind in H.
    destruct (new_Station (List.length objs) c true) as [[self nrq]|e] eqn:E;
      [|discriminate].
    simpl in H.
    destruct (new_Station_built _ _ _ _ E) as (Bs & Cf & Sr & Cc).
    apply IH in H.
    + destruct H as (H1 & H2 & H3 & H4 & H5).
      do 3 (split; [assumption|]). split; [|constructor; assumption].
      rewrite H4, map_app. simpl. rewrite Cf, <- app_assoc. reflexivity.
    + apply Forall_app. split; [exact Hb|constructor; [exact Bs|constructor]].
    + rewrite length_app. simpl. apply Forall_app. split.
      * eapply Forall_impl; [|exact Hr]. intros r (s & Hs & Hq).
        exists s. split; [lia|exact Hq].
      * eapply Forall_impl; [|exact Sr]. intros r Hq.
        exists (List.length objs). split; [lia|exact Hq].
    + rewrite length_app. simpl. apply dict_set_Forall; [simpl; lia|].
      eapply Forall_impl; [|exact Hi]. intros kv Hkv. simpl in *. lia.
Qed.

Section StartWorld.
Context {R : NumpyRandom}.

Lemma start_run_agenda (o : Orchestrator) (w : World) :
  failure (start_run o w) = None ->
  Permutation (agenda (start_run o w))
    (entry_of (now w)
       (mkRequest URGENT (horizon_of (orch_config o)) StopSimulation)
     :: agenda w
        ++ map (entry_of (now w))
             (map (fun s => process (InitGen s)) (dict_values (orch_stations o)))).
Proof.
  unfold start_run. cbv zeta.
  set (gens := map (fun s => process (InitGen s)) (dict_values (orch_stations o))).
  destruct (duration_days (orch_config o) * 24 * 3600 <=? 0)%Z eqn:E;
    [discriminate|].
  intro F.
  destruct (schedule_cases
              (mkRequest URGENT
                 (inject_Z (duration_days (orch_config o) * 24 * 3600))
                 StopSimulation) (schedule_all gens w)) as (A & B & C & D & G).
  destruct (G F) as (F1 & _ & Ag).
  destruct (schedule_all_keeps gens w) as (A' & B' & C' & _).
  destruct (schedule_all_ok gens w F1) as (F2 & _ & P).
  rewrite Ag. eapply Permutation_trans; [apply insert_event_perm|].
  rewrite A'. apply perm_skip. exact P.
Qed.

(** The world in which [env.run] is called. *)
Lemma start_world (data : RealNetworkData) (entropy : nat -> string)
    (config0 : SimulationConfig) (o : Orchestrator) (w0 : World) :
  new_Orchestrator data entropy config0 = Ok (o, w0) ->
  failure (start_run o w0) = None ->
  let w := start_run o w0 in
  now w = 0 /\ events w = []
  /\ Forall built_station (objs w)
  /\ Forall (startup_entry (List.length (objs w)) (horizon_of config0)) (agenda w)
  /\ StronglySorted entry_le (agenda w)
  /\ orch_config o = config0 /\ uuid4 o = entropy
  /\ 0 < horizon_of config0
  /\ Forall (fun c => (1 <= charger_count c)%Z) (map config (objs w))
  /\ _apply_interventions (scenario config0)
       (match fst (load_real_network data) with
        | [] => stations config0
        | _ :: _ => fst (load_real_network data)
        end) = Ok (map config (objs w))
  /\ In (Qred (0 + horizon_of config0), URGENT, StopSimulation) (agenda w).
Proof.
  intros Hn F. cbv zeta.
  destruct (new_Orchestrator_spec _ _ _ _ _ Hn)
    as (Hcfg & Hu & effective & objs0 & index & rq & Hap & Hi & Hix & Hw).
  destruct (initialize_stations_built effective [] [] [] objs0 index rq Hi
              (Forall_nil _) (Forall_nil _) (Forall_nil _))
    as (Hb & Hr & Hin & Hm & Hcc).
  simpl in Hm.
  destruct (start_run_spec o w0 F) as (F0 & Nw & Ob & Ev & Hd & _).
  pose proof (start_run_agenda o w0 F) as P.
  set (w00 := mkWorld 0 [] objs0 [] (default_rng (random_seed config0)) 0 None) in *.
  destruct (schedule_all_keeps rq w00) as (N0 & O0 & E0 & _).
  rewrite <- Hw in N0, O0, E0. simpl in N0, O0, E0.
  assert (P0 : Permutation (agenda w0) (map (entry_of 0) rq)).
  { rewrite Hw in F0 |- *. destruct (schedule_all_ok _ _ F0) as (_ & _ & P0).
    exact P0. }
  assert (S0 : StronglySorted entry_le (agenda w0)).
  { rewrite Hw. apply schedule_all_sorted. constructor. }
  rewrite Nw, Ob, Ev, N0, O0, E0.
  split; [reflexivity|]. split; [reflexivity|]. split; [exact Hb|].
  split; [|split; [apply start_run_sorted, S0|]].
  - rewrite N0, Hcfg in P.
    eapply Permutation_Forall; [apply Permutation_sym, P|].
    constructor; [right; reflexivity|].
    apply Forall_app. split.
    + eapply Permutation_Forall; [apply Permutation_sym, P0|].
      apply Forall_forall. intros e He. apply in_map_iff in He.
      destruct He as (r & <- & Hr').
      destruct (proj1 (Forall_forall _ _) Hr r Hr') as (s & Hs & Hq).
      left. exists s, r. auto.
    + apply Forall_forall. intros e He. apply in_map_iff in He.
      destruct He as (r & <- & Hr'). apply in_map_iff in Hr'.
      destruct Hr' as (s & <- & Hs). unfold dict_values in Hs.
      apply in_map_iff in Hs. destruct Hs as (kv & <- & Hkv).
      rewrite Hix in Hkv.
      pose proof (proj1 (Forall_forall _ _) Hin kv Hkv) as Hlt.
      left. exists (snd kv), (process (InitGen (snd kv))). auto.
  - split; [exact Hcfg|]. split; [exact Hu|]. split; [|split; [|split]].
    + unfold horizon_of. rewrite <- Hcfg.
      change 0 with (inject_Z 0). rewrite <- Zlt_Qlt. exact Hd.
    + rewrite Hm. exact Hcc.
    + rewrite Hm. exact Hap.
    + rewrite N0, Hcfg in P.
      eapply Permutation_in; [apply Permutation_sym, P|]. left. reflexivity.
Qed.

End StartWorld.

(** ** Quantities the stations and their pending events keep *)

Section StationBalance.
Context {R : NumpyRandom}.
Variable mu : Station -> Z.
Variable omega : nat -> Action -> Z.
Variable kappa : StationConfig -> Z.

Hypothesis segment_balance :
  forall (now : Q) (a : Action) (s : nat) (seg : Station -> Outcome)
         (self : Station),
    segment_of now a = Some (s, seg) ->
    (mu (o_station (seg self))
     + requests_weightZ (omega s) (o_requests (seg self))
     = mu self + omega s a)%Z
    /\ (forall s', s' <> s ->
          requests_weightZ (omega s') (o_requests (seg self)) = 0%Z
          /\ omega s' a = 0%Z).

Hypothesis no_segment :
  forall (now : Q) (a : Action) (s : nat),
    segment_of now a = None -> omega s a = 0%Z.

Hypothesis generator_weight :
  forall (s s' : nat) (r : Request),
    generator_request s' r -> omega s (rq_action r) = 0%Z.

Lemma balanced_step (o : Orchestrator) (w w' : World) :
  balanced mu omega kappa w -> step o w = Some w' -> failure w' = None ->
  balanced mu omega kappa w'.
Proof.
  intros Hb Hs F.
  destruct (step_effects o w w' Hs F)
    as (t & p & a & rest & rqs & logs & Ag & Ha & Fw & Hn & He & Hp & Hd & Hcase).
  assert (Hhead : forall f, agenda_weight f (agenda w)
                            = (f a + agenda_weight f rest)%Z).
  { intro f. rewrite Ag. reflexivity. }
  assert (Hnew : forall f, agenda_weight f (agenda w')
                           = (agenda_weight f rest + requests_weightZ f rqs)%Z).
  { intro f. rewrite (agenda_weight_perm f _ _ Hp), agenda_weight_app,
      agenda_weight_entries. reflexivity. }
  intros s' self' Hs'.
  destruct Hcase as [(s & seg & self & Seg & Ns & Ho & -> & ->)
                    |(Ho & -> & [(s & seg & Seg & Ns & ->)
                                |[(s & Hgen & Hrq)|(b & -> & ->)]])].
  - destruct (segment_balance t a s seg self Seg) as (Bs & Bo).
    destruct (segment_loop_balance t a s seg self Seg) as (Bc & _).
    rewrite Ho in Hs'.
    destruct (nth_error_list_set _ _ _ _ _ _ Ns Hs') as [(-> & ->)|(Hne & Hs'')].
    + rewrite Bc, <- (Hb s self Ns), Hhead, Hnew. lia.
    + destruct (Bo s' Hne) as (Z1 & Z2).
      rewrite <- (Hb s' self' Hs''), Hhead, Hnew, Z1, Z2. lia.
  - rewrite Ho in Hs'.
    assert (Hne : s' <> s) by (intro; subst; congruence).
    destruct (segment_balance t a s seg self' Seg) as (_ & Bo).
    destruct (Bo s' Hne) as (_ & Z2).
    rewrite <- (Hb s' self' Hs'), Hhead, Hnew, Z2.
    unfold requests_weightZ. simpl. lia.
  - rewrite Ho in Hs'.
    assert (Z1 : requests_weightZ (omega s') rqs = 0%Z).
    { apply requests_weightZ_zero. eapply Forall_impl; [|exact Hrq].
      intros r Hr. eapply generator_weight. exact Hr. }
    assert (Z2 : omega s' a = 0%Z).
    { apply (no_segment t). destruct Hgen as [->|[->| ->]]; reflexivity. }
    rewrite <- (Hb s' self' Hs'), Hhead, Hnew, Z1, Z2. lia.
  - rewrite Ho in Hs'.
    rewrite <- (Hb s' self' Hs'), Hhead, Hnew,
      (no_segment t (ProcessDone b) s' eq_refl).
    unfold requests_weightZ. simpl. lia.
Qed.

End StationBalance.

(** *** No battery is lost and none appears *)

Lemma take_first_length (f : Battery -> bool) (items : list Battery) :
  forall b items', take_first f items = Some (b, items') ->
    List.length items = S (List.length items').
Proof.
  induction items as [|x l IH]; intros b items' H; simpl in H; [discriminate|].
  destruct (f x).
  - injection H as <- <-. reflexivity.
  - destruct (take_first f l) as [[y r]|]; [|discriminate].
    injection H as <- <-. simpl. f_equal. eapply IH. reflexivity.
Qed.

Lemma pool_trigger_get_batteries (s : nat) (parked : list (string * Q)) :
  forall items items' parked' rq,
    pool_trigger_get s items parked = (items', parked', rq) ->
    (Z.of_nat (List.length items')
     + requests_weightZ (battery_weight s) rq = Z.of_nat (List.length items))%Z
    /\ (forall s', s' <> s -> requests_weightZ (battery_weight s') rq = 0%Z).
Proof.
  induction parked as [|[v t] rest IH]; intros items items' parked' rq H;
    simpl in H.
  - injection H as <- <- <-. split; [unfold requests_weightZ; simpl; lia|].
    reflexivity.
  - destruct (take_first is_swappable items) as [[b it]|] eqn:E.
    + destruct (pool_trigger_get s it rest) as [[i2 p2] r2] eqn:E2.
      injection H as <- <- <-. destruct (IH _ _ _ _ E2) as (H1 & H2).
      apply take_first_length in E. unfold requests_weightZ in *. simpl.
      rewrite Nat.eqb_refl. split; [lia|].
      intros s' Hne. rewrite (proj2 (Nat.eqb_neq s' s) Hne). simpl.
      apply H2, Hne.
    + destruct (pool_trigger_get s items rest) as [[i2 p2] r2] eqn:E2.
      injection H as <- <- <-. eapply IH. exact E2.
Qed.

Ltac weighZ :=
  unfold batteries_at_rest, requests_weightZ; simpl; rewrite ?Nat.eqb_refl;
  repeat split; intros;
  repeat match goal with
    | H : ?a <> ?b |- context [(?a =? ?b)%nat] =>
        rewrite (proj2 (Nat.eqb_neq a b) H)
    end;
  simpl; rewrite ?length_app; simpl; try lia; try reflexivity.

Lemma segment_battery_balance (now : Q) (a : Action) (s : nat)
    (seg : Station -> Outcome) (self : Station) :
  segment_of now a = Some (s, seg) ->
  (batteries_at_rest (o_station (seg self))
   + requests_weightZ (battery_weight s) (o_requests (seg self))
   = batteries_at_rest self + battery_weight s a)%Z
  /\ (forall s', s' <> s ->
        requests_weightZ (battery_weight s') (o_requests (seg self)) = 0%Z
        /\ battery_weight s' a = 0%Z).
Proof.
  intro H.
  destruct a; simpl in H; try discriminate; injection H as <- <-;
    unfold batteries_at_rest.
  - (* InitLoop *)
    unfold _charging_loop_get, queue_trigger_get.
    destruct (charge_queue self); weighZ.
  - (* InitVeh *)
    unfold handle_vehicle_arrival. cbv zeta.
    match goal with |- context [(?c =? 0)%nat] => destruct (c =? 0)%nat end.
    + weighZ.
    + match goal with |- context [pool_trigger_get ?s ?i ?p] =>
        destruct (pool_trigger_get s i p) as [[items parked] rq] eqn:E end.
      apply pool_trigger_get_batteries in E. destruct E as (E1 & E2).
      simpl in E1.
      unfold batteries_at_rest. simpl. split; [lia|].
      intros s' Hne. split; [apply E2, Hne|reflexivity].
  - (* QueueGot *)
    unfold _charging_loop_request, chargers_trigger_put.
    destruct (chargers_put_queue self) as [|b0 l]; simpl;
      destruct (Z.of_nat (chargers_users self) <? charger_count (config self))%Z;
      weighZ.
  - (* ChargerGranted *)
    unfold _charging_loop_granted, _charging_loop_charge. cbv zeta.
    simpl. destruct (0 <? cooldown_seconds (config self))%Z; weighZ.
  - (* CooldownOver *)
    unfold _charging_loop_charge. weighZ.
  - (* ChargeOver *)
    unfold _charging_loop_charged. weighZ.
  - (* ChargerReleased *)
    unfold _on_charger_released, chargers_trigger_put.
    destruct (chargers_put_queue self) as [|b0 l]; simpl;
      try destruct (Z.of_nat (chargers_users self) <? charger_count (config self))%Z;
      weighZ.
  - (* PoolPut *)
    unfold _on_pool_put.
    match goal with |- context [pool_trigger_get ?s ?i ?p] =>
      destruct (pool_trigger_get s i p) as [[items parked] rq] eqn:E end.
    apply pool_trigger_get_batteries in E. destruct E as (E1 & E2).
    destruct resume_loop.
    + unfold _charging_loop_get, queue_trigger_get. simpl.
      destruct (charge_queue self); simpl;
        unfold batteries_at_rest; simpl; rewrite ?requests_weightZ_app;
        (split; [unfold requests_weightZ in *; simpl; rewrite ?Nat.eqb_refl;
                 simpl; lia|]);
        intros s' Hne; rewrite ?requests_weightZ_app, (E2 s' Hne);
        unfold requests_weightZ; simpl;
        rewrite ?(proj2 (Nat.eqb_neq _ _) Hne); auto.
    + unfold batteries_at_rest. simpl. split; [lia|].
      intros s' Hne. split; [apply E2, Hne|reflexivity].
  - (* PoolGot *)
    unfold handle_vehicle_arrival_got. weighZ.
  - (* SwapOver *)
    unfold handle_vehicle_arrival_swapped. weighZ.
  - (* QueuePut *)
    unfold _on_queue_put, queue_trigger_get.
    destruct (queue_get_queue self), (charge_queue self), resume_handler; weighZ.
Qed.

Lemma agenda_weight_zero (f : Action -> Z) (l : list AgendaEntry) :
  Forall (fun e => f (snd e) = 0%Z) l -> agenda_weight f l = 0%Z.
Proof.
  unfold agenda_weight, sumZ. induction 1 as [|e l He _ IH]; simpl; lia.
Qed.

Lemma startup_entry_action (n : nat) (horizon : Q) (e : AgendaEntry) :
  startup_entry n horizon e ->
  (exists s, (s < n)%nat
             /\ (snd e = PoolPut s false \/ snd e = QueuePut s None
                 \/ snd e = InitLoop s \/ snd e = InitGen s)
             /\ fst (fst e) = 0 /\ (snd e = PoolPut s false \/ snd e = QueuePut s None
                                    -> snd (fst e) = NORMAL))
  \/ e = (Qred (0 + horizon), URGENT, StopSimulation).
Proof.
  intros [(s & r & Hs & [[-> |[-> | ->]]| ->] & ->)| ->];
    [left; exists s; split; [exact Hs|];
     (split; [cbn; tauto|]); (split; [reflexivity|]);
     cbn; intros [E|E]; try discriminate E; reflexivity ..
    |right; reflexivity].
Qed.

Lemma startup_weightless (f : Action -> Z) (n : nat) (horizon : Q)
    (l : list AgendaEntry) :
  (forall s b, f (PoolPut s b) = 0%Z) -> (forall s x, f (QueuePut s x) = 0%Z) ->
  (forall s, f (InitLoop s) = 0%Z) -> (forall s, f (InitGen s) = 0%Z) ->
  f StopSimulation = 0%Z ->
  Forall (startup_entry n horizon) l -> agenda_weight f l = 0%Z.
Proof.
  intros H1 H2 H3 H4 H5 H. apply agenda_weight_zero.
  eapply Forall_impl; [|exact H]. intros e He.
  apply startup_entry_action in He.
  destruct He as [(s & _ & [E|[E|[E|E]]] & _)| ->]; rewrite ?E; auto.
Qed.


Lemma filter_length_le {A} (f : A -> bool) (l : list A) :
  (List.length (filter f l) <= List.length l)%nat.
Proof.
  induction l as [|x l IH]; simpl; [lia|]. destruct (f x); simpl; lia.
Qed.

Lemma agenda_weight_nonneg (f : Action -> Z) (l : list AgendaEntry) :
  (forall a, 0 <= f a)%Z -> (0 <= agenda_weight f l)%Z.
Proof.
  intro H. unfold agenda_weight, sumZ.
  induction l as [|e l IH]; simpl; [lia|]. specialize (H (snd e)). lia.
Qed.

Lemma run_battery_balance {R : NumpyRandom} (data : RealNetworkData)
    (entropy : nat -> string) (config0 : SimulationConfig) (o : Orchestrator)
    (w0 w : World) :
  new_Orchestrator data entropy config0 = Ok (o, w0) ->
  reachable o (start_run o w0) w -> failure w = None ->
  balanced batteries_at_rest battery_weight
    (fun c => Z.max 0 (total_batteries c)) w.
Proof.
  intros Hn Hr F.
  apply (reachable_invariant o _ (start_run o w0) w); try assumption.
  - intro F0.
    destruct (start_world data entropy config0 o w0 Hn F0)
      as (_ & _ & Hb & Hag & _).
    intros s self Hs.
    rewrite (startup_weightless _ _ _ _ (fun _ _ => eq_refl)
               (fun _ _ => eq_refl) (fun _ => eq_refl) (fun _ => eq_refl)
               eq_refl Hag).
    pose proof (proj1 (Forall_forall _ _) Hb self (nth_error_In _ _ Hs)) as B.
    rewrite B. unfold batteries_at_rest. simpl.
    pose proof (initial_stores_length (config self)). lia.
  - intros w1 w2. apply balanced_step.
    + apply segment_battery_balance.
    + intros t a s Hseg. destruct a; simpl in Hseg; try discriminate; reflexivity.
    + intros s s' r [(d & ->)|[(d & ->)|(v & ->)]]; reflexivity.
Qed.



(** ** The clock *)

Lemma take_first_none (f : Battery -> bool) (items : list Battery) :
  take_first f items = None -> filter f items = [].
Proof.
  induction items as [|x l IH]; simpl; [reflexivity|].
  destruct (f x); [discriminate|].
  destruct (take_first f l) as [[y r]|]; [discriminate|]. exact IH.
Qed.

Lemma delay_later (c t d : Q) :
  c <= t -> Qltb d 0 = false -> c <= Qred (t + d).
Proof.
  intros Hc Hd. apply Qltb_ge in Hd. rewrite Qred_correct. lra.
Qed.

Lemma no_delay_same (t : Q) : t == Qred (t + 0).
Proof. rewrite Qred_correct. lra. Qed.


Ltac normal_requests :=
  simpl; repeat (apply Forall_app; split);
  repeat (apply Forall_cons || apply Forall_nil);
  simpl; auto;
  try (split; [reflexivity|split; [discriminate|auto]]).

Lemma pool_requests_normal (s : nat) (items : list Battery)
    (parked : list (string * Q)) :
  Forall (fun r => rq_priority r = NORMAL /\ rq_action r <> StopSimulation
                   /\ (action_station (rq_action r) = Some s
                       \/ action_station (rq_action r) = None))
    (snd (pool_trigger_get s items parked)).
Proof.
  destruct (pool_trigger_get s items parked) as [[i p] rq] eqn:E.
  apply pool_trigger_get_requests in E. simpl.
  eapply Forall_impl; [|exact E].
  intros r (v & t0 & b0 & ->); simpl.
  split; [reflexivity|split; [discriminate|auto]].
Qed.

Lemma segment_requests_normal (now : Q) (a : Action) (s : nat)
    (seg : Station -> Outcome) (self : Station) :
  segment_of now a = Some (s, seg) ->
  Forall (fun r => rq_priority r = NORMAL /\ rq_action r <> StopSimulation
                   /\ (action_station (rq_action r) = Some s
                       \/ action_station (rq_action r) = None))
    (o_requests (seg self)).
Proof.
  intro H.
  destruct a; simpl in H; try discriminate; injection H as <- <-.
  - unfold _charging_loop_get, queue_trigger_get.
    destruct (charge_queue self); normal_requests.
  - unfold handle_vehicle_arrival. cbv zeta.
    match goal with |- context [(?c =? 0)%nat] => destruct (c =? 0)%nat end.
    + normal_requests.
    + match goal with |- context [pool_trigger_get ?s ?i ?p] =>
        pose proof (pool_requests_normal s i p) as Hrq;
        destruct (pool_trigger_get s i p) as [[items parked] rq] end.
      exact Hrq.
  - unfold _charging_loop_request, chargers_trigger_put.
    destruct (chargers_put_queue self) as [|b0 l]; simpl;
      destruct (Z.of_nat (chargers_users self) <? charger_count (config self))%Z;
      normal_requests.
  - unfold _charging_loop_granted, _charging_loop_charge. cbv zeta.
    simpl. destruct (0 <? cooldown_seconds (config self))%Z; normal_requests.
  - unfold _charging_loop_charge. normal_requests.
  - unfold _charging_loop_charged. normal_requests.
  - unfold _on_charger_released, chargers_trigger_put.
    destruct (chargers_put_queue self) as [|b0 l]; simpl;
      try destruct (Z.of_nat (chargers_users self) <? charger_count (config self))%Z;
      normal_requests.
  - unfold _on_pool_put.
    match goal with |- context [pool_trigger_get ?s ?i ?p] =>
      pose proof (pool_requests_normal s i p) as Hrq;
      destruct (pool_trigger_get s i p) as [[items parked] rq] end.
    simpl in Hrq.
    destruct resume_loop.
    + unfold _charging_loop_get, queue_trigger_get. simpl.
      destruct (charge_queue self); simpl;
        (apply Forall_app; split; [exact Hrq|]); normal_requests.
    + exact Hrq.
  - unfold handle_vehicle_arrival_got. normal_requests.
  - unfold handle_vehicle_arrival_swapped. normal_requests.
  - unfold _on_queue_put, queue_trigger_get.
    destruct (queue_get_queue self), (charge_queue self), resume_handler;
      normal_requests.
Qed.

Lemma StronglySorted_app {A} (Rel : A -> A -> Prop) (l l' : list A) :
  StronglySorted Rel l -> StronglySorted Rel l' ->
  (forall x y, In x l -> In y l' -> Rel x y) ->
  StronglySorted Rel (l ++ l').
Proof.
  intros Hl Hl' H. induction Hl as [|x l Hs IH Hx]; simpl; [exact Hl'|].
  constructor.
  - apply IH. intros a b Ha Hb. apply H; [right; exact Ha|exact Hb].
  - apply Forall_app. split; [exact Hx|].
    apply Forall_forall. intros y Hy. apply H; [left; reflexivity|exact Hy].
Qed.

Lemma StronglySorted_same {A} (Rel : A -> A -> Prop) (l : list A) :
  (forall x y, In x l -> In y l -> Rel x y) -> StronglySorted Rel l.
Proof.
  induction l as [|x l IH]; intro H; constructor.
  - apply IH. intros a b Ha Hb. apply H; right; assumption.
  - apply Forall_forall. intros y Hy. apply H; [left; reflexivity|right; exact Hy].
Qed.

Section Clock.
Context {R : NumpyRandom}.

Lemma schedule_inv_step (horizon : Q) (o : Orchestrator) (w w' : World) :
  schedule_inv horizon w -> step o w = Some w' -> failure w' = None ->
  schedule_inv horizon w' /\ now w <= now w' /\ now w' < horizon.
Proof.
  intros (Hs & (ts & ps & Hstop) & Hb & Hl & H0 & Hh & Hev & Hes) Hstep F.
  pose proof (step_sorted o w w' Hs Hstep) as Hs'.
  destruct (step_effects o w w' Hstep F)
    as (t & p & a & rest & rqs & logs & Ag & Ha & Fw & Hn & He & Hp & Hd & Hcase).
  rewrite Ag in Hs, Hstop, Hb, Hl.
  assert (Hstop' : In (ts, ps, StopSimulation) rest).
  { destruct Hstop as [E|E]; [congruence|exact E]. }
  pose proof (Forall_inv Hb) as Hbh. pose proof (Forall_inv_tail Hb) as Hbr.
  pose proof (Forall_inv Hl) as Hlh. pose proof (Forall_inv_tail Hl) as Hlr.
  simpl in Hlh.
  assert (Hsr : Forall (entry_le (t, p, a)) rest)
    by (inversion Hs; assumption).
  assert (Hstop_shape : ts == horizon /\ ps = URGENT)
    by (exact (proj1 (Forall_forall _ _) Hbr _ Hstop')).
  assert (Ht : t < horizon).
  { pose proof (proj1 (Forall_forall _ _) Hsr _ Hstop') as Hle.
    apply entry_le_spec in Hle. simpl in Hle.
    destruct Hstop_shape as (Ets & Eps).
    destruct Hle as [L|(E & L)]; [lra|].
    assert (Hp0 : p = URGENT) by (unfold URGENT in *; lia).
    assert (Hlt : t < horizon) by (destruct a; try (apply Hbh, Hp0); congruence).
    exact Hlt. }
  assert (Hrq : Forall (fun r => (rq_priority r = NORMAL
                                  \/ (rq_priority r = URGENT /\ rq_delay r = 0))
                                 /\ rq_action r <> StopSimulation) rqs).
  { destruct Hcase as [(s & seg & self & Seg & Ns & Ho & -> & ->)
                      |(Ho & -> & [(s & seg & Seg & Ns & ->)
                                  |[(s & Hgen & Hrq)|(b & -> & ->)]])];
      try constructor.
    - eapply Forall_impl; [|apply (segment_requests_normal t a s seg self Seg)].
      intros r (P1 & P2 & _). auto.
    - eapply Forall_impl; [|exact Hrq].
      intros r [(d & ->)|[(d & ->)|(v & ->)]]; simpl;
        (split; [auto|discriminate]). }
  assert (Hnew : forall r, In r rqs ->
                   entry_before horizon (entry_of t r)
                   /\ t <= fst (fst (entry_of t r))).
  { intros r Hr.
    destruct (proj1 (Forall_forall _ _) Hrq r Hr) as (Hprio & Hns).
    pose proof (proj1 (Forall_forall _ _) Hd r Hr) as Hdl.
    split; [|simpl; apply delay_later; [lra|exact Hdl]].
    unfold entry_of, entry_before.
    destruct (rq_action r); try congruence;
      (intro Hu; destruct Hprio as [Hnm|(_ & Hz)];
       [unfold NORMAL, URGENT in *; congruence|];
       rewrite Hz, Qred_correct; lra). }
  split; [|split; [rewrite Hn; exact Hlh|rewrite Hn; exact Ht]].
  split; [exact Hs'|]. split; [|split; [|split; [|split; [|split; [|split]]]]].
  - exists ts, ps. eapply Permutation_in; [apply Permutation_sym, Hp|].
    apply in_or_app. left. exact Hstop'.
  - eapply Permutation_Forall; [apply Permutation_sym, Hp|].
    apply Forall_app. split; [exact Hbr|].
    apply Forall_forall. intros e Hin. apply in_map_iff in Hin.
    destruct Hin as (r & <- & Hr). apply Hnew, Hr.
  - rewrite Hn. eapply Permutation_Forall; [apply Permutation_sym, Hp|].
    apply Forall_app. split.
    + apply Forall_forall. intros e Hin.
      pose proof (proj1 (Forall_forall _ _) Hsr e Hin) as Hle.
      apply entry_le_spec in Hle. simpl in Hle.
      destruct Hle as [L|(E & _)]; lra.
    + apply Forall_forall. intros e Hin. apply in_map_iff in Hin.
      destruct Hin as (r & <- & Hr). apply Hnew, Hr.
  - rewrite Hn. lra.
  - rewrite Hn. lra.
  - rewrite He, Hn. apply Forall_app. split.
    + eapply Forall_impl; [|exact Hev]. intros ev (H1 & H2). split; [lra|exact H2].
    + apply Forall_forall. intros ev Hin. apply in_map_iff in Hin.
      destruct Hin as (c & <- & _). simpl. split; [lra|exact Ht].
  - rewrite He. apply StronglySorted_app; [exact Hes| |].
    + apply StronglySorted_same. intros x y Hx Hy.
      apply in_map_iff in Hx, Hy.
      destruct Hx as (c & <- & _), Hy as (c' & <- & _).
      unfold event_time_le. simpl. lra.
    + intros x y Hx Hy. apply in_map_iff in Hy. destruct Hy as (c & <- & _).
      unfold event_time_le. simpl.
      destruct (proj1 (Forall_forall _ _) Hev x Hx) as (H1 & _). lra.
Qed.

Lemma schedule_inv_start (data : RealNetworkData) (entropy : nat -> string)
    (config0 : SimulationConfig) (o : Orchestrator) (w0 : World) :
  new_Orchestrator data entropy config0 = Ok (o, w0) ->
  failure (start_run o w0) = None ->
  schedule_inv (horizon_of config0) (start_run o w0).
Proof.
  intros Hn F.
  destruct (start_world data entropy config0 o w0 Hn F)
    as (Nw & Ev & _ & Hag & Hs & _ & _ & Hh & _ & _ & Hstop).
  unfold schedule_inv. rewrite Nw, Ev.
  split; [exact Hs|]. split; [|split; [|split; [|split; [|split; [|split]]]]].
  - eauto.
  - eapply Forall_impl; [|exact Hag]. intros e He.
    apply startup_entry_action in He.
    destruct He as [(s & _ & Hact & Ht & _)| ->].
    + destruct e as [[t p] a]. simpl in *. subst t.
      destruct Hact as [E|[E|[E|E]]]; rewrite E; intros _; exact Hh.
    + simpl. split; [|reflexivity]. rewrite Qred_correct. lra.
  - eapply Forall_impl; [|exact Hag]. intros e He.
    apply startup_entry_action in He.
    destruct He as [(s & _ & _ & Ht & _)| ->]; [rewrite Ht; lra|].
    simpl. rewrite Qred_correct. lra.
  - lra.
  - lra.
  - constructor.
  - constructor.
Qed.

End Clock.

(** ** Properties of every station, pending event and telemetry event *)

Section LocalInvariant.
Context {R : NumpyRandom}.
Variable o : Orchestrator.
Variable PS : Station -> Prop.
Variable PE : AgendaEntry -> Prop.
Variable PV : Event -> Prop.

Variable horizon : Q.

Hypothesis segment_ok :
  forall (t : Q) (p : nat) (a : Action) (s : nat) (seg : Station -> Outcome)
         (self : Station),
    segment_of t a = Some (s, seg) -> t < horizon -> PS self -> PE (t, p, a) ->
    PS (o_station (seg self))
    /\ Forall (fun r => Qltb (rq_delay r) 0 = false -> PE (entry_of t r))
         (o_requests (seg self))
    /\ Forall (fun c => PV (event_of o t c)) (o_log (seg self)).

Hypothesis generator_ok :
  forall (t : Q) (s : nat) (r : Request),
    t < horizon -> generator_request s r -> Qltb (rq_delay r) 0 = false ->
    PE (entry_of t r).

Lemma local_inv_step (w w' : World) :
  schedule_inv horizon w ->
  local_inv PS PE PV w -> step o w = Some w' -> failure w' = None ->
  local_inv PS PE PV w'.
Proof.
  intros Hsched (Hs & He & Hv) Hstep F.
  destruct (schedule_inv_step horizon o w w' Hsched Hstep F) as (_ & _ & Ht).
  destruct (step_effects o w w' Hstep F)
    as (t & p & a & rest & rqs & logs & Ag & Ha & Fw & Hn & Hev & Hp & Hd & Hcase).
  rewrite Hn in Ht. rewrite Ag in He.
  pose proof (Forall_inv He) as Hhead. pose proof (Forall_inv_tail He) as Hrest.
  assert (Hnew : Forall (fun r => Qltb (rq_delay r) 0 = false -> PE (entry_of t r))
                   rqs ->
                 Forall PE (agenda w')).
  { intro Hrq. eapply Permutation_Forall; [apply Permutation_sym, Hp|].
    apply Forall_app. split; [exact Hrest|].
    apply Forall_forall. intros e Hin. apply in_map_iff in Hin.
    destruct Hin as (r & <- & Hr).
    apply (proj1 (Forall_forall _ _) Hrq r Hr).
    exact (proj1 (Forall_forall _ _) Hd r Hr). }
  destruct Hcase as [(s & seg & self & Seg & Ns & Ho & -> & ->)
                    |(Ho & -> & [(s & seg & Seg & Ns & ->)
                                |[(s & Hgen & Hrq)|(b & -> & ->)]])].
  - assert (Hself : PS self)
      by (exact (proj1 (Forall_forall _ _) Hs self (nth_error_In _ _ Ns))).
    destruct (segment_ok t p a s seg self Seg Ht Hself Hhead) as (S1 & S2 & S3).
    split; [rewrite Ho; apply Forall_list_set; assumption|].
    split; [apply Hnew, S2|].
    rewrite Hev. apply Forall_app. split; [exact Hv|].
    apply Forall_forall. intros e Hin. apply in_map_iff in Hin.
    destruct Hin as (c & <- & Hc). exact (proj1 (Forall_forall _ _) S3 c Hc).
  - split; [rewrite Ho; exact Hs|]. split; [apply Hnew; constructor|].
    rewrite Hev. simpl. rewrite app_nil_r. exact Hv.
  - split; [rewrite Ho; exact Hs|]. split.
    + apply Hnew. eapply Forall_impl; [|exact Hrq].
      intros r Hr Hdl. eapply generator_ok; eassumption.
    + rewrite Hev. simpl. rewrite app_nil_r. exact Hv.
  - split; [rewrite Ho; exact Hs|]. split; [apply Hnew; constructor|].
    rewrite Hev. simpl. rewrite app_nil_r. exact Hv.
Qed.

End LocalInvariant.

(** *** Nobody waits, nothing is negative, every event is well formed *)

Ltac sane_event cfg :=
  unfold event_sane, event_of; simpl;
  (split; [reflexivity|]); (split; [reflexivity|]);
  (split; [exists cfg; repeat split; try assumption; try reflexivity;
           try (let X := fresh in intro X; discriminate X)|]);
  repeat split; try discriminate; try reflexivity;
  try (let X := fresh in intro X; discriminate X).

Ltac sane_logs cfg :=
  repeat (apply Forall_cons || apply Forall_nil); sane_event cfg.

Ltac sane_station :=
  unfold station_sane, stats_sane; simpl;
  repeat split; try assumption; try lia.

Lemma segment_sane (o : Orchestrator) (cfgs : list StationConfig)
    (t : Q) (p : nat) (a : Action) (s : nat) (seg : Station -> Outcome)
    (self : Station) :
  segment_of t a = Some (s, seg) ->
  station_sane cfgs self -> entry_sane (t, p, a) ->
  station_sane cfgs (o_station (seg self))
  /\ Forall (fun r => Qltb (rq_delay r) 0 = false -> entry_sane (entry_of t r))
       (o_requests (seg self))
  /\ Forall (fun c => event_sane o cfgs (event_of o t c)) (o_log (seg self)).
Proof.
  intros H (Hin & Horch & Hpark & Hst & Hen) He.
  destruct self as [cfg orch st users putq pool parked q qparked cur act].
  destruct st as [n_swaps n_lost wait_sum wait_max charge_sum energy peak busy].
  unfold stats_sane in Hst. simpl in Hin, Horch, Hpark, Hst, Hen. subst orch parked.
  destruct Hst as (S1 & S2 & S3 & S4 & S5 & S6 & S7).
  destruct a; simpl in H; try discriminate; injection H as <- <-.
  - (* InitLoop *)
    unfold _charging_loop_get, queue_trigger_get.
    destruct q; simpl; (split; [sane_station|]);
      (split; [repeat constructor|constructor]).
  - (* InitVeh *)
    unfold handle_vehicle_arrival, get_available_battery_count. cbv zeta.
    simpl.
    destruct (List.length (filter is_swappable pool) =? 0)%nat eqn:E; simpl.
    + split; [sane_station|]. split; [repeat constructor|].
      sane_logs cfg.
    + destruct (take_first is_swappable pool) as [[b items]|] eqn:Tk.
      * simpl. split; [sane_station|]. split.
        -- constructor; [|constructor]. intros _. simpl. apply no_delay_same.
        -- sane_logs cfg.
      * apply take_first_none in Tk. rewrite Tk in E. discriminate E.
  - (* QueueGot *)
    unfold _charging_loop_request, chargers_trigger_put. simpl.
    destruct putq as [|b0 l]; simpl;
      destruct (Z.of_nat users <? charger_count cfg)%Z;
      simpl; (split; [sane_station|]);
      (split; [repeat constructor|constructor]).
  - (* ChargerGranted *)
    unfold _charging_loop_granted, _charging_loop_charge. cbv zeta. simpl.
    assert (Hgrid : Forall (fun c => event_sane o cfgs (event_of o t c))
              (if _is_grid_limited
                    (mkStation cfg true
                       (mkStationStats n_swaps n_lost wait_sum wait_max
                          charge_sum energy peak busy)
                       users putq pool [] q qparked cur (act + 1))
               then _log_event
                      (mkStation cfg true
                         (mkStationStats n_swaps n_lost wait_sum wait_max
                            charge_sum energy peak busy)
                         users putq pool [] q qparked cur (act + 1))
                      t GRID_LIMIT_HIT (sc_id cfg)
                      [("active_chargers"%string, MInt (act + 1))]
               else [])).
    { destruct (_is_grid_limited _); [|constructor]. sane_logs cfg. }
    destruct (0 <? cooldown_seconds cfg)%Z; simpl.
    + split; [sane_station|]. split; [|exact Hgrid].
      constructor; [|constructor]. intro Hd. simpl.
      apply delay_later; [lra|exact Hd].
    + split; [sane_station|]. split.
      * constructor; [|constructor]. intro Hd. simpl.
        apply delay_later; [lra|exact Hd].
      * apply Forall_app. split; [exact Hgrid|]. sane_logs cfg.
  - (* CooldownOver *)
    unfold _charging_loop_charge. simpl in He |- *.
    split; [sane_station|]. split.
    + constructor; [|constructor]. intro Hd. simpl.
      apply delay_later; [exact He|exact Hd].
    + sane_logs cfg.
  - (* ChargeOver *)
    unfold _charging_loop_charged. cbv zeta. simpl in He |- *.
    assert (Hdur : 0 <= Qred (t - charge_start)) by (rewrite Qred_correct; lra).
    split; [|split].
    + unfold station_sane, stats_sane. simpl.
      repeat split; try assumption; try lia;
        try (rewrite Qred_correct; lra).
      intro Hp. rewrite Qred_correct.
      assert (0 <= Qred (_calculate_energy_used cfg (Qred (t - charge_start)))).
      { rewrite Qred_correct. unfold _calculate_energy_used. cbv zeta.
        apply Qmult_le_0_compat.
        - apply Qmult_le_0_compat; [exact Hp|discriminate].
        - unfold Qdiv. apply Qmult_le_0_compat; [exact Hdur|discriminate]. }
      specialize (Hen Hp). lra.
    + repeat constructor.
    + sane_logs cfg.
      exists (Qred (t - charge_start)). split; [reflexivity|exact Hdur].
  - (* ChargerReleased *)
    unfold _on_charger_released, chargers_trigger_put. simpl.
    destruct putq as [|b0 l]; simpl;
      try destruct (Z.of_nat users <? charger_count cfg)%Z;
      simpl; (split; [sane_station|]);
      (split; [repeat constructor|constructor]).
  - (* PoolPut *)
    unfold _on_pool_put. simpl.
    destruct resume_loop.
    + unfold _charging_loop_get, queue_trigger_get. simpl.
      destruct q; simpl; (split; [sane_station|]);
        (split; [repeat constructor|constructor]).
    + simpl. split; [sane_station|]. split; constructor.
  - (* PoolGot *)
    unfold handle_vehicle_arrival_got. cbv zeta. simpl in He |- *.
    assert (Hw : Qred (t - arrival_time) = 0).
    { change 0 with (Qred 0). apply Qred_complete. lra. }
    rewrite Hw.
    split; [|split].
    + unfold station_sane, stats_sane. simpl.
      repeat split; try assumption; try lia.
      * rewrite Qred_correct. lra.
      * unfold py_max. destruct (Qltb wait_max 0); [reflexivity|exact S4].
    + constructor; [|constructor]. intros _. exact I.
    + sane_logs cfg.
  - (* SwapOver *)
    unfold handle_vehicle_arrival_swapped. cbv zeta. simpl.
    split; [sane_station|]. split; [repeat constructor|].
    sane_logs cfg.
  - (* QueuePut *)
    unfold _on_queue_put, queue_trigger_get. simpl.
    destruct qparked, q, resume_handler; simpl;
      (split; [sane_station|]); (split; [repeat constructor|constructor]).
Qed.

Section RunInvariants.
Context {R : NumpyRandom}.

Lemma run_schedule (data : RealNetworkData) (entropy : nat -> string)
    (config0 : SimulationConfig) (o : Orchestrator) (w0 w : World) :
  new_Orchestrator data entropy config0 = Ok (o, w0) ->
  reachable o (start_run o w0) w -> failure w = None ->
  schedule_inv (horizon_of config0) w.
Proof.
  intros Hn Hr F.
  apply (reachable_invariant o _ (start_run o w0) w); try assumption.
  - apply (schedule_inv_start data entropy config0); assumption.
  - intros w1 w2 H1 Hs F2.
    exact (proj1 (schedule_inv_step _ o w1 w2 H1 Hs F2)).
Qed.

Lemma run_configs (data : RealNetworkData) (entropy : nat -> string)
    (config0 : SimulationConfig) (o : Orchestrator) (w0 w : World) :
  new_Orchestrator data entropy config0 = Ok (o, w0) ->
  reachable o (start_run o w0) w -> failure w = None ->
  map config (objs w) = map config (objs w0).
Proof.
  intros Hn Hr F.
  assert (Loop : loops_invariant (map config (objs w0)) w).
  { apply (reachable_invariant o _ (start_run o w0) w); try assumption.
    - apply (loops_invariant_start data entropy config0); assumption.
    - intros w1 w2. apply loops_invariant_step. }
  exact (proj1 Loop).
Qed.

Lemma run_sane (data : RealNetworkData) (entropy : nat -> string)
    (config0 : SimulationConfig) (o : Orchestrator) (w0 w : World) :
  new_Orchestrator data entropy config0 = Ok (o, w0) ->
  reachable o (start_run o w0) w -> failure w = None ->
  local_inv (station_sane (map config (objs w))) entry_sane
    (event_sane o (map config (objs w))) w.
Proof.
  intros Hn Hr F.
  rewrite (run_configs data entropy config0 o w0 w Hn Hr F).
  set (cfgs := map config (objs w0)).
  assert (Inv : schedule_inv (horizon_of config0) w
                /\ local_inv (station_sane cfgs) entry_sane (event_sane o cfgs) w).
  { apply (reachable_invariant o
             (fun w => schedule_inv (horizon_of config0) w
                       /\ local_inv (station_sane cfgs) entry_sane
                            (event_sane o cfgs) w)
             (start_run o w0) w); try assumption.
    - intro F0. split;
        [apply (schedule_inv_start data entropy config0); assumption|].
      destruct (start_world data entropy config0 o w0 Hn F0)
        as (_ & Ev & Hb & Hag & _).
      destruct (start_run_spec o w0 F0) as (_ & _ & Ob & _).
      split; [|split].
      + apply Forall_forall. intros self Hin.
        pose proof (proj1 (Forall_forall _ _) Hb self Hin) as B.
        unfold station_sane. split.
        * unfold cfgs. rewrite <- Ob. apply in_map, Hin.
        * rewrite B. simpl. unfold stats_sane. simpl.
          repeat split; try reflexivity; try lia; try lra.
      + eapply Forall_impl; [|exact Hag]. intros e He.
        apply startup_entry_action in He.
        destruct e as [[t p] a]. simpl in He.
        destruct He as [(s & _ & [E|[E|[E|E]]] & _)|E];
          [rewrite E ..|injection E as -> -> ->]; exact I.
      + rewrite Ev. constructor.
    - intros w1 w2 (H1 & H2) Hs F2. split.
      + exact (proj1 (schedule_inv_step _ o w1 w2 H1 Hs F2)).
      + eapply (local_inv_step o _ _ _ (horizon_of config0)); try eassumption.
        * intros t p a s seg self Seg _.
          exact (segment_sane o cfgs t p a s seg self Seg).
        * intros t s r _ [(d & ->)|[(d & ->)|(v & ->)]] _; exact I. }
  exact (proj2 Inv).
Qed.

End RunInvariants.

(** In a run that raised nothing the clock never goes back and never
    reaches the horizon while events are processed: the telemetry events
    are in the order of their times, none is later than the current time
    and all are before the horizon, and nothing pending is due in the
    past. *)
Theorem clock_never_goes_back :
  forall {R : NumpyRandom} (data : RealNetworkData) (entropy : nat -> string)
         (config0 : SimulationConfig) (o : Orchestrator) (w0 w : World),
    new_Orchestrator data entropy config0 = Ok (o, w0) ->
    reachable o (start_run o w0) w ->
    failure w = None ->
    0 <= now w /\ now w <= horizon_of config0
    /\ StronglySorted event_time_le (events w)
    /\ Forall (fun ev => ev_time ev <= now w /\ ev_time ev < horizon_of config0)
         (events w)
    /\ Forall (fun e : AgendaEntry => now w <= fst (fst e)) (agenda w)
    /\ (forall w', step o w = Some w' -> failure w' = None ->
          now w <= now w' /\ now w' < horizon_of config0).
Proof.
  intros R data entropy config0 o w0 w Hn Hr F.
  pose proof (run_schedule data entropy config0 o w0 w Hn Hr F) as Inv.
  pose proof Inv as (_ & _ & _ & Hl & H0 & Hh & Hev & Hes).
  do 5 (split; [assumption|]).
  intros w' Hs F'.
  exact (proj2 (schedule_inv_step _ o w w' Inv Hs F')).
Qed.

Lemma clock_never_goes_back_witness :
  exists (o : Orchestrator)
         (w0 w : World (R := ScriptedRandom early_arrival_script)),
    new_Orchestrator no_real_network entropy_a one_station_config = Ok (o, w0)
    /\ steps o 40 (start_run o w0) = Some w
    /\ 0 <= now w /\ now w <= horizon_of one_station_config
    /\ StronglySorted event_time_le (events w)
    /\ Forall (fun ev => ev_time ev <= now w
                         /\ ev_time ev < horizon_of one_station_config)
         (events w)
    /\ Forall (fun e : AgendaEntry => now w <= fst (fst e)) (agenda w)
    /\ (forall w', step o w = Some w' -> failure w' = None ->
          now w <= now w' /\ now w' < horizon_of one_station_config).
Proof.
  eexists. eexists. eexists.
  split; [vm_compute; reflexivity|]. split; [vm_compute; reflexivity|].
  refine (clock_never_goes_back (R := ScriptedRandom early_arrival_script)
            no_real_network entropy_a one_station_config _ _ _ _ _ _).
  - vm_compute. reflexivity.
  - apply (steps_reachable _ 40). vm_compute. reflexivity.
  - vm_compute. reflexivity.
Defined.

(** No vehicle ever waits for a battery.  A vehicle that finds no
    swappable battery is turned away at once, and one that finds one gets
    it at once: at every instant of a run no request is parked on the
    battery pool, the waiting-time statistics of every station are zero,
    and every SWAP_START event reports a waiting time of zero. *)
Theorem no_vehicle_ever_waits :
  forall {R : NumpyRandom} (data : RealNetworkData) (entropy : nat -> string)
         (config0 : SimulationConfig) (o : Orchestrator) (w0 w : World),
    new_Orchestrator data entropy config0 = Ok (o, w0) ->
    reachable o (start_run o w0) w ->
    failure w = None ->
    (forall s self, nth_error (objs w) s = Some self ->
       pool_get_queue self = []
       /\ total_wait_time (stats self) == 0
       /\ max_wait_time (stats self) == 0
       /\ avg_wait_time (stats self) == 0)
    /\ (forall e, In e (events w) -> event_type e = SWAP_START ->
          dict_get "wait_time" (meta_data e) = Some (MNum 0)).
Proof.
  intros R data entropy config0 o w0 w Hn Hr F.
  destruct (run_sane data entropy config0 o w0 w Hn Hr F) as (Hs & _ & Hv).
  split.
  - intros s self Hself.
    destruct (proj1 (Forall_forall _ _) Hs self (nth_error_In _ _ Hself))
      as (_ & _ & Hp & (_ & _ & W1 & W2 & _) & _).
    do 3 (split; [assumption|]).
    unfold avg_wait_time. destruct (total_swaps (stats self) =? 0)%Z;
      [reflexivity|]. rewrite W1. reflexivity.
  - intros e He Hty.
    destruct (proj1 (Forall_forall _ _) Hv e He)
      as (_ & _ & _ & _ & _ & Hw & _).
    exact (Hw Hty).
Qed.

Lemma no_vehicle_ever_waits_witness :
  exists (o : Orchestrator)
         (w0 w : World (R := ScriptedRandom early_arrival_script)),
    new_Orchestrator no_real_network entropy_a one_station_config = Ok (o, w0)
    /\ steps o 40 (start_run o w0) = Some w
    /\ (forall s self, nth_error (objs w) s = Some self ->
          pool_get_queue self = []
          /\ total_wait_time (stats self) == 0
          /\ max_wait_time (stats self) == 0
          /\ avg_wait_time (stats self) == 0)
    /\ (forall e, In e (events w) -> event_type e = SWAP_START ->
          dict_get "wait_time" (meta_data e) = Some (MNum 0)).
Proof.
  eexists. eexists. eexists.
  split; [vm_compute; reflexivity|]. split; [vm_compute; reflexivity|].
  refine (no_vehicle_ever_waits (R := ScriptedRandom early_arrival_script)
            no_real_network entropy_a one_station_config _ _ _ _ _ _).
  - vm_compute. reflexivity.
  - apply (steps_reachable _ 40). vm_compute. reflexivity.
  - vm_compute. reflexivity.
Defined.

(** Every telemetry event of a run carries the run identifier of its
    orchestrator, the identifier of one of the stations and, under
    [sim_time], the very time it is stamped with.  QUEUE_UPDATE and
    STATION_STOCKOUT events are never emitted; a LOST_SWAP always gives the
    reason "stockout"; a SWAP_COMPLETE gives the swap time of its station;
    a CHARGE_COMPLETE gives a final state of charge of 100 and a duration
    that is not negative. *)
Theorem telemetry_events_are_well_formed :
  forall {R : NumpyRandom} (data : RealNetworkData) (entropy : nat -> string)
         (config0 : SimulationConfig) (o : Orchestrator) (w0 w : World),
    new_Orchestrator data entropy config0 = Ok (o, w0) ->
    reachable o (start_run o w0) w ->
    failure w = None ->
    Forall (event_sane o (map config (objs w))) (events w)
    /\ run_id o = entropy 0%nat.
Proof.
  intros R data entropy config0 o w0 w Hn Hr F.
  destruct (run_sane data entropy config0 o w0 w Hn Hr F) as (_ & _ & Hv).
  split; [exact Hv|].
  destruct (new_Orchestrator_spec _ _ _ _ _ Hn) as (_ & Hu & _).
  unfold run_id. rewrite Hu. reflexivity.
Qed.

Lemma telemetry_events_are_well_formed_witness :
  exists (o : Orchestrator)
         (w0 w : World (R := ScriptedRandom early_arrival_script)),
    new_Orchestrator no_real_network entropy_a one_station_config = Ok (o, w0)
    /\ steps o 40 (start_run o w0) = Some w
    /\ Forall (event_sane o (map config (objs w))) (events w)
    /\ run_id o = entropy_a 0%nat.
Proof.
  eexists. eexists. eexists.
  split; [vm_compute; reflexivity|]. split; [vm_compute; reflexivity|].
  refine (telemetry_events_are_well_formed
            (R := ScriptedRandom early_arrival_script)
            no_real_network entropy_a one_station_config _ _ _ _ _ _).
  - vm_compute. reflexivity.
  - apply (steps_reachable _ 40). vm_compute. reflexivity.
  - vm_compute. reflexivity.
Defined.

(** ** A run of valid stations never raises *)

Section Safety.
Context {R : NumpyRandom}.

Lemma schedule_safe (r : Request) (w : World) :
  failure w = None -> request_accepted r -> failure (schedule r w) = None.
Proof.
  unfold schedule, request_accepted. intros F ->. exact F.
Qed.

Lemma schedule_all_safe (rqs : list Request) (w : World) :
  failure w = None -> Forall request_accepted rqs ->
  failure (schedule_all rqs w) = None.
Proof.
  revert w. induction rqs as [|r rqs IH]; intros w F H; simpl; [exact F|].
  apply IH; [apply schedule_safe; [exact F|exact (Forall_inv H)]
            |exact (Forall_inv_tail H)].
Qed.

Lemma apply_outcome_safe (o : Orchestrator) (s : nat) (out : Outcome)
    (w : World) :
  failure w = None -> Forall request_accepted (o_requests out) ->
  failure (apply_outcome o s out w) = None.
Proof.
  intros F H. unfold apply_outcome. cbv zeta.
  apply schedule_all_safe; [|exact H].
  destruct (log_all_keeps o (o_log out)
              (set_objs w (list_set (objs w) s (o_station out))))
    as (_ & _ & _ & _ & _ & Hf & _).
  rewrite Hf. exact F.
Qed.

Lemma generator_safe (o : Orchestrator) (s : nat) (w : World) :
  (forall g, 0 <= fst (standard_exponential g)) ->
  failure w = None -> failure (_vehicle_arrival_generator o s w) = None.
Proof.
  intros Hexp F. unfold _vehicle_arrival_generator. cbv zeta.
  destruct (Qle_bool _ 0) eqn:Hrate.
  - apply schedule_safe; [exact F|]. reflexivity.
  - set (rate := station_rate _ _ _ _) in *.
    assert (Hr : 0 < rate).
    { apply Qnot_le_lt. intro Hle. apply Qle_bool_iff in Hle. congruence. }
    pose proof (Hexp (_np_rng w)) as He.
    destruct (standard_exponential (_np_rng w)) as [e g]. simpl in He.
    assert (Hi : 0 <= 3600 / rate * e).
    { apply Qmult_le_0_compat; [|exact He].
      unfold Qdiv. apply Qmult_le_0_compat; [discriminate|].
      apply Qinv_le_0_compat, Qlt_le_weak, Hr. }
    destruct (Qltb 0 _).
    + destruct (standard_normal g) as [z g'].
      apply schedule_safe; [exact F|].
      unfold request_accepted. simpl. apply Qltb_ge.
      apply Qmult_le_0_compat; [exact Hi|].
      unfold py_max. destruct (Qltb (1 # 2) _) eqn:E.
      * apply Qltb_lt in E. lra.
      * discriminate.
    + apply schedule_safe; [exact F|].
      unfold request_accepted. simpl. apply Qltb_ge. exact Hi.
Qed.

End Safety.

Lemma take_first_Forall (P : Battery -> Prop) (f : Battery -> bool)
    (items : list Battery) :
  forall b items', take_first f items = Some (b, items') ->
    Forall P items -> P b /\ Forall P items'.
Proof.
  induction items as [|x l IH]; intros b items' H Hall; simpl in H;
    [discriminate|].
  pose proof (Forall_inv Hall) as Hx. pose proof (Forall_inv_tail Hall) as Hl.
  destruct (f x).
  - injection H as <- <-. auto.
  - destruct (take_first f l) as [[y r]|]; [|discriminate].
    injection H as <- <-. destruct (IH _ _ eq_refl Hl) as (Hy & Hr).
    split; [exact Hy|constructor; assumption].
Qed.

(** A request that is accepted and carries a sound battery, if any. *)
Local Abbreviation request_sound :=
  (fun r : Request => request_accepted r /\ action_sound (rq_action r)).

Lemma pool_trigger_get_sound (s : nat) (parked : list (string * Q)) :
  forall items items' parked' rq,
    pool_trigger_get s items parked = (items', parked', rq) ->
    Forall battery_sound items ->
    Forall battery_sound items' /\ Forall request_sound rq.
Proof.
  induction parked as [|[v t] rest IH]; intros items items' parked' rq H Hall;
    simpl in H.
  - injection H as <- <- <-. auto.
  - destruct (take_first is_swappable items) as [[b it]|] eqn:E.
    + destruct (pool_trigger_get s it rest) as [[i2 p2] r2] eqn:E2.
      injection H as <- <- <-.
      destruct (take_first_Forall _ _ _ _ _ E Hall) as (Hb & Hit).
      destruct (IH _ _ _ _ E2 Hit) as (H1 & H2).
      split; [exact H1|]. constructor; [|exact H2].
      split; [reflexivity|exact Hb].
    + destruct (pool_trigger_get s items rest) as [[i2 p2] r2] eqn:E2.
      injection H as <- <- <-. eapply IH; eassumption.
Qed.

Ltac sound_station :=
  unfold station_sound; simpl;
  repeat split; try assumption;
  repeat first [assumption | apply Forall_nil | apply Forall_cons
               | apply Forall_app; split].

Ltac sound_requests :=
  repeat (apply Forall_cons || apply Forall_nil);
  try (split; [reflexivity|]); simpl; try assumption; try exact I.

Lemma segment_sound (t : Q) (a : Action) (s : nat)
    (seg : Station -> Outcome) (self : Station) :
  segment_of t a = Some (s, seg) ->
  station_sound self -> action_sound a ->
  station_sound (o_station (seg self))
  /\ Forall request_sound (o_requests (seg self)).
Proof.
  intros H ((Hpw & Hsw & Hcap) & Hpool & Hq & Hput) Ha.
  destruct self as [cfg orch st users putq pool parked q qparked cur act].
  simpl in Hpw, Hsw, Hcap, Hpool, Hq, Hput.
  destruct a; simpl in H; try discriminate; injection H as <- <-;
    simpl in Ha.
  - (* InitLoop *)
    unfold _charging_loop_get, queue_trigger_get.
    destruct q as [|b0 q']; simpl.
    + split; [sound_station|sound_requests].
    + pose proof (Forall_inv Hq). pose proof (Forall_inv_tail Hq).
      split; [sound_station|sound_requests].
  - (* InitVeh *)
    unfold handle_vehicle_arrival, get_available_battery_count. cbv zeta.
    simpl.
    destruct (List.length (filter is_swappable pool) =? 0)%nat eqn:E; simpl.
    + split; [sound_station|sound_requests].
    + destruct (pool_trigger_get s0 pool (parked ++ [(vehicle_id, t)]))
        as [[items parked'] rq] eqn:Pt.
      destruct (pool_trigger_get_sound _ _ _ _ _ _ Pt Hpool) as (H1 & H2).
      simpl. split; [sound_station|exact H2].
  - (* QueueGot *)
    unfold _charging_loop_request, chargers_trigger_put. simpl.
    destruct putq as [|b0 l]; simpl;
      destruct (Z.of_nat users <? charger_count cfg)%Z; simpl;
      try (pose proof (Forall_inv Hput); pose proof (Forall_inv_tail Hput));
      (split; [sound_station|sound_requests]).
  - (* ChargerGranted *)
    unfold _charging_loop_granted, _charging_loop_charge. cbv zeta. simpl.
    destruct (0 <? cooldown_seconds cfg)%Z eqn:Ec; simpl.
    + split; [sound_station|]. constructor; [|constructor]. split.
      * unfold request_accepted. simpl. apply Qltb_ge.
        apply Z.ltb_lt in Ec. change 0 with (inject_Z 0).
        rewrite <- Zle_Qle. lia.
      * exact Ha.
    + split; [sound_station|]. constructor; [|constructor]. split.
      * unfold request_accepted. simpl. apply Qltb_ge.
        apply charge_time_nonneg; assumption.
      * exact Ha.
  - (* CooldownOver *)
    unfold _charging_loop_charge. simpl.
    split; [sound_station|]. constructor; [|constructor]. split.
    + unfold request_accepted. simpl. apply Qltb_ge.
      apply charge_time_nonneg; assumption.
    + exact Ha.
  - (* ChargeOver *)
    unfold _charging_loop_charged. cbv zeta. simpl.
    split; [sound_station|sound_requests].
  - (* ChargerReleased *)
    unfold _on_charger_released, chargers_trigger_put. simpl.
    destruct putq as [|b0 l]; simpl;
      try destruct (Z.of_nat users <? charger_count cfg)%Z; simpl;
      try (pose proof (Forall_inv Hput); pose proof (Forall_inv_tail Hput));
      (split; [sound_station|sound_requests]).
  - (* PoolPut *)
    unfold _on_pool_put. simpl.
    destruct (pool_trigger_get s0 pool parked) as [[items parked'] rq] eqn:Pt.
    destruct (pool_trigger_get_sound _ _ _ _ _ _ Pt Hpool) as (H1 & H2).
    destruct resume_loop.
    + unfold _charging_loop_get, queue_trigger_get. simpl.
      destruct q as [|b0 q']; simpl.
      * split; [sound_station|]. rewrite app_nil_r. exact H2.
      * pose proof (Forall_inv Hq). pose proof (Forall_inv_tail Hq).
        split; [sound_station|]. apply Forall_app. split; [exact H2|].
        sound_requests.
    + simpl. split; [sound_station|exact H2].
  - (* PoolGot *)
    unfold handle_vehicle_arrival_got. cbv zeta. simpl.
    split; [sound_station|]. constructor; [|constructor]. split.
    + unfold request_accepted. simpl. apply Qltb_ge.
      change 0 with (inject_Z 0). rewrite <- Zle_Qle. exact Hsw.
    + exact Ha.
  - (* SwapOver *)
    unfold handle_vehicle_arrival_swapped. cbv zeta. simpl.
    split; [sound_station|sound_requests].
  - (* QueuePut *)
    unfold _on_queue_put, queue_trigger_get. simpl.
    destruct qparked, q as [|b0 q'], resume_handler; simpl;
      try (pose proof (Forall_inv Hq); pose proof (Forall_inv_tail Hq));
      (split; [sound_station|sound_requests]).
Qed.

(** *** The stations a scenario leaves can run *)

Lemma dict_get_In {V} (k : string) (v : V) (d : list (string * V)) :
  dict_get k d = Some v -> exists k', In (k', v) d.
Proof.
  induction d as [|[k0 v0] d IH]; simpl; [discriminate|].
  destruct (String.eqb k k0).
  - intro H. injection H as ->. exists k0. left. reflexivity.
  - intro H. destruct (IH H) as (k' & Hin). exists k'. right. exact Hin.
Qed.

Lemma dict_del_Forall {V} (P : string * V -> Prop) (k : string)
    (d : list (string * V)) :
  Forall P d -> Forall P (dict_del k d).
Proof.
  induction 1 as [|[k0 v0] d Hx Hd IH]; simpl; [constructor|].
  destruct (String.eqb k k0); [exact Hd|constructor; assumption].
Qed.

Local Abbreviation runs_all :=
  (Forall (fun kv : string * StationConfig => station_runs (snd kv))).

Lemma apply_single_intervention_runs (d d' : list (string * StationConfig))
    (iv : Intervention) :
  _apply_single_intervention d iv = Ok d' -> runs_all d -> runs_all d'.
Proof.
  unfold _apply_single_intervention. intros H Hr.
  assert (Htarget : forall t st, target_in (target_station_id iv) d = Some (t, st) ->
                                 station_runs st).
  { intros t st T. apply target_in_spec in T. destruct T as (_ & _ & G).
    destruct (dict_get_In _ _ _ G) as (k' & Hin).
    exact (proj1 (Forall_forall _ _) Hr (k', st) Hin). }
  destruct (iv_type iv).
  - (* ADD_STATION *)
    unfold bind in H.
    destruct (new_station_of_params (parameters iv)) as [st|] eqn:E;
      [|discriminate].
    injection H as <-. apply dict_set_Forall; [|exact Hr].
    destruct (new_station_of_params_ok _ _ E)
      as (_ & _ & _ & _ & _ & _ & _ & _ & Hp & _ & Hs & _ & _ & Hb).
    unfold station_runs. simpl. rewrite Hb. simpl.
    split; [exact Hp|]. split; [lia|discriminate].
  - (* REMOVE_STATION *)
    destruct (target_in _ d) as [[t st]|]; injection H as <-; [|exact Hr].
    apply dict_del_Forall, Hr.
  - (* MODIFY_CHARGERS *)
    destruct (target_in _ d) as [[t st]|] eqn:T; [|injection H as <-; exact Hr].
    unfold bind, dict_item in H.
    destruct (dict_get "new_count" (parameters iv)) as [v|]; [|discriminate].
    destruct (as_int "new_count" v) as [n|]; [|discriminate].
    injection H as <-. apply dict_set_Forall; [|exact Hr].
    exact (Htarget t st eq_refl).
  - (* MODIFY_INVENTORY *)
    destruct (target_in _ d) as [[t st]|] eqn:T; [|injection H as <-; exact Hr].
    unfold bind, dict_item in H.
    destruct (dict_get "delta" (parameters iv)) as [v|]; [|discriminate].
    destruct (as_int "delta" v) as [n|]; [|discriminate].
    injection H as <-. apply dict_set_Forall; [|exact Hr].
    exact (Htarget t st eq_refl).
  - injection H as <-. exact Hr.
  - injection H as <-. exact Hr.
  - injection H as <-. exact Hr.
Qed.

Lemma apply_interventions_runs (scenario : option ScenarioConfig)
    (base effective : list StationConfig) :
  _apply_interventions scenario base = Ok effective ->
  Forall station_runs base -> Forall station_runs effective.
Proof.
  unfold _apply_interventions. destruct scenario as [sc|];
    [|intro H; injection H as <-; auto].
  intros H Hb.
  assert (H0 : forall d, runs_all d ->
                 runs_all (fold_left (fun d s => dict_set (sc_id s) s d) base d)).
  { clear H. induction Hb as [|c base Hc _ IH]; intros d Hd; simpl; [exact Hd|].
    apply IH. apply dict_set_Forall; [exact Hc|exact Hd]. }
  specialize (H0 [] (Forall_nil _)).
  set (d0 := fold_left (fun d s => dict_set (sc_id s) s d) base []) in *.
  assert (Hfold : forall ivs acc d',
             fold_left (fun acc iv => do d <- acc; _apply_single_intervention d iv)
               ivs acc = Ok d' ->
             exists d, acc = Ok d /\ (runs_all d -> runs_all d')).
  { induction ivs as [|iv ivs IH]; intros acc d' Hf; simpl in Hf.
    - exists d'. auto.
    - apply IH in Hf. destruct Hf as (d1 & H1 & Hd1).
      unfold bind in H1. destruct acc as [d|]; [|discriminate].
      exists d. split; [reflexivity|]. intro Hd. apply Hd1.
      eapply apply_single_intervention_runs; eassumption. }
  unfold bind in H.
  destruct (fold_left _ (interventions sc) (Ok d0)) as [d'|] eqn:E;
    [|discriminate].
  injection H as <-.
  destruct (Hfold _ _ _ E) as (d & Hd & Himp). injection Hd as <-.
  specialize (Himp H0). unfold dict_values.
  apply Forall_forall. intros c Hc. apply in_map_iff in Hc.
  destruct Hc as (kv & <- & Hkv).
  exact (proj1 (Forall_forall _ _) Himp kv Hkv).
Qed.

(** *** Every step of a sound world succeeds *)

Section SafeRun.
Context {R : NumpyRandom}.

Hypothesis exponential_nonneg : forall g, 0 <= fst (standard_exponential g).

Lemma step_safe (o : Orchestrator) (w w' : World) :
  failure w = None ->
  local_inv station_sound entry_sound (fun _ => True) w ->
  step o w = Some w' -> failure w' = None.
Proof.
  intros F (Hs & He & _) H. unfold step in H. rewrite F in H.
  destruct (agenda w) as [|[[t p] a] rest] eqn:Ag; [discriminate|].
  pose proof (Forall_inv He) as Ha. unfold entry_sound in Ha. simpl in Ha.
  set (w1 := set_agenda (set_now w t) rest) in *.
  assert (F1 : failure w1 = None) by exact F.
  assert (Hw' : w' = exec o a w1) by (destruct a; congruence).
  assert (Hstop : a <> StopSimulation) by (destruct a; congruence).
  clear H. subst w'. unfold exec. change (now w1) with t.
  destruct (segment_of t a) as [[s seg]|] eqn:Seg.
  - unfold on_station. change (objs w1) with (objs w).
    destruct (nth_error (objs w) s) as [self|] eqn:Ns; [|exact F1].
    apply apply_outcome_safe; [exact F1|].
    pose proof (proj1 (Forall_forall _ _) Hs self (nth_error_In _ _ Ns)) as Hself.
    destruct (segment_sound t a s seg self Seg Hself Ha) as (_ & Hrq).
    eapply Forall_impl; [|exact Hrq]. intros r (Hr & _). exact Hr.
  - destruct a; simpl in Seg; try discriminate; try exact F1.
    + apply generator_safe; assumption.
    + apply generator_safe; assumption.
    + unfold _vehicle_arrival_generator_arrival, create_vehicle. cbv zeta.
      apply generator_safe; [assumption|].
      apply schedule_safe; [exact F1|reflexivity].
Qed.

Lemma placed_on_capacity (cfg : StationConfig) (p : Placement) (b : Battery) :
  In b (placed_on p (_initialize_batteries cfg)) ->
  capacity_kwh b = bc_capacity_kwh (battery_config cfg).
Proof.
  unfold placed_on, _initialize_batteries. intro H.
  apply in_map_iff in H. destruct H as ([b' p'] & <- & H).
  apply filter_In in H. destruct H as (H & _).
  apply in_map_iff in H. destruct H as (i & H & _).
  injection H as <- _. unfold initial_battery.
  destruct (_ <? _)%Z; reflexivity.
Qed.

Lemma start_run_safe (data : RealNetworkData) (entropy : nat -> string)
    (config0 : SimulationConfig) (o : Orchestrator) (w0 : World) :
  new_Orchestrator data entropy config0 = Ok (o, w0) ->
  (0 < duration_days config0)%Z ->
  failure (start_run o w0) = None.
Proof.
  intros Hn Hd.
  destruct (new_Orchestrator_spec _ _ _ _ _ Hn)
    as (Hcfg & Hu & effective & objs0 & index & rq & Hap & Hi & Hix & Hw).
  destruct (initialize_stations_built effective [] [] [] objs0 index rq Hi
              (Forall_nil _) (Forall_nil _) (Forall_nil _))
    as (_ & Hr & _).
  assert (F0 : failure w0 = None).
  { rewrite Hw. apply schedule_all_safe; [reflexivity|].
    eapply Forall_impl; [|exact Hr].
    intros r (s & _ & [-> |[-> | ->]]); reflexivity. }
  unfold start_run. cbv zeta. rewrite Hcfg.
  destruct (duration_days config0 * 24 * 3600 <=? 0)%Z eqn:E;
    [apply Z.leb_le in E; lia|].
  apply schedule_safe.
  - apply schedule_all_safe; [exact F0|].
    apply Forall_forall. intros r Hr'. apply in_map_iff in Hr'.
    destruct Hr' as (s & <- & _). reflexivity.
  - unfold request_accepted. simpl. apply Qltb_ge.
    change 0 with (inject_Z 0). rewrite <- Zle_Qle.
    apply Z.leb_gt in E. lia.
Qed.

Lemma start_run_sound (data : RealNetworkData) (entropy : nat -> string)
    (config0 : SimulationConfig) (o : Orchestrator) (w0 : World) :
  Forall station_runs (stations config0) ->
  Forall station_runs (fst (load_real_network data)) ->
  new_Orchestrator data entropy config0 = Ok (o, w0) ->
  failure (start_run o w0) = None ->
  local_inv station_sound entry_sound (fun _ => True) (start_run o w0).
Proof.
  intros Hc Hd Hn F.
  destruct (start_world data entropy config0 o w0 Hn F)
    as (_ & Ev & Hb & Hag & _ & _ & _ & _ & _ & Hap & _).
  assert (Hruns : Forall station_runs (map config (objs (start_run o w0)))).
  { eapply apply_interventions_runs; [exact Hap|].
    destruct (fst (load_real_network data)); assumption. }
  split; [|split].
  - apply Forall_forall. intros self Hin.
    pose proof (proj1 (Forall_forall _ _) Hb self Hin) as B.
    assert (Hrun : station_runs (config self)).
    { apply (proj1 (Forall_forall _ _) Hruns). apply in_map, Hin. }
    unfold station_sound. split; [exact Hrun|].
    rewrite B. simpl.
    assert (Hplaced : forall p, Forall battery_sound
                        (placed_on p (_initialize_batteries (config self)))).
    { intro p. apply Forall_forall. intros b Hb'.
      unfold battery_sound. rewrite (placed_on_capacity _ _ _ Hb').
      apply Hrun. }
    split; [apply Hplaced|]. split; [apply Hplaced|constructor].
  - eapply Forall_impl; [|exact Hag]. intros e He.
    apply startup_entry_action in He. unfold entry_sound.
    destruct He as [(s & _ & [E|[E|[E|E]]] & _)| ->];
      [rewrite E ..|]; exact I.
  - rewrite Ev. constructor.
Qed.

Lemma run_sound (data : RealNetworkData) (entropy : nat -> string)
    (config0 : SimulationConfig) (o : Orchestrator) (w0 w : World) :
  Forall station_runs (stations config0) ->
  Forall station_runs (fst (load_real_network data)) ->
  (0 < duration_days config0)%Z ->
  new_Orchestrator data entropy config0 = Ok (o, w0) ->
  reachable o (start_run o w0) w ->
  failure w = None
  /\ schedule_inv (horizon_of config0) w
  /\ local_inv station_sound entry_sound (fun _ => True) w.
Proof.
  intros Hc Hd Hdur Hn Hr.
  induction Hr as [|w w' Hr (F & Hsched & Hsound) Hs].
  - pose proof (start_run_safe data entropy config0 o w0 Hn Hdur) as F.
    split; [exact F|]. split.
    + apply (schedule_inv_start data entropy config0); assumption.
    + apply (start_run_sound data entropy config0); assumption.
  - pose proof (step_safe o w w' F Hsound Hs) as F'.
    split; [exact F'|]. split.
    + exact (proj1 (schedule_inv_step _ o w w' Hsched Hs F')).
    + eapply (local_inv_step o _ _ _ (horizon_of config0)); try eassumption.
      * intros t p a s seg self Seg _ Hself Ha.
        destruct (segment_sound t a s seg self Seg Hself Ha) as (S1 & S2).
        split; [exact S1|]. split; [|apply Forall_forall; intros; exact I].
        eapply Forall_impl; [|exact S2]. intros r (_ & Hr') _. exact Hr'.
      * intros t s r _ [(d & ->)|[(d & ->)|(v & ->)]] _; exact I.
Qed.

End SafeRun.

Lemma env_run_crashed {R : NumpyRandom} (o : Orchestrator) (fuel : nat) :
  forall (w1 : World) (e : Error),
    env_run o fuel w1 = Crashed e ->
    exists w2, reachable o w1 w2 /\ failure w2 = Some e.
Proof.
  induction fuel as [|fuel IH]; intros w1 e H; simpl in H;
    destruct (step o w1) as [w'|] eqn:E.
  - discriminate.
  - exists w1. split; [apply reach_start|].
    destruct (failure w1); [congruence|].
    destruct (agenda w1) as [|[[t p] a] rest]; [discriminate|].
    destruct a; discriminate.
  - destruct (IH _ _ H) as (w2 & Hr & Hf).
    exists w2. split; [|exact Hf].
    clear - Hr E. induction Hr as [|wa wb Hr IHr Hs].
    + eapply reach_step; [apply reach_start|exact E].
    + eapply reach_step; [exact IHr|exact Hs].
  - exists w1. split; [apply reach_start|].
    destruct (failure w1); [congruence|].
    destruct (agenda w1) as [|[[t p] a] rest]; [discriminate|].
    destruct a; discriminate.
Qed.

(** A run of stations that can run never raises.  When every station of
    the configuration (and of the real-network sheet) has a positive
    charger power, a swap time and a battery capacity that are not
    negative, the demand curve has its 24 entries (so that
    [base_arrivals_per_hour[hour % 24]] is in range), the duration is
    positive and the exponential draws are not negative, then whatever the
    scenario does: no step of the run fails, the run stops only at the
    [until] event, [env.run] never ends with an error, and when it
    completes the clock is at the horizon. *)
Theorem run_never_raises :
  forall {R : NumpyRandom} (data : RealNetworkData) (entropy : nat -> string)
         (config0 : SimulationConfig) (o : Orchestrator) (w0 : World),
    (forall g, 0 <= fst (standard_exponential g)) ->
    Forall station_runs (stations config0) ->
    Forall station_runs (fst (load_real_network data)) ->
    List.length (base_arrivals_per_hour (demand_curve config0)) = 24%nat ->
    (0 < duration_days config0)%Z ->
    new_Orchestrator data entropy config0 = Ok (o, w0) ->
    (forall w, reachable o (start_run o w0) w ->
       failure w = None
       /\ (step o w = None ->
           exists t p rest, agenda w = (t, p, StopSimulation) :: rest
                            /\ t == horizon_of config0))
    /\ (forall fuel e, env_run o fuel (start_run o w0) <> Crashed e)
    /\ (forall fuel w, env_run o fuel (start_run o w0) = Completed w ->
          failure w = None /\ now w == horizon_of config0).
Proof.
  intros R data entropy config0 o w0 Hexp Hc Hd _ Hdur Hn.
  assert (Hall : forall w, reachable o (start_run o w0) w ->
            failure w = None
            /\ (step o w = None ->
                exists t p rest, agenda w = (t, p, StopSimulation) :: rest
                                 /\ t == horizon_of config0)).
  { intros w Hr.
    destruct (run_sound Hexp data entropy config0 o w0 w Hc Hd Hdur Hn Hr)
      as (F & Hsched & _).
    split; [exact F|]. intro Hstep.
    destruct Hsched as (_ & (ts & ps & Hin) & Hbefore & _).
    unfold step in Hstep. rewrite F in Hstep.
    destruct (agenda w) as [|[[t p] a] rest]; [destruct Hin|].
    pose proof (Forall_inv Hbefore) as Hb. simpl in Hb.
    destruct a; try discriminate Hstep.
    exists t, p, rest. split; [reflexivity|exact (proj1 Hb)]. }
  split; [exact Hall|]. split.
  - intros fuel e H. destruct (env_run_crashed o fuel _ _ H) as (w2 & Hr & Hf).
    destruct (Hall w2 Hr) as (F & _). congruence.
  - intros fuel w H.
    destruct (env_run_completed o fuel _ _ H) as (w2 & Hr & Hs & Hf & ->).
    destruct (Hall w2 Hr) as (_ & Hstop).
    destruct (Hstop Hs) as (t & p & rest & -> & Ht).
    split; [exact Hf|exact Ht].
Qed.

Lemma run_never_raises_witness :
  exists (o : Orchestrator) (w0 : World (R := SteadyRandom)),
    new_Orchestrator no_real_network entropy_a one_station_config = Ok (o, w0)
    /\ (forall w, reachable o (start_run o w0) w ->
          failure w = None
          /\ (step o w = None ->
              exists t p rest, agenda w = (t, p, StopSimulation) :: rest
                               /\ t == horizon_of one_station_config))
    /\ (forall fuel e, env_run o fuel (start_run o w0) <> Crashed e)
    /\ (forall fuel w, env_run o fuel (start_run o w0) = Completed w ->
          failure w = None /\ now w == horizon_of one_station_config).
Proof.
  eexists. eexists. split; [vm_compute; reflexivity|].
  refine (run_never_raises (R := SteadyRandom) no_real_network entropy_a
            one_station_config _ _ _ _ _ _ _ _).
  - intro g. vm_compute. discriminate.
  - constructor; [|constructor]. vm_compute.
    split; [reflexivity|]. split; discriminate.
  - constructor.
  - reflexivity.
  - reflexivity.
  - vm_compute. reflexivity.
Defined.

(** ** The counters of the stations agree with the telemetry *)

Lemma segment_station (t : Q) (a : Action) (s : nat)
    (seg : Station -> Outcome) :
  segment_of t a = Some (s, seg) -> action_station a = Some s.
Proof.
  destruct a; simpl; intro H; try discriminate; injection H as <- _;
    reflexivity.
Qed.

Lemma sumZ_app (l1 l2 : list Z) : sumZ (l1 ++ l2) = (sumZ l1 + sumZ l2)%Z.
Proof. unfold sumZ. induction l1; simpl; lia. Qed.

Lemma sumZ_list_set {A} (f : A -> Z) (l : list A) :
  forall (i : nat) (x y : A),
    nth_error l i = Some x ->
    sumZ (map f (list_set l i y)) = (sumZ (map f l) - f x + f y)%Z.
Proof.
  unfold sumZ. induction l as [|z l IH]; intros [|i] x y H; simpl in H;
    try discriminate.
  - injection H as ->. simpl. lia.
  - simpl. rewrite (IH i x y H). lia.
Qed.

Lemma length_list_set_same {A} (l : list A) :
  forall (i : nat) (x : A), List.length (list_set l i x) = List.length l.
Proof.
  induction l as [|z l IH]; intros [|i] x; simpl; auto.
Qed.

Section Ledger.
Context {R : NumpyRandom}.

(** The pending events of a run always belong to a station that exists. *)
Lemma indexed_step (n : nat) (o : Orchestrator) (w w' : World) :
  List.length (objs w) = n /\ Forall (entry_indexed n) (agenda w) ->
  step o w = Some w' -> failure w' = None ->
  List.length (objs w') = n /\ Forall (entry_indexed n) (agenda w').
Proof.
  intros (Hlen & Hix) Hs F.
  destruct (step_effects o w w' Hs F)
    as (t & p & a & rest & rqs & logs & Ag & Ha & Fw & Hn & He & Hp & Hd & Hcase).
  rewrite Ag in Hix.
  pose proof (Forall_inv Hix) as Hhead. pose proof (Forall_inv_tail Hix) as Hrest.
  unfold entry_indexed in Hhead. simpl in Hhead.
  assert (Hnew : Forall (fun r => entry_indexed n (entry_of t r)) rqs ->
                 Forall (entry_indexed n) (agenda w')).
  { intro Hrq. eapply Permutation_Forall; [apply Permutation_sym, Hp|].
    apply Forall_app. split; [exact Hrest|].
    apply Forall_forall. intros e Hin. apply in_map_iff in Hin.
    destruct Hin as (r & <- & Hr).
    exact (proj1 (Forall_forall _ _) Hrq r Hr). }
  destruct Hcase as [(s & seg & self & Seg & Ns & Ho & -> & ->)
                    |(Ho & -> & [(s & seg & Seg & Ns & ->)
                                |[(s & Hgen & Hrq)|(b & -> & ->)]])].
  - split; [rewrite Ho, length_list_set_same; exact Hlen|].
    apply Hnew. rewrite (segment_station _ _ _ _ Seg) in Hhead.
    eapply Forall_impl; [|apply (segment_requests_normal t a s seg self Seg)].
    intros r (_ & _ & [E|E]); unfold entry_indexed; simpl; rewrite E;
      [exact Hhead|exact I].
  - split; [rewrite Ho; exact Hlen|]. apply Hnew. constructor.
  - split; [rewrite Ho; exact Hlen|]. apply Hnew.
    assert (Hs' : (s < n)%nat) by (destruct Hgen as [->|[->| ->]]; exact Hhead).
    eapply Forall_impl; [|exact Hrq].
    intros r [(d & ->)|[(d & ->)|(v & ->)]]; exact Hs'.
  - split; [rewrite Ho; exact Hlen|]. apply Hnew. constructor.
Qed.

Ltac account :=
  unfold requests_weightZ, sumZ; simpl; try lia; try reflexivity.

(** What one code segment of a station does to every account. *)
Lemma segment_accounts (k : Account) (t : Q) (a : Action) (s : nat)
    (seg : Station -> Outcome) (self : Station) :
  segment_of t a = Some (s, seg) ->
  has_orchestrator self = true -> pool_get_queue self = [] ->
  (account_station k (o_station (seg self))
   + requests_weightZ (account_pending k) (o_requests (seg self))
   = account_station k self + account_pending k a
     + sumZ (map (fun c => account_event k (lc_event_type c))
               (o_log (seg self))))%Z.
Proof.
  intros H Horch Hpark.
  destruct self as [cfg orch st users putq pool parked q qparked cur act].
  destruct st as [n_swaps n_lost wait_sum wait_max charge_sum energy peak busy].
  simpl in Horch, Hpark. subst orch parked.
  destruct a; simpl in H; try discriminate; injection H as <- <-.
  - (* InitLoop *)
    unfold _charging_loop_get, queue_trigger_get.
    destruct q; destruct k; account.
  - (* InitVeh *)
    unfold handle_vehicle_arrival, get_available_battery_count. cbv zeta.
    simpl.
    destruct (List.length (filter is_swappable pool) =? 0)%nat eqn:E; simpl.
    + destruct k; account.
    + destruct (take_first is_swappable pool) as [[b items]|] eqn:Tk.
      * destruct k; account.
      * apply take_first_none in Tk. rewrite Tk in E. discriminate E.
  - (* QueueGot *)
    unfold _charging_loop_request, chargers_trigger_put. simpl.
    destruct putq as [|b0 l]; simpl;
      destruct (Z.of_nat users <? charger_count cfg)%Z; destruct k; account.
  - (* ChargerGranted *)
    unfold _charging_loop_granted, _charging_loop_charge. cbv zeta. simpl.
    destruct (_is_grid_limited _);
      destruct (0 <? cooldown_seconds cfg)%Z; destruct k; account.
  - (* CooldownOver *)
    unfold _charging_loop_charge. destruct k; account.
  - (* ChargeOver *)
    unfold _charging_loop_charged. cbv zeta. destruct k; account.
  - (* ChargerReleased *)
    unfold _on_charger_released, chargers_trigger_put. simpl.
    destruct putq as [|b0 l]; simpl;
      try destruct (Z.of_nat users <? charger_count cfg)%Z; destruct k; account.
  - (* PoolPut *)
    unfold _on_pool_put. simpl.
    destruct resume_loop.
    + unfold _charging_loop_get, queue_trigger_get. simpl.
      destruct q; destruct k; account.
    + destruct k; account.
  - (* PoolGot *)
    unfold handle_vehicle_arrival_got. cbv zeta. destruct k; account.
  - (* SwapOver *)
    unfold handle_vehicle_arrival_swapped. cbv zeta. destruct k; account.
  - (* QueuePut *)
    unfold _on_queue_put, queue_trigger_get. simpl.
    destruct qparked, q, resume_handler; destruct k; account.
Qed.

Lemma ledger_step (k : Account) (cfgs : list StationConfig)
    (o : Orchestrator) (w w' : World) :
  Forall (station_sane cfgs) (objs w) ->
  Forall (entry_indexed (List.length (objs w))) (agenda w) ->
  ledger k w -> step o w = Some w' -> failure w' = None -> ledger k w'.
Proof.
  intros Hsane Hix Hl Hs F.
  destruct (step_effects o w w' Hs F)
    as (t & p & a & rest & rqs & logs & Ag & Ha & Fw & Hn & He & Hp & Hd & Hcase).
  unfold ledger in *.
  rewrite Ag in Hix. pose proof (Forall_inv Hix) as Hhead.
  unfold entry_indexed in Hhead. simpl in Hhead.
  rewrite (agenda_weight_perm _ _ _ Hp), agenda_weight_app,
    agenda_weight_entries, He, map_app, sumZ_app, map_map.
  rewrite Ag in Hl. change (agenda_weight (account_pending k) ((t, p, a) :: rest))
    with (account_pending k a + agenda_weight (account_pending k) rest)%Z in Hl.
  destruct Hcase as [(s & seg & self & Seg & Ns & Ho & -> & ->)
                    |(Ho & -> & [(s & seg & Seg & Ns & ->)
                                |[(s & Hgen & Hrq)|(b & -> & ->)]])].
  - rewrite Ho, (sumZ_list_set _ _ _ _ _ Ns).
    destruct (proj1 (Forall_forall _ _) Hsane self (nth_error_In _ _ Ns))
      as (_ & Horch & Hpark & _).
    pose proof (segment_accounts k t a s seg self Seg Horch Hpark) as B.
    simpl in B |- *. lia.
  - rewrite (segment_station _ _ _ _ Seg) in Hhead.
    apply nth_error_None in Ns. lia.
  - rewrite Ho.
    assert (Z1 : requests_weightZ (account_pending k) rqs = 0%Z).
    { apply requests_weightZ_zero. eapply Forall_impl; [|exact Hrq].
      intros r [(d & ->)|[(d & ->)|(v & ->)]]; destruct k; reflexivity. }
    assert (Z2 : account_pending k a = 0%Z)
      by (destruct Hgen as [->|[->| ->]]; destruct k; reflexivity).
    rewrite Z1. simpl. unfold sumZ in *. simpl. lia.
  - rewrite Ho. unfold requests_weightZ, sumZ in *. simpl.
    assert (Z2 : account_pending k (ProcessDone b) = 0%Z)
      by (destruct k; reflexivity).
    lia.
Qed.

End Ledger.

Lemma segment_immediate (t : Q) (a : Action) (s : nat)
    (seg : Station -> Outcome) (self : Station) :
  segment_of t a = Some (s, seg) ->
  Forall (fun r => handing_over (rq_action r) || returning (rq_action r) = true ->
                   rq_delay r = 0)
    (o_requests (seg self)).
Proof.
  intro H.
  assert (Hpool : forall items parked,
            Forall (fun r => handing_over (rq_action r)
                             || returning (rq_action r) = true ->
                             rq_delay r = 0)
              (snd (pool_trigger_get s items parked))).
  { intros items parked.
    destruct (pool_trigger_get s items parked) as [[i p] rq] eqn:E.
    apply pool_trigger_get_requests in E. simpl.
    eapply Forall_impl; [|exact E]. intros r (v & t0 & b0 & ->) _. reflexivity. }
  destruct a; simpl in H; try discriminate; injection H as <- <-.
  - unfold _charging_loop_get, queue_trigger_get.
    destruct (charge_queue self); repeat constructor.
  - unfold handle_vehicle_arrival. cbv zeta.
    match goal with |- context [(?c =? 0)%nat] => destruct (c =? 0)%nat end.
    + repeat constructor.
    + match goal with |- context [pool_trigger_get ?s ?i ?p] =>
        pose proof (Hpool i p) as Hp;
        destruct (pool_trigger_get s i p) as [[items parked] rq] end.
      exact Hp.
  - unfold _charging_loop_request, chargers_trigger_put.
    destruct (chargers_put_queue self ++ [battery]);
      [|destruct (_ <? _)%Z]; repeat constructor.
  - unfold _charging_loop_granted, _charging_loop_charge. cbv zeta.
    destruct (0 <? _)%Z; simpl; constructor; try constructor;
      intro X; discriminate X.
  - unfold _charging_loop_charge. simpl. constructor; [|constructor].
    intro X; discriminate X.
  - unfold _charging_loop_charged. cbv zeta. simpl. repeat constructor.
  - unfold _on_charger_released, chargers_trigger_put.
    destruct (chargers_put_queue self); [|destruct (_ <? _)%Z];
      repeat constructor.
  - unfold _on_pool_put.
    pose proof (Hpool (battery_pool self) (pool_get_queue self)) as Hp.
    destruct (pool_trigger_get s0 (battery_pool self) (pool_get_queue self))
      as [[items parked] rq].
    destruct resume_loop; [|exact Hp].
    unfold _charging_loop_get, queue_trigger_get. simpl.
    destruct (charge_queue self); simpl; apply Forall_app; split;
      try exact Hp; repeat constructor.
  - unfold handle_vehicle_arrival_got. cbv zeta. simpl.
    constructor; [|constructor]. intro X; discriminate X.
  - unfold handle_vehicle_arrival_swapped. cbv zeta. simpl. repeat constructor.
  - unfold _on_queue_put, queue_trigger_get.
    destruct (queue_get_queue self), (charge_queue self), resume_handler;
      simpl; repeat constructor.
Qed.

Lemma sumZ_zero {A} (f : A -> Z) (l : list A) :
  Forall (fun x => f x = 0%Z) l -> sumZ (map f l) = 0%Z.
Proof.
  unfold sumZ. induction 1 as [|x l Hx _ IH]; simpl; lia.
Qed.

Lemma agenda_weight_ext (f g : Action -> Z) (l : list AgendaEntry) :
  (forall a, f a = g a) -> agenda_weight f l = agenda_weight g l.
Proof.
  intro H. unfold agenda_weight. f_equal. apply map_ext. intro e. apply H.
Qed.

Lemma stopped_at_until {R : NumpyRandom} (horizon : Q) (o : Orchestrator)
    (w : World) :
  schedule_inv horizon w -> failure w = None -> step o w = None ->
  exists t p rest, agenda w = (t, p, StopSimulation) :: rest /\ t == horizon
                   /\ Forall (fun e : AgendaEntry => horizon <= fst (fst e)) rest.
Proof.
  intros (Hsort & (ts & ps & Hin) & Hbefore & _) F Hstep.
  unfold step in Hstep. rewrite F in Hstep.
  destruct (agenda w) as [|[[t p] a] rest]; [destruct Hin|].
  pose proof (Forall_inv Hbefore) as Hb. simpl in Hb.
  destruct a; try discriminate Hstep.
  exists t, p, rest. split; [reflexivity|]. split; [exact (proj1 Hb)|].
  apply StronglySorted_inv in Hsort. destruct Hsort as (_ & Hle).
  eapply Forall_impl; [|exact Hle]. intros [[t' p'] a'] H. simpl.
  unfold entry_le, entry_ltb in H. apply orb_false_iff in H.
  destruct H as (H & _). apply Qltb_ge in H. destruct Hb as (Hb & _). lra.
Qed.

Section RunLedger.
Context {R : NumpyRandom}.

Lemma run_ledger (data : RealNetworkData) (entropy : nat -> string)
    (config0 : SimulationConfig) (o : Orchestrator) (w0 w : World) :
  new_Orchestrator data entropy config0 = Ok (o, w0) ->
  reachable o (start_run o w0) w -> failure w = None ->
  Forall (entry_indexed (List.length (objs w))) (agenda w)
  /\ Forall (entry_immediate (horizon_of config0)) (agenda w)
  /\ forall k, ledger k w.
Proof.
  intros Hn Hr. induction Hr as [|w w' Hr IH Hs]; intro F.
  - destruct (start_world data entropy config0 o w0 Hn F)
      as (_ & Ev & Hb & Hag & _).
    split; [|split].
    + eapply Forall_impl; [|exact Hag]. intros e He.
      apply startup_entry_action in He. unfold entry_indexed.
      destruct He as [(s & Hs & [E|[E|[E|E]]] & _)| ->];
        [rewrite E ..|]; simpl; auto.
    + eapply Forall_impl; [|exact Hag]. intros e He.
      apply startup_entry_action in He. unfold entry_immediate.
      destruct He as [(s & Hs & [E|[E|[E|E]]] & _)| ->];
        [rewrite E ..|]; simpl; intro X; discriminate X.
    + intro k. unfold ledger. rewrite Ev. simpl.
      rewrite sumZ_zero, agenda_weight_zero; [reflexivity| |].
      * eapply Forall_impl; [|exact Hag]. intros e He.
        apply startup_entry_action in He.
        destruct He as [(s & Hs & [E|[E|[E|E]]] & _)| ->];
          [rewrite E ..|]; destruct k; reflexivity.
      * eapply Forall_impl; [|exact Hb]. intros self B. rewrite B.
        destruct k; reflexivity.
  - assert (Fw : failure w = None)
      by (unfold step in Hs; destruct (failure w); [discriminate|reflexivity]).
    destruct (IH Fw) as (Hix & Him & Hl).
    destruct (run_sane data entropy config0 o w0 w Hn Hr Fw) as (Hsane & _).
    pose proof (run_schedule data entropy config0 o w0 w Hn Hr Fw) as Hsched.
    destruct (indexed_step _ o w w' (conj eq_refl Hix) Hs F) as (Hlen & Hix').
    split; [rewrite Hlen; exact Hix'|]. split.
    + assert (L : local_inv (fun _ => True) (entry_immediate (horizon_of config0))
                    (fun _ => True) w').
      { eapply (local_inv_step o _ _ _ (horizon_of config0)); try eassumption.
        - intros t p a s seg self Seg Ht _ _. split; [exact I|].
          split; [|apply Forall_forall; intros; exact I].
          eapply Forall_impl; [|apply (segment_immediate t a s seg self Seg)].
          intros r Hr' _ Hk. unfold entry_immediate, entry_of in *. simpl in *.
          rewrite (Hr' Hk), Qred_correct. lra.
        - intros t s r _ [(d & ->)|[(d & ->)|(v & ->)]] _ X; discriminate X.
        - split; [apply Forall_forall; intros; exact I|].
          split; [exact Him|apply Forall_forall; intros; exact I]. }
      exact (proj1 (proj2 L)).
    + intro k. eapply ledger_step; eauto.
Qed.

End RunLedger.

Lemma count_events_cons (ty : EventType) (e : Event) (l : list Event) :
  count_events ty (e :: l)
  = ((if is_event ty e then 1 else 0) + count_events ty l)%Z.
Proof.
  unfold count_events. cbn [filter]. destruct (is_event ty e);
    [cbn [List.length]; rewrite Nat2Z.inj_succ|]; lia.
Qed.

Lemma account_counts (l : list Event) :
  sumZ (map (fun e => account_event LostSwaps (event_type e)) l)
  = count_events LOST_SWAP l
  /\ sumZ (map (fun e => account_event CountedSwaps (event_type e)) l)
     = count_events SWAP_COMPLETE l
  /\ sumZ (map (fun e => account_event Arrivals (event_type e)) l)
     = (count_events VEHICLE_ARRIVAL l - count_events LOST_SWAP l
        - count_events SWAP_START l)%Z
  /\ sumZ (map (fun e => account_event Charges (event_type e)) l)
     = (count_events CHARGE_START l - count_events CHARGE_COMPLETE l)%Z
  /\ sumZ (map (fun e => account_event Swaps (event_type e)) l)
     = (count_events SWAP_START l - count_events SWAP_COMPLETE l)%Z.
Proof.
  unfold sumZ. induction l as [|e l IH]; [repeat split|].
  cbn [map fold_right]. destruct IH as (I1 & I2 & I3 & I4 & I5).
  rewrite I1, I2, I3, I4, I5, !count_events_cons. unfold is_event.
  destruct (event_type e); cbv beta iota delta [account_event];
    repeat split; lia.
Qed.

Lemma account_pendings (l : list AgendaEntry) :
  agenda_weight (account_pending LostSwaps) l = 0%Z
  /\ agenda_weight (account_pending CountedSwaps) l = pending returning l
  /\ agenda_weight (account_pending Arrivals) l = pending handing_over l
  /\ agenda_weight (account_pending Charges) l = pending on_charger l
  /\ agenda_weight (account_pending Swaps) l = pending swapping l.
Proof.
  split; [apply agenda_weight_zero, Forall_forall; intros e _;
          destruct (snd e); reflexivity|].
  unfold pending.
  repeat split; apply agenda_weight_ext; intro a; destruct a;
    try reflexivity; destruct resume_handler; reflexivity.
Qed.

(** At every instant of a run that raised nothing, the counters of the
    stations and the telemetry tell the same story: the stations have
    counted as many lost swaps as there are LOST_SWAP events; the swaps
    they have counted, with those whose handler is about to count them,
    are the SWAP_COMPLETE events; every VEHICLE_ARRIVAL is followed by a
    LOST_SWAP or a SWAP_START, or holds a battery it was just given; the
    swaps started and not completed are those under way; the charges
    started and not completed are those under way. *)
Theorem kpi_counters_match_telemetry :
  forall {R : NumpyRandom} (data : RealNetworkData) (entropy : nat -> string)
         (config0 : SimulationConfig) (o : Orchestrator) (w0 w : World),
    new_Orchestrator data entropy config0 = Ok (o, w0) ->
    reachable o (start_run o w0) w ->
    failure w = None ->
    city_sum lost_swaps (objs w) = count_events LOST_SWAP (events w)
    /\ (city_sum total_swaps (objs w) + pending returning (agenda w)
        = count_events SWAP_COMPLETE (events w))%Z
    /\ (count_events VEHICLE_ARRIVAL (events w)
        = count_events LOST_SWAP (events w) + count_events SWAP_START (events w)
          + pending handing_over (agenda w))%Z
    /\ (count_events SWAP_START (events w)
        = count_events SWAP_COMPLETE (events w) + pending swapping (agenda w))%Z
    /\ (count_events CHARGE_START (events w)
        = count_events CHARGE_COMPLETE (events w)
          + pending on_charger (agenda w))%Z.
Proof.
  intros R data entropy config0 o w0 w Hn Hr F.
  destruct (run_ledger data entropy config0 o w0 w Hn Hr F) as (_ & _ & Hl).
  destruct (account_counts (events w)) as (C1 & C2 & C3 & C4 & C5).
  destruct (account_pendings (agenda w)) as (P1 & P2 & P3 & P4 & P5).
  pose proof (Hl LostSwaps) as L1. pose proof (Hl CountedSwaps) as L2.
  pose proof (Hl Arrivals) as L3. pose proof (Hl Charges) as L4.
  pose proof (Hl Swaps) as L5.
  unfold ledger in *.
  rewrite C1, P1 in L1. rewrite C2, P2 in L2. rewrite C3, P3 in L3.
  rewrite C4, P4 in L4. rewrite C5, P5 in L5.
  assert (Z0 : forall k, k <> LostSwaps -> k <> CountedSwaps ->
                 sumZ (map (account_station k) (objs w)) = 0%Z).
  { intros k H1 H2. apply sumZ_zero, Forall_forall. intros self _.
    destruct k; try reflexivity; contradiction. }
  rewrite Z0 in L3, L4, L5 by discriminate.
  unfold city_sum.
  change (fun self => lost_swaps (stats self)) with (account_station LostSwaps).
  change (fun self => total_swaps (stats self)) with (account_station CountedSwaps).
  repeat split; lia.
Qed.

Lemma kpi_counters_match_telemetry_witness :
  exists (o : Orchestrator)
         (w0 w : World (R := ScriptedRandom early_arrival_script)),
    new_Orchestrator no_real_network entropy_a one_station_config = Ok (o, w0)
    /\ steps o 40 (start_run o w0) = Some w
    /\ city_sum lost_swaps (objs w) = count_events LOST_SWAP (events w)
    /\ (city_sum total_swaps (objs w) + pending returning (agenda w)
        = count_events SWAP_COMPLETE (events w))%Z
    /\ (count_events VEHICLE_ARRIVAL (events w)
        = count_events LOST_SWAP (events w) + count_events SWAP_START (events w)
          + pending handing_over (agenda w))%Z
    /\ (count_events SWAP_START (events w)
        = count_events SWAP_COMPLETE (events w) + pending swapping (agenda w))%Z
    /\ (count_events CHARGE_START (events w)
        = count_events CHARGE_COMPLETE (events w)
          + pending on_charger (agenda w))%Z.
Proof.
  eexists. eexists. eexists.
  split; [vm_compute; reflexivity|]. split; [vm_compute; reflexivity|].
  refine (kpi_counters_match_telemetry
            (R := ScriptedRandom early_arrival_script)
            no_real_network entropy_a one_station_config _ _ _ _ _ _).
  - vm_compute. reflexivity.
  - apply (steps_reachable _ 40). vm_compute. reflexivity.
  - vm_compute. reflexivity.
Defined.

Lemma completed_ledger {R : NumpyRandom} (data : RealNetworkData)
    (entropy : nat -> string) (config0 : SimulationConfig) (o : Orchestrator)
    (w0 : World) (fuel : nat) (w : World) :
  new_Orchestrator data entropy config0 = Ok (o, w0) ->
  env_run o fuel (start_run o w0) = Completed w ->
  city_sum total_swaps (objs w) = count_events SWAP_COMPLETE (events w)
  /\ city_sum lost_swaps (objs w) = count_events LOST_SWAP (events w)
  /\ (count_events VEHICLE_ARRIVAL (events w)
      = count_events LOST_SWAP (events w)
        + count_events SWAP_START (events w))%Z.
Proof.
  intros Hn H.
  destruct (env_run_completed o fuel _ _ H) as (w2 & Hr & Hs & Hf & Hw).
  pose proof (run_schedule data entropy config0 o w0 w2 Hn Hr Hf) as Hsched.
  destruct (stopped_at_until _ o w2 Hsched Hf Hs)
    as (t & p & rest & Ag & Ht & Hlate).
  destruct (run_ledger data entropy config0 o w0 w2 Hn Hr Hf) as (_ & Him & Hl).
  rewrite Ag in Hw, Him. subst w. simpl.
  pose proof (Forall_inv_tail Him) as Hrest.
  assert (Z1 : pending returning rest = 0%Z /\ pending handing_over rest = 0%Z).
  { split; apply agenda_weight_zero, Forall_forall; intros e He;
      pose proof (proj1 (Forall_forall _ _) Hrest e He) as Hi;
      pose proof (proj1 (Forall_forall _ _) Hlate e He) as Hl';
      unfold entry_immediate in Hi;
      destruct (handing_over (snd e)) eqn:E1; destruct (returning (snd e)) eqn:E2;
      cbv beta in Hl'; simpl in Hi; try reflexivity; specialize (Hi eq_refl);
      exfalso; lra. }
  destruct Z1 as (Z1 & Z2).
  destruct (account_counts (events w2)) as (C1 & C2 & C3 & _).
  destruct (account_pendings rest) as (P1 & P2 & P3 & _).
  pose proof (Hl LostSwaps) as L1. pose proof (Hl CountedSwaps) as L2.
  pose proof (Hl Arrivals) as L3.
  unfold ledger in *. rewrite Ag in L1, L2, L3.
  change (agenda_weight ?f ((t, p, StopSimulation) :: rest))
    with (f StopSimulation + agenda_weight f rest)%Z in L1, L2, L3.
  rewrite C1, P1 in L1. rewrite C2, P2, Z1 in L2. rewrite C3, P3, Z2 in L3.
  assert (Z0 : sumZ (map (account_station Arrivals) (objs w2)) = 0%Z)
    by (apply sumZ_zero, Forall_forall; intros; reflexivity).
  rewrite Z0 in L3. unfold city_sum.
  change (fun self => lost_swaps (stats self)) with (account_station LostSwaps).
  change (fun self => total_swaps (stats self)) with (account_station CountedSwaps).
  simpl in L1, L2, L3. repeat split; lia.
Qed.

(** When a run completes, every swap the telemetry shows as complete has
    been counted and no vehicle is left between arrival and swap: the
    [total_swaps] of the stations add up to the number of SWAP_COMPLETE
    events, their [lost_swaps] to the number of LOST_SWAP events, and every
    VEHICLE_ARRIVAL event is matched by one LOST_SWAP or one SWAP_START. *)
Theorem completed_run_counts_every_swap :
  forall {R : NumpyRandom} (data : RealNetworkData) (entropy : nat -> string)
         (config0 : SimulationConfig) (fuel : nat) (w : World),
    run data entropy config0 fuel = Ok (Completed w) ->
    city_sum total_swaps (objs w) = count_events SWAP_COMPLETE (events w)
    /\ city_sum lost_swaps (objs w) = count_events LOST_SWAP (events w)
    /\ (count_events VEHICLE_ARRIVAL (events w)
        = count_events LOST_SWAP (events w)
          + count_events SWAP_START (events w))%Z.
Proof.
  intros R data entropy config0 fuel w H. unfold run, bind in H.
  destruct (new_Orchestrator data entropy config0) as [[o w0]|] eqn:Hn;
    [|discriminate].
  injection H as H.
  exact (completed_ledger data entropy config0 o w0 fuel w Hn H).
Qed.

Lemma completed_run_counts_every_swap_witness :
  exists w : World (R := ScriptedRandom early_arrival_script),
    run no_real_network entropy_a one_station_config 200 = Ok (Completed w)
    /\ city_sum total_swaps (objs w) = 1%Z
    /\ city_sum total_swaps (objs w) = count_events SWAP_COMPLETE (events w)
    /\ city_sum lost_swaps (objs w) = count_events LOST_SWAP (events w)
    /\ (count_events VEHICLE_ARRIVAL (events w)
        = count_events LOST_SWAP (events w)
          + count_events SWAP_START (events w))%Z.
Proof.
  eexists. split; [vm_compute; reflexivity|]. split; [vm_compute; reflexivity|].
  apply (completed_run_counts_every_swap
           (R := ScriptedRandom early_arrival_script)
           no_real_network entropy_a one_station_config 200).
  vm_compute. reflexivity.
Defined.

(** ** Counting the telemetry *)

Lemma EventType_value_injective (a b : EventType) :
  EventType_value a = EventType_value b -> a = b.
Proof.
  destruct a, b; simpl; intro H; try reflexivity; discriminate H.
Qed.

Lemma EventType_eq_dec (a b : EventType) : {a = b} + {a <> b}.
Proof. decide equality. Qed.

Lemma dict_set_sum (k : string) (v : Z) (d : list (string * Z)) :
  sumZ (dict_values (dict_set k v d))
  = (sumZ (dict_values d)
     - match dict_get k d with Some n => n | None => 0 end + v)%Z.
Proof.
  unfold dict_values, sumZ. induction d as [|[k0 v0] d IH]; simpl; [lia|].
  destruct (String.eqb k k0); simpl; lia.
Qed.

Lemma count_events_app (ty : EventType) (l l' : list Event) :
  count_events ty (l ++ l') = (count_events ty l + count_events ty l')%Z.
Proof.
  unfold count_events. rewrite filter_app, length_app. lia.
Qed.

Lemma count_events_nonneg (ty : EventType) (l : list Event) :
  (0 <= count_events ty l)%Z.
Proof. unfold count_events. lia. Qed.

Lemma is_event_iff (ty : EventType) (e : Event) :
  is_event ty e = true <-> event_type e = ty.
Proof.
  unfold is_event. destruct (event_type e), ty; split; intro H;
    try reflexivity; discriminate H.
Qed.

(** What the dictionary of counts holds once the events [seen] have been
    counted. *)
Local Abbreviation counted :=
  (fun (counts : list (string * Z)) (seen : list Event) =>
     NoDup (map fst counts)
     /\ (forall ty, dict_get (EventType_value ty) counts
                    = if (count_events ty seen =? 0)%Z then None
                      else Some (count_events ty seen))
     /\ (forall k, In k (map fst counts) ->
                   exists e, In e seen /\ k = EventType_value (event_type e))
     /\ sumZ (dict_values counts) = Z.of_nat (List.length seen)).

Lemma defaultdict_incr_counted (counts : list (string * Z))
    (seen : list Event) (e : Event) :
  counted counts seen ->
  counted (defaultdict_incr (EventType_value (event_type e)) counts)
    (seen ++ [e]).
Proof.
  intros (Hnd & Hget & Hkeys & Hsum). unfold defaultdict_incr.
  split; [apply dict_set_NoDup, Hnd|]. split; [|split].
  - intro ty. rewrite count_events_app.
    pose proof (count_events_nonneg ty seen) as Hpos.
    destruct (EventType_eq_dec ty (event_type e)) as [->|Hne].
    + rewrite dict_get_set_same, Hget.
      assert (E : count_events (event_type e) [e] = 1%Z).
      { rewrite count_events_cons.
        rewrite (proj2 (is_event_iff _ _) eq_refl). reflexivity. }
      rewrite E.
      destruct (count_events (event_type e) seen =? 0)%Z eqn:Z0.
      * apply Z.eqb_eq in Z0. rewrite Z0. reflexivity.
      * destruct (_ + 1 =? 0)%Z eqn:Z1; [apply Z.eqb_eq in Z1; lia|reflexivity].
    + rewrite dict_get_set_other, Hget.
      * assert (E : count_events ty [e] = 0%Z).
        { rewrite count_events_cons.
          destruct (is_event ty e) eqn:I; [|reflexivity].
          apply is_event_iff in I. congruence. }
        rewrite E, Z.add_0_r. reflexivity.
      * intro E. apply EventType_value_injective in E. congruence.
  - intros k Hk. rewrite dict_set_keys in Hk.
    assert (Hk' : In k (map fst counts) \/ k = EventType_value (event_type e)).
    { destruct (dict_mem _ counts); [left; exact Hk|].
      apply in_app_or in Hk. destruct Hk as [Hk|[<-|[]]]; auto. }
    destruct Hk' as [Hk'| ->].
    + destruct (Hkeys k Hk') as (e' & He' & ->).
      exists e'. split; [apply in_or_app; left; exact He'|reflexivity].
    + exists e. split; [apply in_or_app; right; left|]; reflexivity.
  - rewrite dict_set_sum, Hsum, length_app, Nat2Z.inj_add. simpl. lia.
Qed.

(** [get_event_count_by_type] is exact.  For each event type, the
    dictionary holds under the name of the type the number of events of
    that type, and no entry at all when there is none; no name appears
    twice, every name is the type of some event, and the counts add up to
    the number of events. *)
Theorem event_counts_are_exact :
  forall (events : list Event),
    let counts := get_event_count_by_type events in
    (forall ty, dict_get (EventType_value ty) counts
                = if (count_events ty events =? 0)%Z then None
                  else Some (count_events ty events))
    /\ NoDup (map fst counts)
    /\ (forall k, In k (map fst counts) ->
                  exists e, In e events /\ k = EventType_value (event_type e))
    /\ sumZ (dict_values counts) = Z.of_nat (List.length events).
Proof.
  intro events. cbv zeta. unfold get_event_count_by_type.
  assert (G : forall l counts seen,
             counted counts seen ->
             counted (fold_left
                        (fun counts event =>
                           defaultdict_incr (EventType_value (event_type event))
                             counts) l counts) (seen ++ l)).
  { induction l as [|e l IH]; intros counts seen H; simpl.
    - rewrite app_nil_r. exact H.
    - change (e :: l) with ([e] ++ l). rewrite app_assoc.
      apply IH. apply defaultdict_incr_counted. exact H. }
  destruct (G events [] []) as (H1 & H2 & H3 & H4).
  - split; [constructor|]. split; [intro ty; destruct ty; reflexivity|].
    split; [intros k []|reflexivity].
  - simpl in *. auto.
Qed.

(** ** Aggregation of the results *)

Lemma at_least_Z_ok (field : string) (lo v : Z) :
  (lo <= v)%Z -> at_least_Z field lo v = Ok v.
Proof.
  intro H. unfold at_least_Z. destruct (lo <=? v)%Z eqn:E; [reflexivity|].
  apply Z.leb_gt in E. lia.
Qed.

Lemma at_least_Q_ok (field : string) (lo v : Q) :
  lo <= v -> at_least_Q field lo v = Ok v.
Proof.
  intro H. unfold at_least_Q. rewrite (proj2 (Qle_bool_iff lo v) H). reflexivity.
Qed.

Lemma in_range_Q_in (field : string) (lo hi v : Q) :
  lo <= v -> v <= hi -> in_range_Q field lo hi v = Ok v.
Proof.
  intros H1 H2. unfold in_range_Q.
  rewrite (proj2 (Qle_bool_iff lo v) H1), (proj2 (Qle_bool_iff v hi) H2).
  reflexivity.
Qed.

Lemma py_min_one (x : Q) : 0 <= x -> 0 <= py_min 1 x /\ py_min 1 x <= 1.
Proof.
  intro H. unfold py_min. destruct (Qltb x 1) eqn:E.
  - apply Qltb_lt in E. split; [exact H|lra].
  - split; [discriminate|apply Qle_refl].
Qed.

Lemma Qdiv_nonneg (a b : Q) : 0 <= a -> 0 < b -> 0 <= a / b.
Proof.
  intros Ha Hb. unfold Qdiv. apply Qmult_le_0_compat; [exact Ha|].
  apply Qinv_le_0_compat, Qlt_le_weak, Hb.
Qed.

Lemma inject_Z_pos (z : Z) : (0 < z)%Z -> 0 < inject_Z z.
Proof. intro H. change 0 with (inject_Z 0). rewrite <- Zlt_Qlt. exact H. Qed.

Lemma inject_Z_nonneg (z : Z) : (0 <= z)%Z -> 0 <= inject_Z z.
Proof. intro H. change 0 with (inject_Z 0). rewrite <- Zle_Qle. exact H. Qed.

(** The share of available batteries is between 0 and 100 percent. *)
Lemma idle_share (n : nat) (total : Z) :
  (Z.of_nat n <= Z.max 0 total)%Z ->
  let idle_pct :=
    if (0 <? total)%Z
    then inject_Z (Z.of_nat n) / inject_Z total * 100
    else 0 in
  0 <= idle_pct /\ idle_pct <= 100.
Proof.
  intro H. cbv zeta. destruct (0 <? total)%Z eqn:E;
    [|split; [apply Qle_refl|discriminate]].
  apply Z.ltb_lt in E.
  pose proof (inject_Z_pos total E) as Hpos.
  assert (Hn : 0 <= inject_Z (Z.of_nat n)) by (apply inject_Z_nonneg; lia).
  assert (Hle : inject_Z (Z.of_nat n) <= inject_Z total)
    by (rewrite <- Zle_Qle; lia).
  split.
  - apply Qmult_le_0_compat; [apply Qdiv_nonneg; assumption|discriminate].
  - assert (Hq : inject_Z (Z.of_nat n) / inject_Z total <= 1).
    { apply Qle_shift_div_r; [exact Hpos|]. lra. }
    lra.
Qed.

(** One round of the loop succeeds on a reportable station. *)
Lemma aggregate_station_ok (self_config : SimulationConfig)
    (station_id : string) (station : Station) (acc : Totals) :
  station_reportable station -> (0 < duration_days self_config)%Z ->
  exists kpi,
    aggregate_station self_config station_id station acc
    = Ok (mkTotals (t_station_kpis acc ++ [kpi])
            (t_total_swaps acc + kpi_total_swaps kpi)%Z
            (t_total_lost acc + kpi_lost_swaps kpi)%Z
            (t_total_wait acc + total_wait_time (stats station))
            (t_total_energy acc + kpi_total_energy_kwh kpi)
            (t_total_charger_time acc + charger_busy_time (stats station)))
    /\ kpi_station_id kpi = station_id
    /\ kpi_total_swaps kpi = total_swaps (stats station)
    /\ kpi_lost_swaps kpi = lost_swaps (stats station)
    /\ kpi_total_energy_kwh kpi = total_energy_kwh (stats station)
    /\ (0 <= kpi_total_swaps kpi)%Z /\ (0 <= kpi_lost_swaps kpi)%Z
    /\ avg_wait_time_seconds kpi == 0 /\ max_wait_time_seconds kpi == 0
    /\ 0 <= charger_utilization kpi /\ charger_utilization kpi <= 1
    /\ 0 <= idle_inventory_pct kpi /\ idle_inventory_pct kpi <= 100
    /\ 0 <= kpi_total_energy_kwh kpi.
Proof.
  intros ((S1 & S2 & S3 & S4 & S5 & S6 & S7) & Hen & Hcc & Hav) Hd.
  unfold aggregate_station. cbv zeta.
  set (mct := (duration_days self_config * 24 * 3600
               * charger_count (config station))%Z).
  assert (Hm : (0 < mct)%Z) by (unfold mct; nia).
  rewrite (proj2 (Z.ltb_lt 0 mct) Hm).
  destruct (py_min_one (charger_busy_time (stats station) / inject_Z mct))
    as (U1 & U2).
  { apply Qdiv_nonneg; [exact S7|apply inject_Z_pos, Hm]. }
  destruct (idle_share _ _ Hav) as (I1 & I2). cbv zeta in I1, I2.
  assert (Hw : avg_wait_time (stats station) == 0).
  { unfold avg_wait_time. destruct (total_swaps (stats station) =? 0)%Z;
      [reflexivity|]. rewrite S3. reflexivity. }
  unfold new_StationKPI, bind.
  rewrite (at_least_Z_ok _ _ _ S1), (at_least_Z_ok _ _ _ S2).
  rewrite (at_least_Q_ok "avg_wait_time_seconds" 0 _)
    by (rewrite Hw; apply Qle_refl).
  rewrite (at_least_Q_ok "max_wait_time_seconds" 0 _)
    by (rewrite S4; apply Qle_refl).
  rewrite (in_range_Q_in _ _ _ _ U1 U2), (in_range_Q_in _ _ _ _ I1 I2).
  rewrite (at_least_Q_ok _ _ _ Hen), (at_least_Z_ok _ _ _ S6).
  eexists (mkStationKPI _ _ _ _ _ _ _ _ _). split; [reflexivity|]. simpl.
  repeat split; assumption.
Qed.

Lemma sumQ_app (l1 l2 : list Q) : sumQ (l1 ++ l2) == sumQ l1 + sumQ l2.
Proof.
  unfold sumQ. induction l1 as [|x l IH]; simpl; [lra|]. rewrite IH. lra.
Qed.

Lemma sumQ_nonneg (l : list Q) : Forall (fun x => 0 <= x) l -> 0 <= sumQ l.
Proof.
  unfold sumQ. induction 1 as [|x l Hx _ IH]; simpl; [apply Qle_refl|lra].
Qed.

Lemma fold_left_Qplus_bounds (l : list Q) :
  Forall (fun x => 0 <= x /\ x <= 100) l ->
  forall a, a <= fold_left Qplus l a
            /\ fold_left Qplus l a
               <= a + 100 * inject_Z (Z.of_nat (List.length l)).
Proof.
  induction 1 as [|x l (Hx0 & Hx1) _ IH]; intro a.
  - cbn [fold_left List.length Z.of_nat]. change (inject_Z 0) with 0.
    split; lra.
  - cbn [fold_left List.length]. destruct (IH (a + x)) as (I1 & I2).
    rewrite Nat2Z.inj_succ, <- Z.add_1_r, inject_Z_plus.
    change (inject_Z 1) with 1. split; lra.
Qed.

(** The loop of [_aggregate_results] succeeds on reportable stations. *)
Lemma aggregate_loop_ok (self_config : SimulationConfig)
    (items : list (string * Station)) :
  (0 < duration_days self_config)%Z ->
  Forall (fun item => station_reportable (snd item)) items ->
  forall acc,
    exists acc' kpis,
      fold_left (fun acc item =>
                   do acc <- acc;
                   aggregate_station self_config (fst item) (snd item) acc)
        items (Ok acc) = Ok acc'
      /\ t_station_kpis acc' = t_station_kpis acc ++ kpis
      /\ map kpi_station_id kpis = map fst items
      /\ map kpi_total_swaps kpis
         = map (fun item => total_swaps (stats (snd item))) items
      /\ map kpi_lost_swaps kpis
         = map (fun item => lost_swaps (stats (snd item))) items
      /\ Forall kpi_valid kpis
      /\ t_total_swaps acc'
         = (t_total_swaps acc + sumZ (map kpi_total_swaps kpis))%Z
      /\ t_total_lost acc'
         = (t_total_lost acc + sumZ (map kpi_lost_swaps kpis))%Z
      /\ t_total_wait acc' == t_total_wait acc
      /\ t_total_energy acc'
         == t_total_energy acc + sumQ (map kpi_total_energy_kwh kpis)
      /\ t_total_charger_time acc <= t_total_charger_time acc'.
Proof.
  intros Hd Hall. induction Hall as [|[sid st] items Hst _ IH]; intro acc.
  - exists acc, []. simpl. rewrite app_nil_r.
    repeat split; try reflexivity; try constructor; try lia; try lra.
  - cbn [fold_left fst snd]. unfold bind at 2.
    destruct (aggregate_station_ok self_config sid st acc Hst Hd)
      as (kpi & -> & K1 & K2 & K3 & K4 & K5 & K6 & K7 & K8 & K9 & K10 & K11
          & K12 & K13).
    match goal with |- context [fold_left _ items (Ok ?a)] =>
      destruct (IH a)
        as (acc' & kpis & -> & A1 & A2 & M1 & M2 & A3 & A4 & A5 & A6 & A7 & A8)
    end.
    simpl in A1, A4, A5, A6, A7, A8.
    exists acc', (kpi :: kpis). split; [reflexivity|].
    split; [rewrite A1, <- app_assoc; reflexivity|].
    split; [simpl; rewrite K1, A2; reflexivity|].
    split; [simpl; rewrite K2, M1; reflexivity|].
    split; [simpl; rewrite K3, M2; reflexivity|].
    split; [constructor; [unfold kpi_valid; auto 12|exact A3]|].
    destruct Hst as ((_ & _ & S3 & _ & _ & _ & S7) & _). cbn [snd] in S3, S7.
    split; [rewrite A4; unfold sumZ; simpl; lia|].
    split; [rewrite A5; unfold sumZ; simpl; lia|].
    split; [rewrite A6, S3; lra|].
    split; [rewrite A7; unfold sumQ; simpl; lra|].
    lra.
Qed.

Lemma sumZ_nonneg (l : list Z) : Forall (fun x => (0 <= x)%Z) l -> (0 <= sumZ l)%Z.
Proof.
  unfold sumZ. induction 1 as [|x l Hx _ IH]; simpl; lia.
Qed.

(** The aggregation succeeds once the loop can. *)
Lemma aggregate_results_ok {R : NumpyRandom} (o : Orchestrator) (w : World)
    (status : SimulationStatus) (ms : Z) (t0 t1 : Q) :
  (0 < duration_days (orch_config o))%Z -> (0 <= ms)%Z ->
  Forall (fun item => station_reportable (snd item)) (stations_items o w) ->
  exists r,
    _aggregate_results o w status ms t0 t1 = Ok r
    /\ map kpi_station_id (station_kpis r) = map fst (stations_items o w)
    /\ map kpi_total_swaps (station_kpis r)
       = map (fun item => total_swaps (stats (snd item))) (stations_items o w)
    /\ map kpi_lost_swaps (station_kpis r)
       = map (fun item => lost_swaps (stats (snd item))) (stations_items o w)
    /\ Forall kpi_valid (station_kpis r)
    /\ city_total_swaps r = sumZ (map kpi_total_swaps (station_kpis r))
    /\ city_lost_swaps r = sumZ (map kpi_lost_swaps (station_kpis r))
    /\ sr_total_energy_kwh r == sumQ (map kpi_total_energy_kwh (station_kpis r))
    /\ city_avg_wait_time r == 0
    /\ city_throughput_per_hour r
       == inject_Z (city_total_swaps r)
          / inject_Z (duration_days (orch_config o) * 24)
    /\ (exists energy depreciation logistics,
          opex_breakdown r
          = Some (mkOpexBreakdown energy depreciation logistics
                    (estimated_opex_cost r))
          /\ estimated_opex_cost r == energy + depreciation + logistics
          /\ energy == sr_total_energy_kwh r * 8
          /\ depreciation == inject_Z (city_total_swaps r) * 25
          /\ logistics
             == inject_Z (Z.of_nat (List.length (orch_stations o))
                          * duration_days (orch_config o)) * 500)
    /\ compute_time_ms r = ms /\ sr_status r = status
    /\ sr_run_id r = run_id o /\ baseline_comparison r = None.
Proof.
  intros Hd Hms Hall. unfold _aggregate_results. cbv zeta.
  destruct (aggregate_loop_ok (orch_config o) (stations_items o w) Hd Hall
              (mkTotals [] 0 0 0 0 0))
    as (acc & kpis & -> & A1 & A2 & M1 & M2 & A3 & A4 & A5 & A6 & A7 & A8).
  simpl in A1, A4, A5, A6, A7, A8. unfold bind at 1.
  destruct acc as [ks swaps lost wait energy busy]. simpl in *. subst ks.
  assert (Hswaps : (0 <= swaps)%Z).
  { rewrite A4. apply sumZ_nonneg. apply Forall_forall. intros x Hx.
    apply in_map_iff in Hx. destruct Hx as (k & <- & Hk).
    exact (proj1 (proj1 (Forall_forall _ _) A3 k Hk)). }
  assert (Hlost : (0 <= lost)%Z).
  { rewrite A5. apply sumZ_nonneg. apply Forall_forall. intros x Hx.
    apply in_map_iff in Hx. destruct Hx as (k & <- & Hk).
    exact (proj1 (proj2 (proj1 (Forall_forall _ _) A3 k Hk))). }
  assert (Henergy : 0 <= energy).
  { rewrite A7, Qplus_0_l. apply sumQ_nonneg. apply Forall_forall. intros x Hx.
    apply in_map_iff in Hx. destruct Hx as (k & <- & Hk).
    destruct (proj1 (Forall_forall _ _) A3 k Hk)
      as (_ & _ & _ & _ & _ & _ & _ & _ & E). exact E. }
  set (avg_wait := if (0 <? swaps)%Z then wait / inject_Z swaps else 0).
  assert (Hwait : avg_wait == 0).
  { unfold avg_wait. destruct (0 <? swaps)%Z; [|reflexivity].
    rewrite A6. unfold Qdiv. lra. }
  assert (Hhours : (0 < duration_days (orch_config o) * 24)%Z) by lia.
  rewrite (proj2 (Z.ltb_lt _ _) Hhours).
  set (throughput := inject_Z swaps / inject_Z (duration_days (orch_config o) * 24)).
  assert (Hthr : 0 <= throughput).
  { apply Qdiv_nonneg; [apply inject_Z_nonneg, Hswaps|apply inject_Z_pos, Hhours]. }
  set (capacity := (sumZ _ * duration_days (orch_config o) * 24 * 3600)%Z).
  set (avg_util := if (0 <? capacity)%Z then busy / inject_Z capacity else 0).
  assert (Hutil : 0 <= avg_util).
  { unfold avg_util. destruct (0 <? capacity)%Z eqn:E; [|apply Qle_refl].
    apply Qdiv_nonneg; [exact A8|apply inject_Z_pos, Z.ltb_lt, E]. }
  destruct (py_min_one avg_util Hutil) as (U1 & U2).
  set (avg_idle := match kpis with [] => 0 | _ :: _ => _ end).
  assert (Hidle : 0 <= avg_idle /\ avg_idle <= 100).
  { unfold avg_idle. destruct kpis as [|k ks]; [split; [apply Qle_refl|discriminate]|].
    set (l := k :: ks) in *.
    assert (Hb : Forall (fun x => 0 <= x /\ x <= 100) (map idle_inventory_pct l)).
    { apply Forall_forall. intros x Hx. apply in_map_iff in Hx.
      destruct Hx as (k' & <- & Hk').
      destruct (proj1 (Forall_forall _ _) A3 k' Hk')
        as (_ & _ & _ & _ & _ & _ & I1 & I2 & _). auto. }
    destruct (fold_left_Qplus_bounds _ Hb 0) as (B1 & B2).
    rewrite length_map in B2.
    assert (Hn : 0 < inject_Z (Z.of_nat (List.length l)))
      by (apply inject_Z_pos; unfold l; simpl; lia).
    split; [apply Qdiv_nonneg; assumption|].
    apply Qle_shift_div_r; [exact Hn|]. lra. }
  destruct Hidle as (I1 & I2).
  set (energy_cost := energy * 8).
  set (depreciation_cost := inject_Z swaps * 250000 * (1 # 10000)).
  set (logistics_cost :=
         inject_Z (Z.of_nat (List.length (orch_stations o))
                   * duration_days (orch_config o)) * 500).
  assert (He : 0 <= energy_cost) by (unfold energy_cost; lra).
  assert (Hdep : 0 <= depreciation_cost).
  { unfold depreciation_cost. pose proof (inject_Z_nonneg swaps Hswaps). lra. }
  assert (Hlog : 0 <= logistics_cost).
  { unfold logistics_cost.
    assert (0 <= inject_Z (Z.of_nat (List.length (orch_stations o))
                           * duration_days (orch_config o)))
      by (apply inject_Z_nonneg; nia).
    lra. }
  unfold new_SimulationResult, new_OpexBreakdown, bind.
  rewrite (at_least_Z_ok _ _ _ Hms), (at_least_Z_ok _ _ _ Hswaps),
    (at_least_Z_ok _ _ _ Hlost).
  rewrite (at_least_Q_ok "city_avg_wait_time" 0 avg_wait)
    by (rewrite Hwait; apply Qle_refl).
  rewrite (at_least_Q_ok _ _ _ Hthr), (at_least_Q_ok _ _ _ Henergy).
  rewrite (at_least_Q_ok "estimated_opex_cost" 0 _) by lra.
  rewrite (in_range_Q_in _ _ _ _ U1 U2), (in_range_Q_in _ _ _ _ I1 I2).
  rewrite (at_least_Q_ok _ _ _ He), (at_least_Q_ok _ _ _ Hdep),
    (at_least_Q_ok _ _ _ Hlog).
  rewrite (at_least_Q_ok "total" 0 _) by lra.
  eexists. split; [reflexivity|]. simpl.
  split; [exact A2|]. split; [exact M1|]. split; [exact M2|].
  split; [exact A3|]. split; [exact A4|].
  split; [exact A5|]. split; [rewrite A7; lra|]. split; [exact Hwait|].
  split; [reflexivity|]. split; [|auto].
  exists energy_cost, depreciation_cost, logistics_cost.
  split; [reflexivity|]. split; [reflexivity|]. split; [reflexivity|].
  split; [unfold depreciation_cost; lra|reflexivity].
Qed.

(** *** The stations of a completed run can be reported *)

Lemma reachable_start_ok {R : NumpyRandom} (o : Orchestrator) (w0 w : World) :
  reachable o w0 w -> failure w = None -> failure w0 = None.
Proof.
  induction 1 as [|w w' Hr IH Hs]; [auto|]. intros _. apply IH.
  unfold step in Hs. destruct (failure w); [discriminate|reflexivity].
Qed.

Section Reportable.
Context {R : NumpyRandom}.

Lemma orch_stations_indexed (data : RealNetworkData) (entropy : nat -> string)
    (config0 : SimulationConfig) (o : Orchestrator) (w0 : World) :
  new_Orchestrator data entropy config0 = Ok (o, w0) ->
  Forall (fun kv : string * nat => (snd kv < List.length (objs w0))%nat)
    (orch_stations o).
Proof.
  intro Hn.
  destruct (new_Orchestrator_spec _ _ _ _ _ Hn)
    as (_ & _ & effective & objs0 & index & rq & _ & Hi & -> & ->).
  destruct (initialize_stations_built effective [] [] [] objs0 index rq Hi
              (Forall_nil _) (Forall_nil _) (Forall_nil _))
    as (_ & _ & Hin & _).
  destruct (schedule_all_keeps rq
              (mkWorld 0 [] objs0 [] (default_rng (random_seed config0)) 0 None))
    as (_ & -> & _).
  exact Hin.
Qed.

Lemma run_reportable (data : RealNetworkData) (entropy : nat -> string)
    (config0 : SimulationConfig) (o : Orchestrator) (w0 w : World) :
  Forall station_runs (stations config0) ->
  Forall station_runs (fst (load_real_network data)) ->
  new_Orchestrator data entropy config0 = Ok (o, w0) ->
  reachable o (start_run o w0) w -> failure w = None ->
  Forall station_reportable (objs w)
  /\ List.length (objs w) = List.length (objs w0)
  /\ (0 < duration_days (orch_config o))%Z.
Proof.
  intros Hc Hd Hn Hr F.
  pose proof (reachable_start_ok o _ _ Hr F) as F0.
  destruct (start_world data entropy config0 o w0 Hn F0)
    as (_ & _ & _ & _ & _ & Hcfg & _ & Hh & Hcc & Hap & _).
  destruct (start_run_spec o w0 F0) as (_ & _ & Ob & _ & Hdur & _).
  pose proof (run_configs data entropy config0 o w0 w Hn Hr F) as Hsame.
  assert (Hruns : Forall station_runs (map config (objs w))).
  { rewrite Hsame, <- Ob. eapply apply_interventions_runs; [exact Hap|].
    destruct (fst (load_real_network data)); assumption. }
  rewrite Ob, <- Hsame in Hcc.
  destruct (run_sane data entropy config0 o w0 w Hn Hr F) as (Hsane & _).
  pose proof (run_battery_balance data entropy config0 o w0 w Hn Hr F) as Hbal.
  split; [|split].
  - apply Forall_forall. intros self Hin.
    destruct (In_nth_error _ _ Hin) as (s & Hs).
    destruct (proj1 (Forall_forall _ _) Hsane self Hin)
      as (_ & _ & _ & Hst & Hen).
    assert (Hrun : station_runs (config self))
      by (apply (proj1 (Forall_forall _ _) Hruns), in_map, Hin).
    assert (Hone : (1 <= charger_count (config self))%Z)
      by (apply (proj1 (Forall_forall _ _) Hcc), in_map, Hin).
    split; [exact Hst|]. split; [apply Hen, Qlt_le_weak, Hrun|].
    split; [exact Hone|].
    pose proof (Hbal s self Hs) as B. unfold batteries_at_rest in B.
    assert (Hw : (0 <= agenda_weight (battery_weight s) (agenda w))%Z).
    { apply agenda_weight_nonneg. intro a. destruct a; simpl; try lia;
        destruct (s =? _)%nat; lia. }
    unfold get_available_battery_count.
    pose proof (filter_length_le is_swappable (battery_pool self)). lia.
  - rewrite <- (length_map config (objs w)), Hsame, length_map. reflexivity.
  - lia.
Qed.

Lemma completed_objs (o : Orchestrator) (w2 w : World) :
  w = match agenda w2 with
      | (t, _, StopSimulation) :: rest => set_agenda (set_now w2 t) rest
      | _ => w2
      end ->
  objs w = objs w2 /\ events w = events w2.
Proof.
  intros ->. destruct (agenda w2) as [|[[t p] a] rest]; [auto|].
  destruct a; auto.
Qed.

Lemma stations_items_indexed (o : Orchestrator) (w : World) :
  Forall (fun kv : string * nat => (snd kv < List.length (objs w))%nat)
    (orch_stations o) ->
  map fst (stations_items o w) = map fst (orch_stations o)
  /\ Forall (fun item => In (snd item) (objs w)) (stations_items o w).
Proof.
  unfold stations_items. induction 1 as [|[k i] l Hi _ (IH1 & IH2)]; simpl.
  - split; [reflexivity|constructor].
  - simpl in Hi. destruct (nth_error (objs w) i) as [st|] eqn:E.
    + simpl. rewrite IH1. split; [reflexivity|].
      constructor; [exact (nth_error_In _ _ E)|exact IH2].
    + apply nth_error_None in E. lia.
Qed.

End Reportable.

(** The aggregation of a completed run succeeds.  For stations with a
    positive charger power, a swap time and a battery capacity that are not
    negative, and a computing time that is not negative, no field of
    [StationKPI], [OpexBreakdown] or [SimulationResult] fails its
    validation; there is one KPI for each station of the dictionary, in
    its order; the city totals are the sums of the KPIs of the stations;
    the average waiting time is 0; the estimated cost is the sum of its
    three parts, at 8 per kWh, 25 per swap and 500 per station and day. *)
Theorem completed_run_aggregates :
  forall {R : NumpyRandom} (data : RealNetworkData) (entropy : nat -> string)
         (config0 : SimulationConfig) (o : Orchestrator) (w0 : World)
         (fuel : nat) (w : World) (status : SimulationStatus) (ms : Z)
         (t0 t1 : Q),
    Forall station_runs (stations config0) ->
    Forall station_runs (fst (load_real_network data)) ->
    new_Orchestrator data entropy config0 = Ok (o, w0) ->
    env_run o fuel (start_run o w0) = Completed w ->
    (0 <= ms)%Z ->
    exists r,
      _aggregate_results o w status ms t0 t1 = Ok r
      /\ map kpi_station_id (station_kpis r) = map fst (orch_stations o)
      /\ Forall kpi_valid (station_kpis r)
      /\ city_total_swaps r = sumZ (map kpi_total_swaps (station_kpis r))
      /\ city_lost_swaps r = sumZ (map kpi_lost_swaps (station_kpis r))
      /\ sr_total_energy_kwh r
         == sumQ (map kpi_total_energy_kwh (station_kpis r))
      /\ city_avg_wait_time r == 0
      /\ city_throughput_per_hour r
         == inject_Z (city_total_swaps r) / inject_Z (duration_days config0 * 24)
      /\ exists energy depreciation logistics,
           opex_breakdown r
           = Some (mkOpexBreakdown energy depreciation logistics
                     (estimated_opex_cost r))
           /\ estimated_opex_cost r == energy + depreciation + logistics
           /\ energy == sr_total_energy_kwh r * 8
           /\ depreciation == inject_Z (city_total_swaps r) * 25
           /\ logistics
              == inject_Z (Z.of_nat (List.length (orch_stations o))
                           * duration_days config0) * 500.
Proof.
  intros R data entropy config0 o w0 fuel w status ms t0 t1 Hc Hd Hn Hrun Hms.
  destruct (env_run_completed o fuel _ _ Hrun) as (w2 & Hr & Hs & Hf & Hw).
  destruct (completed_objs o w2 w Hw) as (Hobj & _).
  destruct (run_reportable data entropy config0 o w0 w2 Hc Hd Hn Hr Hf)
    as (Hrep & Hlen & Hdur).
  rewrite <- Hobj in Hrep, Hlen.
  pose proof (orch_stations_indexed data entropy config0 o w0 Hn) as Hix.
  rewrite <- Hlen in Hix.
  destruct (stations_items_indexed o w Hix) as (Hids & Hin).
  assert (Hall : Forall (fun item => station_reportable (snd item))
                   (stations_items o w)).
  { eapply Forall_impl; [|exact Hin]. intros item Hitem.
    exact (proj1 (Forall_forall _ _) Hrep _ Hitem). }
  destruct (aggregate_results_ok o w status ms t0 t1 Hdur Hms Hall)
    as (r & Hr' & A1 & _ & _ & A2 & A3 & A4 & A5 & A6 & A7 & A8 & _).
  destruct (new_Orchestrator_spec _ _ _ _ _ Hn) as (Hcfg & _).
  rewrite Hcfg in A7, A8.
  exists r. split; [exact Hr'|]. split; [rewrite A1; exact Hids|].
  auto 10.
Qed.

Lemma completed_run_aggregates_witness :
  exists (o : Orchestrator)
         (w0 w : World (R := ScriptedRandom early_arrival_script)),
    new_Orchestrator no_real_network entropy_a one_station_config = Ok (o, w0)
    /\ env_run o 200 (start_run o w0) = Completed w
    /\ exists r,
         _aggregate_results o w COMPLETED 12 0 1 = Ok r
         /\ map kpi_station_id (station_kpis r) = map fst (orch_stations o)
         /\ Forall kpi_valid (station_kpis r)
         /\ city_total_swaps r = sumZ (map kpi_total_swaps (station_kpis r))
         /\ city_lost_swaps r = sumZ (map kpi_lost_swaps (station_kpis r))
         /\ sr_total_energy_kwh r
            == sumQ (map kpi_total_energy_kwh (station_kpis r))
         /\ city_avg_wait_time r == 0
         /\ city_throughput_per_hour r
            == inject_Z (city_total_swaps r)
               / inject_Z (duration_days one_station_config * 24)
         /\ exists energy depreciation logistics,
              opex_breakdown r
              = Some (mkOpexBreakdown energy depreciation logistics
                        (estimated_opex_cost r))
              /\ estimated_opex_cost r == energy + depreciation + logistics
              /\ energy == sr_total_energy_kwh r * 8
              /\ depreciation == inject_Z (city_total_swaps r) * 25
              /\ logistics
                 == inject_Z (Z.of_nat (List.length (orch_stations o))
                              * duration_days one_station_config) * 500.
Proof.
  eexists. eexists. eexists.
  split; [vm_compute; reflexivity|]. split; [vm_compute; reflexivity|].
  refine (completed_run_aggregates (R := ScriptedRandom early_arrival_script)
            no_real_network entropy_a one_station_config _ _ 200 _ COMPLETED 12
            0 1 _ _ _ _ _).
  - constructor; [|constructor]. vm_compute.
    split; [reflexivity|]. split; discriminate.
  - constructor.
  - vm_compute. reflexivity.
  - vm_compute. reflexivity.
  - discriminate.
Defined.

(** *** The reported totals against the telemetry *)

Lemma initialize_stations_distinct (effective : list StationConfig) :
  forall objs index rq objs' index' rq',
    _initialize_stations effective objs index rq = Ok (objs', index', rq') ->
    NoDup (map fst index ++ map sc_id effective) ->
    index' = index ++ combine (map sc_id effective)
                        (seq (List.length objs) (List.length effective))
    /\ List.length objs' = (List.length objs + List.length effective)%nat.
Proof.
  induction effective as [|c rest IH];
    intros objs index rq objs' index' rq' H Hnd.
  - simpl in H. injection H as <- <- <-. simpl. rewrite app_nil_r. auto.
  - simpl in H. unfold bind in H.
    destruct (new_Station (List.length objs) c true) as [[self nrq]|e] eqn:E;
      [|discriminate].
    simpl in H.
    assert (Hc : ~ In (sc_id c) (map fst index)).
    { intro Hin. simpl in Hnd. apply NoDup_remove_2 in Hnd. apply Hnd.
      apply in_or_app. left. exact Hin. }
    rewrite (dict_set_fresh _ _ _ Hc) in H.
    apply IH in H.
    + destruct H as (H1 & H2). rewrite length_app in H1, H2. simpl in H1, H2.
      split; [|simpl; lia].
      rewrite H1, <- app_assoc. simpl. rewrite Nat.add_1_r. reflexivity.
    + rewrite map_app, <- app_assoc. simpl. exact Hnd.
Qed.

Lemma stations_items_zip {R : NumpyRandom} (o : Orchestrator) (w : World)
    (ids : list string) :
  orch_stations o = combine ids (seq 0 (List.length (objs w))) ->
  List.length ids = List.length (objs w) ->
  map snd (stations_items o w) = objs w.
Proof.
  unfold stations_items. intros -> Hlen.
  assert (G : forall (l pre : list Station) (ids : list string),
             List.length ids = List.length l ->
             map snd
               (flat_map (fun kv : string * nat =>
                            match nth_error (pre ++ l) (snd kv) with
                            | Some station => [(fst kv, station)]
                            | None => []
                            end)
                  (combine ids (seq (List.length pre) (List.length l))))
             = l).
  { induction l as [|x l IH]; intros pre ids' H.
    - destruct ids'; reflexivity.
    - destruct ids' as [|i ids']; [discriminate|]. simpl in H.
      cbn [List.length seq combine flat_map snd fst].
      rewrite nth_error_app2 by lia. rewrite Nat.sub_diag. cbn [nth_error app map].
      f_equal.
      specialize (IH (pre ++ [x]) ids' ltac:(lia)).
      rewrite length_app, Nat.add_1_r, <- app_assoc in IH. exact IH. }
  exact (G (objs w) [] ids Hlen).
Qed.

Lemma map_fst_zip {A B} (l : list A) :
  forall l' : list B, List.length l = List.length l' ->
    map fst (combine l l') = l.
Proof.
  induction l as [|x l IH]; intros [|y l'] H; simpl in *; try reflexivity;
    try discriminate.
  f_equal. apply IH. lia.
Qed.

Lemma at_least_Z_inv (field : string) (lo v v' : Z) :
  at_least_Z field lo v = Ok v' -> v' = v.
Proof.
  unfold at_least_Z. destruct (lo <=? v)%Z; [|discriminate].
  intro H. injection H as <-. reflexivity.
Qed.

Lemma at_least_Q_inv (field : string) (lo v v' : Q) :
  at_least_Q field lo v = Ok v' -> v' = v.
Proof.
  unfold at_least_Q. destruct (Qle_bool lo v); [|discriminate].
  intro H. injection H as <-. reflexivity.
Qed.

Lemma in_range_Q_inv (field : string) (lo hi v v' : Q) :
  in_range_Q field lo hi v = Ok v' -> v' = v.
Proof.
  unfold in_range_Q. destruct (Qle_bool lo v && Qle_bool v hi); [|discriminate].
  intro H. injection H as <-. reflexivity.
Qed.

(** What a round of the loop leaves when it succeeds. *)
Lemma aggregate_station_inv (self_config : SimulationConfig)
    (station_id : string) (station : Station) (acc acc' : Totals) :
  aggregate_station self_config station_id station acc = Ok acc' ->
  t_total_swaps acc' = (t_total_swaps acc + total_swaps (stats station))%Z
  /\ t_total_lost acc' = (t_total_lost acc + lost_swaps (stats station))%Z
  /\ map kpi_station_id (t_station_kpis acc')
     = map kpi_station_id (t_station_kpis acc) ++ [station_id].
Proof.
  unfold aggregate_station. cbv zeta. unfold bind at 1.
  destruct (new_StationKPI _ _ _ _ _ _ _ _ _) as [kpi|] eqn:E; [|discriminate].
  intro H. injection H as <-. simpl.
  split; [reflexivity|]. split; [reflexivity|].
  rewrite map_app. simpl. f_equal. f_equal.
  unfold new_StationKPI, bind in E.
  repeat match type of E with
         | match ?c with Ok _ => _ | Raise _ => _ end = _ =>
             destruct c; [|discriminate E]
         end.
  injection E as <-. reflexivity.
Qed.

Lemma aggregate_loop_inv (self_config : SimulationConfig)
    (items : list (string * Station)) :
  forall acc0 acc',
    fold_left (fun acc item =>
                 do acc <- acc;
                 aggregate_station self_config (fst item) (snd item) acc)
      items acc0 = Ok acc' ->
    exists acc,
      acc0 = Ok acc
      /\ t_total_swaps acc'
         = (t_total_swaps acc
            + sumZ (map (fun item => total_swaps (stats (snd item))) items))%Z
      /\ t_total_lost acc'
         = (t_total_lost acc
            + sumZ (map (fun item => lost_swaps (stats (snd item))) items))%Z
      /\ map kpi_station_id (t_station_kpis acc')
         = map kpi_station_id (t_station_kpis acc) ++ map fst items.
Proof.
  induction items as [|[sid st] items IH]; intros acc0 acc' H; simpl in H.
  - exists acc'. unfold sumZ. simpl. rewrite app_nil_r.
    repeat split; auto; lia.
  - destruct (IH _ _ H) as (acc1 & H1 & S1 & S2 & S3).
    unfold bind in H1. destruct acc0 as [acc|]; [|discriminate].
    destruct (aggregate_station_inv _ _ _ _ _ H1) as (T1 & T2 & T3).
    exists acc. split; [reflexivity|]. unfold sumZ in *. simpl.
    split; [lia|]. split; [lia|].
    rewrite S3, T3, <- app_assoc. reflexivity.
Qed.

Lemma aggregate_results_inv {R : NumpyRandom} (o : Orchestrator) (w : World)
    (status : SimulationStatus) (ms : Z) (t0 t1 : Q) (r : SimulationResult) :
  _aggregate_results o w status ms t0 t1 = Ok r ->
  city_total_swaps r
  = sumZ (map (fun item => total_swaps (stats (snd item))) (stations_items o w))
  /\ city_lost_swaps r
     = sumZ (map (fun item => lost_swaps (stats (snd item)))
               (stations_items o w))
  /\ map kpi_station_id (station_kpis r) = map fst (stations_items o w).
Proof.
  unfold _aggregate_results. cbv zeta. unfold bind at 1.
  destruct (fold_left _ (stations_items o w) _) as [acc|] eqn:E; [|discriminate].
  destruct (aggregate_loop_inv _ _ _ _ E) as (acc0 & H0 & S1 & S2 & S3).
  injection H0 as <-. simpl in S1, S2, S3.
  unfold new_SimulationResult, bind. intro H.
  repeat match type of H with
         | match ?c with Ok _ => _ | Raise _ => _ end = _ =>
             let X := fresh "X" in destruct c eqn:X; [|discriminate H]
         end.
  injection H as <-. simpl.
  apply at_least_Z_inv in X0, X1. subst. auto.
Qed.

(** What [run()] reports is what the telemetry shows.  When the stations
    have distinct identifiers, the result of the aggregation of a completed
    run gives as [city_total_swaps] the number of SWAP_COMPLETE events and
    as [city_lost_swaps] the number of LOST_SWAP events, and has one KPI
    for each station, in the order of the stations. *)
Theorem reported_totals_match_telemetry :
  forall {R : NumpyRandom} (data : RealNetworkData) (entropy : nat -> string)
         (config0 : SimulationConfig) (o : Orchestrator) (w0 : World)
         (fuel : nat) (w : World) (status : SimulationStatus) (ms : Z)
         (t0 t1 : Q) (r : SimulationResult),
    new_Orchestrator data entropy config0 = Ok (o, w0) ->
    env_run o fuel (start_run o w0) = Completed w ->
    NoDup (map sc_id (map config (objs w))) ->
    _aggregate_results o w status ms t0 t1 = Ok r ->
    city_total_swaps r = count_events SWAP_COMPLETE (events w)
    /\ city_lost_swaps r = count_events LOST_SWAP (events w)
    /\ map kpi_station_id (station_kpis r) = map sc_id (map config (objs w)).
Proof.
  intros R data entropy config0 o w0 fuel w status ms t0 t1 r Hn Hrun Hnd Hagg.
  destruct (completed_ledger data entropy config0 o w0 fuel w Hn Hrun)
    as (L1 & L2 & _).
  destruct (env_run_completed o fuel _ _ Hrun) as (w2 & Hr & Hs & Hf & Hw).
  destruct (completed_objs o w2 w Hw) as (Hobj & _).
  pose proof (run_configs data entropy config0 o w0 w2 Hn Hr Hf) as Hsame.
  rewrite <- Hobj in Hsame.
  destruct (new_Orchestrator_spec _ _ _ _ _ Hn)
    as (_ & _ & effective & objs0 & index & rq & _ & Hi & Hix & Hw0).
  assert (Hobjs0 : objs w0 = objs0).
  { rewrite Hw0.
    destruct (schedule_all_keeps rq
                (mkWorld 0 [] objs0 [] (default_rng (random_seed config0)) 0 None))
      as (_ & -> & _). reflexivity. }
  destruct (initialize_stations_built effective [] [] [] objs0 index rq Hi
              (Forall_nil _) (Forall_nil _) (Forall_nil _))
    as (_ & _ & _ & Hm & _).
  simpl in Hm. rewrite Hobjs0, Hm in Hsame.
  destruct (initialize_stations_distinct effective [] [] [] objs0 index rq Hi)
    as (Hindex & Hlen).
  { simpl. rewrite <- Hsame. exact Hnd. }
  simpl in Hindex, Hlen.
  assert (Hn' : List.length (objs w) = List.length effective)
    by (rewrite <- (length_map config), Hsame; reflexivity).
  assert (Hzip : map snd (stations_items o w) = objs w).
  { apply (stations_items_zip o w (map sc_id effective)).
    - rewrite Hix, Hindex, Hn'. reflexivity.
    - rewrite length_map, Hn'. reflexivity. }
  assert (Hids : map fst (stations_items o w) = map sc_id effective).
  { destruct (stations_items_indexed o w) as (H1 & _).
    - rewrite Hix, Hindex, Hn'. apply Forall_forall. intros [k i] Hin.
      apply in_combine_r in Hin. apply in_seq in Hin. simpl. lia.
    - rewrite H1, Hix, Hindex. apply map_fst_zip.
      rewrite length_map, length_seq. reflexivity. }
  destruct (aggregate_results_inv o w status ms t0 t1 r Hagg) as (A1 & A2 & A3).
  unfold city_sum in L1, L2.
  rewrite <- Hzip, map_map in L1, L2.
  split; [rewrite A1; exact L1|]. split; [rewrite A2; exact L2|].
  rewrite A3, Hids, Hsame. reflexivity.
Qed.

Lemma reported_totals_match_telemetry_witness :
  exists (o : Orchestrator)
         (w0 w : World (R := ScriptedRandom paired_arrival_script))
         (r : SimulationResult),
    new_Orchestrator no_real_network entropy_a two_station_config = Ok (o, w0)
    /\ env_run o 300 (start_run o w0) = Completed w
    /\ _aggregate_results o w COMPLETED 12 0 1 = Ok r
    /\ city_total_swaps r = 2%Z
    /\ city_total_swaps r = count_events SWAP_COMPLETE (events w)
    /\ city_lost_swaps r = count_events LOST_SWAP (events w)
    /\ map kpi_station_id (station_kpis r) = map sc_id (map config (objs w)).
Proof.
  eexists. eexists. eexists. eexists.
  split; [vm_compute; reflexivity|]. split; [vm_compute; reflexivity|].
  split; [vm_compute; reflexivity|]. split; [vm_compute; reflexivity|].
  refine (reported_totals_match_telemetry
            (R := ScriptedRandom paired_arrival_script)
            no_real_network entropy_a two_station_config _ _ 300 _ COMPLETED 12
            0 1 _ _ _ _ _).
  - vm_compute. reflexivity.
  - vm_compute. reflexivity.
  - vm_compute. repeat constructor; simpl; intuition discriminate.
  - vm_compute. reflexivity.
Defined.

(** ** Vehicles in service and charging statistics *)

Lemma requests_weightZ_cons (f : Action -> Z) (r : Request)
    (l : list Request) :
  requests_weightZ f (r :: l) = (f (rq_action r) + requests_weightZ f l)%Z.
Proof. reflexivity. Qed.

Lemma pool_trigger_get_parked (s : nat) (parked : list (string * Q)) :
  forall items items' parked' rq,
    pool_trigger_get s items parked = (items', parked', rq) ->
    (Z.of_nat (List.length parked')
     + requests_weightZ (service_weight s) rq
     = Z.of_nat (List.length parked))%Z
    /\ (forall s', s' <> s -> requests_weightZ (service_weight s') rq = 0%Z).
Proof.
  induction parked as [|[v t] rest IH]; intros items items' parked' rq H;
    simpl in H.
  - injection H as <- <- <-. split; reflexivity.
  - destruct (take_first is_swappable items) as [[b it]|] eqn:E.
    + destruct (pool_trigger_get s it rest) as [[i2 p2] r2] eqn:E2.
      injection H as <- <- <-. destruct (IH _ _ _ _ E2) as (H1 & H2).
      rewrite requests_weightZ_cons. cbn [succeed rq_action service_weight].
      rewrite Nat.eqb_refl. cbn [List.length]. split; [lia|].
      intros s' Hne. rewrite requests_weightZ_cons.
      cbn [succeed rq_action service_weight].
      rewrite (proj2 (Nat.eqb_neq s' s) Hne), (H2 s' Hne). reflexivity.
    + destruct (pool_trigger_get s items rest) as [[i2 p2] r2] eqn:E2.
      injection H as <- <- <-. destruct (IH _ _ _ _ E2) as (H1 & H2).
      cbn [List.length]. split; [lia|exact H2].
Qed.

Ltac serve :=
  unfold vehicles_in_service, requests_weightZ; simpl; rewrite ?Nat.eqb_refl;
  repeat split; intros;
  repeat match goal with
    | H : ?a <> ?b |- context [(?a =? ?b)%nat] =>
        rewrite (proj2 (Nat.eqb_neq a b) H)
    end;
  simpl; rewrite ?length_app; simpl; try lia; try reflexivity.

Lemma segment_service_balance (now : Q) (a : Action) (s : nat)
    (seg : Station -> Outcome) (self : Station) :
  segment_of now a = Some (s, seg) ->
  (vehicles_in_service (o_station (seg self)) + service_weight s a
   = vehicles_in_service self
     + requests_weightZ (service_weight s) (o_requests (seg self)))%Z
  /\ (forall s', s' <> s ->
        requests_weightZ (service_weight s') (o_requests (seg self)) = 0%Z
        /\ service_weight s' a = 0%Z).
Proof.
  intro H.
  destruct a; simpl in H; try discriminate; injection H as <- <-.
  - (* InitLoop *)
    unfold _charging_loop_get, queue_trigger_get.
    destruct (charge_queue self); serve.
  - (* InitVeh *)
    unfold handle_vehicle_arrival. cbv zeta.
    match goal with |- context [(?c =? 0)%nat] => destruct (c =? 0)%nat end.
    + serve.
    + match goal with |- context [pool_trigger_get ?s ?i ?p] =>
        destruct (pool_trigger_get s i p) as [[items parked] rq] eqn:E end.
      apply pool_trigger_get_parked in E. destruct E as (E1 & E2).
      simpl in E1. rewrite length_app in E1. simpl in E1.
      unfold vehicles_in_service. simpl. split; [lia|].
      intros s' Hne. split; [apply E2, Hne|reflexivity].
  - (* QueueGot *)
    unfold _charging_loop_request, chargers_trigger_put.
    destruct (chargers_put_queue self ++ [battery]);
      [|destruct (_ <? _)%Z]; serve.
  - (* ChargerGranted *)
    unfold _charging_loop_granted, _charging_loop_charge. cbv zeta.
    destruct (0 <? _)%Z; serve.
  - (* CooldownOver *)
    unfold _charging_loop_charge. serve.
  - (* ChargeOver *)
    unfold _charging_loop_charged. cbv zeta. serve.
  - (* ChargerReleased *)
    unfold _on_charger_released, chargers_trigger_put.
    destruct (chargers_put_queue self); [|destruct (_ <? _)%Z]; serve.
  - (* PoolPut *)
    unfold _on_pool_put.
    destruct (pool_trigger_get s0 (battery_pool self) (pool_get_queue self))
      as [[items parked] rq] eqn:E.
    apply pool_trigger_get_parked in E. destruct E as (E1 & E2).
    destruct resume_loop.
    + unfold _charging_loop_get, queue_trigger_get. simpl.
      assert (Hnil : forall f, requests_weightZ f [] = 0%Z) by reflexivity.
      destruct (charge_queue self); unfold vehicles_in_service; simpl;
        rewrite ?app_nil_r, ?requests_weightZ_app, ?requests_weightZ_cons,
          ?Hnil; cbn [succeed rq_action service_weight];
        (split; [lia|]);
        intros s' Hne;
        rewrite ?requests_weightZ_app, ?requests_weightZ_cons, ?Hnil,
          ?(E2 s' Hne); cbn [succeed rq_action service_weight];
        (split; [try apply E2; try lia; try assumption|reflexivity]).
    + unfold vehicles_in_service. simpl. split; [lia|].
      intros s' Hne. split; [apply E2, Hne|reflexivity].
  - (* PoolGot *)
    unfold handle_vehicle_arrival_got. cbv zeta. serve.
  - (* SwapOver *)
    unfold handle_vehicle_arrival_swapped. cbv zeta. serve.
  - (* QueuePut *)
    unfold _on_queue_put, queue_trigger_get.
    destruct (queue_get_queue self), (charge_queue self), resume_handler;
      serve.
Qed.

Ltac stats_agree :=
  unfold charge_stats_agree; simpl; repeat split; try assumption; try lia.


Lemma segment_charge_stats (t : Q) (a : Action) (s : nat)
    (seg : Station -> Outcome) (self : Station) :
  segment_of t a = Some (s, seg) ->
  charge_stats_agree self -> charge_stats_agree (o_station (seg self)).
Proof.
  intros H (Hb & Hq).
  destruct self as [cfg orch st users putq pool parked q qparked cur act].
  destruct st as [n_swaps n_lost wait_sum wait_max charge_sum energy peak busy].
  simpl in Hb, Hq.
  destruct a; simpl in H; try discriminate; injection H as <- <-.
  - unfold _charging_loop_get, queue_trigger_get.
    destruct q; stats_agree.
  - unfold handle_vehicle_arrival, get_available_battery_count. cbv zeta.
    simpl.
    destruct (List.length (filter is_swappable pool) =? 0)%nat; simpl.
    + stats_agree.
    + destruct (pool_trigger_get s0 pool (parked ++ [(vehicle_id, t)]))
        as [[items parked'] rq].
      stats_agree.
  - unfold _charging_loop_request, chargers_trigger_put. simpl.
    destruct putq as [|b0 l]; simpl;
      destruct (Z.of_nat users <? charger_count cfg)%Z; stats_agree.
  - unfold _charging_loop_granted, _charging_loop_charge. cbv zeta. simpl.
    destruct (0 <? cooldown_seconds cfg)%Z; stats_agree.
  - unfold _charging_loop_charge. stats_agree.
  - unfold _charging_loop_charged. cbv zeta.
    unfold charge_stats_agree. simpl.
    split; [rewrite !Qred_correct, Hb; reflexivity|exact Hq].
  - unfold _on_charger_released, chargers_trigger_put. simpl.
    destruct putq as [|b0 l]; simpl;
      try destruct (Z.of_nat users <? charger_count cfg)%Z; stats_agree.
  - unfold _on_pool_put. simpl.
    destruct (pool_trigger_get s0 pool parked) as [[items parked'] rq].
    destruct resume_loop.
    + unfold _charging_loop_get, queue_trigger_get. simpl.
      destruct q; stats_agree.
    + stats_agree.
  - unfold handle_vehicle_arrival_got. cbv zeta. stats_agree.
  - unfold handle_vehicle_arrival_swapped. cbv zeta. stats_agree.
  - unfold _on_queue_put, queue_trigger_get. simpl.
    destruct qparked, q, resume_handler; stats_agree.
Qed.

Section Service.
Context {R : NumpyRandom}.

Lemma run_charge_stats (data : RealNetworkData) (entropy : nat -> string)
    (config0 : SimulationConfig) (o : Orchestrator) (w0 w : World) :
  new_Orchestrator data entropy config0 = Ok (o, w0) ->
  reachable o (start_run o w0) w -> failure w = None ->
  Forall charge_stats_agree (objs w).
Proof.
  intros Hn Hr. induction Hr as [|w w' Hr IH Hs]; intro F.
  - destruct (start_world data entropy config0 o w0 Hn F)
      as (_ & _ & Hb & _).
    eapply Forall_impl; [|exact Hb]. intros self B. rewrite B.
    unfold charge_stats_agree. simpl. split; [reflexivity|lia].
  - assert (Fw : failure w = None)
      by (unfold step in Hs; destruct (failure w); [discriminate|reflexivity]).
    specialize (IH Fw).
    pose proof (run_schedule data entropy config0 o w0 w Hn Hr Fw) as Hsched.
    assert (L : local_inv charge_stats_agree (fun _ => True) (fun _ => True) w').
    { eapply (local_inv_step o _ _ _ (horizon_of config0)); try eassumption.
      - intros t p a s seg self Seg _ Hself _.
        split; [exact (segment_charge_stats t a s seg self Seg Hself)|].
        split; apply Forall_forall; intros; exact I.
      - intros; exact I.
      - split; [exact IH|]. split; apply Forall_forall; intros; exact I. }
    exact (proj1 L).
Qed.

Lemma run_service_balance (data : RealNetworkData) (entropy : nat -> string)
    (config0 : SimulationConfig) (o : Orchestrator) (w0 w : World) :
  new_Orchestrator data entropy config0 = Ok (o, w0) ->
  reachable o (start_run o w0) w -> failure w = None ->
  balanced (fun self => (- vehicles_in_service self)%Z) service_weight
    (fun _ => 0%Z) w.
Proof.
  intros Hn Hr F.
  apply (reachable_invariant o _ (start_run o w0) w); try assumption.
  - intro F0.
    destruct (start_world data entropy config0 o w0 Hn F0)
      as (_ & _ & Hb & Hag & _).
    intros s self Hs.
    rewrite agenda_weight_zero.
    + pose proof (proj1 (Forall_forall _ _) Hb self (nth_error_In _ _ Hs)) as B.
      rewrite B. reflexivity.
    + eapply Forall_impl; [|exact Hag]. intros e He.
      apply startup_entry_action in He.
      destruct He as [(s' & _ & [E|[E|[E|E]]] & _)| ->];
        [rewrite E ..|]; reflexivity.
  - intros w1 w2. apply balanced_step.
    + intros t a s seg self Seg.
      destruct (segment_service_balance t a s seg self Seg) as (B1 & B2).
      split; [lia|exact B2].
    + intros t a s Hseg. destruct a; simpl in Hseg; try discriminate; reflexivity.
    + intros s s' r [(d & ->)|[(d & ->)|(v & ->)]]; reflexivity.
Qed.

End Service.

(** [current_queue_length] counts the vehicles in service.  At every
    instant of a run that raised nothing, the queue length of a station is
    the number of its vehicles that hold a battery, are in a swap, or have
    finished one that is not yet counted; it is never negative and never
    above [peak_queue_length]. *)
Theorem queue_length_counts_vehicles_in_service :
  forall {R : NumpyRandom} (data : RealNetworkData) (entropy : nat -> string)
         (config0 : SimulationConfig) (o : Orchestrator) (w0 w : World),
    new_Orchestrator data entropy config0 = Ok (o, w0) ->
    reachable o (start_run o w0) w ->
    failure w = None ->
    forall s self, nth_error (objs w) s = Some self ->
      current_queue_length self = agenda_weight (service_weight s) (agenda w)
      /\ (0 <= current_queue_length self <= peak_queue_length (stats self))%Z.
Proof.
  intros R data entropy config0 o w0 w Hn Hr F s self Hs.
  pose proof (run_service_balance data entropy config0 o w0 w Hn Hr F s self Hs)
    as B.
  destruct (run_sane data entropy config0 o w0 w Hn Hr F) as (Hsane & _).
  destruct (proj1 (Forall_forall _ _) Hsane self (nth_error_In _ _ Hs))
    as (_ & _ & Hpark & _).
  pose proof (run_charge_stats data entropy config0 o w0 w Hn Hr F) as Hst.
  destruct (proj1 (Forall_forall _ _) Hst self (nth_error_In _ _ Hs))
    as (_ & Hpeak).
  assert (Hw : (0 <= agenda_weight (service_weight s) (agenda w))%Z).
  { apply agenda_weight_nonneg. intro a. destruct a; simpl; try lia;
      try destruct resume_handler; try destruct (s =? _)%nat; lia. }
  unfold vehicles_in_service in B. rewrite Hpark in B. simpl in B.
  split; [lia|]. lia.
Qed.

Lemma queue_length_counts_vehicles_in_service_witness :
  exists (o : Orchestrator)
         (w0 w : World (R := ScriptedRandom early_arrival_script)),
    new_Orchestrator no_real_network entropy_a one_station_config = Ok (o, w0)
    /\ steps o 40 (start_run o w0) = Some w
    /\ forall s self, nth_error (objs w) s = Some self ->
         current_queue_length self = agenda_weight (service_weight s) (agenda w)
         /\ (0 <= current_queue_length self <= peak_queue_length (stats self))%Z.
Proof.
  eexists. eexists. eexists.
  split; [vm_compute; reflexivity|]. split; [vm_compute; reflexivity|].
  refine (queue_length_counts_vehicles_in_service
            (R := ScriptedRandom early_arrival_script)
            no_real_network entropy_a one_station_config _ _ _ _ _ _).
  - vm_compute. reflexivity.
  - apply (steps_reachable _ 40). vm_compute. reflexivity.
  - vm_compute. reflexivity.
Defined.





(** ** The chargers are used one at a time *)

Lemma count_actions_zero (f : Action -> nat) (l : list AgendaEntry) :
  count_actions f l = 0%nat -> Forall (fun e => f (snd e) = 0%nat) l.
Proof.
  unfold count_actions. induction l as [|e l IH]; simpl; intro H;
    [constructor|].
  constructor; [lia|apply IH; lia].
Qed.

Lemma count_actions_cons (f : Action -> nat) (e : AgendaEntry)
    (l : list AgendaEntry) :
  count_actions f (e :: l) = (f (snd e) + count_actions f l)%nat.
Proof. reflexivity. Qed.

Lemma charge_started_loop (s : nat) (a : Action) (t0 : Q) :
  charge_started s a = Some t0 -> loop_weight s a = 1%nat.
Proof.
  destruct a; simpl; try discriminate; destruct (s =? _)%nat;
    try discriminate; reflexivity.
Qed.

Lemma charge_started_station (s : nat) (a : Action) (t0 : Q) :
  charge_started s a = Some t0 -> action_station a = Some s.
Proof.
  destruct a; simpl; try discriminate;
    destruct (Nat.eqb_spec s s0) as [->|]; try discriminate; reflexivity.
Qed.

(** What one code segment does to the busy time, and which charges it
    starts or carries on. *)
Lemma segment_busy (t : Q) (a : Action) (s : nat)
    (seg : Station -> Outcome) (self : Station) :
  segment_of t a = Some (s, seg) ->
  match a with
  | ChargeOver _ _ t0 =>
      charger_busy_time (stats (o_station (seg self)))
      == charger_busy_time (stats self) + (t - t0)
  | _ => charger_busy_time (stats (o_station (seg self)))
         = charger_busy_time (stats self)
  end
  /\ Forall (fun r => forall t0', charge_started s (rq_action r) = Some t0' ->
                      match a with
                      | ChargerGranted _ _ => t0' = t
                      | CooldownOver _ _ t0 => t0' = t0
                      | _ => False
                      end)
       (o_requests (seg self)).
Proof.
  intro H.
  assert (Hpool : forall items parked,
            Forall (fun r => forall t0',
                      charge_started s (rq_action r) = Some t0' -> False)
              (snd (pool_trigger_get s items parked))).
  { intros items parked.
    destruct (pool_trigger_get s items parked) as [[i p] rq] eqn:E.
    apply pool_trigger_get_requests in E. simpl.
    eapply Forall_impl; [|exact E]. intros r (v & t1 & b0 & ->) t0' X.
    discriminate X. }
  destruct a; simpl in H; try discriminate; injection H as <- <-.
  - unfold _charging_loop_get, queue_trigger_get.
    destruct (charge_queue self); simpl; split; try reflexivity;
      repeat constructor; intros t0' X; discriminate X.
  - unfold handle_vehicle_arrival. cbv zeta.
    match goal with |- context [(?c =? 0)%nat] => destruct (c =? 0)%nat end.
    + simpl. split; [reflexivity|]. repeat constructor.
      intros t0' X; discriminate X.
    + match goal with |- context [pool_trigger_get ?s ?i ?p] =>
        pose proof (Hpool i p) as Hp;
        destruct (pool_trigger_get s i p) as [[items parked] rq] end.
      simpl. split; [reflexivity|exact Hp].
  - unfold _charging_loop_request, chargers_trigger_put.
    destruct (chargers_put_queue self ++ [battery]);
      [|destruct (_ <? _)%Z]; simpl; split; try reflexivity;
      repeat constructor; intros t0' X; discriminate X.
  - unfold _charging_loop_granted, _charging_loop_charge. cbv zeta.
    destruct (0 <? _)%Z; simpl; (split; [reflexivity|]);
      (constructor; [|constructor]); intros t0' X; simpl in X;
      rewrite Nat.eqb_refl in X; injection X as <-; reflexivity.
  - unfold _charging_loop_charge. simpl. split; [reflexivity|].
    constructor; [|constructor]. intros t0' X. simpl in X.
    rewrite Nat.eqb_refl in X. injection X as <-. reflexivity.
  - unfold _charging_loop_charged. cbv zeta. simpl.
    split; [rewrite !Qred_correct; reflexivity|].
    repeat constructor; intros t0' X; discriminate X.
  - unfold _on_charger_released, chargers_trigger_put.
    destruct (chargers_put_queue self); [|destruct (_ <? _)%Z]; simpl;
      split; try reflexivity; repeat constructor; intros t0' X; discriminate X.
  - unfold _on_pool_put.
    pose proof (Hpool (battery_pool self) (pool_get_queue self)) as Hp.
    destruct (pool_trigger_get s0 (battery_pool self) (pool_get_queue self))
      as [[items parked] rq].
    destruct resume_loop; [|simpl; split; [reflexivity|exact Hp]].
    unfold _charging_loop_get, queue_trigger_get. simpl.
    destruct (charge_queue self); simpl; (split; [reflexivity|]);
      apply Forall_app; split; try exact Hp; repeat constructor;
      intros t0' X; discriminate X.
  - unfold handle_vehicle_arrival_got. cbv zeta. simpl. split; [reflexivity|].
    constructor; [|constructor]. intros t0' X; discriminate X.
  - unfold handle_vehicle_arrival_swapped. cbv zeta. simpl.
    split; [reflexivity|]. repeat constructor. intros t0' X; discriminate X.
  - unfold _on_queue_put, queue_trigger_get.
    destruct (queue_get_queue self), (charge_queue self), resume_handler;
      simpl; split; try reflexivity; repeat constructor;
      intros t0' X; discriminate X.
Qed.

Section Busy.
Context {R : NumpyRandom}.

Lemma busy_before_step (horizon : Q) (cfgs : list StationConfig)
    (o : Orchestrator) (w w' : World) :
  schedule_inv horizon w -> loops_invariant cfgs w -> busy_before w ->
  step o w = Some w' -> failure w' = None -> busy_before w'.
Proof.
  intros Hsched (_ & Hloop & _) Hb Hs F.
  destruct (schedule_inv_step horizon o w w' Hsched Hs F) as (_ & Hmono & _).
  destruct (step_effects o w w' Hs F)
    as (t & p & a & rest & rqs & logs & Ag & Ha & Fw & Hn & He & Hp & Hd & Hcase).
  (* what is left of the agenda, and what is added to it *)
  assert (Hnew : forall s' (q : Q),
            Forall (fun e : AgendaEntry =>
                      forall t0, charge_started s' (snd e) = Some t0 -> q <= t0)
              rest ->
            Forall (fun r => forall t0, charge_started s' (rq_action r) = Some t0 ->
                                        q <= t0) rqs ->
            Forall (fun e : AgendaEntry =>
                      forall t0, charge_started s' (snd e) = Some t0 -> q <= t0)
              (agenda w')).
  { intros s' q Hrest Hrq.
    eapply Permutation_Forall; [apply Permutation_sym, Hp|].
    apply Forall_app. split; [exact Hrest|].
    apply Forall_forall. intros e Hin. apply in_map_iff in Hin.
    destruct Hin as (r & <- & Hr).
    exact (proj1 (Forall_forall _ _) Hrq r Hr). }
  assert (Hkeep : forall s' self', nth_error (objs w) s' = Some self' ->
            charger_busy_time (stats self') <= now w'
            /\ Forall (fun e : AgendaEntry =>
                         forall t0, charge_started s' (snd e) = Some t0 ->
                                    charger_busy_time (stats self') <= t0) rest).
  { intros s' self' Hs'. destruct (Hb s' self' Hs') as (B1 & B2).
    split; [lra|]. rewrite Ag in B2. exact (Forall_inv_tail B2). }
  assert (Hother : forall s s', s' <> s ->
            Forall (fun r => action_station (rq_action r) = Some s
                             \/ action_station (rq_action r) = None) rqs ->
            forall q : Q,
              Forall (fun r => forall t0,
                        charge_started s' (rq_action r) = Some t0 -> q <= t0)
                rqs).
  { intros s s' Hne Hst q. eapply Forall_impl; [|exact Hst].
    intros r Hr t0 X. apply charge_started_station in X.
    destruct Hr as [E|E]; rewrite E in X; congruence. }
  intros s' self' Hs'.
  destruct Hcase as [(s & seg & self & Seg & Ns & Ho & -> & ->)
                    |(Ho & -> & [(s & seg & Seg & Ns & ->)
                                |[(s & Hgen & Hrq)|(b & -> & ->)]])].
  - rewrite Ho in Hs'.
    assert (Hst : Forall (fun r => action_station (rq_action r) = Some s
                                   \/ action_station (rq_action r) = None)
                    (o_requests (seg self))).
    { eapply Forall_impl; [|apply (segment_requests_normal t a s seg self Seg)].
      intros r (_ & _ & X). exact X. }
    destruct (nth_error_list_set _ _ _ _ _ _ Ns Hs') as [(-> & ->)|(Hne & Hs'')].
    + (* the station the segment belongs to *)
      destruct (Hkeep s self Ns) as (K1 & K2).
      destruct (Hb s self Ns) as (_ & B2). rewrite Ag in B2.
      pose proof (Forall_inv B2) as Bhead. simpl in Bhead.
      destruct (segment_busy t a s seg self Seg) as (S1 & S2).
      destruct a; simpl in Seg; try discriminate;
        injection Seg as Es _; subst;
        try (rewrite S1; split; [exact K1|];
             apply Hnew; [exact K2|];
             eapply Forall_impl; [|exact S2]; intros r Hr t0 X;
             exfalso; exact (Hr t0 X)).
      * (* ChargerGranted *)
        rewrite S1. split; [exact K1|].
        apply Hnew; [exact K2|].
        eapply Forall_impl; [|exact S2]. intros r Hr t0 X.
        rewrite (Hr t0 X). exact K1.
      * (* CooldownOver *)
        rewrite S1. split; [exact K1|].
        apply Hnew; [exact K2|].
        eapply Forall_impl; [|exact S2]. intros r Hr t0 X.
        rewrite (Hr t0 X). apply Bhead. simpl. rewrite Nat.eqb_refl. reflexivity.
      * (* ChargeOver *)
        assert (B0 : charger_busy_time (stats self) <= charge_start).
        { apply Bhead. simpl. rewrite Nat.eqb_refl. reflexivity. }
        split; [rewrite S1; lra|].
        apply Hnew.
        -- (* no other charge of this station is pending *)
           destruct (Hloop s self Ns) as (T1 & _). rewrite Ag in T1.
           rewrite count_actions_cons in T1. cbn [snd loop_weight] in T1.
           rewrite Nat.eqb_refl in T1.
           assert (Z0 : count_actions (loop_weight s) rest = 0%nat) by lia.
           apply count_actions_zero in Z0.
           eapply Forall_impl; [|exact Z0]. intros e He0 t0 X.
           apply charge_started_loop in X. cbv beta in He0. lia.
        -- eapply Forall_impl; [|exact S2]. intros r Hr t0 X.
           destruct (Hr t0 X).
    + (* another station *)
      destruct (Hkeep s' self' Hs'') as (K1 & K2).
      split; [exact K1|]. apply Hnew; [exact K2|].
      apply (Hother s s' Hne Hst).
  - rewrite Ho in Hs'. destruct (Hkeep s' self' Hs') as (K1 & K2).
    split; [exact K1|]. apply Hnew; [exact K2|constructor].
  - rewrite Ho in Hs'. destruct (Hkeep s' self' Hs') as (K1 & K2).
    split; [exact K1|]. apply Hnew; [exact K2|].
    eapply Forall_impl; [|exact Hrq].
    intros r [(d & ->)|[(d & ->)|(v & ->)]] t0 X; discriminate X.
  - rewrite Ho in Hs'. destruct (Hkeep s' self' Hs') as (K1 & K2).
    split; [exact K1|]. apply Hnew; [exact K2|constructor].
Qed.

Lemma run_busy (data : RealNetworkData) (entropy : nat -> string)
    (config0 : SimulationConfig) (o : Orchestrator) (w0 w : World) :
  new_Orchestrator data entropy config0 = Ok (o, w0) ->
  reachable o (start_run o w0) w -> failure w = None ->
  busy_before w.
Proof.
  intros Hn Hr. induction Hr as [|w w' Hr IH Hs]; intro F.
  - destruct (start_world data entropy config0 o w0 Hn F)
      as (Nw & _ & Hb & Hag & _).
    intros s self Hs.
    pose proof (proj1 (Forall_forall _ _) Hb self (nth_error_In _ _ Hs)) as B.
    rewrite B, Nw. simpl. split; [apply Qle_refl|].
    eapply Forall_impl; [|exact Hag]. intros e He t0 X.
    apply startup_entry_action in He.
    destruct He as [(s' & _ & [E|[E|[E|E]]] & _)| E];
      [rewrite E in X ..|rewrite E in X]; discriminate X.
  - assert (Fw : failure w = None)
      by (unfold step in Hs; destruct (failure w); [discriminate|reflexivity]).
    pose proof (run_schedule data entropy config0 o w0 w Hn Hr Fw) as Hsched.
    assert (Loop : loops_invariant (map config (objs w0)) w).
    { apply (reachable_invariant o _ (start_run o w0) w); try assumption.
      - apply (loops_invariant_start data entropy config0); assumption.
      - intros w1 w2. apply loops_invariant_step. }
    exact (busy_before_step _ _ o w w' Hsched Loop (IH Fw) Hs F).
Qed.

End Busy.

(** The chargers of a station are used one at a time.  At every instant of
    a run that raised nothing, [charger_busy_time] is at most the time
    elapsed, which is at most the duration of the run; so the utilization
    the aggregation computes, the busy time over the duration times
    [charger_count], is at most one in [charger_count], however many
    chargers the station has. *)
Theorem charger_utilization_at_most_one_charger :
  forall {R : NumpyRandom} (data : RealNetworkData) (entropy : nat -> string)
         (config0 : SimulationConfig) (o : Orchestrator) (w0 w : World),
    new_Orchestrator data entropy config0 = Ok (o, w0) ->
    reachable o (start_run o w0) w ->
    failure w = None ->
    forall s self, nth_error (objs w) s = Some self ->
      charger_busy_time (stats self) <= now w
      /\ now w <= horizon_of config0
      /\ charger_busy_time (stats self)
         / inject_Z (duration_days config0 * 24 * 3600
                     * charger_count (config self))
         <= 1 / inject_Z (charger_count (config self)).
Proof.
  intros R data entropy config0 o w0 w Hn Hr F s self Hs.
  destruct (run_busy data entropy config0 o w0 w Hn Hr F s self Hs) as (B & _).
  destruct (run_schedule data entropy config0 o w0 w Hn Hr F)
    as (_ & _ & _ & _ & _ & Hh & _).
  split; [exact B|]. split; [exact Hh|].
  pose proof (reachable_start_ok o _ _ Hr F) as F0.
  destruct (start_world data entropy config0 o w0 Hn F0)
    as (_ & _ & _ & _ & _ & _ & _ & Hpos & Hcc & _).
  destruct (start_run_spec o w0 F0) as (_ & _ & Ob & _).
  rewrite Ob, <- (run_configs data entropy config0 o w0 w Hn Hr F) in Hcc.
  assert (Hone : (1 <= charger_count (config self))%Z)
    by (apply (proj1 (Forall_forall _ _) Hcc), in_map, (nth_error_In _ _ Hs)).
  unfold horizon_of in *.
  set (H := (duration_days config0 * 24 * 3600)%Z) in *.
  set (cc := charger_count (config self)) in *.
  assert (Hc : 0 < inject_Z cc) by (apply inject_Z_pos; lia).
  assert (Hprod : 0 < inject_Z (H * cc)).
  { rewrite inject_Z_mult. apply Qmult_lt_0_compat; assumption. }
  apply Qle_shift_div_r; [exact Hprod|].
  rewrite inject_Z_mult.
  assert (E : 1 / inject_Z cc * (inject_Z H * inject_Z cc) == inject_Z H).
  { field. intro X. rewrite X in Hc. apply (Qlt_irrefl 0). exact Hc. }
  rewrite E. lra.
Qed.

Lemma charger_utilization_at_most_one_charger_witness :
  exists (o : Orchestrator)
         (w0 w : World (R := ScriptedRandom early_arrival_script)),
    new_Orchestrator no_real_network entropy_a one_station_config = Ok (o, w0)
    /\ steps o 50 (start_run o w0) = Some w
    /\ forall s self, nth_error (objs w) s = Some self ->
         charger_busy_time (stats self) <= now w
         /\ now w <= horizon_of one_station_config
         /\ charger_busy_time (stats self)
            / inject_Z (duration_days one_station_config * 24 * 3600
                        * charger_count (config self))
            <= 1 / inject_Z (charger_count (config self)).
Proof.
  eexists. eexists. eexists.
  split; [vm_compute; reflexivity|]. split; [vm_compute; reflexivity|].
  refine (charger_utilization_at_most_one_charger
            (R := ScriptedRandom early_arrival_script)
            no_real_network entropy_a one_station_config _ _ _ _ _ _).
  - vm_compute. reflexivity.
  - apply (steps_reachable _ 50). vm_compute. reflexivity.
  - vm_compute. reflexivity.
Defined.

(** ** Comparison of two results *)

Lemma py_round2_close (x : Q) :
  x - (1 # 200) <= py_round2 x /\ py_round2 x <= x + (1 # 200).
Proof.
  unfold py_round2. cbv zeta.
  set (y := x * 100). set (f := Qfloor y).
  assert (Hlo : inject_Z f <= y) by apply Qfloor_le.
  assert (Hhi : y < inject_Z (f + 1)) by apply Qlt_floor.
  rewrite inject_Z_plus in Hhi. change (inject_Z 1) with 1 in Hhi.
  assert (Hn : forall n : Z,
            y - (1 # 2) <= inject_Z n -> inject_Z n <= y + (1 # 2) ->
            x - (1 # 200) <= inject_Z n / 100
            /\ inject_Z n / 100 <= x + (1 # 200)).
  { intros n H1 H2. unfold y in H1, H2. unfold Qdiv.
    change (/ 100) with (1 # 100). split; lra. }
  destruct (Qltb (y - inject_Z f) (1 # 2)) eqn:E1.
  - apply Qltb_lt in E1. apply Hn; lra.
  - apply Qltb_ge in E1.
    destruct (Qltb (1 # 2) (y - inject_Z f)) eqn:E2.
    + apply Qltb_lt in E2. apply Hn; rewrite inject_Z_plus;
        change (inject_Z 1) with 1; lra.
    + apply Qltb_ge in E2. destruct (Z.even f).
      * apply Hn; lra.
      * apply Hn; rewrite inject_Z_plus; change (inject_Z 1) with 1; lra.
Qed.

Lemma py_round2_sign (x : Q) :
  (0 <= x -> 0 <= py_round2 x) /\ (x <= 0 -> py_round2 x <= 0).
Proof.
  unfold py_round2. cbv zeta.
  set (y := x * 100). set (f := Qfloor y).
  assert (Hlo : inject_Z f <= y) by apply Qfloor_le.
  assert (Hhi : y < inject_Z (f + 1)) by apply Qlt_floor.
  assert (Hdiv : forall n : Z, (0 <= n)%Z -> 0 <= inject_Z n / 100).
  { intros n H. unfold Qdiv. apply Qmult_le_0_compat; [|discriminate].
    apply inject_Z_nonneg, H. }
  assert (Hdiv' : forall n : Z, (n <= 0)%Z -> inject_Z n / 100 <= 0).
  { intros n H. unfold Qdiv. change (/ 100) with (1 # 100).
    assert (inject_Z n <= 0) by (change 0 with (inject_Z 0); rewrite <- Zle_Qle; exact H).
    lra. }
  split; intro Hx.
  - assert (Hf : (0 <= f)%Z).
    { assert (H0 : 0 < inject_Z (f + 1)) by (unfold y in Hhi; lra).
      change 0 with (inject_Z 0) in H0. rewrite <- Zlt_Qlt in H0. lia. }
    destruct (Qltb _ (1 # 2)); [apply Hdiv; lia|].
    destruct (Qltb (1 # 2) _); [apply Hdiv; lia|].
    destruct (Z.even f); apply Hdiv; lia.
  - assert (Hf : (f <= 0)%Z).
    { assert (H0 : inject_Z f <= 0) by (unfold y in Hlo; lra).
      change 0 with (inject_Z 0) in H0. rewrite <- Zle_Qle in H0. exact H0. }
    destruct (Qltb (y - inject_Z f) (1 # 2)) eqn:E1; [apply Hdiv'; lia|].
    apply Qltb_ge in E1.
    assert (Hneg : (f <= -1)%Z).
    { destruct (Z.eq_dec f 0) as [E|E]; [|lia].
      rewrite E in E1. change (inject_Z 0) with 0 in E1. unfold y in E1. lra. }
    destruct (Qltb (1 # 2) _); [apply Hdiv'; lia|].
    destruct (Z.even f); apply Hdiv'; lia.
Qed.

Lemma percent_change_sign (b s : Q) :
  (b <= s -> 0 <= percent_change b s) /\ (s <= b -> percent_change b s <= 0)
  /\ (b <= 0 -> percent_change b s = 0).
Proof.
  unfold percent_change. destruct (Qltb 0 b) eqn:E.
  - apply Qltb_lt in E.
    assert (Hi : 0 < / b) by (apply Qinv_lt_0_compat, E).
    split; [|split].
    + intro H. unfold Qdiv. apply Qmult_le_0_compat; [|discriminate].
      apply Qmult_le_0_compat; lra.
    + intro H. unfold Qdiv.
      assert (0 <= (b - s) * / b) by (apply Qmult_le_0_compat; lra).
      lra.
    + intro H. lra.
  - split; [intros _; apply Qle_refl|]. split; [intros _; apply Qle_refl|].
    reflexivity.
Qed.

(** [compare_results] reports each relative change to the nearest
    hundredth of a percent, with the sign of the change.  For the waiting
    time, the throughput and the utilization: the delta is within 0.005 of
    the percentage by which the scenario exceeds the baseline, it is not
    negative when the scenario is not below the baseline and not positive
    when it is not above, and it is 0 when the baseline is not positive
    (nothing is divided then).  The two other deltas are plain
    differences, so that a result compared with itself gives no change. *)
Theorem comparison_reports_rounded_changes :
  forall (baseline scenario : SimulationResult),
    reports_change (city_avg_wait_time baseline) (city_avg_wait_time scenario)
      (wait_time_delta_pct (compare_results baseline scenario))
    /\ reports_change (city_throughput_per_hour baseline)
         (city_throughput_per_hour scenario)
         (throughput_delta_pct (compare_results baseline scenario))
    /\ reports_change (avg_charger_utilization baseline)
         (avg_charger_utilization scenario)
         (utilization_delta_pct (compare_results baseline scenario))
    /\ (lost_swaps_delta (compare_results baseline scenario)
        + city_lost_swaps baseline
        = city_lost_swaps scenario)%Z
    /\ opex_delta (compare_results baseline scenario)
       + estimated_opex_cost baseline
       == estimated_opex_cost scenario.
Proof.
  intros baseline scenario.
  assert (G : forall b s : Q, reports_change b s (py_round2 (percent_change b s))).
  { intros b s. unfold reports_change.
    destruct (py_round2_close (percent_change b s)) as (C1 & C2).
    destruct (py_round2_sign (percent_change b s)) as (S1 & S2).
    destruct (percent_change_sign b s) as (P1 & P2 & P3).
    split; [exact C1|]. split; [exact C2|].
    split; [intro H; apply S1, P1, H|].
    split; [intro H; apply S2, P2, H|].
    intro H. rewrite (P3 H). reflexivity. }
  unfold compare_results. simpl.
  split; [apply G|]. split; [apply G|]. split; [apply G|].
  split; [lia|ring].
Qed.
